(** * Task-management API: session integrity, group membership and the task
      life cycle

    A shallow embedding of the service layer of the API
    ([services/auth.service.ts], [services/group.service.ts],
    [services/task.service.ts], with the helpers of [lib/jwt.ts] and
    [lib/crypto.ts], the guards of [middleware/auth.ts], the error handler
    of [lib/error-handler.ts] and four handlers of [routes/auth.routes.ts]).

    The persistence layer is a record of tables (lists of rows, in insertion
    order).  A service function is a computation in the [Promise] monad
    below: it threads the database and either resolves with a value or
    rejects with a service error.  A rejection does not undo the writes made
    before it; only [transaction] does.  The constraints of the schema that
    a call of the services can violate are part of the tables: the unique
    digests of the one-time tokens and the creator of a group.  The clock is
    an argument [now] of every function that reads it.  In [serve] and
    [reachable] requests are served one after the other; [overlap] runs two
    requests that are in flight together. *)

From Stdlib Require Import ZArith List Bool String Ascii Lia Arith PeanoNat.
From Stdlib Require Import Permutation Sorted.
Import ListNotations.

Local Open Scope string_scope.
Local Open Scope Z_scope.
Local Open Scope list_scope.

(* ================================================================== *)
(** ** Domain enumerations ([packages/types/src/index.ts]) *)
(* ================================================================== *)

Inductive UserStatus := UNVERIFIED | ACTIVE | SUSPENDED.
Inductive TaskStatus := PENDING_ACCEPTANCE | OPEN | IN_PROGRESS | COMPLETED | CLOSED.
Inductive GroupRole := ADMIN | MEMBER.

Definition UserStatus_eqb (a b : UserStatus) : bool :=
  match a, b with
  | UNVERIFIED, UNVERIFIED | ACTIVE, ACTIVE | SUSPENDED, SUSPENDED => true
  | _, _ => false
  end.

Definition TaskStatus_eqb (a b : TaskStatus) : bool :=
  match a, b with
  | PENDING_ACCEPTANCE, PENDING_ACCEPTANCE | OPEN, OPEN
  | IN_PROGRESS, IN_PROGRESS | COMPLETED, COMPLETED | CLOSED, CLOSED => true
  | _, _ => false
  end.

Definition GroupRole_eqb (a b : GroupRole) : bool :=
  match a, b with
  | ADMIN, ADMIN | MEMBER, MEMBER => true
  | _, _ => false
  end.

Definition TaskStatus_name (s : TaskStatus) : string :=
  match s with
  | PENDING_ACCEPTANCE => "PENDING_ACCEPTANCE"
  | OPEN => "OPEN"
  | IN_PROGRESS => "IN_PROGRESS"
  | COMPLETED => "COMPLETED"
  | CLOSED => "CLOSED"
  end.

(** Identifiers are UUIDs; only their identity matters, so they are natural
    numbers drawn from a counter kept with the database.  Times are
    milliseconds since the epoch, as [Date.now()] gives them. *)
Definition Uuid := nat.
Definition Time := Z.

(* ================================================================== *)
(** ** Service errors *)
(* ================================================================== *)

(** [AuthError], [GroupError] and [TaskError] are three classes with the same
    fields; [PrismaError] stands for the rejection of the persistence client
    itself (record to update or delete not found, unique index or foreign key
    violated). *)
Inductive ErrorClass := AuthError | GroupError | TaskError | PrismaError.

Record ServiceError := mkError {
  err_class : ErrorClass;
  code : string;
  message : string;
  statusCode : Z
}.

(* ================================================================== *)
(** ** Tokens ([lib/jwt.ts], [lib/crypto.ts]) *)
(* ================================================================== *)

Record AccessTokenPayload := mkAccessPayload {
  acc_sub : Uuid;
  acc_email : string;
  acc_status : UserStatus;
  acc_iat : Z;
  acc_exp : Z
}.

Record RefreshTokenClaims := mkClaims {
  sub : Uuid;
  tokenId : Uuid;
  family : Uuid;
  iat : Z;
  exp : Z
}.

(** The strings that travel as tokens.  A signed refresh token is the pair of
    its claims and of the key its HMAC was computed with: the tag verifies
    under that key and under no other.  An opaque token is the hexadecimal
    rendering of random bytes. *)
Inductive RawToken :=
| JwtString (key : string) (claims : RefreshTokenClaims)
| HexString (bytes : nat).

(** A stored digest.  [hashToken] is SHA-256, taken to be free of collisions:
    the digest of a string is the term [Sha256Hex] of that string, so that
    equal digests have equal preimages.  [EmptyHash] is the empty string that
    [createTokenPair] writes as a placeholder; it is the digest of nothing. *)
Inductive TokenHash :=
| EmptyHash
| Sha256Hex (preimage : RawToken).

Definition hashToken (token : RawToken) : TokenHash := Sha256Hex token.

Definition RefreshTokenClaims_eq_dec (a b : RefreshTokenClaims) : {a = b} + {a <> b}.
Proof.
  decide equality; try apply Z.eq_dec; apply Nat.eq_dec.
Defined.

Definition RawToken_eq_dec (a b : RawToken) : {a = b} + {a <> b}.
Proof.
  decide equality.
  - apply RefreshTokenClaims_eq_dec.
  - apply string_dec.
  - apply Nat.eq_dec.
Defined.

Definition TokenHash_eq_dec (a b : TokenHash) : {a = b} + {a <> b}.
Proof.
  decide equality. apply RawToken_eq_dec.
Defined.

Definition TokenHash_eqb (a b : TokenHash) : bool :=
  if TokenHash_eq_dec a b then true else false.

(** [generateOpaqueToken]: the raw token goes to the user, its digest to the
    database.  The random bytes are an input of the model. *)
Definition generateOpaqueToken (randomBytes : nat) : RawToken * TokenHash :=
  let raw := HexString randomBytes in
  let hash := hashToken raw in
  (raw, hash).

(** [verifyTokenHash]: comparison of the digest of [rawToken] with a stored
    one (the constant-time comparison of the source decides equality). *)
Definition verifyTokenHash (rawToken : RawToken) (storedHash : TokenHash) : bool :=
  TokenHash_eqb (hashToken rawToken) storedHash.

(* ================================================================== *)
(** ** Configuration ([config/env.ts]) *)
(* ================================================================== *)

Record EnvConfig := mkConfig {
  NODE_ENV : string;
  JWT_ACCESS_SECRET : string;
  JWT_REFRESH_SECRET : string;
  JWT_ACCESS_EXPIRY_SECONDS : Z;
  JWT_REFRESH_EXPIRY_SECONDS : Z;
  ENABLE_EMAIL : bool;
  ENABLE_GOOGLE_OAUTH : bool;
  ENABLE_ASSIGNMENTS : bool;
  ENABLE_PASSWORD_RESET : bool
}.

(* ================================================================== *)
(** ** Tables ([prisma/migrations/.../migration.sql]) *)
(* ================================================================== *)

Record User := mkUser {
  user_id : Uuid;
  email : string;
  passwordHash : option string;
  name : string;
  status : UserStatus;
  user_createdAt : Time;
  user_deletedAt : option Time
}.

Record RefreshToken := mkRefreshToken {
  rt_id : Uuid;
  rt_tokenHash : TokenHash;
  rt_userId : Uuid;
  rt_family : Uuid;
  revoked : bool;
  rt_expiresAt : Time;
  rt_createdAt : Time
}.

(** The row type of both [verification_tokens] and [password_reset_tokens]. *)
Record OneTimeToken := mkOneTimeToken {
  ot_id : Uuid;
  ot_tokenHash : TokenHash;
  ot_userId : Uuid;
  ot_expiresAt : Time
}.

Record GroupMember := mkGroupMember {
  gm_userId : Uuid;
  gm_groupId : Uuid;
  role : GroupRole
}.

Record Task := mkTask {
  task_id : Uuid;
  title : string;
  description : option string;
  task_status : TaskStatus;
  groupId : Uuid;
  createdById : Uuid;
  assigneeId : option Uuid;
  acceptedAt : option Time;
  task_createdAt : Time;
  updatedAt : Time;
  deletedAt : option Time
}.

(** A job handed to the e-mail queue by [enqueueEmail]. *)
Record EmailJob := mkEmailJob {
  job_type : string;
  job_recipient : string;
  job_token : option RawToken
}.

(** The database, with two pieces of bookkeeping: [nextUuid], the supply of
    fresh identifiers ([randomUUID] and the [uuid()] defaults of the schema),
    and [verifyPasswordCalls], which counts the calls of [verifyPassword]. *)
Record Db := mkDb {
  users : list User;
  refresh_tokens : list RefreshToken;
  verification_tokens : list OneTimeToken;
  password_reset_tokens : list OneTimeToken;
  group_members : list GroupMember;
  tasks : list Task;
  emailQueue : list EmailJob;
  nextUuid : nat;
  verifyPasswordCalls : nat
}.

Definition emptyDb : Db := mkDb [] [] [] [] [] [] [] 0 0.

Definition set_users (f : list User -> list User) (db : Db) : Db :=
  mkDb (f (users db)) (refresh_tokens db) (verification_tokens db)
       (password_reset_tokens db) (group_members db) (tasks db) (emailQueue db)
       (nextUuid db) (verifyPasswordCalls db).

Definition set_refresh_tokens (f : list RefreshToken -> list RefreshToken) (db : Db) : Db :=
  mkDb (users db) (f (refresh_tokens db)) (verification_tokens db)
       (password_reset_tokens db) (group_members db) (tasks db) (emailQueue db)
       (nextUuid db) (verifyPasswordCalls db).

Definition set_verification_tokens (f : list OneTimeToken -> list OneTimeToken) (db : Db) : Db :=
  mkDb (users db) (refresh_tokens db) (f (verification_tokens db))
       (password_reset_tokens db) (group_members db) (tasks db) (emailQueue db)
       (nextUuid db) (verifyPasswordCalls db).

Definition set_password_reset_tokens (f : list OneTimeToken -> list OneTimeToken) (db : Db) : Db :=
  mkDb (users db) (refresh_tokens db) (verification_tokens db)
       (f (password_reset_tokens db)) (group_members db) (tasks db) (emailQueue db)
       (nextUuid db) (verifyPasswordCalls db).

Definition set_group_members (f : list GroupMember -> list GroupMember) (db : Db) : Db :=
  mkDb (users db) (refresh_tokens db) (verification_tokens db)
       (password_reset_tokens db) (f (group_members db)) (tasks db) (emailQueue db)
       (nextUuid db) (verifyPasswordCalls db).

Definition set_tasks (f : list Task -> list Task) (db : Db) : Db :=
  mkDb (users db) (refresh_tokens db) (verification_tokens db)
       (password_reset_tokens db) (group_members db) (f (tasks db)) (emailQueue db)
       (nextUuid db) (verifyPasswordCalls db).

Definition set_emailQueue (f : list EmailJob -> list EmailJob) (db : Db) : Db :=
  mkDb (users db) (refresh_tokens db) (verification_tokens db)
       (password_reset_tokens db) (group_members db) (tasks db) (f (emailQueue db))
       (nextUuid db) (verifyPasswordCalls db).

Definition set_nextUuid (f : nat -> nat) (db : Db) : Db :=
  mkDb (users db) (refresh_tokens db) (verification_tokens db)
       (password_reset_tokens db) (group_members db) (tasks db) (emailQueue db)
       (f (nextUuid db)) (verifyPasswordCalls db).

Definition set_verifyPasswordCalls (f : nat -> nat) (db : Db) : Db :=
  mkDb (users db) (refresh_tokens db) (verification_tokens db)
       (password_reset_tokens db) (group_members db) (tasks db) (emailQueue db)
       (nextUuid db) (f (verifyPasswordCalls db)).

(* ================================================================== *)
(** ** The [Promise] monad *)
(* ================================================================== *)

Definition Result (A : Type) : Type := (ServiceError + A)%type.

Definition Promise (A : Type) : Type := Db -> Db * Result A.

Definition resolve {A} (a : A) : Promise A := fun db => (db, inr a).

Definition throw {A} (e : ServiceError) : Promise A := fun db => (db, inl e).

Definition await {A B} (m : Promise A) (k : A -> Promise B) : Promise B :=
  fun db =>
    match m db with
    | (db', inl e) => (db', inl e)
    | (db', inr a) => k a db'
    end.

Notation "x <- m ;; k" := (await m (fun x => k))
  (at level 61, m at next level, right associativity).
Notation "m ;;; k" := (await m (fun _ => k))
  (at level 61, right associativity).

Definition query {A} (f : Db -> A) : Promise A := fun db => (db, inr (f db)).

Definition write (f : Db -> Db) : Promise unit := fun db => (f db, inr tt).

(** [prisma.$transaction]: the writes of [m] are kept when it resolves and
    discarded when it rejects. *)
Definition transaction {A} (m : Promise A) : Promise A :=
  fun db =>
    match m db with
    | (_, inl e) => (db, inl e)
    | (db', inr a) => (db', inr a)
    end.

(** A fresh identifier. *)
Definition randomUUID : Promise Uuid :=
  fun db => (set_nextUuid S db, inr (nextUuid db)).

(** Generic table operations, as the Prisma client offers them. *)
Definition updateMany {A} (where_ : A -> bool) (data : A -> A) (rows : list A) : list A :=
  map (fun r => if where_ r then data r else r) rows.

Definition deleteMany {A} (where_ : A -> bool) (rows : list A) : list A :=
  filter (fun r => negb (where_ r)) rows.

(** [delete] on a unique key removes the one row that has it. *)
Fixpoint deleteUnique {A} (where_ : A -> bool) (rows : list A) : list A :=
  match rows with
  | [] => []
  | r :: rest => if where_ r then rest else r :: deleteUnique where_ rest
  end.

Definition recordNotFound : ServiceError :=
  mkError PrismaError "P2025" "Record to update or delete does not exist" 500.

(** The rejections of a [create] that the schema refuses: the value of a
    unique column is stored already, or a foreign key names no row. *)
Definition uniqueConstraintFailed : ServiceError :=
  mkError PrismaError "P2002" "Unique constraint failed" 500.

Definition foreignKeyFailed : ServiceError :=
  mkError PrismaError "P2003" "Foreign key constraint failed" 500.

Fixpoint updateUnique {A} (where_ : A -> bool) (data : A -> A) (rows : list A) : list A :=
  match rows with
  | [] => []
  | r :: rest =>
      if where_ r then data r :: rest else r :: updateUnique where_ data rest
  end.

(** Row updates. *)
Definition with_revoked (b : bool) (r : RefreshToken) : RefreshToken :=
  mkRefreshToken (rt_id r) (rt_tokenHash r) (rt_userId r) (rt_family r) b
                 (rt_expiresAt r) (rt_createdAt r).

Definition with_tokenHash (h : TokenHash) (r : RefreshToken) : RefreshToken :=
  mkRefreshToken (rt_id r) h (rt_userId r) (rt_family r) (revoked r)
                 (rt_expiresAt r) (rt_createdAt r).

Definition with_status (s : UserStatus) (u : User) : User :=
  mkUser (user_id u) (email u) (passwordHash u) (name u) s
         (user_createdAt u) (user_deletedAt u).

Definition with_passwordHash (h : option string) (u : User) : User :=
  mkUser (user_id u) (email u) h (name u) (status u)
         (user_createdAt u) (user_deletedAt u).

(** [prisma.refreshToken.update({ where: { id }, data })]. *)
Definition refreshToken_update (id : Uuid) (data : RefreshToken -> RefreshToken)
  : Promise unit :=
  fun db =>
    if existsb (fun r => Nat.eqb (rt_id r) id) (refresh_tokens db)
    then (set_refresh_tokens (updateUnique (fun r => Nat.eqb (rt_id r) id) data) db, inr tt)
    else (db, inl recordNotFound).

(** [prisma.refreshToken.updateMany({ where: { family }, data: { revoked: true } })]. *)
Definition refreshToken_revokeFamily (fam : Uuid) : Promise unit :=
  write (set_refresh_tokens
           (updateMany (fun r => Nat.eqb (rt_family r) fam) (with_revoked true))).

(** [prisma.user.update({ where: { id }, data })]. *)
Definition user_update (id : Uuid) (data : User -> User) : Promise unit :=
  fun db =>
    if existsb (fun u => Nat.eqb (user_id u) id) (users db)
    then (set_users (updateUnique (fun u => Nat.eqb (user_id u) id) data) db, inr tt)
    else (db, inl recordNotFound).

(** [delete({ where: { id } })] on one of the two one-time-token tables. *)
Definition oneTimeToken_delete
  (table : Db -> list OneTimeToken)
  (set_table : (list OneTimeToken -> list OneTimeToken) -> Db -> Db)
  (id : Uuid) : Promise unit :=
  fun db =>
    if existsb (fun t => Nat.eqb (ot_id t) id) (table db)
    then (set_table (deleteUnique (fun t => Nat.eqb (ot_id t) id)) db, inr tt)
    else (db, inl recordNotFound).

(** [create] on one of the two one-time-token tables.  The column
    [tokenHash] is unique in both (the indexes
    [verification_tokens_tokenHash_key] and
    [password_reset_tokens_tokenHash_key]): a digest that is stored already
    is refused, and nothing is written. *)
Definition oneTimeToken_create
  (table : Db -> list OneTimeToken)
  (set_table : (list OneTimeToken -> list OneTimeToken) -> Db -> Db)
  (hash : TokenHash) (userId : Uuid) (expiresAt : Time) : Promise unit :=
  fun db =>
    if existsb (fun t => TokenHash_eqb (ot_tokenHash t) hash) (table db)
    then (db, inl uniqueConstraintFailed)
    else
      let row := mkOneTimeToken (nextUuid db) hash userId expiresAt in
      (set_nextUuid S (set_table (fun rows => rows ++ [row]) db), inr tt).

(** [prisma.refreshToken.create({ data })]: the row gets a fresh [id]. *)
Definition refreshToken_create (data : Uuid -> RefreshToken) : Promise RefreshToken :=
  fun db =>
    let row := data (nextUuid db) in
    (set_nextUuid S (set_refresh_tokens (fun rows => rows ++ [row]) db), inr row).

(** [prisma.user.create({ data })]. *)
Definition user_create (data : Uuid -> User) : Promise User :=
  fun db =>
    let row := data (nextUuid db) in
    (set_nextUuid S (set_users (fun rows => rows ++ [row]) db), inr row).

(* ================================================================== *)
(** ** JSON Web Tokens ([lib/jwt.ts]) *)
(* ================================================================== *)

(** The clock of the [jsonwebtoken] library counts whole seconds. *)
Definition clockTimestamp (now : Time) : Z := now / 1000.

Record AccessToken := mkAccessToken {
  access_key : string;
  access_payload : AccessTokenPayload
}.

Definition signAccessToken (config : EnvConfig)
  (userId : Uuid) (email_ : string) (status_ : UserStatus) (now : Time) : AccessToken :=
  let t := clockTimestamp now in
  mkAccessToken (JWT_ACCESS_SECRET config)
    (mkAccessPayload userId email_ status_ t (t + JWT_ACCESS_EXPIRY_SECONDS config)).

Definition verifyAccessToken (config : EnvConfig) (token : AccessToken) (now : Time)
  : option AccessTokenPayload :=
  if String.eqb (access_key token) (JWT_ACCESS_SECRET config)
     && (clockTimestamp now <? acc_exp (access_payload token))
  then Some (access_payload token) else None.

Definition signRefreshToken (config : EnvConfig)
  (userId tokenId_ family_ : Uuid) (now : Time) : RawToken :=
  let t := clockTimestamp now in
  JwtString (JWT_REFRESH_SECRET config)
    (mkClaims userId tokenId_ family_ t (t + JWT_REFRESH_EXPIRY_SECONDS config)).

(** [jwt.verify] throws on a string that is no token, on a tag computed with
    another key and on a token whose [exp] is reached; [None] is that
    exception. *)
Definition verifyRefreshToken (config : EnvConfig) (token : RawToken) (now : Time)
  : option RefreshTokenClaims :=
  match token with
  | JwtString key claims =>
      if String.eqb key (JWT_REFRESH_SECRET config)
         && (clockTimestamp now <? exp claims)
      then Some claims else None
  | HexString _ => None
  end.

(** The environment of the services: the configuration and the two functions
    of [lib/password.ts], which are taken as given. *)
Record Env := mkEnv {
  config : EnvConfig;
  hashPassword : string -> string;
  verifyPassword : string -> string -> bool
}.

Record AuthTokens := mkAuthTokens {
  accessToken : AccessToken;
  refreshToken : RawToken
}.

Record UserProfile := mkUserProfile {
  profile_id : Uuid;
  profile_email : string;
  profile_name : string;
  profile_status : UserStatus;
  profile_createdAt : Time
}.

Record LoginResult := mkLoginResult {
  login_tokens : AuthTokens;
  login_user : UserProfile
}.

(** The fields of the new account that [registerUser] selects. *)
Record RegisteredUser := mkRegisteredUser {
  registered_id : Uuid;
  registered_email : string;
  registered_name : string;
  registered_status : UserStatus
}.

Record RegisterResult := mkRegisterResult {
  registered_user : RegisteredUser;
  verificationToken : RawToken
}.

Definition authError (c m : string) (s : Z) : ServiceError := mkError AuthError c m s.
Definition groupError (c m : string) (s : Z) : ServiceError := mkError GroupError c m s.
Definition taskError (c m : string) (s : Z) : ServiceError := mkError TaskError c m s.

Definition isSome {A} (o : option A) : bool :=
  match o with Some _ => true | None => false end.

(** JavaScript truthiness of a nullable string: [null] and the empty string
    are falsy. *)
Definition truthy (o : option string) : bool :=
  match o with
  | Some s => negb (String.eqb s EmptyString)
  | None => false
  end.

(* ================================================================== *)
(** ** The authentication service ([services/auth.service.ts]) *)
(* ================================================================== *)

Section AuthService.

Variable env : Env.

Definition user_findUnique_email (email_ : string) : Promise (option User) :=
  query (fun db => find (fun u => String.eqb (email u) email_) (users db)).

Definition user_findUnique_id (id : Uuid) : Promise (option User) :=
  query (fun db => find (fun u => Nat.eqb (user_id u) id) (users db)).

(** [verifyPassword], with its call counted. *)
Definition verifyPassword_call (hash password : string) : Promise bool :=
  fun db => (set_verifyPasswordCalls S db, inr (verifyPassword env hash password)).

Definition createTokenPair
  (userId : Uuid) (email_ : string) (status_ : UserStatus)
  (family_ : option Uuid) (now : Time) : Promise AuthTokens :=
  tokenFamily <- match family_ with
                 | Some f => resolve f
                 | None => randomUUID
                 end ;;
  let accessToken := signAccessToken (config env) userId email_ status_ now in
  (* Create refresh token DB record first to get its ID *)
  refreshTokenRecord <-
    refreshToken_create
      (fun id => mkRefreshToken id EmptyHash userId tokenFamily false
                   (now + JWT_REFRESH_EXPIRY_SECONDS (config env) * 1000) now) ;;
  (* Sign refresh JWT containing the record ID *)
  let refreshToken :=
    signRefreshToken (config env) userId (rt_id refreshTokenRecord) tokenFamily now in
  (* Store the hash of the signed JWT *)
  let refreshHash := hashToken refreshToken in
  refreshToken_update (rt_id refreshTokenRecord) (with_tokenHash refreshHash) ;;;
  resolve (mkAuthTokens accessToken refreshToken).

Definition registerUser (email_ password name_ : string) (randomBytes : nat)
  (now : Time) : Promise RegisterResult :=
  existing <- user_findUnique_email email_ ;;
  match existing with
  | Some _ =>
      throw (authError "EMAIL_EXISTS" "A user with this email already exists" 409)
  | None =>
      let passwordHash_ := hashPassword env password in
      let '(verificationRaw, verificationHash) := generateOpaqueToken randomBytes in
      user <- user_create
                (fun id => mkUser id email_ (Some passwordHash_) name_ UNVERIFIED
                                  now None) ;;
      let user := mkRegisteredUser (user_id user) (email user) (name user)
                                   (status user) in
      (* Store verification token *)
      oneTimeToken_create verification_tokens set_verification_tokens
        verificationHash (registered_id user) (now + 24 * 60 * 60 * 1000) ;;;
      resolve (mkRegisterResult user verificationRaw)
  end.

Definition loginUser (email_ password : string) (now : Time) : Promise LoginResult :=
  user <- user_findUnique_email email_ ;;
  match user with
  | None =>
      throw (authError "INVALID_CREDENTIALS" "Invalid email or password" 401)
  | Some user =>
      if negb (truthy (passwordHash user)) then
        throw (authError "INVALID_CREDENTIALS" "Invalid email or password" 401)
      else if isSome (user_deletedAt user) then
        throw (authError "ACCOUNT_DELETED" "This account has been deactivated" 401)
      else if UserStatus_eqb (status user) SUSPENDED then
        throw (authError "ACCOUNT_SUSPENDED" "This account has been suspended" 403)
      else
        valid <- verifyPassword_call
                   (match passwordHash user with Some h => h | None => EmptyString end)
                   password ;;
        if negb valid then
          throw (authError "INVALID_CREDENTIALS" "Invalid email or password" 401)
        else
          tokens <- createTokenPair (user_id user) (email user) (status user) None now ;;
          resolve (mkLoginResult tokens
                     (mkUserProfile (user_id user) (email user) (name user)
                                    (status user) (user_createdAt user)))
  end.

Definition refreshToken_findFirst (tokenHash : TokenHash) (userId : Uuid)
  : Promise (option RefreshToken) :=
  query (fun db =>
           find (fun r => TokenHash_eqb (rt_tokenHash r) tokenHash
                          && Nat.eqb (rt_userId r) userId)
                (refresh_tokens db)).

Definition refreshTokens (rawRefreshToken : RawToken) (now : Time) : Promise AuthTokens :=
  match verifyRefreshToken (config env) rawRefreshToken now with
  | None => throw (authError "INVALID_TOKEN" "Invalid refresh token" 401)
  | Some claims =>
      let tokenHash := hashToken rawRefreshToken in
      storedToken <- refreshToken_findFirst tokenHash (sub claims) ;;
      match storedToken with
      | None =>
          (* Token not found — possible reuse attack. Revoke entire family. *)
          refreshToken_revokeFamily (family claims) ;;;
          throw (authError "TOKEN_REUSE" "Refresh token has been revoked" 401)
      | Some storedToken =>
          if revoked storedToken then
            (* Already-revoked token used again — revoke entire family *)
            refreshToken_revokeFamily (family claims) ;;;
            throw (authError "TOKEN_REUSE" "Refresh token has been revoked" 401)
          else if rt_expiresAt storedToken <? now then
            throw (authError "TOKEN_EXPIRED" "Refresh token has expired" 401)
          else
            (* Revoke old token *)
            refreshToken_update (rt_id storedToken) (with_revoked true) ;;;
            (* Fetch user for new access token *)
            user <- user_findUnique_id (sub claims) ;;
            match user with
            | None => throw (authError "USER_NOT_FOUND" "User not found" 401)
            | Some user =>
                if isSome (user_deletedAt user) then
                  throw (authError "USER_NOT_FOUND" "User not found" 401)
                else
                  (* Issue new pair in same family *)
                  createTokenPair (user_id user) (email user) (status user)
                                  (Some (family claims)) now
            end
      end
  end.

Definition logoutUser (rawRefreshToken : option RawToken) (userId : Uuid)
  : Promise unit :=
  match rawRefreshToken with
  | Some raw =>
      let tokenHash := hashToken raw in
      storedToken <- refreshToken_findFirst tokenHash userId ;;
      match storedToken with
      | Some storedToken =>
          (* Revoke entire family *)
          refreshToken_revokeFamily (rt_family storedToken)
      | None => resolve tt
      end
  | None => resolve tt
  end.

Definition oneTimeToken_findUnique (table : Db -> list OneTimeToken)
  (tokenHash : TokenHash) : Promise (option OneTimeToken) :=
  query (fun db => find (fun t => TokenHash_eqb (ot_tokenHash t) tokenHash) (table db)).

Definition verifyEmail (rawToken : RawToken) (now : Time) : Promise unit :=
  let tokenHash := hashToken rawToken in
  stored <- oneTimeToken_findUnique verification_tokens tokenHash ;;
  match stored with
  | None =>
      throw (authError "INVALID_TOKEN" "Invalid or expired verification token" 400)
  | Some stored =>
      if ot_expiresAt stored <? now then
        oneTimeToken_delete verification_tokens set_verification_tokens (ot_id stored) ;;;
        throw (authError "TOKEN_EXPIRED" "Verification token has expired" 400)
      else
        transaction
          (user_update (ot_userId stored) (with_status ACTIVE) ;;;
           oneTimeToken_delete verification_tokens set_verification_tokens (ot_id stored))
  end.

Definition resendVerification (email_ : string) (randomBytes : nat) (now : Time)
  : Promise (option RawToken) :=
  user <- user_findUnique_email email_ ;;
  match user with
  | None => resolve None  (* Don't reveal user existence *)
  | Some user =>
      if negb (UserStatus_eqb (status user) UNVERIFIED) then resolve None
      else
        (* Delete old tokens *)
        write (set_verification_tokens
                 (deleteMany (fun t => Nat.eqb (ot_userId t) (user_id user)))) ;;;
        let '(raw, hash) := generateOpaqueToken randomBytes in
        oneTimeToken_create verification_tokens set_verification_tokens hash
          (user_id user) (now + 24 * 60 * 60 * 1000) ;;;
        resolve (Some raw)
  end.

Definition requestPasswordReset (email_ : string) (randomBytes : nat) (now : Time)
  : Promise (option RawToken) :=
  user <- user_findUnique_email email_ ;;
  match user with
  | None => resolve None  (* Don't reveal user existence *)
  | Some user =>
      if isSome (user_deletedAt user) then resolve None
      else
        (* Delete old tokens *)
        write (set_password_reset_tokens
                 (deleteMany (fun t => Nat.eqb (ot_userId t) (user_id user)))) ;;;
        let '(raw, hash) := generateOpaqueToken randomBytes in
        oneTimeToken_create password_reset_tokens set_password_reset_tokens hash
          (user_id user) (now + 15 * 60 * 1000) ;;;
        resolve (Some raw)
  end.

Definition resetPassword (rawToken : RawToken) (newPassword : string) (now : Time)
  : Promise unit :=
  let tokenHash := hashToken rawToken in
  stored <- oneTimeToken_findUnique password_reset_tokens tokenHash ;;
  match stored with
  | None => throw (authError "INVALID_TOKEN" "Invalid or expired reset token" 400)
  | Some stored =>
      if ot_expiresAt stored <? now then
        oneTimeToken_delete password_reset_tokens set_password_reset_tokens
                            (ot_id stored) ;;;
        throw (authError "TOKEN_EXPIRED" "Reset token has expired" 400)
      else
        let passwordHash_ := hashPassword env newPassword in
        transaction
          (user_update (ot_userId stored) (with_passwordHash (Some passwordHash_)) ;;;
           oneTimeToken_delete password_reset_tokens set_password_reset_tokens
                               (ot_id stored) ;;;
           (* Invalidate all refresh tokens *)
           write (set_refresh_tokens
                    (updateMany (fun r => Nat.eqb (rt_userId r) (ot_userId stored))
                                (with_revoked true))))
  end.

(* ------------------------------------------------------------------ *)
(** *** Two handlers of [routes/auth.routes.ts] *)
(* ------------------------------------------------------------------ *)

(** The reply of a handler: the status and the fields of the JSON body. *)
Record Reply := mkReply {
  reply_status : Z;
  reply_message : string;
  reply_token : option (string * RawToken)
}.

Definition isFeatureEnabled (flag : EnvConfig -> bool) : bool := flag (config env).

Definition enqueueEmail (job : EmailJob) : Promise unit :=
  write (set_emailQueue (fun q => q ++ [job])).

(** [POST /api/v1/auth/resend-verification]. *)
Definition resendVerificationRoute (email_ : string) (randomBytes : nat) (now : Time)
  : Promise Reply :=
  token <- resendVerification email_ randomBytes now ;;
  (if isSome token && isFeatureEnabled ENABLE_EMAIL
   then enqueueEmail (mkEmailJob "verification" email_ token)
   else resolve tt) ;;;
  (* Always return success to prevent user enumeration *)
  let message_ :=
    "If an unverified account exists, a verification email has been sent." in
  match token with
  | Some t =>
      if negb (String.eqb (NODE_ENV (config env)) "production")
      then resolve (mkReply 200 message_ (Some ("verificationToken", t)))
      else resolve (mkReply 200 message_ None)
  | None => resolve (mkReply 200 message_ None)
  end.

(** [POST /api/v1/auth/forgot-password]. *)
Definition forgotPasswordRoute (email_ : string) (randomBytes : nat) (now : Time)
  : Promise Reply :=
  if negb (isFeatureEnabled ENABLE_PASSWORD_RESET) then
    resolve (mkReply 400 "Password reset is currently disabled" None)
  else
    token <- requestPasswordReset email_ randomBytes now ;;
    (if isSome token && isFeatureEnabled ENABLE_EMAIL
     then enqueueEmail (mkEmailJob "password-reset" email_ token)
     else resolve tt) ;;;
    (* Always return success to prevent user enumeration *)
    let message_ := "If an account exists, a password reset link has been sent." in
    match token with
    | Some t =>
        if negb (String.eqb (NODE_ENV (config env)) "production")
        then resolve (mkReply 200 message_ (Some ("resetToken", t)))
        else resolve (mkReply 200 message_ None)
    | None => resolve (mkReply 200 message_ None)
    end.

End AuthService.

(* ================================================================== *)
(** ** Profiles ([services/auth.service.ts]) *)
(* ================================================================== *)

Definition with_name (n : string) (u : User) : User :=
  mkUser (user_id u) (email u) (passwordHash u) n (status u)
         (user_createdAt u) (user_deletedAt u).

(** The filter [{ id: userId, deletedAt: null }]. *)
Definition activeUserWithId (userId : Uuid) (u : User) : bool :=
  Nat.eqb (user_id u) userId && negb (isSome (user_deletedAt u)).

(** The fields that [select] keeps. *)
Definition toUserProfile (u : User) : UserProfile :=
  mkUserProfile (user_id u) (email u) (name u) (status u) (user_createdAt u).

Definition getUserProfile (userId : Uuid) : Promise UserProfile :=
  user <- query (fun db => find (activeUserWithId userId) (users db)) ;;
  match user with
  | None => throw (authError "USER_NOT_FOUND" "User not found" 404)
  | Some user => resolve (toUserProfile user)
  end.

(** [prisma.user.update({ where, data, select })], resolving with the row as
    updated. *)
Definition user_updateWhere (where_ : User -> bool) (data : User -> User)
  : Promise User :=
  fun db =>
    match find where_ (users db) with
    | Some u => (set_users (updateUnique where_ data) db, inr (data u))
    | None => (db, inl recordNotFound)
    end.

Definition updateProfile (userId : Uuid) (name_ : option string)
  : Promise UserProfile :=
  user <- user_updateWhere (activeUserWithId userId)
            (match name_ with
             | Some n => if truthy name_ then with_name n else (fun u => u)
             | None => fun u => u
             end) ;;
  resolve (toUserProfile user).

(* ================================================================== *)
(** ** The group service ([services/group.service.ts]) *)
(* ================================================================== *)

Definition sameMembership (userId groupId_ : Uuid) (m : GroupMember) : bool :=
  Nat.eqb (gm_userId m) userId && Nat.eqb (gm_groupId m) groupId_.

(** [prisma.groupMember.findUnique({ where: { userId_groupId } })]. *)
Definition groupMember_findUnique (userId groupId_ : Uuid)
  : Promise (option GroupMember) :=
  query (fun db => find (sameMembership userId groupId_) (group_members db)).

Definition assertGroupMember (groupId_ userId : Uuid) : Promise unit :=
  membership <- groupMember_findUnique userId groupId_ ;;
  match membership with
  | None =>
      throw (groupError "NOT_A_MEMBER" "You are not a member of this group" 403)
  | Some _ => resolve tt
  end.

Definition assertGroupAdmin (groupId_ userId : Uuid) : Promise unit :=
  membership <- groupMember_findUnique userId groupId_ ;;
  match membership with
  | None =>
      throw (groupError "NOT_ADMIN" "Admin access required for this group" 403)
  | Some m =>
      if negb (GroupRole_eqb (role m) ADMIN) then
        throw (groupError "NOT_ADMIN" "Admin access required for this group" 403)
      else resolve tt
  end.

(** [prisma.group.create({ data: { createdById, members: { create } } })]:
    one statement writes the row of the group and the membership of its
    creator, as an admin.  Both rows refer to the account of the creator
    ([groups_createdById_fkey], [group_members_userId_fkey]), so that the
    statement is refused, and nothing is written, when no account has that
    identifier.  The row of the group itself carries nothing the operations
    below read; its identifier is the result. *)
Definition group_create (userId : Uuid) : Promise Uuid :=
  fun db =>
    if existsb (fun u => Nat.eqb (user_id u) userId) (users db)
    then
      let id := nextUuid db in
      (set_nextUuid S
         (set_group_members (fun rows => rows ++ [mkGroupMember userId id ADMIN]) db),
       inr id)
    else (db, inl foreignKeyFailed).

Definition createGroup (userId : Uuid) : Promise Uuid :=
  group <- group_create userId ;;
  resolve group.

Definition addMember (groupId_ : Uuid) (userId : Uuid) (role_ : GroupRole)
  (actingUserId : Uuid) : Promise unit :=
  assertGroupAdmin groupId_ actingUserId ;;;
  (* Check target user exists *)
  targetUser <- query (fun db => find (fun u => Nat.eqb (user_id u) userId) (users db)) ;;
  match targetUser with
  | None => throw (groupError "USER_NOT_FOUND" "Target user not found" 404)
  | Some u =>
      if isSome (user_deletedAt u) then
        throw (groupError "USER_NOT_FOUND" "Target user not found" 404)
      else
        (* Check not already a member *)
        existing <- groupMember_findUnique userId groupId_ ;;
        match existing with
        | Some _ =>
            throw (groupError "ALREADY_MEMBER"
                              "User is already a member of this group" 409)
        | None =>
            write (set_group_members
                     (fun rows => rows ++ [mkGroupMember userId groupId_ role_]))
        end
  end.

(** [prisma.groupMember.delete({ where: { userId_groupId } })]. *)
Definition groupMember_delete (userId groupId_ : Uuid) : Promise unit :=
  fun db =>
    if existsb (sameMembership userId groupId_) (group_members db)
    then (set_group_members (deleteUnique (sameMembership userId groupId_)) db, inr tt)
    else (db, inl recordNotFound).

(** [prisma.groupMember.count({ where: { groupId, role: "ADMIN" } })]. *)
Definition isAdminOf (groupId_ : Uuid) (m : GroupMember) : bool :=
  Nat.eqb (gm_groupId m) groupId_ && GroupRole_eqb (role m) ADMIN.

Definition adminCount (groupId_ : Uuid) (rows : list GroupMember) : nat :=
  List.length (filter (isAdminOf groupId_) rows).

Definition removeMember (groupId_ targetUserId actingUserId : Uuid) : Promise unit :=
  assertGroupAdmin groupId_ actingUserId ;;;
  membership <- groupMember_findUnique targetUserId groupId_ ;;
  match membership with
  | None =>
      throw (groupError "NOT_A_MEMBER" "User is not a member of this group" 404)
  | Some membership =>
      (* Prevent removing the last admin *)
      (if GroupRole_eqb (role membership) ADMIN then
         count <- query (fun db => adminCount groupId_ (group_members db)) ;;
         if (count <=? 1)%nat then
           throw (groupError "LAST_ADMIN"
                             "Cannot remove the last admin from the group" 400)
         else resolve tt
       else resolve tt) ;;;
      groupMember_delete targetUserId groupId_
  end.

(* ================================================================== *)
(** ** The task service ([services/task.service.ts]) *)
(* ================================================================== *)

Definition VALID_TRANSITIONS : list (TaskStatus * list TaskStatus) :=
  [ (PENDING_ACCEPTANCE, [OPEN; CLOSED]);
    (OPEN, [IN_PROGRESS; CLOSED]);
    (IN_PROGRESS, [COMPLETED; OPEN; CLOSED]);
    (COMPLETED, [CLOSED]);
    (CLOSED, []) ].

Fixpoint lookupTransitions (from : TaskStatus)
  (table : list (TaskStatus * list TaskStatus)) : option (list TaskStatus) :=
  match table with
  | [] => None
  | (k, allowed) :: rest =>
      if TaskStatus_eqb k from then Some allowed else lookupTransitions from rest
  end.

Definition isValidTransition (from to : TaskStatus) : bool :=
  match lookupTransitions from VALID_TRANSITIONS with
  | Some allowed => existsb (TaskStatus_eqb to) allowed
  | None => false
  end.

(** The [data] arguments of [prisma.task.update]; [updatedAt] is stamped by
    the schema on every update. *)
Definition task_setStatus (s : TaskStatus) (now : Time) (t : Task) : Task :=
  mkTask (task_id t) (title t) (description t) s (groupId t) (createdById t)
         (assigneeId t) (acceptedAt t) (task_createdAt t) now (deletedAt t).

Definition task_setAccepted (now : Time) (t : Task) : Task :=
  mkTask (task_id t) (title t) (description t) OPEN (groupId t) (createdById t)
         (assigneeId t) (Some now) (task_createdAt t) now (deletedAt t).

Definition task_setAssignee (assignee : Uuid) (now : Time) (t : Task) : Task :=
  mkTask (task_id t) (title t) (description t) PENDING_ACCEPTANCE (groupId t)
         (createdById t) (Some assignee) None (task_createdAt t) now (deletedAt t).

Definition task_setText (title_ : option string) (description_ : option string)
  (now : Time) (t : Task) : Task :=
  mkTask (task_id t)
         (match title_ with Some x => x | None => title t end)
         (match description_ with Some x => Some x | None => description t end)
         (task_status t) (groupId t) (createdById t)
         (assigneeId t) (acceptedAt t) (task_createdAt t) now (deletedAt t).

Definition task_setDeleted (now : Time) (t : Task) : Task :=
  mkTask (task_id t) (title t) (description t) (task_status t) (groupId t)
         (createdById t) (assigneeId t) (acceptedAt t) (task_createdAt t) now
         (Some now).

(** [prisma.task.update({ where: { id }, data })], resolving with the row as
    updated. *)
Definition task_create (data : Uuid -> Task) : Promise Task :=
  fun db =>
    let row := data (nextUuid db) in
    (set_nextUuid S (set_tasks (fun rows => rows ++ [row]) db), inr row).

Definition task_update (id : Uuid) (data : Task -> Task) : Promise Task :=
  fun db =>
    match find (fun t => Nat.eqb (task_id t) id) (tasks db) with
    | Some t =>
        (set_tasks (updateUnique (fun t => Nat.eqb (task_id t) id) data) db,
         inr (data t))
    | None => (db, inl recordNotFound)
    end.

Section TaskService.

Variable env : Env.

(** [enqueueAssignmentEmail]: looks both users up and hands a job to the
    queue; it never rejects. *)
Definition enqueueAssignmentEmail (assignerUserId assigneeUserId : Uuid)
  : Promise unit :=
  assigner <- user_findUnique_id assignerUserId ;;
  assignee <- user_findUnique_id assigneeUserId ;;
  match assigner, assignee with
  | Some _, Some a => enqueueEmail (mkEmailJob "task-assignment" (email a) None)
  | _, _ => resolve tt
  end.

Definition createTask (title_ : string) (description_ : option string)
  (groupId_ : Uuid) (assigneeId_ : option Uuid) (userId : Uuid) (now : Time)
  : Promise Task :=
  (* Verify creator is member of group *)
  assertGroupMember groupId_ userId ;;;
  initialStatus <-
    match assigneeId_ with
    | Some assignee =>
        (* If assigning, verify assignee is in the same group *)
        if negb (isFeatureEnabled env ENABLE_ASSIGNMENTS) then
          throw (taskError "FEATURE_DISABLED"
                           "Task assignments are currently disabled" 400)
        else
          assertGroupMember groupId_ assignee ;;;
          resolve PENDING_ACCEPTANCE
    | None => resolve OPEN
    end ;;
  task <- task_create
            (fun id => mkTask id title_ description_ initialStatus groupId_ userId
                              assigneeId_ None now now None) ;;
  (* Enqueue assignment email (async — never blocks response) *)
  match assigneeId_ with
  | Some assignee =>
      if isFeatureEnabled env ENABLE_EMAIL
      then enqueueAssignmentEmail userId assignee
      else resolve tt
  | None => resolve tt
  end ;;;
  resolve task.

Definition getTaskById (taskId userId : Uuid) : Promise Task :=
  task <- query (fun db =>
                   find (fun t => Nat.eqb (task_id t) taskId
                                  && negb (isSome (deletedAt t)))
                        (tasks db)) ;;
  match task with
  | None => throw (taskError "TASK_NOT_FOUND" "Task not found" 404)
  | Some task =>
      (* Verify user has access to the task's group *)
      assertGroupMember (groupId task) userId ;;;
      resolve task
  end.

Definition updateTask (taskId : Uuid) (title_ description_ : option string)
  (userId : Uuid) (now : Time) : Promise Task :=
  task <- getTaskById taskId userId ;;
  (* Only creator can update task metadata *)
  if negb (Nat.eqb (createdById task) userId) then
    throw (taskError "FORBIDDEN" "Only the task creator can update this task" 403)
  else
    task_update taskId (task_setText title_ description_ now).

Definition updateTaskStatus (taskId : Uuid) (newStatus : TaskStatus)
  (userId : Uuid) (now : Time) : Promise Task :=
  task <- getTaskById taskId userId ;;
  if negb (isValidTransition (task_status task) newStatus) then
    throw (taskError "INVALID_TRANSITION"
             ("Cannot transition from " ++ TaskStatus_name (task_status task)
              ++ " to " ++ TaskStatus_name newStatus)%string
             400)
  else
    task_update taskId (task_setStatus newStatus now).

Definition acceptTask (taskId userId : Uuid) (now : Time) : Promise Task :=
  task <- getTaskById taskId userId ;;
  if negb (match assigneeId task with
           | Some a => Nat.eqb a userId
           | None => false
           end) then
    throw (taskError "FORBIDDEN" "Only the assigned user can accept this task" 403)
  else if negb (TaskStatus_eqb (task_status task) PENDING_ACCEPTANCE) then
    throw (taskError "INVALID_STATE" "Task is not pending acceptance" 400)
  else
    task_update taskId (task_setAccepted now).

Definition assignTask (taskId assigneeId_ userId : Uuid) (now : Time)
  : Promise Task :=
  if negb (isFeatureEnabled env ENABLE_ASSIGNMENTS) then
    throw (taskError "FEATURE_DISABLED" "Task assignments are currently disabled" 400)
  else
    task <- getTaskById taskId userId ;;
    if negb (Nat.eqb (createdById task) userId) then
      throw (taskError "FORBIDDEN" "Only the task creator can assign this task" 403)
    else
      (* Verify assignee is in the same group *)
      assertGroupMember (groupId task) assigneeId_ ;;;
      updated <- task_update taskId (task_setAssignee assigneeId_ now) ;;
      (* Enqueue assignment email (async — never blocks response) *)
      (if isFeatureEnabled env ENABLE_EMAIL
       then enqueueAssignmentEmail userId assigneeId_
       else resolve tt) ;;;
      resolve updated.

Definition deleteTask (taskId userId : Uuid) (now : Time) : Promise unit :=
  task <- getTaskById taskId userId ;;
  if negb (Nat.eqb (createdById task) userId) then
    throw (taskError "FORBIDDEN" "Only the task creator can delete this task" 403)
  else
    task_update taskId (task_setDeleted now) ;;;
    resolve tt.

End TaskService.

(* ================================================================== *)
(** ** Requests and reachable states *)
(* ================================================================== *)

(** The operations a client can ask for. *)
Inductive Request :=
| Register (email_ password name_ : string) (randomBytes : nat)
| Login (email_ password : string)
| Refresh (rawRefreshToken : RawToken)
| Logout (rawRefreshToken : option RawToken) (userId : Uuid)
| VerifyEmail (rawToken : RawToken)
| ResendVerification (email_ : string) (randomBytes : nat)
| ForgotPassword (email_ : string) (randomBytes : nat)
| ResetPassword (rawToken : RawToken) (newPassword : string)
| UpdateProfile (userId : Uuid) (name_ : option string)
| CreateGroup (userId : Uuid)
| AddMember (groupId_ userId : Uuid) (role_ : GroupRole) (actingUserId : Uuid)
| RemoveMember (groupId_ targetUserId actingUserId : Uuid)
| CreateTask (title_ : string) (description_ : option string) (groupId_ : Uuid)
             (assigneeId_ : option Uuid) (userId : Uuid)
| UpdateTask (taskId : Uuid) (title_ description_ : option string) (userId : Uuid)
| UpdateTaskStatus (taskId : Uuid) (newStatus : TaskStatus) (userId : Uuid)
| AcceptTask (taskId userId : Uuid)
| AssignTask (taskId assigneeId_ userId : Uuid)
| DeleteTask (taskId userId : Uuid).

(** The database after a request served at time [now]. *)
Definition serve (env : Env) (r : Request) (now : Time) (db : Db) : Db :=
  match r with
  | Register e p n rnd => fst (registerUser env e p n rnd now db)
  | Login e p => fst (loginUser env e p now db)
  | Refresh raw => fst (refreshTokens env raw now db)
  | Logout raw u => fst (logoutUser raw u db)
  | VerifyEmail raw => fst (verifyEmail raw now db)
  | ResendVerification e rnd => fst (resendVerificationRoute env e rnd now db)
  | ForgotPassword e rnd => fst (forgotPasswordRoute env e rnd now db)
  | ResetPassword raw p => fst (resetPassword env raw p now db)
  | UpdateProfile u n => fst (updateProfile u n db)
  | CreateGroup u => fst (createGroup u db)
  | AddMember g u r a => fst (addMember g u r a db)
  | RemoveMember g t a => fst (removeMember g t a db)
  | CreateTask t d g a u => fst (createTask env t d g a u now db)
  | UpdateTask id t d u => fst (updateTask id t d u now db)
  | UpdateTaskStatus id s u => fst (updateTaskStatus id s u now db)
  | AcceptTask id u => fst (acceptTask id u now db)
  | AssignTask id a u => fst (assignTask env id a u now db)
  | DeleteTask id u => fst (deleteTask id u now db)
  end.

(** Out-of-band administration of an account: its status and its soft-delete
    mark are set by hand. *)
Definition administer (id : Uuid) (status_ : UserStatus) (deletedAt_ : option Time)
  (u : User) : User :=
  if Nat.eqb (user_id u) id
  then mkUser (user_id u) (email u) (passwordHash u) (name u) status_
              (user_createdAt u) deletedAt_
  else u.

(** The states the system is in when it starts empty and serves requests one
    after the other, accounts being administered in between.  Two requests
    in flight together are the subject of [overlap] below. *)
Inductive reachable (env : Env) : Db -> Prop :=
| reachable_empty : reachable env emptyDb
| reachable_serve db r now :
    reachable env db -> reachable env (serve env r now db)
| reachable_administer db id status_ deletedAt_ :
    reachable env db ->
    reachable env (set_users (map (administer id status_ deletedAt_)) db).

(* ================================================================== *)
(** ** Vocabulary of the properties *)
(* ================================================================== *)

(** The transition table as the design document draws it. *)
Inductive tableTransition : TaskStatus -> TaskStatus -> Prop :=
| pending_to_open : tableTransition PENDING_ACCEPTANCE OPEN
| pending_to_closed : tableTransition PENDING_ACCEPTANCE CLOSED
| open_to_in_progress : tableTransition OPEN IN_PROGRESS
| open_to_closed : tableTransition OPEN CLOSED
| in_progress_to_completed : tableTransition IN_PROGRESS COMPLETED
| in_progress_to_open : tableTransition IN_PROGRESS OPEN
| in_progress_to_closed : tableTransition IN_PROGRESS CLOSED
| completed_to_closed : tableTransition COMPLETED CLOSED.

(** [userId] has a membership row in group [groupId_]. *)
Definition isMember (db : Db) (groupId_ userId : Uuid) : bool :=
  existsb (sameMembership userId groupId_) (group_members db).

(** ** Relations between the database before and after a computation *)

Definition preserves {A} (R : Db -> Db -> Prop) (m : Promise A) : Prop :=
  forall db, R db (fst (m db)).

(** The computation leaves the [tasks] table alone. *)
Definition taskFrame (db db' : Db) : Prop :=
  tasks db' = tasks db /\ (nextUuid db <= nextUuid db')%nat.

(** The computation leaves the [refresh_tokens] table alone. *)
Definition sessionFrame (db db' : Db) : Prop :=
  refresh_tokens db' = refresh_tokens db /\ (nextUuid db <= nextUuid db')%nat.

(** The invariant of the data model on a task: a task that waits for
    acceptance has an assignee and no acceptance date. *)
Definition taskRowOk (t : Task) : Prop :=
  task_status t = PENDING_ACCEPTANCE -> acceptedAt t = None /\ assigneeId t <> None.

Definition taskInv (db : Db) : Prop :=
  NoDup (map task_id (tasks db))
  /\ Forall (fun t => (task_id t < nextUuid db)%nat /\ taskRowOk t) (tasks db).

Definition keepsTaskInv (db db' : Db) : Prop := taskInv db -> taskInv db'.

(** [userId] has a membership row in group [groupId_] with role ADMIN. *)
Definition isAdmin (db : Db) (groupId_ userId : Uuid) : bool :=
  match find (sameMembership userId groupId_) (group_members db) with
  | Some m => GroupRole_eqb (role m) ADMIN
  | None => false
  end.

(** [task] is a stored task that is not soft-deleted, and identifiers are
    unique in the table (they are its primary key). *)
Definition visibleTask (db : Db) (task : Task) : Prop :=
  NoDup (map task_id (tasks db)) /\ In task (tasks db) /\ deletedAt task = None.

(** The digest of the opaque token of the bytes [rnd] is stored in a row. *)
Definition digestStored (rows : list OneTimeToken) (rnd : nat) : bool :=
  existsb (fun t => TokenHash_eqb (ot_tokenHash t) (hashToken (HexString rnd))) rows.

Definition resendMessage : string :=
  "If an unverified account exists, a verification email has been sent.".

Definition forgotMessage : string :=
  "If an account exists, a password reset link has been sent.".

(** An address is eligible for a new verification token when it is the
    address of an account in status UNVERIFIED, and for a reset token when it
    is the address of an account that is not soft-deleted. *)
Definition verificationEligible (db : Db) (email_ : string) : bool :=
  match find (fun u => String.eqb (email u) email_) (users db) with
  | Some user => UserStatus_eqb (status user) UNVERIFIED
  | None => false
  end.

Definition resetEligible (db : Db) (email_ : string) : bool :=
  match find (fun u => String.eqb (email u) email_) (users db) with
  | Some user => negb (isSome (user_deletedAt user))
  | None => false
  end.

(** *** Sessions *)

(** The later states of the system. *)
Inductive evolves (env : Env) : Db -> Db -> Prop :=
| evolves_here db : evolves env db db
| evolves_serve db db' r now :
    evolves env db db' -> evolves env db (serve env r now db')
| evolves_administer db db' id status_ deletedAt_ :
    evolves env db db' ->
    evolves env db (set_users (map (administer id status_ deletedAt_)) db').

(** A row of family [fam] that is not revoked. *)
Definition liveIn (fam : Uuid) (r : RefreshToken) : bool :=
  Nat.eqb (rt_family r) fam && negb (revoked r).

Definition liveCount (fam : Uuid) (rows : list RefreshToken) : nat :=
  List.length (filter (liveIn fam) rows).

(** The row stores the digest of a signed token whose claims name the row:
    its user, its identifier and its family. *)
Definition issued (r : RefreshToken) : Prop :=
  exists key claims,
    rt_tokenHash r = hashToken (JwtString key claims)
    /\ sub claims = rt_userId r
    /\ tokenId claims = rt_id r
    /\ family claims = rt_family r.

(** The invariant of the [refresh_tokens] table: identifiers are unique and
    were handed out by the supply, every row stores the digest of its own
    token, and a family has at most one token that is not revoked; the
    families marked by [dead] have none at all. *)
Definition quota (dead : Uuid -> bool) (fam : Uuid) : nat :=
  if dead fam then 0%nat else 1%nat.

Definition sessionInvOn (dead : Uuid -> bool) (db : Db) : Prop :=
  NoDup (map rt_id (refresh_tokens db))
  /\ Forall (fun r => (rt_id r < nextUuid db)%nat
                      /\ (rt_family r < nextUuid db)%nat
                      /\ issued r)
            (refresh_tokens db)
  /\ (forall fam, (liveCount fam (refresh_tokens db) <= quota dead fam)%nat)
  /\ (forall fam, dead fam = true -> (fam < nextUuid db)%nat).

Definition sessionInv (db : Db) : Prop := sessionInvOn (fun _ => false) db.

Definition keepsSessionInv (dead : Uuid -> bool) (db db' : Db) : Prop :=
  sessionInvOn dead db -> sessionInvOn dead db'.

(** The rows of the first table are still in the second one, with their
    identifier, digest, user and family, and revoked if they were. *)
Definition rowsPersist (db db' : Db) : Prop :=
  forall r, In r (refresh_tokens db) ->
            exists r', In r' (refresh_tokens db')
                       /\ rt_id r' = rt_id r
                       /\ rt_tokenHash r' = rt_tokenHash r
                       /\ rt_userId r' = rt_userId r
                       /\ rt_family r' = rt_family r
                       /\ (revoked r = true -> revoked r' = true).

Definition sessionStep (dead : Uuid -> bool) (db db' : Db) : Prop :=
  sessionInvOn dead db -> sessionInvOn dead db' /\ rowsPersist db db'.

(** [raw] is a token that was issued in family [fam]: a row of that family
    stores its digest. *)
Definition historicalToken (db : Db) (fam : Uuid) (raw : RawToken) : Prop :=
  exists r, In r (refresh_tokens db)
            /\ rt_tokenHash r = hashToken raw
            /\ rt_family r = fam.

(** The family has been handed out and all its tokens are revoked. *)
Definition familyRevoked (db : Db) (fam : Uuid) : Prop :=
  (fam < nextUuid db)%nat
  /\ forall r, In r (refresh_tokens db) -> rt_family r = fam -> revoked r = true.

(** The predicate of [refreshToken_findFirst]. *)
Definition presented (tokenHash : TokenHash) (userId : Uuid) (r : RefreshToken)
  : bool :=
  TokenHash_eqb (rt_tokenHash r) tokenHash && Nat.eqb (rt_userId r) userId.

Definition tokenReuse : ServiceError :=
  authError "TOKEN_REUSE" "Refresh token has been revoked" 401.

Definition invalidToken : ServiceError :=
  authError "INVALID_TOKEN" "Invalid refresh token" 401.

Definition tokenExpired : ServiceError :=
  authError "TOKEN_EXPIRED" "Refresh token has expired" 401.

Definition userNotFound : ServiceError :=
  authError "USER_NOT_FOUND" "User not found" 401.

(** The row that [createTokenPair] leaves in the table. *)
Definition newTokenRow (env : Env) (userId id fam : Uuid) (now : Time) : RefreshToken :=
  mkRefreshToken id (hashToken (signRefreshToken (config env) userId id fam now))
                 userId fam false
                 (now + JWT_REFRESH_EXPIRY_SECONDS (config env) * 1000) now.

(* ================================================================== *)
(** ** Sample data *)
(* ================================================================== *)

Definition sampleConfig : EnvConfig :=
  mkConfig "production" "access-secret" "refresh-secret" 900 604800
           true false true true.

Definition sampleEnv : Env :=
  mkEnv sampleConfig
        (fun password => ("argon2:" ++ password)%string)
        (fun hash password => String.eqb hash ("argon2:" ++ password)%string).

(** A group 7 with an admin 1 and a member 2; user 3 is in no group.  Task 10
    was created by 1 for 2 and waits for acceptance; task 11 is open. *)
Definition boardDb : Db :=
  mkDb [] [] [] []
       [mkGroupMember 1%nat 7%nat ADMIN; mkGroupMember 2%nat 7%nat MEMBER]
       [mkTask 10%nat "write report" None PENDING_ACCEPTANCE 7%nat 1%nat
               (Some 2%nat) None 100 100 None;
        mkTask 11%nat "review report" None OPEN 7%nat 1%nat None None 100 100 None]
       [] 12%nat 0%nat.

(** A state reached by requests: Eve registers (account 0, with the
    verification token 1) and creates a group (it gets the identifier 2) and,
    in it, a task assigned to herself (identifier 3). *)
Definition signedUpDb : Db :=
  serve sampleEnv (Register "eve@example.com" "hunter2" "Eve" 9) 0 emptyDb.

Definition handshakeDb : Db :=
  serve sampleEnv (CreateTask "write report" None 2%nat (Some 0%nat) 0%nat) 10
        (serve sampleEnv (CreateGroup 0%nat) 0 signedUpDb).

Definition handshakeTask : Task :=
  mkTask 3%nat "write report" None PENDING_ACCEPTANCE 2%nat 0%nat (Some 0%nat)
         None 10 10 None.

(** A group 7 with two admins, 1 and 2, and a member 3. *)
Definition councilDb : Db :=
  mkDb [] [] [] []
       [mkGroupMember 1%nat 7%nat ADMIN; mkGroupMember 2%nat 7%nat ADMIN;
        mkGroupMember 3%nat 7%nat MEMBER]
       [] [] 8%nat 0%nat.

(** Accounts: 1 is active, 2 is suspended, 3 is soft-deleted, 4 signed up
    through an identity provider, has no password and is soft-deleted, 5 has
    not verified their e-mail address yet. *)
Definition accountsDb : Db :=
  mkDb [mkUser 1%nat "ada@example.com" (Some "argon2:correct horse") "Ada"
               ACTIVE 0 None;
        mkUser 2%nat "bob@example.com" (Some "argon2:battery staple") "Bob"
               SUSPENDED 0 None;
        mkUser 3%nat "cyd@example.com" (Some "argon2:tr0ub4dor") "Cyd"
               ACTIVE 0 (Some 50);
        mkUser 4%nat "dee@example.com" None "Dee" ACTIVE 0 (Some 60);
        mkUser 5%nat "eve@example.com" (Some "argon2:hunter2") "Eve"
               UNVERIFIED 0 None]
       [] [] [] [] [] [] 6%nat 0%nat.

(** The sample environment outside production. *)
Definition developmentEnv : Env :=
  mkEnv (mkConfig "development" "access-secret" "refresh-secret" 900 604800
                  true false true true)
        (hashPassword sampleEnv) (verifyPassword sampleEnv).

(** Account 1 has two sessions (families 30 and 31) and a pending password
    reset; account 2 has one session (family 32). *)
Definition resetDb : Db :=
  mkDb [mkUser 1%nat "ada@example.com" (Some "argon2:correct horse") "Ada"
               ACTIVE 0 None;
        mkUser 2%nat "bob@example.com" (Some "argon2:battery staple") "Bob"
               ACTIVE 0 None]
       [mkRefreshToken 20%nat
          (hashToken (signRefreshToken sampleConfig 1%nat 20%nat 30%nat 0))
          1%nat 30%nat false 604800000 0;
        mkRefreshToken 21%nat
          (hashToken (signRefreshToken sampleConfig 1%nat 21%nat 31%nat 0))
          1%nat 31%nat false 604800000 0;
        mkRefreshToken 22%nat
          (hashToken (signRefreshToken sampleConfig 2%nat 22%nat 32%nat 0))
          2%nat 32%nat false 604800000 0]
       []
       [mkOneTimeToken 40%nat (hashToken (HexString 99)) 1%nat 1000]
       [] [] [] 41%nat 0%nat.

(** A session: Ada registers (account 0) and logs in at second 1, which
    opens family 2 with the token of row 3; she refreshes at second 2 and
    gets the token of row 4; the first token is then presented again at
    second 3. *)
Definition registeredDb : Db :=
  serve sampleEnv (Register "ada@example.com" "correct horse" "Ada" 7) 0 emptyDb.

Definition loggedInDb : Db :=
  serve sampleEnv (Login "ada@example.com" "correct horse") 1000 registeredDb.

Definition firstToken : RawToken :=
  signRefreshToken sampleConfig 0%nat 3%nat 2%nat 1000.

Definition rotatedDb : Db := serve sampleEnv (Refresh firstToken) 2000 loggedInDb.

Definition secondToken : RawToken :=
  signRefreshToken sampleConfig 0%nat 4%nat 2%nat 2000.

Definition replayedDb : Db := serve sampleEnv (Refresh firstToken) 3000 rotatedDb.

(** The same session, but the account is soft-deleted after the login. *)
Definition deletedAccountDb : Db :=
  set_users (map (administer 0%nat UNVERIFIED (Some 1500))) loggedInDb.

(* ================================================================== *)
(** ** The guards of the routes ([middleware/auth.ts]) *)
(* ================================================================== *)

(** The body of an error reply ([ApiProblem] of [packages/types]); the
    [instance] field repeats the address of the request and is left out. *)
Record ApiProblem := mkProblem {
  problem_type : string;
  problem_title : string;
  problem_status : Z;
  problem_detail : string
}.

Definition errorsUrl : string := "https://api.taskmanagement.com/errors/".

(** [requireAuth]: the access token of the cookie is verified, and its
    payload becomes [request.user]. *)
Definition requireAuth (config : EnvConfig) (token : option AccessToken) (now : Time)
  : ApiProblem + AccessTokenPayload :=
  match token with
  | None =>
      inl (mkProblem (errorsUrl ++ "unauthorized") "Unauthorized" 401
                     "Authentication required")
  | Some token =>
      match verifyAccessToken config token now with
      | Some payload => inr payload
      | None =>
          inl (mkProblem (errorsUrl ++ "token-expired") "Unauthorized" 401
                         "Access token is invalid or expired")
      end
  end.

(** [requireVerified]: [None] lets the request through. *)
Definition requireVerified (user : option AccessTokenPayload) : option ApiProblem :=
  match user with
  | None =>
      Some (mkProblem (errorsUrl ++ "unauthorized") "Unauthorized" 401
                      "Authentication required")
  | Some user =>
      if negb (UserStatus_eqb (acc_status user) ACTIVE) then
        Some (mkProblem (errorsUrl ++ "unverified") "Forbidden" 403
                "Email verification required before accessing this resource")
      else None
  end.

(* ================================================================== *)
(** ** Error replies ([lib/error-handler.ts], [routes/auth.routes.ts]) *)
(* ================================================================== *)

(** [code.toLowerCase().replace(/_/g, "-")], on the ASCII strings that the
    error codes are. *)
Definition slugChar (c : ascii) : ascii :=
  let n := nat_of_ascii c in
  if Ascii.eqb c "_" then "-"%char
  else if (65 <=? n)%nat && (n <=? 90)%nat then ascii_of_nat (n + 32)
  else c.

Fixpoint errorSlug (code_ : string) : string :=
  match code_ with
  | EmptyString => EmptyString
  | String c rest => String (slugChar c) (errorSlug rest)
  end.

Inductive ResponseBody :=
| ProblemBody (problem : ApiProblem)
| UserBody (user : UserProfile).

Record Response := mkResponse {
  response_status : Z;
  response_body : ResponseBody
}.

(** The reply that the handlers and the error handler build from a service
    error. *)
Definition problemReply (err : ServiceError) : Response :=
  mkResponse (statusCode err)
    (ProblemBody (mkProblem (errorsUrl ++ errorSlug (code err)) (code err)
                            (statusCode err) (message err))).

Definition isServiceError (err : ServiceError) : bool :=
  match err_class err with
  | AuthError | GroupError | TaskError => true
  | PrismaError => false
  end.

Definition isAuthError (err : ServiceError) : bool :=
  match err_class err with
  | AuthError => true
  | _ => false
  end.

(** [globalErrorHandler].  An error of the Prisma client has no [statusCode],
    so that the status is 500 and the detail is the general one. *)
Definition globalErrorHandler (error : ServiceError) : Response :=
  if isServiceError error then problemReply error
  else
    let statusCode_ := 500 in
    mkResponse statusCode_
      (ProblemBody
         (mkProblem (errorsUrl ++ code error) "PrismaClientKnownRequestError"
                    statusCode_
                    (if 500 <=? statusCode_ then "An unexpected error occurred"
                     else message error))).

(** [GET /api/v1/auth/me], behind [requireAuth]: an [AuthError] is answered
    by the handler, any other error is thrown again. *)
Definition getMeRoute (userId : Uuid) : Promise Response :=
  fun db =>
    match getUserProfile userId db with
    | (db', inr profile) => (db', inr (mkResponse 200 (UserBody profile)))
    | (db', inl err) =>
        if isAuthError err then (db', inr (problemReply err)) else (db', inl err)
    end.

(** [PATCH /api/v1/auth/me], behind [requireAuth]: the handler catches
    nothing. *)
Definition patchMeRoute (userId : Uuid) (name_ : option string) : Promise Response :=
  profile <- updateProfile userId name_ ;;
  resolve (mkResponse 200 (UserBody profile)).

(** The reply to a request: a rejection of the handler goes to the error
    handler of the application ([app.setErrorHandler]). *)
Definition respond (handler : Promise Response) (db : Db) : Db * Response :=
  match handler db with
  | (db', inr response) => (db', response)
  | (db', inl err) => (db', globalErrorHandler err)
  end.

(* ================================================================== *)
(** ** Listing the tasks of a group ([services/task.service.ts]) *)
(* ================================================================== *)

(** The filter [{ groupId, deletedAt: null }]. *)
Definition inGroupNotDeleted (groupId_ : Uuid) (t : Task) : bool :=
  Nat.eqb (groupId t) groupId_ && negb (isSome (deletedAt t)).

(** [orderBy: { createdAt: "desc" }].  The order of two rows created at the
    same instant is the choice of the database; the model fixes one. *)
Fixpoint insertByCreatedAtDesc (t : Task) (sorted : list Task) : list Task :=
  match sorted with
  | [] => [t]
  | x :: rest =>
      if task_createdAt x <? task_createdAt t then t :: sorted
      else x :: insertByCreatedAtDesc t rest
  end.

Definition orderByCreatedAtDesc (rows : list Task) : list Task :=
  fold_right insertByCreatedAtDesc [] rows.

Record TaskPage := mkTaskPage {
  page_tasks : list Task;
  page_total : nat
}.

(** [listTasksByGroup], for a page number of at least 1 and a limit of at
    least 0, which is what the pagination schema of the routes lets through
    (pages from 1, limits from 1 to 100). *)
Definition listTasksByGroup (groupId_ userId : Uuid) (page limit : Z)
  : Promise TaskPage :=
  assertGroupMember groupId_ userId ;;;
  let skip := (page - 1) * limit in
  query (fun db =>
           let visible := filter (inGroupNotDeleted groupId_) (tasks db) in
           mkTaskPage
             (firstn (Z.to_nat limit)
                     (skipn (Z.to_nat skip) (orderByCreatedAtDesc visible)))
             (List.length visible)).

(** The tasks on page [p] of a listing, and none when the listing is
    refused. *)
Definition pageOf (groupId_ userId : Uuid) (limit : Z) (db : Db) (p : nat)
  : list Task :=
  match snd (listTasksByGroup groupId_ userId (Z.of_nat p) limit db) with
  | inr result => page_tasks result
  | inl _ => []
  end.

(** Newest first. *)
Definition newerFirst (a b : Task) : Prop := task_createdAt b <= task_createdAt a.

(* ================================================================== *)
(** ** Vocabulary of the further properties *)
(* ================================================================== *)

(** The computation leaves one table alone. *)
Definition untouched {A} (table : Db -> A) (db db' : Db) : Prop :=
  table db' = table db /\ (nextUuid db <= nextUuid db')%nat.

(** The accounts: identifiers and addresses are unique (the primary key and
    the index [users_email_key]), and identifiers come from the supply. *)
Definition accountInv (db : Db) : Prop :=
  NoDup (map user_id (users db))
  /\ NoDup (map email (users db))
  /\ Forall (fun u => (user_id u < nextUuid db)%nat) (users db).

(** One of the two tables of one-time tokens: identifiers are unique, and an
    account has at most one token. *)
Definition oneTimeRows (supply : nat) (rows : list OneTimeToken) : Prop :=
  NoDup (map ot_id rows)
  /\ NoDup (map ot_userId rows)
  /\ Forall (fun t => (ot_id t < supply)%nat /\ (ot_userId t < supply)%nat) rows.

Definition oneTimeInv (table : Db -> list OneTimeToken) (db : Db) : Prop :=
  oneTimeRows (nextUuid db) (table db).

(** The key of the index [group_members_userId_groupId_key]. *)
Definition membershipKey (m : GroupMember) : Uuid * Uuid :=
  (gm_userId m, gm_groupId m).

Definition membershipInv (db : Db) : Prop :=
  NoDup (map membershipKey (group_members db))
  /\ Forall (fun m => (gm_groupId m < nextUuid db)%nat) (group_members db).

Definition storeInv (db : Db) : Prop :=
  accountInv db
  /\ oneTimeInv verification_tokens db
  /\ oneTimeInv password_reset_tokens db
  /\ membershipInv db.

Definition keepsStoreInv (db db' : Db) : Prop := storeInv db -> storeInv db'.

(** The computation leaves the accounts, the one-time tokens and the
    memberships alone. *)
Definition storeFrame (db db' : Db) : Prop :=
  users db' = users db
  /\ verification_tokens db' = verification_tokens db
  /\ password_reset_tokens db' = password_reset_tokens db
  /\ group_members db' = group_members db
  /\ (nextUuid db <= nextUuid db')%nat.

(** Accounts 2 (suspended) and 5 (not verified yet) of [accountsDb] hold a
    verification token each, 2 the one of the bytes 11 and 5 the one of the
    bytes 12; both expire at 1000. *)
Definition pendingDb : Db :=
  set_nextUuid (fun _ => 42%nat)
    (set_verification_tokens
       (fun _ => [mkOneTimeToken 40%nat (hashToken (HexString 11)) 2%nat 1000;
                  mkOneTimeToken 41%nat (hashToken (HexString 12)) 5%nat 1000])
       accountsDb).

(** The session of [loggedInDb], with the account suspended after the
    login. *)
Definition suspendedDb : Db :=
  set_users (map (administer 0%nat SUSPENDED None)) loggedInDb.

(** The accounts of [accountsDb] with the group and the tasks of [boardDb]:
    account 1 is the admin of group 7 and account 2 a member. *)
Definition teamDb : Db :=
  mkDb (users accountsDb) [] [] [] (group_members boardDb) (tasks boardDb) []
       12%nat 0%nat.

(** The accounts and the group of [teamDb] with a backlog: three tasks of
    group 7, created at 200, 100 and 300, and a fourth that was created at
    300 too and is soft-deleted. *)
Definition backlogTask (id : Uuid) (title_ : string) (createdAt : Time)
  (deletedAt_ : option Time) : Task :=
  mkTask id title_ None OPEN 7%nat 1%nat None None createdAt createdAt deletedAt_.

Definition backlogDb : Db :=
  mkDb (users accountsDb) [] [] [] (group_members boardDb)
       [backlogTask 20%nat "draft" 200 None; backlogTask 21%nat "plan" 100 None;
        backlogTask 22%nat "ship" 300 None;
        backlogTask 23%nat "obsolete" 300 (Some 400)]
       [] 24%nat 0%nat.

Definition taskNotFound : ServiceError :=
  taskError "TASK_NOT_FOUND" "Task not found" 404.

(** What a request may do to the row of a task: the update it writes, and
    what it has checked of the row before. *)
Definition editOf (r : Request) (now : Time) (task : Task) (data : Task -> Task)
  : Prop :=
  match r with
  | UpdateTask _ title_ description_ u =>
      data = task_setText title_ description_ now /\ createdById task = u
  | UpdateTaskStatus _ s _ =>
      data = task_setStatus s now /\ isValidTransition (task_status task) s = true
  | AcceptTask _ u =>
      data = task_setAccepted now /\ task_status task = PENDING_ACCEPTANCE
      /\ assigneeId task = Some u
  | AssignTask _ a u => data = task_setAssignee a now /\ createdById task = u
  | DeleteTask _ u => data = task_setDeleted now /\ createdById task = u
  | _ => False
  end.

(** The [tasks] table after a request: rows were appended, or the row of
    one stored task that is not soft-deleted was updated. *)
Definition tasksStep (r : Request) (now : Time) (db db' : Db) : Prop :=
  (exists extra, tasks db' = tasks db ++ extra)
  \/ (exists task data,
         visibleTask db task
         /\ editOf r now task data
         /\ tasks db' =
            updateMany (fun t => Nat.eqb (task_id t) (task_id task)) data (tasks db)).

Definition tasksGrow (db db' : Db) : Prop :=
  exists extra, tasks db' = tasks db ++ extra.

(** Eve, registered as in [signedUpDb], creates a group (identifier 2) and
    an unassigned task in it (identifier 3), and closes the task; then
    deletes it. *)
Definition closedDb : Db :=
  serve sampleEnv (UpdateTaskStatus 3%nat CLOSED 0%nat) 20
    (serve sampleEnv (CreateTask "write report" None 2%nat None 0%nat) 10
       (serve sampleEnv (CreateGroup 0%nat) 0 signedUpDb)).

Definition closedTask : Task :=
  mkTask 3%nat "write report" None CLOSED 2%nat 0%nat None None 10 20 None.

Definition deletedDb : Db := serve sampleEnv (DeleteTask 3%nat 0%nat) 30 closedDb.

Definition deletedTask : Task :=
  mkTask 3%nat "write report" None CLOSED 2%nat 0%nat None None 10 30 (Some 30).

(** Ada has registered ([registeredDb], account 0 with the verification
    token 1); Bob registers after her (account 2, token 3). *)
Definition twoAccountsDb : Db :=
  serve sampleEnv (Register "bob@example.com" "battery staple" "Bob" 8) 500
        registeredDb.

(** Ada then creates a group (identifier 4) and adds Bob to it. *)
Definition sharedGroupDb : Db :=
  serve sampleEnv (AddMember 4%nat 2%nat MEMBER 0%nat) 700
        (serve sampleEnv (CreateGroup 0%nat) 600 twoAccountsDb).

(* ================================================================== *)
(** ** Two requests in flight together *)
(* ================================================================== *)

(** The server makes one database call at a time, but a handler gives way at
    every [await]: while it waits for the answer to a call, the calls of
    another request run.  [overlap a1 a2 b1 b2] is such a run of the two
    handlers [await a1 a2] and [await b1 b2]: the first part of both has run
    before either goes on.  A handler whose first part rejects is over. *)
Definition overlap {X A Y B} (a1 : Promise X) (a2 : X -> Promise A)
  (b1 : Promise Y) (b2 : Y -> Promise B) : Db -> Db * (Result A * Result B) :=
  fun db =>
    let '(db1, x) := a1 db in
    let '(db2, y) := b1 db1 in
    let '(db3, ra) := match x with
                      | inl e => (db2, inl e)
                      | inr x => a2 x db2
                      end in
    let '(db4, rb) := match y with
                      | inl e => (db3, inl e)
                      | inr y => b2 y db3
                      end in
    (db4, (ra, rb)).

Section InFlight.

Variable env : Env.

(** [refreshTokens] up to the answer to its first call, the lookup of the
    token that is presented. *)
Definition refreshTokens_lookup (rawRefreshToken : RawToken) (now : Time)
  : Promise (RefreshTokenClaims * option RefreshToken) :=
  match verifyRefreshToken (config env) rawRefreshToken now with
  | None => throw (authError "INVALID_TOKEN" "Invalid refresh token" 401)
  | Some claims =>
      let tokenHash := hashToken rawRefreshToken in
      storedToken <- refreshToken_findFirst tokenHash (sub claims) ;;
      resolve (claims, storedToken)
  end.

(** [refreshTokens] from there on. *)
Definition refreshTokens_rotate (now : Time)
  (found : RefreshTokenClaims * option RefreshToken) : Promise AuthTokens :=
  let '(claims, storedToken) := found in
  match storedToken with
  | None =>
      refreshToken_revokeFamily (family claims) ;;;
      throw (authError "TOKEN_REUSE" "Refresh token has been revoked" 401)
  | Some storedToken =>
      if revoked storedToken then
        refreshToken_revokeFamily (family claims) ;;;
        throw (authError "TOKEN_REUSE" "Refresh token has been revoked" 401)
      else if rt_expiresAt storedToken <? now then
        throw (authError "TOKEN_EXPIRED" "Refresh token has expired" 401)
      else
        refreshToken_update (rt_id storedToken) (with_revoked true) ;;;
        user <- user_findUnique_id (sub claims) ;;
        match user with
        | None => throw (authError "USER_NOT_FOUND" "User not found" 401)
        | Some user =>
            if isSome (user_deletedAt user) then
              throw (authError "USER_NOT_FOUND" "User not found" 401)
            else
              createTokenPair env (user_id user) (email user) (status user)
                              (Some (family claims)) now
        end
  end.

End InFlight.

(** [resendVerification] up to the answer to [deleteMany], with the account
    that is to get a token, and from there on. *)
Definition resendVerification_clear (email_ : string) : Promise (option User) :=
  user <- user_findUnique_email email_ ;;
  match user with
  | None => resolve None
  | Some user =>
      if negb (UserStatus_eqb (status user) UNVERIFIED) then resolve None
      else
        write (set_verification_tokens
                 (deleteMany (fun t => Nat.eqb (ot_userId t) (user_id user)))) ;;;
        resolve (Some user)
  end.

Definition resendVerification_issue (randomBytes : nat) (now : Time)
  (pending : option User) : Promise (option RawToken) :=
  match pending with
  | None => resolve None
  | Some user =>
      let '(raw, hash) := generateOpaqueToken randomBytes in
      oneTimeToken_create verification_tokens set_verification_tokens hash
        (user_id user) (now + 24 * 60 * 60 * 1000) ;;;
      resolve (Some raw)
  end.

(** The session of [loggedInDb], with two refreshes of the first token in
    flight together at second 2. *)
Definition racedRefresh : Db * (Result AuthTokens * Result AuthTokens) :=
  overlap (refreshTokens_lookup sampleEnv firstToken 2000)
          (refreshTokens_rotate sampleEnv 2000)
          (refreshTokens_lookup sampleEnv firstToken 2000)
          (refreshTokens_rotate sampleEnv 2000)
          loggedInDb.

(* ================================================================== *)
(** ** Digests as strings ([lib/crypto.ts]) *)
(* ================================================================== *)

(** [verifyTokenHash] compares the hexadecimal strings themselves.  In this
    module a token and a digest are strings of characters, and SHA-256 is a
    parameter [sha256Hex] of the functions that call it. *)
Module Hex.

(** The value of a hexadecimal digit, in either case. *)
Definition hexValue (c : ascii) : option nat :=
  let n := nat_of_ascii c in
  if (48 <=? n)%nat && (n <=? 57)%nat then Some (n - 48)%nat
  else if (97 <=? n)%nat && (n <=? 102)%nat then Some (n - 87)%nat
  else if (65 <=? n)%nat && (n <=? 70)%nat then Some (n - 55)%nat
  else None.

(** [Buffer.from(s, "hex")]: one byte for each pair of digits, up to the
    first pair that is no pair of digits; a last character without a
    partner is dropped. *)
Fixpoint bufferFromHex (s : string) : list nat :=
  match s with
  | String a (String b rest) =>
      match hexValue a, hexValue b with
      | Some x, Some y => (16 * x + y)%nat :: bufferFromHex rest
      | _, _ => []
      end
  | _ => []
  end.

(** [timingSafeEqual], which is called on two buffers of one length. *)
Definition timingSafeEqual (a b : list nat) : bool :=
  if list_eq_dec Nat.eq_dec a b then true else false.

Section Digest.

Variable sha256Hex : string -> string.

Definition hashToken (token : string) : string := sha256Hex token.

Definition verifyTokenHash (rawToken storedHash : string) : bool :=
  let hash := hashToken rawToken in
  if negb (Nat.eqb (String.length hash) (String.length storedHash)) then false
  else
    let a := bufferFromHex hash in
    let b := bufferFromHex storedHash in
    Nat.eqb (List.length a) (List.length b) && timingSafeEqual a b.

End Digest.

End Hex.

(** A digit of a digest as [digest("hex")] writes it: 0 to 9 or a to f. *)
Definition lowerHexDigit (c : ascii) : bool :=
  let n := nat_of_ascii c in
  ((48 <=? n)%nat && (n <=? 57)%nat) || ((97 <=? n)%nat && (n <=? 102)%nat).

Fixpoint allChars (p : ascii -> bool) (s : string) : bool :=
  match s with
  | EmptyString => true
  | String c rest => p c && allChars p rest
  end.

(** What [sha256Hex] returns: 64 digits in lower case. *)
Definition isSha256Hex (s : string) : Prop :=
  String.length s = 64%nat /\ allChars lowerHexDigit s = true.

Definition toLowerAscii (c : ascii) : ascii :=
  let n := nat_of_ascii c in
  if (65 <=? n)%nat && (n <=? 90)%nat then ascii_of_nat (n + 32) else c.

Fixpoint toLowerCase (s : string) : string :=
  match s with
  | EmptyString => EmptyString
  | String c rest => String (toLowerAscii c) (toLowerCase rest)
  end.

(** The 256 characters. *)
Definition allAscii : list ascii := map ascii_of_nat (seq 0 256).

Definition option_nat_eqb (a b : option nat) : bool :=
  match a, b with
  | Some x, Some y => Nat.eqb x y
  | None, None => true
  | _, _ => false
  end.

(** For a digit [a] in lower case: [c] has the value of [a] exactly when [c]
    is [a] up to the case, and the value is below 16. *)
Definition sameDigit (a c : ascii) : bool :=
  implb (lowerHexDigit a)
        (Bool.eqb (option_nat_eqb (Hex.hexValue c) (Hex.hexValue a))
                  (Ascii.eqb (toLowerAscii c) a)
         && match Hex.hexValue a with
            | Some x => (x <? 16)%nat
            | None => false
            end).

(** A digest for the examples: the 64 digits of the SHA-256 of the empty
    string, whatever the token. *)
Definition sampleDigest : string :=
  "e3b0c44298fc1c149afbf4c8996fb92427ae41e4649b934ca495991b7852b855".

Definition sampleSha256Hex (token : string) : string := sampleDigest.

Definition digitBelow16 (c : ascii) : bool :=
  match Hex.hexValue c with
  | Some x => (x <? 16)%nat
  | None => true
  end.

(* ================================================================== *)
(** * Properties *)
(* ================================================================== *)

(* ------------------------------------------------------------------ *)
(** ** Tables with a unique key *)
(* ------------------------------------------------------------------ *)

Section UniqueKey.

Context {A : Type} (key : A -> nat).

Lemma find_by_key (q : A -> bool) (rows : list A) (x : A) :
  NoDup (map key rows) -> In x rows -> q x = true ->
  (forall y, In y rows -> q y = true -> key y = key x) ->
  find q rows = Some x.
Proof.
  induction rows as [|a rows IH]; simpl; intros Hnd Hin Hq Hkey.
  - contradiction.
  - inversion Hnd as [|? ? Hnotin Hnd']; subst.
    destruct Hin as [->|Hin].
    + now rewrite Hq.
    + destruct (q a) eqn:Hqa.
      * exfalso. apply Hnotin.
        rewrite (Hkey a (or_introl eq_refl) Hqa).
        now apply in_map.
      * apply IH; auto.
Qed.

Lemma updateMany_none (p : A -> bool) (data : A -> A) (rows : list A) :
  (forall y, In y rows -> p y = false) -> updateMany p data rows = rows.
Proof.
  induction rows as [|a rows IH]; simpl; intros H; [reflexivity|].
  rewrite (H a (or_introl eq_refl)). f_equal. apply IH. auto.
Qed.

Lemma updateUnique_updateMany (p : A -> bool) (data : A -> A) (n : nat)
      (rows : list A) :
  NoDup (map key rows) ->
  (forall y, p y = true -> key y = n) ->
  updateUnique p data rows = updateMany p data rows.
Proof.
  intros Hnd Hp. induction rows as [|a rows IH]; simpl; [reflexivity|].
  inversion Hnd as [|? ? Hnotin Hnd']; subst.
  destruct (p a) eqn:Hpa.
  - f_equal. symmetry. apply updateMany_none.
    intros y Hy. destruct (p y) eqn:Hpy; [|reflexivity].
    exfalso. apply Hnotin. rewrite (Hp a Hpa), <- (Hp y Hpy). now apply in_map.
  - f_equal. now apply IH.
Qed.

Lemma map_key_updateMany (p : A -> bool) (data : A -> A) (rows : list A) :
  (forall y, key (data y) = key y) ->
  map key (updateMany p data rows) = map key rows.
Proof.
  intros Hk. unfold updateMany. rewrite map_map. apply map_ext.
  intros y. destruct (p y); auto.
Qed.

Lemma In_updateMany (p : A -> bool) (data : A -> A) (rows : list A) (x : A) :
  In x rows -> p x = true -> In (data x) (updateMany p data rows).
Proof.
  intros Hin Hp. unfold updateMany.
  apply in_map_iff. exists x. now rewrite Hp.
Qed.

Lemma In_updateMany_inv (p : A -> bool) (data : A -> A) (rows : list A) (y : A) :
  In y (updateMany p data rows) ->
  exists x, In x rows /\ y = (if p x then data x else x).
Proof.
  unfold updateMany. intros H. apply in_map_iff in H.
  destruct H as [x [Hx Hin]]. exists x. auto.
Qed.

End UniqueKey.

(* ------------------------------------------------------------------ *)
(** ** The task state machine *)
(* ------------------------------------------------------------------ *)

Lemma TaskStatus_eqb_eq (a b : TaskStatus) : TaskStatus_eqb a b = true <-> a = b.
Proof. destruct a, b; simpl; split; congruence. Qed.

(** The lookup of the source decides exactly the table of the design. *)
Lemma isValidTransition_table (from to : TaskStatus) :
  isValidTransition from to = true <-> tableTransition from to.
Proof.
  split.
  - destruct from, to; simpl; intros H; try discriminate; constructor.
  - intros H; destruct H; reflexivity.
Qed.

Lemma isValidTransition_not_table (from to : TaskStatus) :
  ~ tableTransition from to -> isValidTransition from to = false.
Proof.
  intros H. destruct (isValidTransition from to) eqn:E; [|reflexivity].
  exfalso. apply H. now apply isValidTransition_table.
Qed.

Lemma isMember_find (db : Db) (g u : Uuid) :
  isMember db g u = true ->
  exists m, find (sameMembership u g) (group_members db) = Some m.
Proof.
  unfold isMember. intros H.
  destruct (find (sameMembership u g) (group_members db)) eqn:E; eauto.
  apply existsb_exists in H. destruct H as [m [Hin Hm]].
  now rewrite (find_none _ _ E m Hin) in Hm.
Qed.

Lemma isMember_false_find (db : Db) (g u : Uuid) :
  isMember db g u = false ->
  find (sameMembership u g) (group_members db) = None.
Proof.
  unfold isMember. intros H.
  destruct (find (sameMembership u g) (group_members db)) eqn:E; [|reflexivity].
  apply find_some in E. destruct E as [Hin Hm].
  assert (existsb (sameMembership u g) (group_members db) = true)
    by (apply existsb_exists; eauto).
  congruence.
Qed.

Lemma assertGroupMember_ok (db : Db) (g u : Uuid) :
  isMember db g u = true -> assertGroupMember g u db = (db, inr tt).
Proof.
  intros H. apply isMember_find in H. destruct H as [m Hm].
  unfold assertGroupMember, groupMember_findUnique, await, query.
  now rewrite Hm.
Qed.

Lemma assertGroupMember_fails (db : Db) (g u : Uuid) :
  isMember db g u = false ->
  assertGroupMember g u db =
  (db, inl (groupError "NOT_A_MEMBER" "You are not a member of this group" 403)).
Proof.
  intros H. apply isMember_false_find in H.
  unfold assertGroupMember, groupMember_findUnique, await, query.
  now rewrite H.
Qed.

Lemma getTaskById_ok (db : Db) (task : Task) (u : Uuid) :
  visibleTask db task -> isMember db (groupId task) u = true ->
  getTaskById (task_id task) u db = (db, inr task).
Proof.
  intros (Hnd & Hin & Hdel) Hm.
  unfold getTaskById, await at 1, query.
  rewrite (find_by_key task_id _ (tasks db) task Hnd Hin).
  - unfold await. now rewrite (assertGroupMember_ok _ _ _ Hm).
  - now rewrite Nat.eqb_refl, Hdel.
  - intros y _ Hy. apply andb_prop in Hy. now apply Nat.eqb_eq.
Qed.

Lemma getTaskById_not_member (db : Db) (task : Task) (u : Uuid) :
  visibleTask db task -> isMember db (groupId task) u = false ->
  getTaskById (task_id task) u db =
  (db, inl (groupError "NOT_A_MEMBER" "You are not a member of this group" 403)).
Proof.
  intros (Hnd & Hin & Hdel) Hm.
  unfold getTaskById, await at 1, query.
  rewrite (find_by_key task_id _ (tasks db) task Hnd Hin).
  - unfold await. now rewrite (assertGroupMember_fails _ _ _ Hm).
  - now rewrite Nat.eqb_refl, Hdel.
  - intros y _ Hy. apply andb_prop in Hy. now apply Nat.eqb_eq.
Qed.

(** The effect of an update of a visible task: the row is replaced by its
    image under [data], the other rows stay. *)
Lemma task_update_ok (db : Db) (task : Task) (data : Task -> Task) :
  visibleTask db task ->
  task_update (task_id task) data db =
  (set_tasks (updateMany (fun t => Nat.eqb (task_id t) (task_id task)) data) db,
   inr (data task)).
Proof.
  intros (Hnd & Hin & Hdel). unfold task_update.
  rewrite (find_by_key task_id _ (tasks db) task Hnd Hin).
  - f_equal. unfold set_tasks. f_equal.
    apply (updateUnique_updateMany task_id _ _ (task_id task)); auto.
    intros y Hy. now apply Nat.eqb_eq.
  - apply Nat.eqb_refl.
  - intros y _ Hy. now apply Nat.eqb_eq.
Qed.

Lemma visibleTask_updated (db : Db) (task : Task) (data : Task -> Task) :
  visibleTask db task ->
  (forall t, task_id (data t) = task_id t) ->
  deletedAt (data task) = None ->
  visibleTask
    (set_tasks (updateMany (fun t => Nat.eqb (task_id t) (task_id task)) data) db)
    (data task).
Proof.
  intros (Hnd & Hin & Hdel) Hid Hd. repeat split; simpl.
  - now rewrite (map_key_updateMany task_id).
  - apply In_updateMany; auto. apply Nat.eqb_refl.
  - exact Hd.
Qed.

Lemma updateTaskStatus_rejects (db : Db) (task : Task) (to : TaskStatus)
      (userId : Uuid) (now : Time) :
  visibleTask db task -> isMember db (groupId task) userId = true ->
  isValidTransition (task_status task) to = false ->
  updateTaskStatus (task_id task) to userId now db =
  (db, inl (taskError "INVALID_TRANSITION"
              ("Cannot transition from " ++ TaskStatus_name (task_status task)
               ++ " to " ++ TaskStatus_name to)%string 400)).
Proof.
  intros Hv Hm Hno. unfold updateTaskStatus, await.
  rewrite (getTaskById_ok _ _ _ Hv Hm), Hno. reflexivity.
Qed.

Lemma updateTaskStatus_accepts (db : Db) (task : Task) (to : TaskStatus)
      (userId : Uuid) (now : Time) :
  visibleTask db task -> isMember db (groupId task) userId = true ->
  isValidTransition (task_status task) to = true ->
  updateTaskStatus (task_id task) to userId now db =
  (set_tasks (updateMany (fun t => Nat.eqb (task_id t) (task_id task))
                         (task_setStatus to now)) db,
   inr (task_setStatus to now task)).
Proof.
  intros Hv Hm Hyes. unfold updateTaskStatus, await.
  rewrite (getTaskById_ok _ _ _ Hv Hm), Hyes. simpl.
  now apply task_update_ok.
Qed.

(** C4. For every pair [(from, to)] of statuses and every stored task in
    status [from] whose caller is a member of the task's group:
    [updateTaskStatus] rejects with INVALID_TRANSITION, leaving the database
    as it was, when the pair is not in the transition table, and otherwise
    resolves with the task in status [to], which is also what a later read
    of the task gives. *)
Theorem updateTaskStatus_totality (db : Db) (task : Task) (from to : TaskStatus)
        (userId : Uuid) (now : Time) :
  visibleTask db task ->
  task_status task = from ->
  isMember db (groupId task) userId = true ->
  (~ tableTransition from to ->
   updateTaskStatus (task_id task) to userId now db =
   (db, inl (taskError "INVALID_TRANSITION"
               ("Cannot transition from " ++ TaskStatus_name from
                ++ " to " ++ TaskStatus_name to)%string 400)))
  /\
  (tableTransition from to ->
   exists db' updated,
     updateTaskStatus (task_id task) to userId now db = (db', inr updated)
     /\ task_status updated = to
     /\ getTaskById (task_id task) userId db' = (db', inr updated)).
Proof.
  intros Hv <- Hm. split.
  - intros Hno. apply updateTaskStatus_rejects; auto.
    now apply isValidTransition_not_table.
  - intros Hyes. apply isValidTransition_table in Hyes.
    eexists. eexists. split; [now apply updateTaskStatus_accepts|].
    split; [reflexivity|].
    apply (getTaskById_ok _ (task_setStatus to now task) userId).
    + apply visibleTask_updated; auto. simpl. apply Hv.
    + exact Hm.
Qed.

Lemma boardDb_task10_visible :
  visibleTask boardDb
    (mkTask 10%nat "write report" None PENDING_ACCEPTANCE 7%nat 1%nat
            (Some 2%nat) None 100 100 None).
Proof.
  repeat split; simpl; auto.
  repeat constructor; simpl; intuition discriminate.
Defined.

Lemma boardDb_task11_visible :
  visibleTask boardDb
    (mkTask 11%nat "review report" None OPEN 7%nat 1%nat None None 100 100 None).
Proof.
  repeat split; simpl; auto.
  repeat constructor; simpl; intuition discriminate.
Defined.

Lemma updateTaskStatus_totality_witness :
  updateTaskStatus 11%nat PENDING_ACCEPTANCE 2%nat 200 boardDb =
  (boardDb, inl (taskError "INVALID_TRANSITION"
                   "Cannot transition from OPEN to PENDING_ACCEPTANCE" 400))
  /\ exists db' updated,
       updateTaskStatus 11%nat IN_PROGRESS 2%nat 200 boardDb = (db', inr updated)
       /\ task_status updated = IN_PROGRESS.
Proof.
  split.
  - apply (updateTaskStatus_totality boardDb _ OPEN PENDING_ACCEPTANCE 2%nat 200
             boardDb_task11_visible eq_refl eq_refl).
    intros H; inversion H.
  - destruct (updateTaskStatus_totality boardDb _ OPEN IN_PROGRESS 2%nat 200
                boardDb_task11_visible eq_refl eq_refl) as [_ H].
    destruct (H open_to_in_progress) as (db' & updated & H1 & H2 & _).
    exists db', updated. split; assumption.
Defined.

(* ------------------------------------------------------------------ *)
(** ** Preservation of a relation by the computations *)
(* ------------------------------------------------------------------ *)

Section Preservation.

Variable R : Db -> Db -> Prop.
Hypothesis R_refl : forall db, R db db.
Hypothesis R_trans : forall a b c, R a b -> R b c -> R a c.

Lemma preserves_resolve {A} (a : A) : preserves R (resolve a).
Proof. intros db. apply R_refl. Qed.

Lemma preserves_throw {A} (e : ServiceError) : preserves R (@throw A e).
Proof. intros db. apply R_refl. Qed.

Lemma preserves_query {A} (f : Db -> A) : preserves R (query f).
Proof. intros db. apply R_refl. Qed.

Lemma preserves_await {A B} (m : Promise A) (k : A -> Promise B) :
  preserves R m -> (forall a, preserves R (k a)) -> preserves R (await m k).
Proof.
  intros Hm Hk db. unfold await. specialize (Hm db).
  destruct (m db) as [db1 [e|a]]; simpl in *.
  - exact Hm.
  - eapply R_trans; [exact Hm|apply Hk].
Qed.

Lemma preserves_transaction {A} (m : Promise A) :
  preserves R m -> preserves R (transaction m).
Proof.
  intros Hm db. unfold transaction. specialize (Hm db).
  destruct (m db) as [db1 [e|a]]; simpl in *; auto.
Qed.

Lemma preserves_await_resolve {A B} (a : A) (k : A -> Promise B) :
  preserves R (k a) -> preserves R (await (resolve a) k).
Proof. intros H db. apply H. Qed.

Lemma preserves_await_returning {A B} (Q : A -> Prop) (m : Promise A)
      (k : A -> Promise B) :
  preserves R m ->
  (forall db db' a, m db = (db', inr a) -> Q a) ->
  (forall a, Q a -> preserves R (k a)) ->
  preserves R (await m k).
Proof.
  intros Hm HQ Hk db. unfold await. specialize (Hm db). specialize (HQ db).
  destruct (m db) as [db1 [e|a]]; simpl in *.
  - exact Hm.
  - eapply R_trans; [exact Hm|]. apply Hk. now apply (HQ db1).
Qed.

End Preservation.

Create HintDb frames.

Lemma taskFrame_refl (db : Db) : taskFrame db db.
Proof. split; auto. Qed.

Lemma taskFrame_trans (a b c : Db) : taskFrame a b -> taskFrame b c -> taskFrame a c.
Proof. intros [H1 H2] [H3 H4]. split; [congruence|lia]. Qed.

Lemma sessionFrame_refl (db : Db) : sessionFrame db db.
Proof. split; auto. Qed.

Lemma sessionFrame_trans (a b c : Db) :
  sessionFrame a b -> sessionFrame b c -> sessionFrame a c.
Proof. intros [H1 H2] [H3 H4]. split; [congruence|lia]. Qed.

#[local] Hint Resolve taskFrame_refl taskFrame_trans
  sessionFrame_refl sessionFrame_trans : frames.

(** The primitives that write to one table leave the others alone. *)
Ltac frame_leaf :=
  let db := fresh "db" in
  intros db;
  repeat match goal with
         | |- context [match ?x with _ => _ end] => destruct x
         end;
  simpl; split; auto with arith.

Lemma taskFrame_randomUUID : preserves taskFrame randomUUID.
Proof. unfold randomUUID. frame_leaf. Qed.

Lemma sessionFrame_randomUUID : preserves sessionFrame randomUUID.
Proof. unfold randomUUID. frame_leaf. Qed.

Lemma taskFrame_user_update id data : preserves taskFrame (user_update id data).
Proof. unfold user_update. frame_leaf. Qed.

Lemma sessionFrame_user_update id data : preserves sessionFrame (user_update id data).
Proof. unfold user_update. frame_leaf. Qed.

Lemma taskFrame_user_updateWhere where_ data :
  preserves taskFrame (user_updateWhere where_ data).
Proof. unfold user_updateWhere. frame_leaf. Qed.

Lemma sessionFrame_user_updateWhere where_ data :
  preserves sessionFrame (user_updateWhere where_ data).
Proof. unfold user_updateWhere. frame_leaf. Qed.

Lemma taskFrame_user_create data : preserves taskFrame (user_create data).
Proof. unfold user_create. frame_leaf. Qed.

Lemma sessionFrame_user_create data : preserves sessionFrame (user_create data).
Proof. unfold user_create. frame_leaf. Qed.

Lemma taskFrame_verification_create h u e :
  preserves taskFrame (oneTimeToken_create verification_tokens set_verification_tokens h u e).
Proof. unfold oneTimeToken_create. frame_leaf. Qed.

Lemma sessionFrame_verification_create h u e :
  preserves sessionFrame (oneTimeToken_create verification_tokens set_verification_tokens h u e).
Proof. unfold oneTimeToken_create. frame_leaf. Qed.

Lemma taskFrame_reset_create h u e :
  preserves taskFrame (oneTimeToken_create password_reset_tokens set_password_reset_tokens h u e).
Proof. unfold oneTimeToken_create. frame_leaf. Qed.

Lemma sessionFrame_reset_create h u e :
  preserves sessionFrame (oneTimeToken_create password_reset_tokens set_password_reset_tokens h u e).
Proof. unfold oneTimeToken_create. frame_leaf. Qed.

Lemma taskFrame_verification_delete id :
  preserves taskFrame
    (oneTimeToken_delete verification_tokens set_verification_tokens id).
Proof. unfold oneTimeToken_delete. frame_leaf. Qed.

Lemma sessionFrame_verification_delete id :
  preserves sessionFrame
    (oneTimeToken_delete verification_tokens set_verification_tokens id).
Proof. unfold oneTimeToken_delete. frame_leaf. Qed.

Lemma taskFrame_reset_delete id :
  preserves taskFrame
    (oneTimeToken_delete password_reset_tokens set_password_reset_tokens id).
Proof. unfold oneTimeToken_delete. frame_leaf. Qed.

Lemma sessionFrame_reset_delete id :
  preserves sessionFrame
    (oneTimeToken_delete password_reset_tokens set_password_reset_tokens id).
Proof. unfold oneTimeToken_delete. frame_leaf. Qed.

Lemma taskFrame_verifyPassword_call env h p :
  preserves taskFrame (verifyPassword_call env h p).
Proof. unfold verifyPassword_call. frame_leaf. Qed.

Lemma sessionFrame_verifyPassword_call env h p :
  preserves sessionFrame (verifyPassword_call env h p).
Proof. unfold verifyPassword_call. frame_leaf. Qed.

Lemma taskFrame_refreshToken_create data :
  preserves taskFrame (refreshToken_create data).
Proof. unfold refreshToken_create. frame_leaf. Qed.

Lemma taskFrame_refreshToken_update id data :
  preserves taskFrame (refreshToken_update id data).
Proof. unfold refreshToken_update. frame_leaf. Qed.

Lemma taskFrame_groupMember_delete u g :
  preserves taskFrame (groupMember_delete u g).
Proof. unfold groupMember_delete. frame_leaf. Qed.

Lemma sessionFrame_groupMember_delete u g :
  preserves sessionFrame (groupMember_delete u g).
Proof. unfold groupMember_delete. frame_leaf. Qed.

Lemma taskFrame_group_create u : preserves taskFrame (group_create u).
Proof. unfold group_create. frame_leaf. Qed.

Lemma sessionFrame_group_create u : preserves sessionFrame (group_create u).
Proof. unfold group_create. frame_leaf. Qed.

Lemma sessionFrame_task_create data : preserves sessionFrame (task_create data).
Proof. unfold task_create. frame_leaf. Qed.

Lemma sessionFrame_task_update id data : preserves sessionFrame (task_update id data).
Proof. unfold task_update. frame_leaf. Qed.

Lemma taskFrame_write_other (f : Db -> Db) :
  (forall db, tasks (f db) = tasks db) ->
  (forall db, nextUuid (f db) = nextUuid db) ->
  preserves taskFrame (write f).
Proof. intros H1 H2 db. split; simpl; [apply H1|rewrite H2; auto]. Qed.

Lemma sessionFrame_write_other (f : Db -> Db) :
  (forall db, refresh_tokens (f db) = refresh_tokens db) ->
  (forall db, nextUuid (f db) = nextUuid db) ->
  preserves sessionFrame (write f).
Proof. intros H1 H2 db. split; simpl; [apply H1|rewrite H2; auto]. Qed.

#[local] Hint Resolve
  taskFrame_randomUUID sessionFrame_randomUUID
  taskFrame_user_update sessionFrame_user_update
  taskFrame_user_updateWhere sessionFrame_user_updateWhere
  taskFrame_user_create sessionFrame_user_create
  taskFrame_verification_create sessionFrame_verification_create
  taskFrame_reset_create sessionFrame_reset_create
  taskFrame_verification_delete sessionFrame_verification_delete
  taskFrame_reset_delete sessionFrame_reset_delete
  taskFrame_verifyPassword_call sessionFrame_verifyPassword_call
  taskFrame_refreshToken_create taskFrame_refreshToken_update
  taskFrame_groupMember_delete sessionFrame_groupMember_delete
  taskFrame_group_create sessionFrame_group_create
  sessionFrame_task_create sessionFrame_task_update : frames.

(** A computation built from framed primitives is framed. *)
Ltac frame_side :=
  first [ exact taskFrame_refl | exact taskFrame_trans
        | exact sessionFrame_refl | exact sessionFrame_trans ].

Ltac frame_steps :=
  repeat
    (intros;
     first
       [ solve [auto with frames]
       | apply taskFrame_write_other; [reflexivity | reflexivity]
       | apply sessionFrame_write_other; [reflexivity | reflexivity]
       | apply preserves_resolve; frame_side
       | apply preserves_throw; frame_side
       | apply preserves_query; frame_side
       | apply preserves_transaction; [frame_side .. | ]
       | apply preserves_await; [frame_side .. | | ]
       | match goal with
         | |- preserves _ (match ?x with _ => _ end) => destruct x
         | |- preserves _ (let '(_, _) := ?x in _) => destruct x
         end ]).

Section Frames.

Variable env : Env.

(** The session operations do not touch the tasks. *)
Lemma taskFrame_createTokenPair u e s f now :
  preserves taskFrame (createTokenPair env u e s f now).
Proof. unfold createTokenPair. frame_steps. Qed.

Lemma taskFrame_registerUser e p n rnd now :
  preserves taskFrame (registerUser env e p n rnd now).
Proof.
  unfold registerUser, user_findUnique_email. frame_steps.
Qed.

Lemma taskFrame_loginUser e p now : preserves taskFrame (loginUser env e p now).
Proof.
  pose proof taskFrame_createTokenPair.
  unfold loginUser, user_findUnique_email. frame_steps.
Qed.

Lemma taskFrame_refreshTokens raw now :
  preserves taskFrame (refreshTokens env raw now).
Proof.
  pose proof taskFrame_createTokenPair.
  unfold refreshTokens, refreshToken_findFirst, refreshToken_revokeFamily,
    user_findUnique_id.
  frame_steps.
Qed.

Lemma taskFrame_logoutUser raw u : preserves taskFrame (logoutUser raw u).
Proof.
  unfold logoutUser, refreshToken_findFirst, refreshToken_revokeFamily.
  frame_steps.
Qed.

Lemma taskFrame_verifyEmail raw now : preserves taskFrame (verifyEmail raw now).
Proof. unfold verifyEmail, oneTimeToken_findUnique. frame_steps. Qed.

Lemma taskFrame_resendVerificationRoute e rnd now :
  preserves taskFrame (resendVerificationRoute env e rnd now).
Proof.
  unfold resendVerificationRoute, resendVerification, user_findUnique_email,
    enqueueEmail.
  frame_steps.
Qed.

Lemma taskFrame_forgotPasswordRoute e rnd now :
  preserves taskFrame (forgotPasswordRoute env e rnd now).
Proof.
  unfold forgotPasswordRoute, requestPasswordReset, user_findUnique_email,
    enqueueEmail.
  frame_steps.
Qed.

Lemma taskFrame_resetPassword raw p now :
  preserves taskFrame (resetPassword env raw p now).
Proof. unfold resetPassword, oneTimeToken_findUnique. frame_steps. Qed.

Lemma taskFrame_updateProfile u n : preserves taskFrame (updateProfile u n).
Proof. unfold updateProfile. frame_steps. Qed.

Lemma sessionFrame_updateProfile u n : preserves sessionFrame (updateProfile u n).
Proof. unfold updateProfile. frame_steps. Qed.

Lemma taskFrame_createGroup u : preserves taskFrame (createGroup u).
Proof. unfold createGroup. frame_steps. Qed.

Lemma taskFrame_assertGroupAdmin g u : preserves taskFrame (assertGroupAdmin g u).
Proof. unfold assertGroupAdmin, groupMember_findUnique. frame_steps. Qed.

Lemma taskFrame_addMember g u r a : preserves taskFrame (addMember g u r a).
Proof.
  pose proof taskFrame_assertGroupAdmin.
  unfold addMember, groupMember_findUnique. frame_steps.
Qed.

Lemma taskFrame_removeMember g t a : preserves taskFrame (removeMember g t a).
Proof.
  pose proof taskFrame_assertGroupAdmin.
  unfold removeMember, groupMember_findUnique. frame_steps.
Qed.

(** Registration, the one-time tokens, the groups and the tasks do not touch
    the refresh tokens. *)
Lemma sessionFrame_registerUser e p n rnd now :
  preserves sessionFrame (registerUser env e p n rnd now).
Proof. unfold registerUser, user_findUnique_email. frame_steps. Qed.

Lemma sessionFrame_verifyEmail raw now : preserves sessionFrame (verifyEmail raw now).
Proof. unfold verifyEmail, oneTimeToken_findUnique. frame_steps. Qed.

Lemma sessionFrame_resendVerificationRoute e rnd now :
  preserves sessionFrame (resendVerificationRoute env e rnd now).
Proof.
  unfold resendVerificationRoute, resendVerification, user_findUnique_email,
    enqueueEmail.
  frame_steps.
Qed.

Lemma sessionFrame_forgotPasswordRoute e rnd now :
  preserves sessionFrame (forgotPasswordRoute env e rnd now).
Proof.
  unfold forgotPasswordRoute, requestPasswordReset, user_findUnique_email,
    enqueueEmail.
  frame_steps.
Qed.

Lemma sessionFrame_createGroup u : preserves sessionFrame (createGroup u).
Proof. unfold createGroup. frame_steps. Qed.

Lemma sessionFrame_assertGroupAdmin g u :
  preserves sessionFrame (assertGroupAdmin g u).
Proof. unfold assertGroupAdmin, groupMember_findUnique. frame_steps. Qed.

Lemma sessionFrame_assertGroupMember g u :
  preserves sessionFrame (assertGroupMember g u).
Proof. unfold assertGroupMember, groupMember_findUnique. frame_steps. Qed.

Lemma sessionFrame_addMember g u r a : preserves sessionFrame (addMember g u r a).
Proof.
  pose proof sessionFrame_assertGroupAdmin.
  unfold addMember, groupMember_findUnique. frame_steps.
Qed.

Lemma sessionFrame_removeMember g t a : preserves sessionFrame (removeMember g t a).
Proof.
  pose proof sessionFrame_assertGroupAdmin.
  unfold removeMember, groupMember_findUnique. frame_steps.
Qed.

Lemma sessionFrame_getTaskById id u : preserves sessionFrame (getTaskById id u).
Proof.
  pose proof sessionFrame_assertGroupMember.
  unfold getTaskById. frame_steps.
Qed.

Lemma sessionFrame_enqueueAssignmentEmail a b :
  preserves sessionFrame (enqueueAssignmentEmail a b).
Proof.
  unfold enqueueAssignmentEmail, user_findUnique_id, enqueueEmail. frame_steps.
Qed.

Lemma sessionFrame_createTask t d g a u now :
  preserves sessionFrame (createTask env t d g a u now).
Proof.
  pose proof sessionFrame_assertGroupMember.
  pose proof sessionFrame_enqueueAssignmentEmail.
  unfold createTask. frame_steps.
Qed.

Lemma sessionFrame_updateTask id t d u now :
  preserves sessionFrame (updateTask id t d u now).
Proof.
  pose proof sessionFrame_getTaskById.
  unfold updateTask. frame_steps.
Qed.

Lemma sessionFrame_updateTaskStatus id s u now :
  preserves sessionFrame (updateTaskStatus id s u now).
Proof.
  pose proof sessionFrame_getTaskById.
  unfold updateTaskStatus. frame_steps.
Qed.

Lemma sessionFrame_acceptTask id u now :
  preserves sessionFrame (acceptTask id u now).
Proof.
  pose proof sessionFrame_getTaskById.
  unfold acceptTask. frame_steps.
Qed.

Lemma sessionFrame_assignTask id a u now :
  preserves sessionFrame (assignTask env id a u now).
Proof.
  pose proof sessionFrame_getTaskById.
  pose proof sessionFrame_assertGroupMember.
  pose proof sessionFrame_enqueueAssignmentEmail.
  unfold assignTask. frame_steps.
Qed.

Lemma sessionFrame_deleteTask id u now :
  preserves sessionFrame (deleteTask id u now).
Proof.
  pose proof sessionFrame_getTaskById.
  unfold deleteTask. frame_steps.
Qed.

End Frames.

(* ------------------------------------------------------------------ *)
(** ** The invariant of the tasks *)
(* ------------------------------------------------------------------ *)

Lemma preserves_weaken {A} (R R' : Db -> Db -> Prop) (m : Promise A) :
  (forall a b, R a b -> R' a b) -> preserves R m -> preserves R' m.
Proof. intros H Hm db. apply H, Hm. Qed.

Lemma taskInv_frame (db db' : Db) : taskFrame db db' -> taskInv db -> taskInv db'.
Proof.
  intros [Ht Hn] [Hnd Hall]. split; rewrite Ht; auto.
  eapply Forall_impl; [|exact Hall]. simpl. intros t [H1 H2]. split; [lia|auto].
Qed.

Lemma keepsTaskInv_refl (db : Db) : keepsTaskInv db db.
Proof. intros H; exact H. Qed.

Lemma keepsTaskInv_trans (a b c : Db) :
  keepsTaskInv a b -> keepsTaskInv b c -> keepsTaskInv a c.
Proof. unfold keepsTaskInv. auto. Qed.

Lemma keepsTaskInv_framed {A} (m : Promise A) :
  preserves taskFrame m -> preserves keepsTaskInv m.
Proof.
  apply preserves_weaken. intros a b H Ha. now apply (taskInv_frame a b).
Qed.

Lemma map_key_updateUnique {A} (key : A -> nat) (p : A -> bool) (data : A -> A)
      (rows : list A) :
  (forall y, key (data y) = key y) ->
  map key (updateUnique p data rows) = map key rows.
Proof.
  intros Hk. induction rows as [|a rows IH]; simpl; [reflexivity|].
  destruct (p a); simpl; [now rewrite Hk|now rewrite IH].
Qed.

Lemma Forall_updateUnique {A} (P : A -> Prop) (p : A -> bool) (data : A -> A)
      (rows : list A) :
  (forall y, P y -> p y = true -> P (data y)) ->
  Forall P rows -> Forall P (updateUnique p data rows).
Proof.
  intros Hd. induction 1 as [|a rows Ha Hrows IH]; simpl; [constructor|].
  destruct (p a) eqn:E; constructor; auto.
Qed.

Lemma keepsTaskInv_task_update (id : Uuid) (data : Task -> Task) :
  (forall t, task_id (data t) = task_id t) ->
  (forall t, taskRowOk t -> taskRowOk (data t)) ->
  preserves keepsTaskInv (task_update id data).
Proof.
  intros Hid Hok db [Hnd Hall]. unfold task_update.
  destruct (find _ (tasks db)); simpl; [|now split].
  split; simpl.
  - now rewrite map_key_updateUnique.
  - apply Forall_updateUnique; auto.
    intros y [H1 H2] _. rewrite Hid. auto.
Qed.

Lemma keepsTaskInv_task_create (data : Uuid -> Task) :
  (forall id, task_id (data id) = id) ->
  (forall id, taskRowOk (data id)) ->
  preserves keepsTaskInv (task_create data).
Proof.
  intros Hid Hok db [Hnd Hall]. unfold task_create. split; simpl.
  - rewrite map_app. simpl. rewrite Hid.
    apply NoDup_app; [exact Hnd|repeat constructor; intros []|].
    intros a Hin [<-|[]]. apply in_map_iff in Hin.
    destruct Hin as [t [Ht Hin]]. rewrite Forall_forall in Hall.
    destruct (Hall t Hin) as [Hlt _]. lia.
  - apply Forall_app. split.
    + eapply Forall_impl; [|exact Hall]. simpl. intros t [H1 H2]. split; [lia|auto].
    + constructor; [|constructor]. rewrite Hid. split; [lia|apply Hok].
Qed.

Section TaskInvariant.

Variable env : Env.

Lemma taskFrame_assertGroupMember g u : preserves taskFrame (assertGroupMember g u).
Proof. unfold assertGroupMember, groupMember_findUnique. frame_steps. Qed.

Lemma taskFrame_getTaskById id u : preserves taskFrame (getTaskById id u).
Proof.
  pose proof taskFrame_assertGroupMember.
  unfold getTaskById. frame_steps.
Qed.

Lemma taskFrame_enqueueAssignmentEmail a b :
  preserves taskFrame (enqueueAssignmentEmail a b).
Proof.
  unfold enqueueAssignmentEmail, user_findUnique_id, enqueueEmail. frame_steps.
Qed.

Ltac inv_steps :=
  repeat
    (intros;
     first
       [ apply keepsTaskInv_framed;
         solve [ apply taskFrame_assertGroupMember
               | apply taskFrame_getTaskById
               | apply taskFrame_enqueueAssignmentEmail ]
       | apply preserves_resolve; exact keepsTaskInv_refl
       | apply preserves_throw; exact keepsTaskInv_refl
       | apply preserves_await; [exact keepsTaskInv_trans | | ]
       | match goal with
         | |- preserves _ (match ?x with _ => _ end) => destruct x eqn:?
         end ]).

Lemma createTask_initialStatus (g assignee : Uuid) (db db' : Db) (s : TaskStatus) :
  (if negb (isFeatureEnabled env ENABLE_ASSIGNMENTS)
   then throw (taskError "FEATURE_DISABLED"
                         "Task assignments are currently disabled" 400)
   else assertGroupMember g assignee ;;; resolve PENDING_ACCEPTANCE) db
  = (db', inr s) ->
  s = PENDING_ACCEPTANCE.
Proof.
  destruct (negb (isFeatureEnabled env ENABLE_ASSIGNMENTS)).
  - discriminate.
  - unfold await, resolve.
    destruct (assertGroupMember g assignee db) as [db1 [e|[]]]; congruence.
Qed.

Lemma keepsTaskInv_createTask t d g a u now :
  preserves keepsTaskInv (createTask env t d g a u now).
Proof.
  unfold createTask. destruct a as [assignee|].
  - apply preserves_await; [exact keepsTaskInv_trans| |intros _].
    { apply keepsTaskInv_framed, taskFrame_assertGroupMember. }
    apply preserves_await_returning
      with (Q := fun s => s = PENDING_ACCEPTANCE);
      [exact keepsTaskInv_trans| | |].
    + inv_steps.
    + intros db db' s. apply createTask_initialStatus.
    + intros s ->. inv_steps.
      apply keepsTaskInv_task_create; [reflexivity|].
      intros id _. simpl. split; [reflexivity|discriminate].
  - apply preserves_await; [exact keepsTaskInv_trans| |intros _].
    { apply keepsTaskInv_framed, taskFrame_assertGroupMember. }
    apply preserves_await_resolve. inv_steps.
    apply keepsTaskInv_task_create; [reflexivity|].
    intros id Hp. discriminate Hp.
Qed.

Lemma isValidTransition_not_pending (from to : TaskStatus) :
  isValidTransition from to = true -> to <> PENDING_ACCEPTANCE.
Proof. destruct from, to; cbv; intros H; congruence. Qed.

Lemma keepsTaskInv_updateTask id t d u now :
  preserves keepsTaskInv (updateTask id t d u now).
Proof.
  unfold updateTask. inv_steps.
  apply keepsTaskInv_task_update; [reflexivity|].
  intros t0 Hok Hp. apply Hok, Hp.
Qed.

Lemma keepsTaskInv_updateTaskStatus id s u now :
  preserves keepsTaskInv (updateTaskStatus id s u now).
Proof.
  unfold updateTaskStatus. inv_steps.
  apply keepsTaskInv_task_update; [reflexivity|].
  intros t0 _ Hp. simpl in Hp. subst s.
  match goal with
  | H : negb (isValidTransition _ _) = false |- _ =>
      apply negb_false_iff, isValidTransition_not_pending in H; congruence
  end.
Qed.

Lemma keepsTaskInv_acceptTask id u now :
  preserves keepsTaskInv (acceptTask id u now).
Proof.
  unfold acceptTask. inv_steps.
  apply keepsTaskInv_task_update; [reflexivity|].
  intros t0 _ Hp. discriminate Hp.
Qed.

Lemma keepsTaskInv_assignTask id a u now :
  preserves keepsTaskInv (assignTask env id a u now).
Proof.
  unfold assignTask. inv_steps.
  apply keepsTaskInv_task_update; [reflexivity|].
  intros t0 _ _. simpl. split; [reflexivity|discriminate].
Qed.

Lemma keepsTaskInv_deleteTask id u now :
  preserves keepsTaskInv (deleteTask id u now).
Proof.
  unfold deleteTask. inv_steps.
  apply keepsTaskInv_task_update; [reflexivity|].
  intros t0 Hok Hp. apply Hok, Hp.
Qed.

Lemma keepsTaskInv_serve (r : Request) (now : Time) (db : Db) :
  taskInv db -> taskInv (serve env r now db).
Proof.
  intros H.
  destruct r; cbn [serve];
    first
      [ refine (keepsTaskInv_framed _ _ _ H);
        solve [ apply taskFrame_registerUser | apply taskFrame_loginUser
              | apply taskFrame_refreshTokens | apply taskFrame_logoutUser
              | apply taskFrame_verifyEmail
              | apply taskFrame_resendVerificationRoute
              | apply taskFrame_forgotPasswordRoute
              | apply taskFrame_resetPassword | apply taskFrame_updateProfile
              | apply taskFrame_createGroup
              | apply taskFrame_addMember | apply taskFrame_removeMember ]
      | now apply keepsTaskInv_createTask
      | now apply keepsTaskInv_updateTask
      | now apply keepsTaskInv_updateTaskStatus
      | now apply keepsTaskInv_acceptTask
      | now apply keepsTaskInv_assignTask
      | now apply keepsTaskInv_deleteTask ].
Qed.

(** Every reachable state satisfies the invariant of the tasks: identifiers
    are unique, and a task that waits for acceptance has an assignee and no
    acceptance date. *)
Lemma reachable_taskInv (db : Db) : reachable env db -> taskInv db.
Proof.
  induction 1.
  - split; constructor.
  - now apply keepsTaskInv_serve.
  - exact IHreachable.
Qed.

End TaskInvariant.

(* ------------------------------------------------------------------ *)
(** ** Status updates change the status only *)
(* ------------------------------------------------------------------ *)

Lemma updateTaskStatus_inversion (db db' : Db) (task updated : Task)
      (to : TaskStatus) (userId : Uuid) (now : Time) :
  visibleTask db task ->
  updateTaskStatus (task_id task) to userId now db = (db', inr updated) ->
  isMember db (groupId task) userId = true
  /\ isValidTransition (task_status task) to = true
  /\ db' = set_tasks (updateMany (fun t => Nat.eqb (task_id t) (task_id task))
                                 (task_setStatus to now)) db
  /\ updated = task_setStatus to now task.
Proof.
  intros Hv Hrun.
  destruct (isMember db (groupId task) userId) eqn:Hm.
  - destruct (isValidTransition (task_status task) to) eqn:Ht.
    + rewrite (updateTaskStatus_accepts _ _ _ _ _ Hv Hm Ht) in Hrun.
      inversion Hrun. auto.
    + rewrite (updateTaskStatus_rejects _ _ _ _ _ Hv Hm Ht) in Hrun. discriminate.
  - unfold updateTaskStatus, await in Hrun.
    rewrite (getTaskById_not_member _ _ _ Hv Hm) in Hrun. discriminate.
Qed.

Lemma acceptTask_ok (db : Db) (task : Task) (userId : Uuid) (now : Time) :
  visibleTask db task -> isMember db (groupId task) userId = true ->
  assigneeId task = Some userId -> task_status task = PENDING_ACCEPTANCE ->
  acceptTask (task_id task) userId now db =
  (set_tasks (updateMany (fun t => Nat.eqb (task_id t) (task_id task))
                         (task_setAccepted now)) db,
   inr (task_setAccepted now task)).
Proof.
  intros Hv Hm Ha Hs. unfold acceptTask, await.
  rewrite (getTaskById_ok _ _ _ Hv Hm), Ha, Hs, Nat.eqb_refl. simpl.
  now apply task_update_ok.
Qed.

(** C10. A successful [updateTaskStatus] on a stored task of a reachable
    state changes the status of that task and nothing else of it: title,
    description, group, creator, assignee, acceptance date and deletion mark
    are as before (as are its identifier and creation date; the schema stamps
    [updatedAt]), and the other tasks stay as they are.  The new status is
    never PENDING_ACCEPTANCE.  A task moved from PENDING_ACCEPTANCE this way
    keeps a null acceptance date, whereas [acceptTask] by the assignee would
    have stamped it. *)
Theorem updateTaskStatus_changes_status_only (env : Env) (db db' : Db)
        (task updated : Task) (to : TaskStatus) (userId : Uuid) (now : Time) :
  reachable env db ->
  In task (tasks db) -> deletedAt task = None ->
  updateTaskStatus (task_id task) to userId now db = (db', inr updated) ->
  (task_id updated = task_id task
   /\ title updated = title task
   /\ description updated = description task
   /\ groupId updated = groupId task
   /\ createdById updated = createdById task
   /\ assigneeId updated = assigneeId task
   /\ acceptedAt updated = acceptedAt task
   /\ task_createdAt updated = task_createdAt task
   /\ deletedAt updated = deletedAt task)
  /\ task_status updated = to
  /\ In updated (tasks db')
  /\ (forall other, In other (tasks db) -> task_id other <> task_id task ->
                    In other (tasks db'))
  /\ to <> PENDING_ACCEPTANCE
  /\ (task_status task = PENDING_ACCEPTANCE ->
      acceptedAt updated = None
      /\ (assigneeId task = Some userId ->
          exists db2 accepted,
            acceptTask (task_id task) userId now db = (db2, inr accepted)
            /\ acceptedAt accepted = Some now)).
Proof.
  intros Hreach Hin Hdel Hrun.
  destruct (reachable_taskInv env db Hreach) as [Hnd Hall].
  assert (Hv : visibleTask db task) by (repeat split; assumption).
  destruct (updateTaskStatus_inversion _ _ _ _ _ _ _ Hv Hrun)
    as (Hm & Ht & -> & ->).
  split; [simpl; repeat split; reflexivity|].
  split; [reflexivity|].
  split; [simpl; apply In_updateMany; [assumption|apply Nat.eqb_refl]|].
  split.
  { intros other Ho Hne. simpl. unfold updateMany. apply in_map_iff.
    exists other. split; [|assumption].
    destruct (Nat.eqb_spec (task_id other) (task_id task)); [contradiction|reflexivity]. }
  split; [exact (isValidTransition_not_pending _ _ Ht)|].
  intros Hp. rewrite Forall_forall in Hall.
  destruct (Hall task Hin) as [_ Hok]. destruct (Hok Hp) as [Hacc _].
  split; [exact Hacc|].
  intros Ha. eexists. eexists. split.
  - now apply acceptTask_ok.
  - reflexivity.
Qed.

Lemma handshakeDb_reachable : reachable sampleEnv handshakeDb.
Proof. unfold handshakeDb. repeat constructor. Defined.

Lemma updateTaskStatus_changes_status_only_witness :
  acceptedAt (task_setStatus OPEN 20 handshakeTask) = None
  /\ exists db2 accepted,
       acceptTask 3%nat 0%nat 20 handshakeDb = (db2, inr accepted)
       /\ acceptedAt accepted = Some 20.
Proof.
  destruct (updateTaskStatus_changes_status_only sampleEnv handshakeDb
              (fst (updateTaskStatus 3%nat OPEN 0%nat 20 handshakeDb))
              handshakeTask (task_setStatus OPEN 20 handshakeTask)
              OPEN 0%nat 20 handshakeDb_reachable)
    as (_ & _ & _ & _ & _ & H).
  - simpl. auto.
  - reflexivity.
  - reflexivity.
  - destruct (H eq_refl) as [H1 H2]. split; [exact H1|].
    exact (H2 eq_refl).
Defined.

(* ------------------------------------------------------------------ *)
(** ** The assignment handshake *)
(* ------------------------------------------------------------------ *)

Lemma enqueueAssignmentEmail_resolves (a b : Uuid) (db : Db) :
  exists db', enqueueAssignmentEmail a b db = (db', inr tt)
              /\ tasks db' = tasks db
              /\ group_members db' = group_members db.
Proof.
  unfold enqueueAssignmentEmail, await, user_findUnique_id, query, enqueueEmail,
    write, resolve.
  repeat match goal with
         | |- context [find ?p ?l] => destruct (find p l)
         end; eauto.
Qed.

Lemma visibleTask_ext (db db' : Db) (task : Task) :
  tasks db' = tasks db -> visibleTask db task -> visibleTask db' task.
Proof. unfold visibleTask. intros ->. auto. Qed.

Lemma isMember_ext (db db' : Db) (g u : Uuid) :
  group_members db' = group_members db -> isMember db' g u = isMember db g u.
Proof. unfold isMember. now intros ->. Qed.

Lemma createTask_assigned (env : Env) (db : Db) (title_ : string)
      (description_ : option string) (g assignee creator : Uuid) (now : Time) :
  ENABLE_ASSIGNMENTS (config env) = true ->
  isMember db g creator = true -> isMember db g assignee = true ->
  exists db',
    createTask env title_ description_ g (Some assignee) creator now db =
    (db', inr (mkTask (nextUuid db) title_ description_ PENDING_ACCEPTANCE g
                      creator (Some assignee) None now now None))
    /\ In (mkTask (nextUuid db) title_ description_ PENDING_ACCEPTANCE g
                  creator (Some assignee) None now now None) (tasks db').
Proof.
  intros Hflag Hc Ha. unfold createTask, await at 1.
  rewrite (assertGroupMember_ok _ _ _ Hc).
  unfold await at 1. unfold isFeatureEnabled. rewrite Hflag. simpl.
  unfold await at 1. rewrite (assertGroupMember_ok _ _ _ Ha).
  unfold resolve at 1. unfold await at 1. unfold task_create.
  unfold await.
  match goal with
  | |- context [mkTask ?i ?t ?d ?s ?g ?c ?a ?acc ?n1 ?n2 ?del] =>
      set (task := mkTask i t d s g c a acc n1 n2 del)
  end.
  set (db1 := set_nextUuid S (set_tasks (fun rows => rows ++ [task]) db)).
  assert (Hin : In task (tasks db1)) by (simpl; apply in_or_app; right; now left).
  destruct (ENABLE_EMAIL (config env)).
  - destruct (enqueueAssignmentEmail_resolves creator assignee db1)
      as (db2 & E & Ht & _).
    rewrite E. exists db2. split; [reflexivity|]. now rewrite Ht.
  - exists db1. split; [reflexivity|assumption].
Qed.

Lemma acceptTask_forbidden (db : Db) (task : Task) (userId : Uuid) (now : Time) :
  visibleTask db task -> isMember db (groupId task) userId = true ->
  assigneeId task <> Some userId ->
  acceptTask (task_id task) userId now db =
  (db, inl (taskError "FORBIDDEN" "Only the assigned user can accept this task" 403)).
Proof.
  intros Hv Hm Ha. unfold acceptTask, await.
  rewrite (getTaskById_ok _ _ _ Hv Hm).
  destruct (assigneeId task) as [a|]; [|reflexivity].
  destruct (Nat.eqb_spec a userId); [congruence|reflexivity].
Qed.

Lemma acceptTask_not_member (db : Db) (task : Task) (userId : Uuid) (now : Time) :
  visibleTask db task -> isMember db (groupId task) userId = false ->
  acceptTask (task_id task) userId now db =
  (db, inl (groupError "NOT_A_MEMBER" "You are not a member of this group" 403)).
Proof.
  intros Hv Hm. unfold acceptTask, await.
  now rewrite (getTaskById_not_member _ _ _ Hv Hm).
Qed.

Lemma acceptTask_invalid_state (db : Db) (task : Task) (userId : Uuid) (now : Time) :
  visibleTask db task -> isMember db (groupId task) userId = true ->
  assigneeId task = Some userId -> task_status task <> PENDING_ACCEPTANCE ->
  acceptTask (task_id task) userId now db =
  (db, inl (taskError "INVALID_STATE" "Task is not pending acceptance" 400)).
Proof.
  intros Hv Hm Ha Hs. unfold acceptTask, await.
  rewrite (getTaskById_ok _ _ _ Hv Hm), Ha, Nat.eqb_refl. simpl.
  destruct (TaskStatus_eqb (task_status task) PENDING_ACCEPTANCE) eqn:E.
  - apply TaskStatus_eqb_eq in E. contradiction.
  - reflexivity.
Qed.

Lemma assignTask_ok (env : Env) (db : Db) (task : Task) (assignee : Uuid)
      (now : Time) :
  ENABLE_ASSIGNMENTS (config env) = true ->
  visibleTask db task ->
  isMember db (groupId task) (createdById task) = true ->
  isMember db (groupId task) assignee = true ->
  exists db',
    assignTask env (task_id task) assignee (createdById task) now db =
    (db', inr (task_setAssignee assignee now task))
    /\ tasks db' = updateMany (fun t => Nat.eqb (task_id t) (task_id task))
                              (task_setAssignee assignee now) (tasks db)
    /\ group_members db' = group_members db.
Proof.
  intros Hflag Hv Hc Ha. unfold assignTask, isFeatureEnabled. rewrite Hflag. simpl.
  unfold await at 1. rewrite (getTaskById_ok _ _ _ Hv Hc).
  rewrite Nat.eqb_refl. simpl.
  unfold await at 1. rewrite (assertGroupMember_ok _ _ _ Ha).
  unfold await at 1. rewrite (task_update_ok _ _ _ Hv).
  unfold await, resolve.
  destruct (ENABLE_EMAIL (config env)).
  - match goal with
    | |- context [enqueueAssignmentEmail ?a ?b ?d] =>
        destruct (enqueueAssignmentEmail_resolves a b d) as (db2 & E & Ht & Hg)
    end.
    rewrite E. exists db2. split; [reflexivity|]. rewrite Ht, Hg. split; reflexivity.
  - eexists. split; [reflexivity|]. split; reflexivity.
Qed.

Lemma assignTask_forbidden (env : Env) (db : Db) (task : Task)
      (assignee userId : Uuid) (now : Time) :
  ENABLE_ASSIGNMENTS (config env) = true ->
  visibleTask db task ->
  isMember db (groupId task) userId = true ->
  createdById task <> userId ->
  assignTask env (task_id task) assignee userId now db =
  (db, inl (taskError "FORBIDDEN" "Only the task creator can assign this task" 403)).
Proof.
  intros Hflag Hv Hm Hne. unfold assignTask, isFeatureEnabled. rewrite Hflag. simpl.
  unfold await. rewrite (getTaskById_ok _ _ _ Hv Hm).
  destruct (Nat.eqb_spec (createdById task) userId); [contradiction|reflexivity].
Qed.

(** C5, as amended.  With assignments enabled, for every member [U] of a
    group: a member who creates a task with assignee [U] gets a task in
    status PENDING_ACCEPTANCE; [acceptTask] by [U] on such a task puts it in
    status OPEN and stamps the acceptance date, and on a task of [U] in any
    other status rejects with INVALID_STATE; [acceptTask] by a member of the
    group who is not the assignee rejects with FORBIDDEN, and by a user who
    is not a member of the group with NOT_A_MEMBER; [assignTask] by the
    creator puts the task back in status PENDING_ACCEPTANCE with a null
    acceptance date, and by another member rejects with FORBIDDEN. *)
Theorem assignment_handshake (env : Env) (db : Db) (g U : Uuid) :
  ENABLE_ASSIGNMENTS (config env) = true ->
  isMember db g U = true ->
  (forall title_ description_ creator now,
      isMember db g creator = true ->
      exists db' task,
        createTask env title_ description_ g (Some U) creator now db = (db', inr task)
        /\ task_status task = PENDING_ACCEPTANCE
        /\ assigneeId task = Some U
        /\ acceptedAt task = None
        /\ In task (tasks db'))
  /\
  (forall task now,
      visibleTask db task -> groupId task = g -> assigneeId task = Some U ->
      (task_status task = PENDING_ACCEPTANCE ->
       exists db' accepted,
         acceptTask (task_id task) U now db = (db', inr accepted)
         /\ task_status accepted = OPEN
         /\ acceptedAt accepted = Some now
         /\ getTaskById (task_id task) U db' = (db', inr accepted))
      /\
      (task_status task <> PENDING_ACCEPTANCE ->
       acceptTask (task_id task) U now db =
       (db, inl (taskError "INVALID_STATE" "Task is not pending acceptance" 400))))
  /\
  (forall task V now,
      visibleTask db task -> assigneeId task <> Some V ->
      (isMember db (groupId task) V = true ->
       acceptTask (task_id task) V now db =
       (db, inl (taskError "FORBIDDEN"
                           "Only the assigned user can accept this task" 403)))
      /\
      (isMember db (groupId task) V = false ->
       acceptTask (task_id task) V now db =
       (db, inl (groupError "NOT_A_MEMBER"
                            "You are not a member of this group" 403))))
  /\
  (forall task now,
      visibleTask db task -> groupId task = g ->
      (isMember db g (createdById task) = true ->
       exists db' updated,
         assignTask env (task_id task) U (createdById task) now db
         = (db', inr updated)
         /\ task_status updated = PENDING_ACCEPTANCE
         /\ acceptedAt updated = None
         /\ assigneeId updated = Some U
         /\ getTaskById (task_id task) U db' = (db', inr updated))
      /\
      (forall V, isMember db g V = true -> createdById task <> V ->
                 assignTask env (task_id task) U V now db =
                 (db, inl (taskError "FORBIDDEN"
                                     "Only the task creator can assign this task"
                                     403)))).
Proof.
  intros Hflag HU. split; [|split; [|split]].
  - intros title_ description_ creator now Hc.
    destruct (createTask_assigned env db title_ description_ g U creator now
                Hflag Hc HU) as (db' & E & Hin).
    exists db'. eexists. split; [exact E|]. repeat split; auto.
  - intros task now Hv <- Ha. split.
    + intros Hp. eexists. eexists.
      split; [now apply acceptTask_ok|]. split; [reflexivity|].
      split; [reflexivity|].
      apply (getTaskById_ok _ (task_setAccepted now task) U).
      * apply visibleTask_updated; [exact Hv|reflexivity|simpl; apply Hv].
      * exact HU.
    + intros Hp. now apply acceptTask_invalid_state.
  - intros task V now Hv Ha. split; intros Hm.
    + now apply acceptTask_forbidden.
    + now apply acceptTask_not_member.
  - intros task now Hv <-. split.
    + intros Hc.
      destruct (assignTask_ok env db task U now Hflag Hv Hc HU)
        as (db' & E & Ht & Hg).
      exists db', (task_setAssignee U now task).
      split; [exact E|]. split; [reflexivity|]. split; [reflexivity|].
      split; [reflexivity|].
      apply (getTaskById_ok _ (task_setAssignee U now task) U).
      * refine (visibleTask_ext
                  (set_tasks (updateMany
                                (fun t => Nat.eqb (task_id t) (task_id task))
                                (task_setAssignee U now)) db) db' _ Ht _).
        apply visibleTask_updated; [exact Hv|reflexivity|simpl; apply Hv].
      * rewrite (isMember_ext _ _ _ _ Hg). exact HU.
    + intros V HV Hne. now apply assignTask_forbidden.
Qed.

Lemma assignment_handshake_witness :
  (exists db' task,
      createTask sampleEnv "file expenses" None 7%nat (Some 2%nat) 1%nat 300 boardDb
      = (db', inr task)
      /\ task_status task = PENDING_ACCEPTANCE)
  /\ (exists db' accepted,
         acceptTask 10%nat 2%nat 300 boardDb = (db', inr accepted)
         /\ task_status accepted = OPEN
         /\ acceptedAt accepted = Some 300)
  /\ acceptTask 10%nat 1%nat 300 boardDb =
     (boardDb, inl (taskError "FORBIDDEN"
                              "Only the assigned user can accept this task" 403))
  /\ (exists db' updated,
         assignTask sampleEnv 11%nat 2%nat 1%nat 300 boardDb = (db', inr updated)
         /\ task_status updated = PENDING_ACCEPTANCE
         /\ acceptedAt updated = None).
Proof.
  destruct (assignment_handshake sampleEnv boardDb 7%nat 2%nat eq_refl eq_refl)
    as (Hcreate & Haccept & Hother & Hassign).
  split.
  { destruct (Hcreate "file expenses" None 1%nat 300 eq_refl)
      as (db' & task & E & Hs & _).
    exists db', task. split; assumption. }
  split.
  { destruct (Haccept _ 300 boardDb_task10_visible eq_refl eq_refl) as [H _].
    destruct (H eq_refl) as (db' & accepted & E & Hs & Ha & _).
    exists db', accepted. repeat split; assumption. }
  split.
  { refine (proj1 (Hother _ 1%nat 300 boardDb_task10_visible _) eq_refl).
    discriminate. }
  destruct (Hassign _ 300 boardDb_task11_visible eq_refl) as [H _].
  destruct (H eq_refl) as (db' & updated & E & Hs & Ha & _).
  exists db', updated. repeat split; assumption.
Defined.

(** C5, as stated, fails: user 3 is not the assignee of task 10 of the sample
    board and is in no group; their [acceptTask] is rejected by the
    membership check of [getTaskById], with NOT_A_MEMBER and not with
    FORBIDDEN. *)
Lemma acceptTask_outsider_not_forbidden :
  ~ (forall V : Uuid,
        Some V <> Some 2%nat ->
        exists db',
          acceptTask 10%nat V 300 boardDb =
          (db', inl (taskError "FORBIDDEN"
                               "Only the assigned user can accept this task" 403))).
Proof.
  intros H. destruct (H 3%nat) as [db' E]; [discriminate|].
  vm_compute in E. discriminate E.
Qed.

(* ------------------------------------------------------------------ *)
(** ** The last admin of a group *)
(* ------------------------------------------------------------------ *)

Lemma GroupRole_eqb_eq (a b : GroupRole) : GroupRole_eqb a b = true <-> a = b.
Proof. destruct a, b; simpl; split; congruence. Qed.

Lemma isAdmin_find (db : Db) (g u : Uuid) :
  isAdmin db g u = true ->
  exists m, find (sameMembership u g) (group_members db) = Some m
            /\ role m = ADMIN /\ isAdminOf g m = true.
Proof.
  unfold isAdmin. destruct (find _ (group_members db)) as [m|] eqn:E; [|discriminate].
  intros Hr. exists m. split; [reflexivity|].
  split; [now apply GroupRole_eqb_eq|].
  apply find_some in E. destruct E as [_ E].
  unfold sameMembership in E. apply andb_prop in E. destruct E as [_ E].
  unfold isAdminOf. now rewrite E, Hr.
Qed.

Lemma assertGroupAdmin_ok (db : Db) (g u : Uuid) :
  isAdmin db g u = true -> assertGroupAdmin g u db = (db, inr tt).
Proof.
  intros H. destruct (isAdmin_find _ _ _ H) as (m & E & Hr & _).
  unfold assertGroupAdmin, groupMember_findUnique, await, query.
  rewrite E, Hr. reflexivity.
Qed.

Lemma assertGroupAdmin_fails (db : Db) (g u : Uuid) :
  isAdmin db g u = false ->
  assertGroupAdmin g u db =
  (db, inl (groupError "NOT_ADMIN" "Admin access required for this group" 403)).
Proof.
  unfold isAdmin, assertGroupAdmin, groupMember_findUnique, await, query.
  destruct (find _ (group_members db)) as [m|]; [|reflexivity].
  now intros ->.
Qed.

(** Deleting the row that [find] returns removes one admin exactly when that
    row is an admin row. *)
Lemma adminCount_deleteUnique (g : Uuid) (p : GroupMember -> bool)
      (rows : list GroupMember) (m : GroupMember) :
  find p rows = Some m -> isAdminOf g m = true ->
  S (adminCount g (deleteUnique p rows)) = adminCount g rows.
Proof.
  unfold adminCount. induction rows as [|a rows IH]; simpl; [discriminate|].
  destruct (p a) eqn:Hp.
  - intros [= ->] Hm. now rewrite Hm.
  - intros Hf Hm. simpl. destruct (isAdminOf g a); simpl; rewrite (IH Hf Hm); reflexivity.
Qed.

Lemma find_existsb {A} (p : A -> bool) (rows : list A) (x : A) :
  find p rows = Some x -> existsb p rows = true.
Proof.
  intros H. apply find_some in H. apply existsb_exists. exists x. exact H.
Qed.

Lemma removeMember_last_admin (db : Db) (g target acting : Uuid) :
  isAdmin db g acting = true -> isAdmin db g target = true ->
  adminCount g (group_members db) = 1%nat ->
  removeMember g target acting db =
  (db, inl (groupError "LAST_ADMIN"
                       "Cannot remove the last admin from the group" 400)).
Proof.
  intros Ha Ht Hc. destruct (isAdmin_find _ _ _ Ht) as (m & E & Hr & _).
  unfold removeMember, await at 1. rewrite (assertGroupAdmin_ok _ _ _ Ha).
  unfold await at 1, groupMember_findUnique, query. rewrite E, Hr. simpl.
  unfold await, query. rewrite Hc. reflexivity.
Qed.

Lemma removeMember_admin_ok (db : Db) (g target acting : Uuid) :
  isAdmin db g acting = true -> isAdmin db g target = true ->
  (2 <= adminCount g (group_members db))%nat ->
  removeMember g target acting db =
  (set_group_members (deleteUnique (sameMembership target g)) db, inr tt)
  /\ S (adminCount g (deleteUnique (sameMembership target g) (group_members db)))
     = adminCount g (group_members db).
Proof.
  intros Ha Ht Hc. destruct (isAdmin_find _ _ _ Ht) as (m & E & Hr & Hm).
  split; [|now apply (adminCount_deleteUnique g _ _ m)].
  unfold removeMember, await at 1. rewrite (assertGroupAdmin_ok _ _ _ Ha).
  unfold await at 1, groupMember_findUnique, query. rewrite E, Hr. simpl.
  unfold await, query, resolve.
  destruct (Nat.leb_spec (adminCount g (group_members db)) 1); [lia|].
  unfold groupMember_delete. now rewrite (find_existsb _ _ _ E).
Qed.

(** C9. In a group with exactly one ADMIN, [removeMember] aimed at that admin
    never goes through and leaves the database as it was: called by an admin
    of the group (who can only be the target) it rejects with LAST_ADMIN, and
    called by anyone else with NOT_ADMIN.  In a group with two or more
    ADMINs, an admin who removes one of them succeeds, one admin row is gone,
    and the group still has at least one ADMIN.  The decision is taken on the
    number of ADMIN rows of the group counted before the deletion. *)
Theorem removeMember_keeps_an_admin (db : Db) (g target acting : Uuid) :
  isAdmin db g target = true ->
  (adminCount g (group_members db) = 1%nat ->
   (isAdmin db g acting = true ->
    removeMember g target acting db =
    (db, inl (groupError "LAST_ADMIN"
                         "Cannot remove the last admin from the group" 400)))
   /\ exists e, removeMember g target acting db = (db, inl e))
  /\
  ((2 <= adminCount g (group_members db))%nat ->
   isAdmin db g acting = true ->
   exists db',
     removeMember g target acting db = (db', inr tt)
     /\ S (adminCount g (group_members db')) = adminCount g (group_members db)
     /\ (1 <= adminCount g (group_members db'))%nat).
Proof.
  intros Ht. split.
  - intros Hc. split.
    + intros Ha. now apply removeMember_last_admin.
    + destruct (isAdmin db g acting) eqn:Ha.
      * eexists. now apply removeMember_last_admin.
      * eexists. unfold removeMember, await.
        now rewrite (assertGroupAdmin_fails _ _ _ Ha).
  - intros Hc Ha.
    destruct (removeMember_admin_ok db g target acting Ha Ht Hc) as [E Hn].
    eexists. split; [exact E|]. simpl. split; [exact Hn|lia].
Qed.

Lemma removeMember_keeps_an_admin_witness :
  removeMember 7%nat 1%nat 1%nat boardDb =
  (boardDb, inl (groupError "LAST_ADMIN"
                            "Cannot remove the last admin from the group" 400))
  /\ exists db',
       removeMember 7%nat 2%nat 1%nat councilDb = (db', inr tt)
       /\ (1 <= adminCount 7%nat (group_members db'))%nat.
Proof.
  split.
  - exact (proj1 (proj1 (removeMember_keeps_an_admin boardDb 7%nat 1%nat 1%nat
                           eq_refl) eq_refl) eq_refl).
  - destruct (proj2 (removeMember_keeps_an_admin councilDb 7%nat 2%nat 1%nat
                       eq_refl) (le_n 2) eq_refl) as (db' & E & _ & H).
    exists db'. split; assumption.
Defined.

(* ------------------------------------------------------------------ *)
(** ** The errors of a login *)
(* ------------------------------------------------------------------ *)

(** C6, as amended.  A login with an unknown e-mail address, with the
    address of an account that has no password hash, and with a wrong
    password for an account that is neither soft-deleted nor suspended, all
    reject with the same INVALID_CREDENTIALS error (same class, code, message
    and status).  An account that has a password hash and is soft-deleted
    rejects with ACCOUNT_DELETED, and one that has a password hash, is not
    soft-deleted and is SUSPENDED rejects with ACCOUNT_SUSPENDED; in both
    cases the database comes back as it was, the count of calls of
    [verifyPassword] included: the password has not been verified. *)
Theorem loginUser_errors (env : Env) (db : Db) (email_ password : string)
        (now : Time) :
  (find (fun u => String.eqb (email u) email_) (users db) = None ->
   loginUser env email_ password now db =
   (db, inl (authError "INVALID_CREDENTIALS" "Invalid email or password" 401)))
  /\
  (forall user,
      find (fun u => String.eqb (email u) email_) (users db) = Some user ->
      (truthy (passwordHash user) = false ->
       loginUser env email_ password now db =
       (db, inl (authError "INVALID_CREDENTIALS" "Invalid email or password" 401)))
      /\
      (truthy (passwordHash user) = true -> user_deletedAt user <> None ->
       loginUser env email_ password now db =
       (db, inl (authError "ACCOUNT_DELETED" "This account has been deactivated" 401)))
      /\
      (truthy (passwordHash user) = true -> user_deletedAt user = None ->
       status user = SUSPENDED ->
       loginUser env email_ password now db =
       (db, inl (authError "ACCOUNT_SUSPENDED" "This account has been suspended" 403)))
      /\
      (forall hash,
          passwordHash user = Some hash -> hash <> EmptyString ->
          user_deletedAt user = None -> status user <> SUSPENDED ->
          verifyPassword env hash password = false ->
          loginUser env email_ password now db =
          (set_verifyPasswordCalls S db,
           inl (authError "INVALID_CREDENTIALS" "Invalid email or password" 401)))).
Proof.
  split; [intros H|intros user H; repeat split];
    unfold loginUser, await at 1, user_findUnique_email, query; cbv beta;
    rewrite H; cbv beta iota.
  - reflexivity.
  - intros ->. reflexivity.
  - intros -> Hd. simpl. destruct (user_deletedAt user); [reflexivity|congruence].
  - intros -> -> ->. reflexivity.
  - intros hash Hh Hne Hd Hs Hv. rewrite Hh, Hd. simpl.
    destruct (String.eqb_spec hash EmptyString); [contradiction|]. simpl.
    destruct (status user); try reflexivity; try congruence;
      unfold await, verifyPassword_call; rewrite Hv; reflexivity.
Qed.

Lemma loginUser_errors_witness :
  loginUser sampleEnv "nobody@example.com" "guess" 100 accountsDb =
  (accountsDb,
   inl (authError "INVALID_CREDENTIALS" "Invalid email or password" 401))
  /\ loginUser sampleEnv "ada@example.com" "guess" 100 accountsDb =
     (set_verifyPasswordCalls S accountsDb,
      inl (authError "INVALID_CREDENTIALS" "Invalid email or password" 401))
  /\ loginUser sampleEnv "bob@example.com" "battery staple" 100 accountsDb =
     (accountsDb,
      inl (authError "ACCOUNT_SUSPENDED" "This account has been suspended" 403))
  /\ loginUser sampleEnv "cyd@example.com" "tr0ub4dor" 100 accountsDb =
     (accountsDb,
      inl (authError "ACCOUNT_DELETED" "This account has been deactivated" 401)).
Proof.
  split; [|split; [|split]].
  - apply (proj1 (loginUser_errors sampleEnv accountsDb "nobody@example.com"
                    "guess" 100)).
    reflexivity.
  - refine (proj2 (proj2 (proj2 (proj2 (loginUser_errors sampleEnv accountsDb
              "ada@example.com" "guess" 100) _ eq_refl)))
              "argon2:correct horse"%string eq_refl _ eq_refl _ eq_refl);
      discriminate.
  - refine (proj1 (proj2 (proj2 (proj2 (loginUser_errors sampleEnv accountsDb
              "bob@example.com" "battery staple" 100) _ eq_refl)))
              eq_refl eq_refl eq_refl).
  - refine (proj1 (proj2 (proj2 (loginUser_errors sampleEnv accountsDb
              "cyd@example.com" "tr0ub4dor" 100) _ eq_refl))
              eq_refl _).
    discriminate.
Defined.

(** C6, as stated, fails: account 4 is soft-deleted and has no password
    hash; a login with its address is rejected with INVALID_CREDENTIALS, not
    with ACCOUNT_DELETED. *)
Lemma loginUser_deleted_without_password :
  (exists user,
      find (fun u => String.eqb (email u) "dee@example.com") (users accountsDb)
      = Some user
      /\ user_deletedAt user <> None)
  /\ snd (loginUser sampleEnv "dee@example.com" "anything" 100 accountsDb)
     = inl (authError "INVALID_CREDENTIALS" "Invalid email or password" 401)
  /\ snd (loginUser sampleEnv "dee@example.com" "anything" 100 accountsDb)
     <> inl (authError "ACCOUNT_DELETED" "This account has been deactivated" 401).
Proof.
  split; [|split].
  - eexists. split; [reflexivity|discriminate].
  - reflexivity.
  - discriminate.
Qed.

(* ------------------------------------------------------------------ *)
(** ** Resending a verification and asking for a password reset *)
(* ------------------------------------------------------------------ *)

Lemma existsb_filter_false {A} (q p : A -> bool) (rows : list A) :
  existsb q rows = false -> existsb q (filter p rows) = false.
Proof.
  induction rows as [|a rows IH]; simpl; [auto|].
  intros H. apply orb_false_iff in H. destruct H as [Ha Hr].
  destruct (p a); simpl; [rewrite Ha|]; auto.
Qed.

Lemma digestStored_deleteMany (p : OneTimeToken -> bool) (rows : list OneTimeToken)
      (rnd : nat) :
  digestStored rows rnd = false -> digestStored (deleteMany p rows) rnd = false.
Proof. apply existsb_filter_false. Qed.

(** What [resendVerification] does, case by case.  The former tokens of the
    account are deleted before the new one is created: when the digest of
    the new token is stored for another account, the call rejects and the
    former tokens are gone. *)
Lemma resendVerification_cases (email_ : string) (rnd : nat) (now : Time) (db : Db) :
  match find (fun u => String.eqb (email u) email_) (users db) with
  | Some user =>
      if UserStatus_eqb (status user) UNVERIFIED then
        if digestStored
             (deleteMany (fun t => Nat.eqb (ot_userId t) (user_id user))
                         (verification_tokens db)) rnd
        then
          resendVerification email_ rnd now db =
          (set_verification_tokens
             (deleteMany (fun t => Nat.eqb (ot_userId t) (user_id user))) db,
           inl uniqueConstraintFailed)
        else
          resendVerification email_ rnd now db =
          (set_nextUuid S
             (set_verification_tokens
                (fun rows =>
                   deleteMany (fun t => Nat.eqb (ot_userId t) (user_id user)) rows
                   ++ [mkOneTimeToken (nextUuid db) (hashToken (HexString rnd))
                                      (user_id user) (now + 24 * 60 * 60 * 1000)])
                db),
           inr (Some (HexString rnd)))
      else resendVerification email_ rnd now db = (db, inr None)
  | None => resendVerification email_ rnd now db = (db, inr None)
  end.
Proof.
  destruct (find _ (users db)) as [user|] eqn:E;
    [destruct (UserStatus_eqb (status user) UNVERIFIED) eqn:Es;
     [destruct (digestStored _ rnd) eqn:Ed|]|];
    unfold resendVerification, await, user_findUnique_email, query; cbv beta;
    rewrite E; cbv beta iota; try rewrite Es; try reflexivity;
    unfold write, oneTimeToken_create, generateOpaqueToken;
    cbn [negb verification_tokens set_verification_tokens];
    unfold digestStored in Ed; rewrite Ed; reflexivity.
Qed.

Lemma requestPasswordReset_cases (email_ : string) (rnd : nat) (now : Time) (db : Db) :
  match find (fun u => String.eqb (email u) email_) (users db) with
  | Some user =>
      if isSome (user_deletedAt user) then
        requestPasswordReset email_ rnd now db = (db, inr None)
      else
        if digestStored
             (deleteMany (fun t => Nat.eqb (ot_userId t) (user_id user))
                         (password_reset_tokens db)) rnd
        then
          requestPasswordReset email_ rnd now db =
          (set_password_reset_tokens
             (deleteMany (fun t => Nat.eqb (ot_userId t) (user_id user))) db,
           inl uniqueConstraintFailed)
        else
          requestPasswordReset email_ rnd now db =
          (set_nextUuid S
             (set_password_reset_tokens
                (fun rows =>
                   deleteMany (fun t => Nat.eqb (ot_userId t) (user_id user)) rows
                   ++ [mkOneTimeToken (nextUuid db) (hashToken (HexString rnd))
                                      (user_id user) (now + 15 * 60 * 1000)])
                db),
           inr (Some (HexString rnd)))
  | None => requestPasswordReset email_ rnd now db = (db, inr None)
  end.
Proof.
  destruct (find _ (users db)) as [user|] eqn:E;
    [destruct (isSome (user_deletedAt user)) eqn:Es;
     [|destruct (digestStored _ rnd) eqn:Ed]|];
    unfold requestPasswordReset, await, user_findUnique_email, query; cbv beta;
    rewrite E; cbv beta iota; try rewrite Es; try reflexivity;
    unfold write, oneTimeToken_create, generateOpaqueToken;
    cbn [negb password_reset_tokens set_password_reset_tokens];
    unfold digestStored in Ed; rewrite Ed; reflexivity.
Qed.

Lemma resendVerificationRoute_spec (env : Env) (db : Db) (email_ : string)
      (rnd : nat) (now : Time) :
  (verificationEligible db email_ = true ->
   digestStored (verification_tokens db) rnd = false) ->
  exists db' reply,
    resendVerificationRoute env email_ rnd now db = (db', inr reply)
    /\ reply_status reply = 200
    /\ reply_message reply = resendMessage
    /\ (NODE_ENV (config env) = "production"%string -> reply_token reply = None)
    /\ (verificationEligible db email_ = false ->
        db' = db /\ reply_token reply = None)
    /\ (verificationEligible db email_ = true ->
        (NODE_ENV (config env) <> "production"%string ->
         reply_token reply = Some ("verificationToken"%string, HexString rnd))
        /\ exists user,
          find (fun u => String.eqb (email u) email_) (users db) = Some user
          /\ status user = UNVERIFIED
          /\ verification_tokens db' =
             deleteMany (fun t => Nat.eqb (ot_userId t) (user_id user))
                        (verification_tokens db)
             ++ [mkOneTimeToken (nextUuid db) (hashToken (HexString rnd))
                                (user_id user) (now + 24 * 60 * 60 * 1000)]).
Proof.
  intros Hfresh.
  pose proof (resendVerification_cases email_ rnd now db) as C.
  unfold verificationEligible in *.
  destruct (find _ (users db)) as [user|];
    [destruct (UserStatus_eqb (status user) UNVERIFIED) eqn:Es|].
  - rewrite (digestStored_deleteMany _ _ _ (Hfresh eq_refl)) in C.
    unfold resendVerificationRoute, await at 1; rewrite C;
      unfold isFeatureEnabled; cbn [isSome andb].
    destruct (ENABLE_EMAIL (config env));
      destruct (String.eqb_spec (NODE_ENV (config env)) "production");
      (eexists; eexists; split; [reflexivity|]);
      (split; [reflexivity|]); (split; [reflexivity|]);
      (split; [intros Hp; try reflexivity; contradiction|]);
      (split; [discriminate|]);
      intros _; (split; [intros Hp; try reflexivity; contradiction|]);
      exists user; (split; [reflexivity|]);
      (split; [destruct (status user); (reflexivity || discriminate)|]);
      reflexivity.
  - unfold resendVerificationRoute, await at 1; rewrite C;
      unfold isFeatureEnabled; cbn [isSome andb].
    exists db. eexists. split; [reflexivity|]. repeat split; discriminate.
  - unfold resendVerificationRoute, await at 1; rewrite C;
      unfold isFeatureEnabled; cbn [isSome andb].
    exists db. eexists. split; [reflexivity|]. repeat split; discriminate.
Qed.

Lemma forgotPasswordRoute_spec (env : Env) (db : Db) (email_ : string)
      (rnd : nat) (now : Time) :
  ENABLE_PASSWORD_RESET (config env) = true ->
  (resetEligible db email_ = true ->
   digestStored (password_reset_tokens db) rnd = false) ->
  exists db' reply,
    forgotPasswordRoute env email_ rnd now db = (db', inr reply)
    /\ reply_status reply = 200
    /\ reply_message reply = forgotMessage
    /\ (NODE_ENV (config env) = "production"%string -> reply_token reply = None)
    /\ (resetEligible db email_ = false -> db' = db /\ reply_token reply = None)
    /\ (resetEligible db email_ = true ->
        (NODE_ENV (config env) <> "production"%string ->
         reply_token reply = Some ("resetToken"%string, HexString rnd))
        /\ exists user,
          find (fun u => String.eqb (email u) email_) (users db) = Some user
          /\ user_deletedAt user = None
          /\ password_reset_tokens db' =
             deleteMany (fun t => Nat.eqb (ot_userId t) (user_id user))
                        (password_reset_tokens db)
             ++ [mkOneTimeToken (nextUuid db) (hashToken (HexString rnd))
                                (user_id user) (now + 15 * 60 * 1000)]).
Proof.
  intros Hflag Hfresh.
  pose proof (requestPasswordReset_cases email_ rnd now db) as C.
  unfold resetEligible in *.
  destruct (find _ (users db)) as [user|];
    [destruct (isSome (user_deletedAt user)) eqn:Es|].
  - unfold forgotPasswordRoute, isFeatureEnabled; rewrite Hflag; cbn [negb];
      unfold await at 1; rewrite C; cbn [isSome andb negb].
    exists db. eexists. split; [reflexivity|]. repeat split; discriminate.
  - rewrite (digestStored_deleteMany _ _ _ (Hfresh eq_refl)) in C.
    unfold forgotPasswordRoute, isFeatureEnabled; rewrite Hflag; cbn [negb];
      unfold await at 1; rewrite C; cbn [isSome andb negb].
    destruct (ENABLE_EMAIL (config env));
      destruct (String.eqb_spec (NODE_ENV (config env)) "production");
      (eexists; eexists; split; [reflexivity|]);
      (split; [reflexivity|]); (split; [reflexivity|]);
      (split; [intros Hp; try reflexivity; contradiction|]);
      (split; [discriminate|]);
      intros _; (split; [intros Hp; try reflexivity; contradiction|]);
      exists user; (split; [reflexivity|]);
      (split; [destruct (user_deletedAt user); (reflexivity || discriminate)|]);
      reflexivity.
  - unfold forgotPasswordRoute, isFeatureEnabled; rewrite Hflag; cbn [negb];
      unfold await at 1; rewrite C; cbn [isSome andb negb].
    exists db. eexists. split; [reflexivity|]. repeat split; discriminate.
Qed.

(** C7, as amended.  For every e-mail address the two handlers do not reject,
    the digest of a token that is generated being a new one (the column
    [tokenHash] is unique, and a digest that is stored already makes
    [create] fail): resend-verification answers 200 with one fixed message,
    and forgot-password answers 200 with one fixed message when password
    reset is enabled and 400 for every address when it is disabled.  In
    production the answer carries nothing else, so it is the same whether or
    not an account exists; outside production it also carries the token when
    one was issued, and only then.  The service functions resolve with [null]
    exactly for the addresses that are not eligible.  A verification token
    is issued only for the address of an account in status UNVERIFIED and a
    reset token only for the address of an account that is not soft-deleted:
    for any other address the database is left as it was (no token created,
    none deleted), and for an eligible one the former tokens of the account
    are replaced by the new one. *)
Theorem recovery_requests_do_not_enumerate (env : Env) (db : Db) (email_ : string)
        (rnd : nat) (now : Time) :
  (verificationEligible db email_ = true ->
   digestStored (verification_tokens db) rnd = false) ->
  (resetEligible db email_ = true ->
   digestStored (password_reset_tokens db) rnd = false) ->
  (exists db' reply,
      resendVerificationRoute env email_ rnd now db = (db', inr reply)
      /\ reply_status reply = 200
      /\ reply_message reply = resendMessage
      /\ (NODE_ENV (config env) = "production"%string -> reply_token reply = None)
      /\ (verificationEligible db email_ = false ->
          db' = db /\ reply_token reply = None)
      /\ (verificationEligible db email_ = true ->
          (NODE_ENV (config env) <> "production"%string ->
           reply_token reply = Some ("verificationToken"%string, HexString rnd))
          /\ exists user,
            find (fun u => String.eqb (email u) email_) (users db) = Some user
            /\ status user = UNVERIFIED
            /\ verification_tokens db' =
               deleteMany (fun t => Nat.eqb (ot_userId t) (user_id user))
                          (verification_tokens db)
               ++ [mkOneTimeToken (nextUuid db) (hashToken (HexString rnd))
                                  (user_id user) (now + 24 * 60 * 60 * 1000)]))
  /\
  (ENABLE_PASSWORD_RESET (config env) = true ->
   exists db' reply,
     forgotPasswordRoute env email_ rnd now db = (db', inr reply)
     /\ reply_status reply = 200
     /\ reply_message reply = forgotMessage
     /\ (NODE_ENV (config env) = "production"%string -> reply_token reply = None)
     /\ (resetEligible db email_ = false -> db' = db /\ reply_token reply = None)
     /\ (resetEligible db email_ = true ->
         (NODE_ENV (config env) <> "production"%string ->
          reply_token reply = Some ("resetToken"%string, HexString rnd))
         /\ exists user,
           find (fun u => String.eqb (email u) email_) (users db) = Some user
           /\ user_deletedAt user = None
           /\ password_reset_tokens db' =
              deleteMany (fun t => Nat.eqb (ot_userId t) (user_id user))
                         (password_reset_tokens db)
              ++ [mkOneTimeToken (nextUuid db) (hashToken (HexString rnd))
                                 (user_id user) (now + 15 * 60 * 1000)]))
  /\
  (ENABLE_PASSWORD_RESET (config env) = false ->
   forgotPasswordRoute env email_ rnd now db =
   (db, inr (mkReply 400 "Password reset is currently disabled" None)))
  /\
  (exists db' token,
      resendVerification email_ rnd now db = (db', inr token)
      /\ (token = None <-> verificationEligible db email_ = false)
      /\ (token = None -> db' = db))
  /\
  (exists db' token,
      requestPasswordReset email_ rnd now db = (db', inr token)
      /\ (token = None <-> resetEligible db email_ = false)
      /\ (token = None -> db' = db)).
Proof.
  intros Hv Hr.
  split; [now apply resendVerificationRoute_spec|].
  split; [intros Hflag; now apply forgotPasswordRoute_spec|].
  split.
  { intros Hflag. unfold forgotPasswordRoute, isFeatureEnabled.
    rewrite Hflag. reflexivity. }
  split.
  - pose proof (resendVerification_cases email_ rnd now db) as C.
    unfold verificationEligible in *.
    destruct (find _ (users db)) as [user|];
      [destruct (UserStatus_eqb (status user) UNVERIFIED);
       [rewrite (digestStored_deleteMany _ _ _ (Hv eq_refl)) in C|]|];
      rewrite C; eexists; eexists; (split; [reflexivity|]);
      split; try split; congruence.
  - pose proof (requestPasswordReset_cases email_ rnd now db) as C.
    unfold resetEligible in *.
    destruct (find _ (users db)) as [user|];
      [destruct (isSome (user_deletedAt user));
       [|rewrite (digestStored_deleteMany _ _ _ (Hr eq_refl)) in C]|];
      rewrite C; eexists; eexists; (split; [reflexivity|]);
      split; try split; simpl; congruence.
Qed.

Lemma recovery_requests_do_not_enumerate_witness :
  snd (resendVerificationRoute sampleEnv "eve@example.com" 77 100 accountsDb)
  = snd (resendVerificationRoute sampleEnv "nobody@example.com" 77 100 accountsDb)
  /\ snd (forgotPasswordRoute sampleEnv "ada@example.com" 78 100 accountsDb)
     = snd (forgotPasswordRoute sampleEnv "nobody@example.com" 78 100 accountsDb)
  /\ snd (resendVerificationRoute developmentEnv "eve@example.com" 77 100 accountsDb)
     = inr (mkReply 200 resendMessage
                    (Some ("verificationToken"%string, HexString 77))).
Proof.
  destruct (recovery_requests_do_not_enumerate sampleEnv accountsDb
              "eve@example.com" 77 100 (fun _ => eq_refl) (fun _ => eq_refl))
    as ((d1 & r1 & E1 & S1 & M1 & P1 & _) & _).
  destruct (recovery_requests_do_not_enumerate sampleEnv accountsDb
              "nobody@example.com" 77 100 (fun _ => eq_refl) (fun _ => eq_refl))
    as ((d2 & r2 & E2 & S2 & M2 & P2 & _) & _).
  destruct (recovery_requests_do_not_enumerate sampleEnv accountsDb
              "ada@example.com" 78 100 (fun _ => eq_refl) (fun _ => eq_refl))
    as (_ & H3 & _).
  destruct (H3 eq_refl) as (d3 & r3 & E3 & S3 & M3 & P3 & _).
  destruct (recovery_requests_do_not_enumerate sampleEnv accountsDb
              "nobody@example.com" 78 100 (fun _ => eq_refl) (fun _ => eq_refl))
    as (_ & H4 & _).
  destruct (H4 eq_refl) as (d4 & r4 & E4 & S4 & M4 & P4 & _).
  destruct (recovery_requests_do_not_enumerate developmentEnv accountsDb
              "eve@example.com" 77 100 (fun _ => eq_refl) (fun _ => eq_refl))
    as ((d5 & r5 & E5 & S5 & M5 & _ & _ & T5) & _).
  destruct (T5 eq_refl) as [T5' _].
  rewrite E1, E2, E3, E4, E5. simpl.
  specialize (P1 eq_refl). specialize (P2 eq_refl).
  specialize (P3 eq_refl). specialize (P4 eq_refl).
  assert (T : reply_token r5 = Some ("verificationToken"%string, HexString 77))
    by (apply T5'; discriminate).
  destruct r1, r2, r3, r4, r5. simpl in *. subst.
  split; [reflexivity|]. split; reflexivity.
Defined.

(** C7, as stated, fails.  [resendVerification] resolves with the raw token
    for the address of the unverified account 5 and with [null] for an
    address that belongs to no account.  The handler hides the difference in
    production only: outside production its answer carries the token that was
    issued, so the answer for the address of account 5 differs from the
    answer for the unknown address. *)
Lemma resend_reply_differs_outside_production :
  snd (resendVerification "eve@example.com" 77 100 accountsDb)
  = inr (Some (HexString 77))
  /\ snd (resendVerification "nobody@example.com" 77 100 accountsDb) = inr None
  /\ snd (resendVerificationRoute developmentEnv "eve@example.com" 77 100 accountsDb)
     = inr (mkReply 200 resendMessage (Some ("verificationToken"%string, HexString 77)))
  /\ snd (resendVerificationRoute developmentEnv "nobody@example.com" 77 100
                                  accountsDb)
     = inr (mkReply 200 resendMessage None)
  /\ snd (resendVerificationRoute developmentEnv "eve@example.com" 77 100 accountsDb)
     <> snd (resendVerificationRoute developmentEnv "nobody@example.com" 77 100
                                     accountsDb).
Proof.
  split; [reflexivity|]. split; [reflexivity|].
  split; [reflexivity|]. split; [reflexivity|]. discriminate.
Qed.

(** The handlers do reject when the digest of the new token is stored
    already: account 2 of [pendingDb] holds the token of the bytes 11, and a
    resend for account 5 that draws the same bytes fails on the unique index
    after the former token of account 5 was deleted; the handler passes the
    rejection on. *)
Lemma resend_rejects_a_stored_digest :
  resendVerificationRoute sampleEnv "eve@example.com" 11 100 pendingDb
  = (set_verification_tokens
       (fun _ => [mkOneTimeToken 40%nat (hashToken (HexString 11)) 2%nat 1000])
       pendingDb,
     inl uniqueConstraintFailed).
Proof. reflexivity. Qed.

(* ------------------------------------------------------------------ *)
(** ** Completing a password reset *)
(* ------------------------------------------------------------------ *)

Lemma find_updateUnique_same {A} (p : A -> bool) (data : A -> A) (rows : list A) :
  (forall y, p (data y) = p y) ->
  find p (updateUnique p data rows) = option_map data (find p rows).
Proof.
  intros Hp. induction rows as [|a rows IH]; simpl; [reflexivity|].
  destruct (p a) eqn:E; simpl.
  - now rewrite Hp, E.
  - now rewrite E.
Qed.

Lemma deleteUnique_key_gone {A} (key : A -> nat) (n : nat) (rows : list A) :
  NoDup (map key rows) ->
  forall y, In y (deleteUnique (fun r => Nat.eqb (key r) n) rows) -> key y <> n.
Proof.
  induction rows as [|a rows IH]; simpl; intros Hnd y Hin; [contradiction|].
  inversion Hnd as [|? ? Hnotin Hnd']; subst.
  destruct (Nat.eqb_spec (key a) n) as [E|E].
  - intros Hy. apply Hnotin. rewrite E, <- Hy. now apply in_map.
  - destruct Hin as [<-|Hin]; [exact E|now apply IH].
Qed.

Lemma In_deleteUnique_other {A} (p : A -> bool) (rows : list A) (y : A) :
  In y rows -> p y = false -> In y (deleteUnique p rows).
Proof.
  induction rows as [|a rows IH]; simpl; [auto|].
  intros [<-|Hin] Hp.
  - rewrite Hp. now left.
  - destruct (p a); [assumption|]. right. now apply IH.
Qed.

Lemma In_updateUnique_other {A} (p : A -> bool) (data : A -> A) (rows : list A)
      (y : A) :
  In y rows -> p y = false -> In y (updateUnique p data rows).
Proof.
  induction rows as [|a rows IH]; simpl; [auto|].
  intros [<-|Hin] Hp.
  - rewrite Hp. now left.
  - destruct (p a); right; auto.
Qed.

Lemma resetPassword_ok (env : Env) (db : Db) (rawToken : RawToken)
      (newPassword : string) (now : Time) (stored : OneTimeToken) :
  find (fun t => TokenHash_eqb (ot_tokenHash t) (hashToken rawToken))
       (password_reset_tokens db) = Some stored ->
  (ot_expiresAt stored <? now) = false ->
  existsb (fun u => Nat.eqb (user_id u) (ot_userId stored)) (users db) = true ->
  resetPassword env rawToken newPassword now db =
  (set_refresh_tokens
     (updateMany (fun r => Nat.eqb (rt_userId r) (ot_userId stored))
                 (with_revoked true))
     (set_password_reset_tokens
        (deleteUnique (fun t => Nat.eqb (ot_id t) (ot_id stored)))
        (set_users
           (updateUnique (fun u => Nat.eqb (user_id u) (ot_userId stored))
                         (with_passwordHash (Some (hashPassword env newPassword))))
           db)),
   inr tt).
Proof.
  intros Hfind Hexp Huser.
  unfold resetPassword, await at 1, oneTimeToken_findUnique, query. cbv beta.
  rewrite Hfind. cbv beta iota. rewrite Hexp.
  unfold transaction, await, user_update. rewrite Huser.
  unfold oneTimeToken_delete. cbn [password_reset_tokens set_users].
  assert (Hex : existsb (fun t => Nat.eqb (ot_id t) (ot_id stored))
                        (password_reset_tokens db) = true).
  { apply existsb_exists. exists stored. split; [|apply Nat.eqb_refl].
    now apply find_some in Hfind. }
  rewrite Hex. reflexivity.
Qed.




(* ------------------------------------------------------------------ *)
(** ** Refresh tokens: what the operations do *)
(* ------------------------------------------------------------------ *)

Lemma updateUnique_app_fresh {A} (p : A -> bool) (data : A -> A) (rows : list A)
      (x : A) :
  (forall y, In y rows -> p y = false) ->
  updateUnique p data (rows ++ [x]) = rows ++ [if p x then data x else x].
Proof.
  induction rows as [|a rows IH]; simpl; intros H.
  - destruct (p x); reflexivity.
  - rewrite (H a (or_introl eq_refl)). f_equal. apply IH. auto.
Qed.

Lemma existsb_app_last {A} (p : A -> bool) (rows : list A) (x : A) :
  p x = true -> existsb p (rows ++ [x]) = true.
Proof.
  intros H. rewrite existsb_app. simpl. rewrite H. apply orb_true_iff. right. reflexivity.
Qed.

Lemma createTokenPair_fresh_family (env : Env) (userId : Uuid) (email_ : string)
      (status_ : UserStatus) (now : Time) (db : Db) :
  createTokenPair env userId email_ status_ None now db =
  createTokenPair env userId email_ status_ (Some (nextUuid db)) now
                  (set_nextUuid S db).
Proof. reflexivity. Qed.

Lemma createTokenPair_in_family (env : Env) (userId : Uuid) (email_ : string)
      (status_ : UserStatus) (fam : Uuid) (now : Time) (db : Db) :
  (forall r, In r (refresh_tokens db) -> (rt_id r < nextUuid db)%nat) ->
  createTokenPair env userId email_ status_ (Some fam) now db =
  (set_nextUuid S
     (set_refresh_tokens
        (fun rows => rows ++ [newTokenRow env userId (nextUuid db) fam now]) db),
   inr (mkAuthTokens (signAccessToken (config env) userId email_ status_ now)
                     (signRefreshToken (config env) userId (nextUuid db) fam now))).
Proof.
  intros Hids.
  unfold createTokenPair, await, resolve, refreshToken_create, refreshToken_update.
  cbn [refresh_tokens set_nextUuid set_refresh_tokens rt_id].
  rewrite existsb_app_last by (simpl; apply Nat.eqb_refl).
  f_equal. unfold set_refresh_tokens, set_nextUuid. simpl. f_equal.
  rewrite updateUnique_app_fresh.
  - simpl. rewrite Nat.eqb_refl. reflexivity.
  - intros y Hy. apply Nat.eqb_neq. specialize (Hids y Hy). lia.
Qed.

(** What [refreshTokens] does, case by case. *)
Lemma refreshTokens_cases (env : Env) (raw : RawToken) (now : Time) (db : Db) :
  refreshTokens env raw now db =
  match verifyRefreshToken (config env) raw now with
  | None => (db, inl (authError "INVALID_TOKEN" "Invalid refresh token" 401))
  | Some claims =>
      match find (presented (hashToken raw) (sub claims)) (refresh_tokens db) with
      | None =>
          (set_refresh_tokens
             (updateMany (fun r => Nat.eqb (rt_family r) (family claims))
                         (with_revoked true)) db,
           inl tokenReuse)
      | Some stored =>
          if revoked stored then
            (set_refresh_tokens
               (updateMany (fun r => Nat.eqb (rt_family r) (family claims))
                           (with_revoked true)) db,
             inl tokenReuse)
          else if rt_expiresAt stored <? now then
            (db, inl (authError "TOKEN_EXPIRED" "Refresh token has expired" 401))
          else
            match find (fun u => Nat.eqb (user_id u) (sub claims)) (users db) with
            | None =>
                (set_refresh_tokens
                   (updateUnique (fun r => Nat.eqb (rt_id r) (rt_id stored))
                                 (with_revoked true)) db,
                 inl (authError "USER_NOT_FOUND" "User not found" 401))
            | Some user =>
                if isSome (user_deletedAt user) then
                  (set_refresh_tokens
                     (updateUnique (fun r => Nat.eqb (rt_id r) (rt_id stored))
                                   (with_revoked true)) db,
                   inl (authError "USER_NOT_FOUND" "User not found" 401))
                else
                  createTokenPair env (user_id user) (email user) (status user)
                    (Some (family claims)) now
                    (set_refresh_tokens
                       (updateUnique (fun r => Nat.eqb (rt_id r) (rt_id stored))
                                     (with_revoked true)) db)
            end
      end
  end.
Proof.
  unfold refreshTokens.
  destruct (verifyRefreshToken (config env) raw now) as [claims|]; [|reflexivity].
  unfold await at 1, refreshToken_findFirst, query. cbv beta.
  change (fun r : RefreshToken =>
            TokenHash_eqb (rt_tokenHash r) (hashToken raw)
            && Nat.eqb (rt_userId r) (sub claims))
    with (presented (hashToken raw) (sub claims)).
  destruct (find _ (refresh_tokens db)) as [stored|] eqn:E; [|reflexivity].
  destruct (revoked stored); [reflexivity|].
  destruct (rt_expiresAt stored <? now); [reflexivity|].
  unfold await at 1, refreshToken_update.
  assert (Hex : existsb (fun r => Nat.eqb (rt_id r) (rt_id stored))
                        (refresh_tokens db) = true).
  { apply existsb_exists. exists stored. split; [|apply Nat.eqb_refl].
    now apply find_some in E. }
  rewrite Hex. unfold await at 1, user_findUnique_id, query. cbv beta.
  cbn [users set_refresh_tokens].
  destruct (find _ (users db)) as [user|]; [|reflexivity].
  destruct (isSome (user_deletedAt user)); reflexivity.
Qed.

(* ------------------------------------------------------------------ *)
(** ** The invariant of the refresh tokens *)
(* ------------------------------------------------------------------ *)

Lemma liveCount_app (fam : Uuid) (rows : list RefreshToken) (r : RefreshToken) :
  liveCount fam (rows ++ [r]) =
  (liveCount fam rows + (if liveIn fam r then 1 else 0))%nat.
Proof.
  unfold liveCount. rewrite filter_app, length_app. simpl.
  destruct (liveIn fam r); reflexivity.
Qed.

Lemma liveIn_revoked (fam : Uuid) (r : RefreshToken) :
  liveIn fam (with_revoked true r) = false.
Proof. unfold liveIn. simpl. apply andb_false_r. Qed.

Lemma liveCount_revokeMany (fam : Uuid) (p : RefreshToken -> bool)
      (rows : list RefreshToken) :
  (liveCount fam (updateMany p (with_revoked true) rows) <= liveCount fam rows)%nat.
Proof.
  unfold liveCount. induction rows as [|a rows IH]; simpl; [lia|].
  destruct (p a).
  - rewrite liveIn_revoked. destruct (liveIn fam a); simpl; lia.
  - destruct (liveIn fam a); simpl; lia.
Qed.

Lemma liveCount_revokeUnique (fam : Uuid) (p : RefreshToken -> bool)
      (rows : list RefreshToken) :
  (liveCount fam (updateUnique p (with_revoked true) rows) <= liveCount fam rows)%nat.
Proof.
  unfold liveCount. induction rows as [|a rows IH]; simpl; [lia|].
  destruct (p a); simpl.
  - rewrite liveIn_revoked. destruct (liveIn fam a); simpl; lia.
  - destruct (liveIn fam a); simpl; lia.
Qed.

(** Revoking the one live token of a family leaves the family without any. *)
Lemma liveCount_revoke_live (fam : Uuid) (rows : list RefreshToken)
      (stored : RefreshToken) :
  NoDup (map rt_id rows) ->
  (liveCount fam rows <= 1)%nat -> In stored rows -> liveIn fam stored = true ->
  liveCount fam (updateUnique (fun r => Nat.eqb (rt_id r) (rt_id stored))
                              (with_revoked true) rows) = 0%nat.
Proof.
  intros Hnd. rewrite (updateUnique_updateMany rt_id _ _ (rt_id stored) rows Hnd)
    by (intros y Hy; now apply Nat.eqb_eq).
  clear Hnd. unfold liveCount.
  induction rows as [|a rows IH]; simpl; intros Hle Hin Hlive; [contradiction|].
  destruct Hin as [->|Hin].
  - rewrite Nat.eqb_refl, liveIn_revoked. rewrite Hlive in Hle. simpl in Hle.
    pose proof (liveCount_revokeMany fam
                  (fun r => Nat.eqb (rt_id r) (rt_id stored)) rows) as H.
    unfold liveCount in H. lia.
  - assert (Hrest : (1 <= List.length (filter (liveIn fam) rows))%nat).
    { clear - Hin Hlive. induction rows as [|b rows IH]; [contradiction|].
      simpl. destruct Hin as [->|Hin].
      - rewrite Hlive. simpl. lia.
      - specialize (IH Hin). destruct (liveIn fam b); simpl; lia. }
    destruct (liveIn fam a) eqn:Ea; simpl in Hle; [lia|].
    destruct (Nat.eqb (rt_id a) (rt_id stored)).
    + rewrite liveIn_revoked. apply IH; auto.
    + rewrite Ea. apply IH; auto.
Qed.

Lemma liveCount_fresh (fam : Uuid) (rows : list RefreshToken) :
  (forall r, In r rows -> rt_family r <> fam) -> liveCount fam rows = 0%nat.
Proof.
  unfold liveCount. induction rows as [|a rows IH]; simpl; intros H; [reflexivity|].
  unfold liveIn at 1.
  destruct (Nat.eqb_spec (rt_family a) fam) as [E|E].
  - exfalso. exact (H a (or_introl eq_refl) E).
  - simpl. apply IH. auto.
Qed.

Lemma liveCount_zero (fam : Uuid) (rows : list RefreshToken) :
  liveCount fam rows = 0%nat <->
  (forall r, In r rows -> rt_family r = fam -> revoked r = true).
Proof.
  unfold liveCount. induction rows as [|a rows IH]; simpl.
  - split; [contradiction|reflexivity].
  - unfold liveIn at 1. split.
    + intros H r [->|Hin] Hf.
      * rewrite Hf, Nat.eqb_refl in H. destruct (revoked r); [reflexivity|discriminate].
      * destruct (Nat.eqb (rt_family a) fam && negb (revoked a)); [discriminate|].
        now apply IH.
    + intros H.
      destruct (Nat.eqb_spec (rt_family a) fam) as [E|E]; simpl.
      * rewrite (H a (or_introl eq_refl) E). simpl. apply IH. auto.
      * apply IH. auto.
Qed.

Section SessionInvariant.

Variable env : Env.
Variable dead : Uuid -> bool.

Lemma sessionInvOn_frame (db db' : Db) :
  sessionFrame db db' -> sessionInvOn dead db -> sessionInvOn dead db'.
Proof.
  intros [Hrows Hn] (Hnd & Hall & Hlive & Hdead). unfold sessionInvOn.
  rewrite Hrows. repeat split; auto.
  - eapply Forall_impl; [|exact Hall]. simpl. intros r (H1 & H2 & H3).
    repeat split; auto; lia.
  - intros fam Hf. specialize (Hdead fam Hf). lia.
Qed.

Lemma sessionInvOn_revokeMany (p : RefreshToken -> bool) (db : Db) :
  sessionInvOn dead db ->
  sessionInvOn dead (set_refresh_tokens (updateMany p (with_revoked true)) db).
Proof.
  intros (Hnd & Hall & Hlive & Hdead). unfold sessionInvOn. simpl.
  repeat split; auto.
  - now rewrite (map_key_updateMany rt_id).
  - rewrite Forall_forall in *. intros r Hr.
    apply In_updateMany_inv in Hr. destruct Hr as (r0 & Hin & ->).
    specialize (Hall r0 Hin). destruct (p r0); exact Hall.
  - intros fam. specialize (Hlive fam).
    pose proof (liveCount_revokeMany fam p (refresh_tokens db)). lia.
Qed.

Lemma sessionInvOn_revokeUnique (p : RefreshToken -> bool) (db : Db) :
  sessionInvOn dead db ->
  sessionInvOn dead (set_refresh_tokens (updateUnique p (with_revoked true)) db).
Proof.
  intros (Hnd & Hall & Hlive & Hdead). unfold sessionInvOn. simpl.
  repeat split; auto.
  - now rewrite map_key_updateUnique.
  - apply Forall_updateUnique; auto.
  - intros fam. specialize (Hlive fam).
    pose proof (liveCount_revokeUnique fam p (refresh_tokens db)). lia.
Qed.

Lemma issued_newTokenRow (userId id fam : Uuid) (now : Time) :
  issued (newTokenRow env userId id fam now).
Proof.
  unfold issued, newTokenRow, signRefreshToken. simpl.
  eexists. eexists. split; [reflexivity|]. simpl. auto.
Qed.

Lemma sessionInvOn_append (db : Db) (userId fam : Uuid) (now : Time) :
  sessionInvOn dead db ->
  (fam < nextUuid db)%nat ->
  liveCount fam (refresh_tokens db) = 0%nat ->
  dead fam = false ->
  sessionInvOn dead
    (set_nextUuid S
       (set_refresh_tokens
          (fun rows => rows ++ [newTokenRow env userId (nextUuid db) fam now]) db)).
Proof.
  intros (Hnd & Hall & Hlive & Hdead) Hfam Hzero Hnotdead.
  unfold sessionInvOn. simpl. repeat split.
  - rewrite map_app. simpl.
    apply NoDup_app; [exact Hnd|repeat constructor; intros []|].
    intros a Hin [<-|[]]. apply in_map_iff in Hin.
    destruct Hin as [r [Hr Hin]]. rewrite Forall_forall in Hall.
    destruct (Hall r Hin) as [Hlt _]. lia.
  - apply Forall_app. split.
    + eapply Forall_impl; [|exact Hall]. simpl. intros r (H1 & H2 & H3).
      repeat split; auto; lia.
    + constructor; [|constructor]. simpl. repeat split; try lia.
      apply issued_newTokenRow.
  - intros f. rewrite liveCount_app. unfold liveIn at 1. simpl.
    destruct (Nat.eqb_spec fam f) as [<-|Hne]; simpl.
    + rewrite Hzero. unfold quota. rewrite Hnotdead. lia.
    + specialize (Hlive f). lia.
  - intros f Hf. specialize (Hdead f Hf). lia.
Qed.

Lemma sessionInvOn_ids (db : Db) :
  sessionInvOn dead db ->
  forall r, In r (refresh_tokens db) -> (rt_id r < nextUuid db)%nat.
Proof.
  intros (_ & Hall & _) r Hr. rewrite Forall_forall in Hall.
  now destruct (Hall r Hr).
Qed.

Lemma keepsSessionInv_createTokenPair_fresh u e s now :
  preserves (keepsSessionInv dead) (createTokenPair env u e s None now).
Proof.
  intros db Hinv.
  assert (Hinv' : sessionInvOn dead (set_nextUuid S db)).
  { apply (sessionInvOn_frame db); [split; simpl; auto|exact Hinv]. }
  rewrite createTokenPair_fresh_family, createTokenPair_in_family
    by (apply (sessionInvOn_ids _ Hinv')).
  cbn [fst]. apply (sessionInvOn_append (set_nextUuid S db)).
  - exact Hinv'.
  - simpl. lia.
  - simpl. apply liveCount_fresh. intros r Hr.
    destruct Hinv as (_ & Hall & _). rewrite Forall_forall in Hall.
    destruct (Hall r Hr) as (_ & Hf & _). lia.
  - destruct (dead (nextUuid db)) eqn:E; [|reflexivity].
    destruct Hinv as (_ & _ & _ & Hdead). specialize (Hdead _ E). lia.
Qed.

End SessionInvariant.

Lemma TokenHash_eqb_eq (a b : TokenHash) : TokenHash_eqb a b = true <-> a = b.
Proof.
  unfold TokenHash_eqb. destruct (TokenHash_eq_dec a b); split; congruence.
Qed.

Lemma presented_true (h : TokenHash) (u : Uuid) (r : RefreshToken) :
  presented h u r = true <-> rt_tokenHash r = h /\ rt_userId r = u.
Proof.
  unfold presented. rewrite andb_true_iff, TokenHash_eqb_eq, Nat.eqb_eq. tauto.
Qed.

(** A verified token is a signed token, and verification returns its claims. *)
Lemma verifyRefreshToken_claims (cfg : EnvConfig) (raw : RawToken) (now : Time)
      (claims : RefreshTokenClaims) :
  verifyRefreshToken cfg raw now = Some claims ->
  raw = JwtString (JWT_REFRESH_SECRET cfg) claims /\ clockTimestamp now < exp claims.
Proof.
  destruct raw as [key c|bytes]; simpl; [|discriminate].
  destruct (String.eqb_spec key (JWT_REFRESH_SECRET cfg)) as [->|]; [|discriminate].
  destruct (Z.ltb_spec (clockTimestamp now) (exp c)); [|discriminate].
  intros [= ->]. auto.
Qed.

(** The claims of a verified token whose digest a row stores are the ones the
    row was issued with. *)
Lemma claims_of_stored (cfg : EnvConfig) (raw : RawToken) (now : Time)
      (claims : RefreshTokenClaims) (r : RefreshToken) :
  issued r -> rt_tokenHash r = hashToken raw ->
  verifyRefreshToken cfg raw now = Some claims ->
  sub claims = rt_userId r /\ tokenId claims = rt_id r /\ family claims = rt_family r.
Proof.
  intros (key & c & Hh & Hs & Ht & Hf) Hraw Hv.
  apply verifyRefreshToken_claims in Hv. destruct Hv as [-> _].
  rewrite Hh in Hraw. unfold hashToken in Hraw.
  injection Hraw as _ <-. auto.
Qed.

Section SessionSteps.

Variable env : Env.
Variable dead : Uuid -> bool.

(** The row a successful rotation starts from is the live token of its
    family, and the family is the one of the claims. *)
Lemma stored_live (db : Db) (raw : RawToken) (now : Time)
      (claims : RefreshTokenClaims) (stored : RefreshToken) :
  sessionInvOn dead db ->
  verifyRefreshToken (config env) raw now = Some claims ->
  find (presented (hashToken raw) (sub claims)) (refresh_tokens db) = Some stored ->
  In stored (refresh_tokens db)
  /\ rt_tokenHash stored = hashToken raw
  /\ family claims = rt_family stored
  /\ (rt_family stored < nextUuid db)%nat
  /\ (revoked stored = false ->
      liveIn (family claims) stored = true /\ dead (family claims) = false).
Proof.
  intros (Hnd & Hall & Hlive & Hdead) Hv Hf.
  apply find_some in Hf. destruct Hf as [Hin Hp].
  apply presented_true in Hp. destruct Hp as [Hh Hu].
  rewrite Forall_forall in Hall. destruct (Hall stored Hin) as (_ & Hfam & Hiss).
  destruct (claims_of_stored _ _ _ _ _ Hiss Hh Hv) as (_ & _ & Hc).
  repeat split; auto.
  - unfold liveIn. rewrite Hc, Nat.eqb_refl. now rewrite H.
  - specialize (Hlive (family claims)). unfold quota in Hlive.
    destruct (dead (family claims)); [|reflexivity].
    assert (Hpos : (1 <= liveCount (family claims) (refresh_tokens db))%nat).
    { unfold liveCount. clear - Hin Hc H.
      induction (refresh_tokens db) as [|a rows IH]; [contradiction|].
      simpl. destruct Hin as [->|Hin].
      - unfold liveIn at 1. rewrite Hc, Nat.eqb_refl, H. simpl. lia.
      - specialize (IH Hin). destruct (liveIn (family claims) a); simpl; lia. }
    lia.
Qed.

Lemma keepsSessionInv_refreshTokens raw now :
  preserves (keepsSessionInv dead) (refreshTokens env raw now).
Proof.
  intros db Hinv. rewrite refreshTokens_cases.
  destruct (verifyRefreshToken (config env) raw now) as [claims|] eqn:Hv;
    [|exact Hinv].
  destruct (find (presented _ _) (refresh_tokens db)) as [stored|] eqn:Hf;
    [|now apply sessionInvOn_revokeMany].
  destruct (stored_live db raw now claims stored Hinv Hv Hf)
    as (Hin & Hh & Hc & Hlt & Hlive).
  destruct (revoked stored) eqn:Hr; [now apply sessionInvOn_revokeMany|].
  destruct (Hlive eq_refl) as [Hl Hd].
  destruct (rt_expiresAt stored <? now); [exact Hinv|].
  pose proof (sessionInvOn_revokeUnique dead
                (fun r => Nat.eqb (rt_id r) (rt_id stored)) db Hinv) as Hinv1.
  destruct (find _ (users db)) as [user|]; [|exact Hinv1].
  destruct (isSome (user_deletedAt user)); [exact Hinv1|].
  rewrite createTokenPair_in_family by (apply (sessionInvOn_ids _ _ Hinv1)).
  cbn [fst]. apply sessionInvOn_append.
  - exact Hinv1.
  - simpl. rewrite Hc. exact Hlt.
  - simpl. destruct Hinv as (Hnd & _ & Hcount & _).
    apply liveCount_revoke_live; auto.
    specialize (Hcount (family claims)). unfold quota in Hcount. rewrite Hd in Hcount.
    exact Hcount.
  - exact Hd.
Qed.

End SessionSteps.

(* ------------------------------------------------------------------ *)
(** ** One live token per family *)
(* ------------------------------------------------------------------ *)

(** A login that resolves has verified the password once and created the
    pair of tokens in a new family. *)
Lemma loginUser_resolves (env : Env) (email_ password : string) (now : Time)
      (db db' : Db) (res : LoginResult) :
  loginUser env email_ password now db = (db', inr res) ->
  exists user,
    createTokenPair env (user_id user) (email user) (status user) None now
                    (set_verifyPasswordCalls S db)
    = (db', inr (login_tokens res)).
Proof.
  unfold loginUser, await at 1, user_findUnique_email, query. cbv beta.
  destruct (find _ (users db)) as [user|]; [|discriminate].
  destruct (negb (truthy (passwordHash user))); [discriminate|].
  destruct (isSome (user_deletedAt user)); [discriminate|].
  destruct (UserStatus_eqb (status user) SUSPENDED); [discriminate|].
  unfold await at 1, verifyPassword_call.
  destruct (negb (verifyPassword env _ password)); [discriminate|].
  unfold await, resolve.
  destruct (createTokenPair env (user_id user) (email user) (status user) None now
                            (set_verifyPasswordCalls S db))
    as [db2 [e|tokens]] eqn:E; [discriminate|].
  intros [= <- <-]. exists user. rewrite E. reflexivity.
Qed.

(* ------------------------------------------------------------------ *)
(** ** Rows of the refresh tokens persist *)
(* ------------------------------------------------------------------ *)

Lemma rowsPersist_refl (db : Db) : rowsPersist db db.
Proof. intros r Hr. exists r. repeat split; auto. Qed.

Lemma rowsPersist_trans (a b c : Db) :
  rowsPersist a b -> rowsPersist b c -> rowsPersist a c.
Proof.
  intros Hab Hbc r Hr.
  destruct (Hab r Hr) as (r1 & H1 & Hi1 & Hh1 & Hu1 & Hf1 & Hr1).
  destruct (Hbc r1 H1) as (r2 & H2 & Hi2 & Hh2 & Hu2 & Hf2 & Hr2).
  exists r2. repeat split; try congruence. auto.
Qed.

Lemma rowsPersist_same (db db' : Db) :
  refresh_tokens db' = refresh_tokens db -> rowsPersist db db'.
Proof. intros H r Hr. exists r. rewrite H. repeat split; auto. Qed.

Lemma rowsPersist_revokeMany (p : RefreshToken -> bool) (db : Db) :
  rowsPersist db (set_refresh_tokens (updateMany p (with_revoked true)) db).
Proof.
  intros r Hr. exists (if p r then with_revoked true r else r). split.
  - simpl. unfold updateMany. apply in_map_iff. exists r. auto.
  - destruct (p r); simpl; repeat split; auto.
Qed.

Lemma In_updateUnique {A} (p : A -> bool) (data : A -> A) (rows : list A) (x : A) :
  In x rows -> In x (updateUnique p data rows) \/ In (data x) (updateUnique p data rows).
Proof.
  induction rows as [|a rows IH]; simpl; [auto|].
  intros [->|Hin].
  - destruct (p x); simpl; auto.
  - destruct (p a); simpl; [auto|]. destruct (IH Hin); auto.
Qed.

Lemma rowsPersist_revokeUnique (p : RefreshToken -> bool) (db : Db) :
  rowsPersist db (set_refresh_tokens (updateUnique p (with_revoked true)) db).
Proof.
  intros r Hr. simpl.
  destruct (In_updateUnique p (with_revoked true) _ _ Hr) as [H|H].
  - exists r. repeat split; auto.
  - exists (with_revoked true r). repeat split; auto.
Qed.

Lemma rowsPersist_append (db db' : Db) (row : RefreshToken) :
  refresh_tokens db' = refresh_tokens db ++ [row] -> rowsPersist db db'.
Proof.
  intros H r Hr. exists r. rewrite H. repeat split; auto.
  apply in_or_app. now left.
Qed.

Section SessionPersistence.

Variable env : Env.
Variable dead : Uuid -> bool.

Lemma sessionStep_refl (db : Db) : sessionStep dead db db.
Proof. intros H. split; [exact H|apply rowsPersist_refl]. Qed.

Lemma sessionStep_trans (a b c : Db) :
  sessionStep dead a b -> sessionStep dead b c -> sessionStep dead a c.
Proof.
  intros Hab Hbc Ha. destruct (Hab Ha) as [Hb Pab].
  destruct (Hbc Hb) as [Hc Pbc]. split; [exact Hc|].
  exact (rowsPersist_trans _ _ _ Pab Pbc).
Qed.

Lemma sessionStep_framed {A} (m : Promise A) :
  preserves sessionFrame m -> preserves (sessionStep dead) m.
Proof.
  intros Hm db Hinv. specialize (Hm db). split.
  - exact (sessionInvOn_frame dead _ _ Hm Hinv).
  - apply rowsPersist_same. apply Hm.
Qed.

Lemma sessionStep_revokeFamily (fam : Uuid) :
  preserves (sessionStep dead) (refreshToken_revokeFamily fam).
Proof.
  intros db H. split; [now apply sessionInvOn_revokeMany|].
  apply rowsPersist_revokeMany.
Qed.

Lemma sessionStep_write_revoke (p : RefreshToken -> bool) :
  preserves (sessionStep dead)
            (write (set_refresh_tokens (updateMany p (with_revoked true)))).
Proof.
  intros db H. split; [now apply sessionInvOn_revokeMany|].
  apply rowsPersist_revokeMany.
Qed.

Lemma sessionStep_createTokenPair_fresh u e s now :
  preserves (sessionStep dead) (createTokenPair env u e s None now).
Proof.
  intros db Hinv.
  split; [now apply keepsSessionInv_createTokenPair_fresh|].
  assert (Hinv' : sessionInvOn dead (set_nextUuid S db)).
  { apply (sessionInvOn_frame dead db); [split; simpl; auto|exact Hinv]. }
  rewrite createTokenPair_fresh_family, createTokenPair_in_family
    by (apply (sessionInvOn_ids _ _ Hinv')).
  eapply rowsPersist_append. reflexivity.
Qed.

Lemma sessionStep_refreshTokens raw now :
  preserves (sessionStep dead) (refreshTokens env raw now).
Proof.
  intros db Hinv.
  split; [now apply keepsSessionInv_refreshTokens|].
  rewrite refreshTokens_cases.
  destruct (verifyRefreshToken (config env) raw now) as [claims|];
    [|apply rowsPersist_refl].
  destruct (find (presented _ _) (refresh_tokens db)) as [stored|];
    [|apply rowsPersist_revokeMany].
  destruct (revoked stored); [apply rowsPersist_revokeMany|].
  destruct (rt_expiresAt stored <? now); [apply rowsPersist_refl|].
  pose proof (sessionInvOn_revokeUnique dead
                (fun r => Nat.eqb (rt_id r) (rt_id stored)) db Hinv) as Hinv1.
  destruct (find _ (users db)) as [user|]; [|apply rowsPersist_revokeUnique].
  destruct (isSome (user_deletedAt user)); [apply rowsPersist_revokeUnique|].
  rewrite createTokenPair_in_family by (apply (sessionInvOn_ids _ _ Hinv1)).
  eapply rowsPersist_trans; [apply rowsPersist_revokeUnique|].
  eapply rowsPersist_append. reflexivity.
Qed.

Ltac persist_steps :=
  repeat
    (try match goal with |- forall _, _ => intros end;
     first
       [ apply sessionStep_framed; solve [auto with frames]
       | apply sessionStep_revokeFamily
       | apply sessionStep_write_revoke
       | apply sessionStep_createTokenPair_fresh
       | apply preserves_resolve; exact sessionStep_refl
       | apply preserves_throw; exact sessionStep_refl
       | apply preserves_query; exact sessionStep_refl
       | apply preserves_transaction; [exact sessionStep_refl | ]
       | apply preserves_await; [exact sessionStep_trans | | ]
       | match goal with
         | |- preserves _ (match ?x with _ => _ end) => destruct x
         end ]).

Lemma sessionStep_loginUser e p now :
  preserves (sessionStep dead) (loginUser env e p now).
Proof. unfold loginUser, user_findUnique_email. persist_steps. Qed.

Lemma sessionStep_logoutUser raw u :
  preserves (sessionStep dead) (logoutUser raw u).
Proof. unfold logoutUser, refreshToken_findFirst. persist_steps. Qed.

Lemma sessionStep_resetPassword raw p now :
  preserves (sessionStep dead) (resetPassword env raw p now).
Proof. unfold resetPassword, oneTimeToken_findUnique. persist_steps. Qed.

Lemma sessionStep_serve (r : Request) (now : Time) (db : Db) :
  sessionStep dead db (serve env r now db).
Proof.
  destruct r; cbn [serve];
    first
      [ apply sessionStep_loginUser
      | apply sessionStep_refreshTokens
      | apply sessionStep_logoutUser
      | apply sessionStep_resetPassword
      | refine (sessionStep_framed _ _ _);
        solve [ apply sessionFrame_registerUser | apply sessionFrame_verifyEmail
              | apply sessionFrame_resendVerificationRoute
              | apply sessionFrame_forgotPasswordRoute
              | apply sessionFrame_updateProfile
              | apply sessionFrame_createGroup | apply sessionFrame_addMember
              | apply sessionFrame_removeMember | apply sessionFrame_createTask
              | apply sessionFrame_updateTask | apply sessionFrame_updateTaskStatus
              | apply sessionFrame_acceptTask | apply sessionFrame_assignTask
              | apply sessionFrame_deleteTask ] ].
Qed.

Lemma sessionStep_evolves (db db' : Db) :
  evolves env db db' -> sessionStep dead db db'.
Proof.
  induction 1.
  - apply sessionStep_refl.
  - eapply sessionStep_trans; [exact IHevolves|apply sessionStep_serve].
  - eapply sessionStep_trans; [exact IHevolves|].
    intros Hinv. split.
    + apply (sessionInvOn_frame dead db'); [split; simpl; auto|exact Hinv].
    + apply rowsPersist_same. reflexivity.
Qed.

End SessionPersistence.

(** Every reachable state satisfies the invariant of the refresh tokens. *)
Lemma reachable_sessionInv (env : Env) (db : Db) : reachable env db -> sessionInv db.
Proof.
  induction 1.
  - unfold sessionInv, sessionInvOn. simpl.
    repeat split; try constructor; auto; discriminate.
  - now apply (sessionStep_serve env (fun _ => false) r now db).
  - apply (sessionInvOn_frame _ db); [split; simpl; auto|auto].
Qed.

(* ------------------------------------------------------------------ *)
(** ** Reuse of a refresh token *)
(* ------------------------------------------------------------------ *)

Lemma NoDup_key_inj {A} (key : A -> nat) (rows : list A) (x y : A) :
  NoDup (map key rows) -> In x rows -> In y rows -> key x = key y -> x = y.
Proof.
  induction rows as [|a rows IH]; simpl; intros Hnd Hx Hy Hk; [contradiction|].
  inversion Hnd as [|? ? Hnotin Hnd']; subst.
  destruct Hx as [->|Hx], Hy as [->|Hy]; auto.
  - exfalso. apply Hnotin. rewrite Hk. now apply in_map.
  - exfalso. apply Hnotin. rewrite <- Hk. now apply in_map.
Qed.

Lemma refreshTokens_unverified (env : Env) (raw : RawToken) (now : Time) (db : Db) :
  verifyRefreshToken (config env) raw now = None ->
  refreshTokens env raw now db = (db, inl invalidToken).
Proof. intros H. rewrite refreshTokens_cases, H. reflexivity. Qed.

(** Presenting a token whose row is revoked revokes the family of the row. *)
Lemma refreshTokens_spent (env : Env) (dead : Uuid -> bool) (db : Db)
      (raw : RawToken) (now : Time) (claims : RefreshTokenClaims)
      (r : RefreshToken) :
  sessionInvOn dead db ->
  In r (refresh_tokens db) -> rt_tokenHash r = hashToken raw -> revoked r = true ->
  verifyRefreshToken (config env) raw now = Some claims ->
  family claims = rt_family r
  /\ refreshTokens env raw now db =
     (set_refresh_tokens
        (updateMany (fun x => Nat.eqb (rt_family x) (rt_family r))
                    (with_revoked true)) db,
      inl tokenReuse).
Proof.
  intros Hinv Hin Hh Hrev Hv.
  pose proof Hinv as (Hnd & Hall & _).
  rewrite Forall_forall in Hall.
  destruct (Hall r Hin) as (_ & _ & Hiss).
  destruct (claims_of_stored _ _ _ _ _ Hiss Hh Hv) as (Hs & Ht & Hf).
  split; [exact Hf|].
  rewrite refreshTokens_cases, Hv, Hf.
  destruct (find (presented (hashToken raw) (sub claims)) (refresh_tokens db))
    as [stored|] eqn:E.
  - apply find_some in E. destruct E as [Hins Hp].
    apply presented_true in Hp. destruct Hp as [Hhs _].
    destruct (Hall stored Hins) as (_ & _ & Hiss').
    destruct (claims_of_stored _ _ _ _ _ Hiss' Hhs Hv) as (_ & Ht' & _).
    assert (stored = r).
    { apply (NoDup_key_inj rt_id _ _ _ Hnd Hins Hin). congruence. }
    subst stored. rewrite Hrev. reflexivity.
  - reflexivity.
Qed.

Lemma familyRevoked_of_inv (fam : Uuid) (db : Db) :
  sessionInvOn (Nat.eqb fam) db -> familyRevoked db fam.
Proof.
  intros (_ & _ & Hlive & Hdead). split.
  - apply Hdead. apply Nat.eqb_refl.
  - apply liveCount_zero. specialize (Hlive fam). unfold quota in Hlive.
    rewrite Nat.eqb_refl in Hlive. lia.
Qed.

Lemma inv_of_familyRevoked (fam : Uuid) (db : Db) :
  sessionInv db -> familyRevoked db fam -> sessionInvOn (Nat.eqb fam) db.
Proof.
  intros (Hnd & Hall & Hlive & _) [Hlt Hrev]. repeat split; auto.
  - intros f. unfold quota. destruct (Nat.eqb_spec fam f) as [<-|Hne].
    + apply liveCount_zero in Hrev. lia.
    + apply (Hlive f).
  - intros f Hf. apply Nat.eqb_eq in Hf. now subst f.
Qed.

Lemma familyRevoked_after_revoke (fam : Uuid) (db : Db) :
  (fam < nextUuid db)%nat ->
  familyRevoked
    (set_refresh_tokens
       (updateMany (fun x => Nat.eqb (rt_family x) fam) (with_revoked true)) db)
    fam.
Proof.
  intros Hlt. split; [exact Hlt|].
  intros r Hr Hf. simpl in Hr. apply In_updateMany_inv in Hr.
  destruct Hr as (r0 & _ & ->).
  destruct (Nat.eqb_spec (rt_family r0) fam) as [E|E]; [reflexivity|].
  contradiction.
Qed.

Lemma historicalToken_persist (db db' : Db) (fam : Uuid) (raw : RawToken) :
  rowsPersist db db' -> historicalToken db fam raw -> historicalToken db' fam raw.
Proof.
  intros Hp (r & Hin & Hh & Hf).
  destruct (Hp r Hin) as (r' & Hin' & _ & Hh' & _ & Hf' & _).
  exists r'. repeat split; congruence.
Qed.

(** A login that resolves opens a family that no row had before: the next
    identifier of the supply. *)
Lemma loginUser_opens_family (env : Env) (dead : Uuid -> bool) (db db' : Db)
      (email_ password : string) (now : Time) (res : LoginResult) :
  sessionInvOn dead db ->
  loginUser env email_ password now db = (db', inr res) ->
  (forall r, In r (refresh_tokens db) -> rt_family r <> nextUuid db)
  /\ historicalToken db' (nextUuid db) (refreshToken (login_tokens res))
  /\ liveCount (nextUuid db) (refresh_tokens db') = 1%nat.
Proof.
  intros Hinv Hrun.
  destruct (loginUser_resolves _ _ _ _ _ _ _ Hrun) as [user Hpair].
  assert (Hinv' : sessionInvOn dead (set_nextUuid S (set_verifyPasswordCalls S db))).
  { apply (sessionInvOn_frame _ db); [split; simpl; auto|exact Hinv]. }
  rewrite createTokenPair_fresh_family, createTokenPair_in_family in Hpair
    by (apply (sessionInvOn_ids _ _ Hinv')).
  injection Hpair as <- <-.
  assert (Hfresh : forall r, In r (refresh_tokens db) -> rt_family r <> nextUuid db).
  { intros r Hr. destruct Hinv as (_ & Hall & _). rewrite Forall_forall in Hall.
    destruct (Hall r Hr) as (_ & Hf & _). simpl in *. lia. }
  split; [exact Hfresh|]. split.
  - eexists. split; [simpl; apply in_or_app; right; left; reflexivity|].
    split; reflexivity.
  - simpl. rewrite liveCount_app, (liveCount_fresh _ _ Hfresh).
    unfold liveIn. simpl. now rewrite Nat.eqb_refl.
Qed.

(** A refresh that resolves: the row it started from, and the table after. *)
Lemma refreshTokens_resolves (env : Env) (dead : Uuid -> bool) (db db' : Db)
      (raw : RawToken) (now : Time) (tokens : AuthTokens) :
  sessionInvOn dead db ->
  refreshTokens env raw now db = (db', inr tokens) ->
  exists stored user,
    In stored (refresh_tokens db)
    /\ rt_tokenHash stored = hashToken raw
    /\ revoked stored = false
    /\ liveCount (rt_family stored)
                 (updateUnique (fun r => Nat.eqb (rt_id r) (rt_id stored))
                               (with_revoked true) (refresh_tokens db)) = 0%nat
    /\ refresh_tokens db' =
       updateUnique (fun r => Nat.eqb (rt_id r) (rt_id stored))
                    (with_revoked true) (refresh_tokens db)
       ++ [newTokenRow env (user_id user) (nextUuid db) (rt_family stored) now]
    /\ rt_tokenHash
         (newTokenRow env (user_id user) (nextUuid db) (rt_family stored) now)
       = hashToken (refreshToken tokens)
    /\ liveCount (rt_family stored) (refresh_tokens db') = 1%nat.
Proof.
  intros Hinv. rewrite refreshTokens_cases.
  destruct (verifyRefreshToken (config env) raw now) as [claims|] eqn:Hv;
    [|discriminate].
  destruct (find (presented _ _) (refresh_tokens db)) as [stored|] eqn:Hf;
    [|discriminate].
  destruct (stored_live env _ db raw now claims stored Hinv Hv Hf)
    as (Hin & Hh & Hc & Hlt & Hlive).
  destruct (revoked stored) eqn:Hr; [discriminate|].
  destruct (Hlive eq_refl) as [Hl Hd].
  destruct (rt_expiresAt stored <? now); [discriminate|].
  pose proof (sessionInvOn_revokeUnique _
                (fun r => Nat.eqb (rt_id r) (rt_id stored)) db Hinv) as Hinv1.
  destruct (find _ (users db)) as [user|]; [|discriminate].
  destruct (isSome (user_deletedAt user)); [discriminate|].
  rewrite createTokenPair_in_family by (apply (sessionInvOn_ids _ _ Hinv1)).
  intros [= <- <-]. exists stored, user.
  assert (Hzero : liveCount (rt_family stored)
                    (updateUnique (fun r => Nat.eqb (rt_id r) (rt_id stored))
                                  (with_revoked true) (refresh_tokens db)) = 0%nat).
  { destruct Hinv as (Hnd & _ & Hcount & _).
    assert (Hle : (liveCount (rt_family stored) (refresh_tokens db) <= 1)%nat).
    { specialize (Hcount (rt_family stored)). unfold quota in Hcount.
      destruct (dead (rt_family stored)); lia. }
    apply (liveCount_revoke_live _ _ _ Hnd Hle Hin).
    now rewrite <- Hc. }
  rewrite <- Hc. rewrite <- Hc in Hzero.
  repeat split; auto.
  simpl. rewrite liveCount_app, Hzero. unfold liveIn. simpl.
  now rewrite Nat.eqb_refl.
Qed.

(* ------------------------------------------------------------------ *)
(** ** Sessions: rotation and reuse *)
(* ------------------------------------------------------------------ *)

(** Requests that are served one after the other keep the families at one
    live token: in every state reached that way every family has at most one
    refresh token that is not revoked.  A login that resolves has created a
    family that no row had before, with the new token as its one live token.
    A refresh that resolves started from a stored token that was not
    revoked: it has revoked that row, which left the family without a live
    token, and then appended the row of the successor, which is the one live
    token of the family afterwards.  Two refreshes in flight together are
    another matter, see the end of this section. *)
Theorem one_live_token_per_family (env : Env) (db : Db) :
  reachable env db ->
  (forall fam, (liveCount fam (refresh_tokens db) <= 1)%nat)
  /\
  (forall email_ password now db' res,
      loginUser env email_ password now db = (db', inr res) ->
      exists fam,
        (forall r, In r (refresh_tokens db) -> rt_family r <> fam)
        /\ historicalToken db' fam (refreshToken (login_tokens res))
        /\ liveCount fam (refresh_tokens db') = 1%nat)
  /\
  (forall raw now db' tokens,
      refreshTokens env raw now db = (db', inr tokens) ->
      exists stored user,
        In stored (refresh_tokens db)
        /\ rt_tokenHash stored = hashToken raw
        /\ revoked stored = false
        /\ liveCount (rt_family stored)
                     (updateUnique (fun r => Nat.eqb (rt_id r) (rt_id stored))
                                   (with_revoked true) (refresh_tokens db)) = 0%nat
        /\ refresh_tokens db' =
           updateUnique (fun r => Nat.eqb (rt_id r) (rt_id stored))
                        (with_revoked true) (refresh_tokens db)
           ++ [newTokenRow env (user_id user) (nextUuid db) (rt_family stored) now]
        /\ rt_tokenHash
             (newTokenRow env (user_id user) (nextUuid db) (rt_family stored) now)
           = hashToken (refreshToken tokens)
        /\ liveCount (rt_family stored) (refresh_tokens db') = 1%nat).
Proof.
  intros Hreach. pose proof (reachable_sessionInv env db Hreach) as Hinv.
  split; [|split].
  - destruct Hinv as (_ & _ & Hlive & _). exact Hlive.
  - intros email_ password now db' res Hrun. exists (nextUuid db).
    exact (loginUser_opens_family env _ db db' _ _ _ _ Hinv Hrun).
  - intros raw now db' tokens Hrun.
    exact (refreshTokens_resolves env _ db db' raw now tokens Hinv Hrun).
Qed.

(** C1, as amended.  Take a reachable state and a refresh token that passes
    verification, whose row is stored and not revoked and has not expired,
    and whose user exists and is not soft-deleted.  Refreshing with it
    resolves with a new pair of tokens.  From then on, in whatever state the
    system has moved to, presenting the same token again rejects: with
    TOKEN_REUSE as long as the token still passes verification, and with
    INVALID_TOKEN once it does not (its signed expiry has passed).  After
    such a TOKEN_REUSE every token of the family is revoked and stays so:
    the presented token and the token of the first call are tokens of the
    family, and presenting any token of the family rejects with TOKEN_REUSE
    if it passes verification and with INVALID_TOKEN if it does not.  A later
    login opens another family, with its own live token. *)
Theorem refresh_reuse_revokes_family (env : Env) (db : Db) (raw : RawToken)
        (now1 : Time) (claims : RefreshTokenClaims) (stored : RefreshToken)
        (user : User) :
  reachable env db ->
  verifyRefreshToken (config env) raw now1 = Some claims ->
  find (presented (hashToken raw) (sub claims)) (refresh_tokens db) = Some stored ->
  revoked stored = false ->
  now1 <= rt_expiresAt stored ->
  find (fun u => Nat.eqb (user_id u) (sub claims)) (users db) = Some user ->
  user_deletedAt user = None ->
  exists db1 tokens,
    refreshTokens env raw now1 db = (db1, inr tokens)
    /\ historicalToken db1 (family claims) (refreshToken tokens)
    /\ forall db1' now2,
        evolves env db1 db1' ->
        (verifyRefreshToken (config env) raw now2 = None ->
         refreshTokens env raw now2 db1' = (db1', inl invalidToken))
        /\
        (verifyRefreshToken (config env) raw now2 <> None ->
         exists db2,
           refreshTokens env raw now2 db1' = (db2, inl tokenReuse)
           /\ forall db3,
               evolves env db2 db3 ->
               familyRevoked db3 (family claims)
               /\ historicalToken db3 (family claims) raw
               /\ historicalToken db3 (family claims) (refreshToken tokens)
               /\ (forall raw' now3,
                      historicalToken db3 (family claims) raw' ->
                      (verifyRefreshToken (config env) raw' now3 <> None ->
                       exists db4,
                         refreshTokens env raw' now3 db3 = (db4, inl tokenReuse))
                      /\
                      (verifyRefreshToken (config env) raw' now3 = None ->
                       refreshTokens env raw' now3 db3 = (db3, inl invalidToken)))
               /\ (forall email_ password now4 db4 res,
                      loginUser env email_ password now4 db3 = (db4, inr res) ->
                      exists fam,
                        fam <> family claims
                        /\ historicalToken db4 fam (refreshToken (login_tokens res))
                        /\ liveCount fam (refresh_tokens db4) = 1%nat)).
Proof.
  intros Hreach Hv Hf Hr Hexp Hu Hd.
  pose proof (reachable_sessionInv env db Hreach) as Hinv.
  destruct (stored_live env _ db raw now1 claims stored Hinv Hv Hf)
    as (Hin & Hh & Hc & Hlt & _).
  pose proof (sessionInvOn_revokeUnique _
                (fun r => Nat.eqb (rt_id r) (rt_id stored)) db Hinv) as Hinv0.
  (* the first call *)
  assert (Hfirst :
            refreshTokens env raw now1 db =
            createTokenPair env (user_id user) (email user) (status user)
              (Some (family claims)) now1
              (set_refresh_tokens
                 (updateUnique (fun r => Nat.eqb (rt_id r) (rt_id stored))
                               (with_revoked true)) db)).
  { rewrite refreshTokens_cases, Hv, Hf, Hr, Hu, Hd.
    destruct (Z.ltb_spec (rt_expiresAt stored) now1); [lia|reflexivity]. }
  rewrite createTokenPair_in_family in Hfirst
    by (apply (sessionInvOn_ids _ _ Hinv0)).
  eexists. eexists. split; [exact Hfirst|].
  match type of Hfirst with _ = (?d, _) => set (db1 := d) in * end.
  assert (Hinv1 : sessionInv db1).
  { pose proof (keepsSessionInv_refreshTokens env _ raw now1 db Hinv) as H.
    now rewrite Hfirst in H. }
  (* the row of the presented token is revoked after the first call *)
  assert (Hspent : In (with_revoked true stored) (refresh_tokens db1)).
  { unfold db1. simpl. apply in_or_app. left.
    destruct Hinv as (Hnd & _).
    rewrite (updateUnique_updateMany rt_id _ _ (rt_id stored) _ Hnd)
      by (intros y Hy; now apply Nat.eqb_eq).
    apply In_updateMany; [exact Hin|apply Nat.eqb_refl]. }
  assert (Hnew : historicalToken db1 (family claims)
                   (signRefreshToken (config env) (user_id user)
                                     (nextUuid db) (family claims) now1)).
  { eexists. split; [unfold db1; simpl; apply in_or_app; right; left; reflexivity|].
    split; reflexivity. }
  split; [exact Hnew|].
  intros db1' now2 Hev1.
  destruct (sessionStep_evolves env _ db1 db1' Hev1 Hinv1) as [Hinv1' Hp1].
  split; [apply refreshTokens_unverified|].
  intros Hv2.
  destruct (verifyRefreshToken (config env) raw now2) as [claims2|] eqn:Hv2';
    [clear Hv2|contradiction].
  destruct (Hp1 _ Hspent) as (r1 & Hin1 & _ & Hh1 & _ & Hf1 & Hr1).
  simpl in Hh1, Hf1, Hr1. specialize (Hr1 eq_refl).
  rewrite Hh in Hh1. rewrite <- Hc in Hf1.
  destruct (refreshTokens_spent env _ db1' raw now2 claims2 r1 Hinv1' Hin1 Hh1 Hr1 Hv2')
    as [_ Hsecond].
  rewrite Hf1 in Hsecond.
  eexists. split; [exact Hsecond|].
  match type of Hsecond with _ = (?d, _) => set (db2 := d) in * end.
  assert (Hp2 : rowsPersist db1' db2) by apply rowsPersist_revokeMany.
  assert (Hdead2 : sessionInvOn (Nat.eqb (family claims)) db2).
  { apply inv_of_familyRevoked.
    - now apply sessionInvOn_revokeMany.
    - apply familyRevoked_after_revoke.
      destruct Hinv1' as (_ & Hall & _). rewrite Forall_forall in Hall.
      destruct (Hall r1 Hin1) as (_ & Hlt1 & _). now rewrite Hf1 in Hlt1. }
  intros db3 Hev3.
  destruct (sessionStep_evolves env _ db2 db3 Hev3 Hdead2) as [Hdead3 Hp3].
  pose proof (familyRevoked_of_inv _ _ Hdead3) as Hrev3.
  assert (Hpersist : rowsPersist db1 db3).
  { eapply rowsPersist_trans; [exact Hp1|].
    eapply rowsPersist_trans; [exact Hp2|exact Hp3]. }
  split; [exact Hrev3|]. split.
  { apply (historicalToken_persist db1 db3); [exact Hpersist|].
    exists (with_revoked true stored). split; [exact Hspent|].
    split; [exact Hh|now rewrite Hc]. }
  split; [exact (historicalToken_persist _ _ _ _ Hpersist Hnew)|].
  split.
  - intros raw' now3 (r & Hinr & Hhr & Hfr). split.
    + intros Hv3.
      destruct (verifyRefreshToken (config env) raw' now3) as [claims3|] eqn:Hv3';
        [|contradiction].
      destruct Hrev3 as [_ Hall3].
      destruct (refreshTokens_spent env _ db3 raw' now3 claims3 r Hdead3 Hinr Hhr
                  (Hall3 r Hinr Hfr) Hv3') as [_ Hthird].
      eexists. exact Hthird.
    + apply refreshTokens_unverified.
  - intros email_ password now4 db4 res Hlogin.
    destruct (loginUser_opens_family env _ db3 db4 _ _ _ _ Hdead3 Hlogin)
      as (_ & Hhist & Hone).
    exists (nextUuid db3). split; [|split; assumption].
    destruct Hrev3 as [Hlt3 _]. lia.
Qed.

Lemma loggedInDb_reachable : reachable sampleEnv loggedInDb.
Proof. unfold loggedInDb, registeredDb. repeat constructor. Defined.

Lemma rotatedDb_reachable : reachable sampleEnv rotatedDb.
Proof. unfold rotatedDb. constructor. exact loggedInDb_reachable. Defined.

Lemma refresh_reuse_revokes_family_witness :
  exists db1 tokens,
    refreshTokens sampleEnv firstToken 2000 loggedInDb = (db1, inr tokens)
    /\ exists db2,
        refreshTokens sampleEnv firstToken 3000 db1 = (db2, inl tokenReuse)
        /\ familyRevoked db2 2%nat
        /\ exists db4,
            refreshTokens sampleEnv (refreshToken tokens) 4000 db2
            = (db4, inl tokenReuse).
Proof.
  edestruct (refresh_reuse_revokes_family sampleEnv loggedInDb firstToken 2000)
    as (db1 & tokens & E & Hhist & H).
  - exact loggedInDb_reachable.
  - reflexivity.
  - reflexivity.
  - reflexivity.
  - simpl. lia.
  - reflexivity.
  - reflexivity.
  - exists db1, tokens. split; [exact E|].
    destruct (H db1 3000 (evolves_here _ _)) as [_ H2].
    destruct H2 as (db2 & E2 & H3); [discriminate|].
    exists db2. split; [exact E2|].
    destruct (H3 db2 (evolves_here _ _)) as (Hrev & _ & Hnew & Hany & _).
    split; [exact Hrev|].
    destruct (Hany _ 4000 Hnew) as [Hreuse _].
    apply Hreuse.
    assert (Etok : refreshToken tokens = secondToken).
    { assert (E' : snd (refreshTokens sampleEnv firstToken 2000 loggedInDb)
                   = inr tokens) by (rewrite E; reflexivity).
      vm_compute in E'. injection E' as <-. reflexivity. }
    rewrite Etok. discriminate.
Defined.

(** C1, as stated, fails: in the sample session the first token is refreshed
    at second 2 and presented again at second 3, which revokes family 2.
    The token was signed at second 1 for 604800 seconds; presented once more
    at second 604801 it does not pass verification any more, and the call
    rejects with INVALID_TOKEN, not with TOKEN_REUSE. *)
Lemma expired_token_of_revoked_family :
  reachable sampleEnv replayedDb
  /\ (exists tokens,
         refreshTokens sampleEnv firstToken 2000 loggedInDb = (rotatedDb, inr tokens))
  /\ refreshTokens sampleEnv firstToken 3000 rotatedDb = (replayedDb, inl tokenReuse)
  /\ familyRevoked replayedDb 2%nat
  /\ historicalToken replayedDb 2%nat firstToken
  /\ refreshTokens sampleEnv firstToken 604801000 replayedDb
     = (replayedDb, inl invalidToken)
  /\ invalidToken <> tokenReuse.
Proof.
  split; [unfold replayedDb; constructor; exact rotatedDb_reachable|].
  split.
  { exists (mkAuthTokens
              (signAccessToken sampleConfig 0%nat "ada@example.com" UNVERIFIED 2000)
              secondToken).
    vm_compute. reflexivity. }
  split; [vm_compute; reflexivity|].
  split.
  { split; [vm_compute; lia|].
    intros r Hr Hf. vm_compute in Hr.
    destruct Hr as [<-|[<-|[]]]; reflexivity. }
  split.
  { eexists. split; [vm_compute; left; reflexivity|]. split; reflexivity. }
  split; [vm_compute; reflexivity|discriminate].
Qed.

(** C2, as amended.  In a reachable state, a refresh that resolves started
    from a stored token that was not revoked; it has revoked that row, which
    left the family without a live token, and then appended the row of the
    successor, in the same family.  A refresh that rejects with
    INVALID_TOKEN or TOKEN_EXPIRED has left the database as it was.  A
    refresh that rejects with TOKEN_REUSE has revoked every token of the
    family that the claims of the presented token name, and has changed
    nothing else. *)
Theorem refreshTokens_outcomes (env : Env) (db db' : Db) (raw : RawToken)
        (now : Time) (result : Result AuthTokens) :
  reachable env db ->
  refreshTokens env raw now db = (db', result) ->
  (forall tokens,
      result = inr tokens ->
      exists stored user,
        In stored (refresh_tokens db)
        /\ rt_tokenHash stored = hashToken raw
        /\ revoked stored = false
        /\ liveCount (rt_family stored)
                     (updateUnique (fun r => Nat.eqb (rt_id r) (rt_id stored))
                                   (with_revoked true) (refresh_tokens db)) = 0%nat
        /\ refresh_tokens db' =
           updateUnique (fun r => Nat.eqb (rt_id r) (rt_id stored))
                        (with_revoked true) (refresh_tokens db)
           ++ [newTokenRow env (user_id user) (nextUuid db) (rt_family stored) now]
        /\ rt_tokenHash
             (newTokenRow env (user_id user) (nextUuid db) (rt_family stored) now)
           = hashToken (refreshToken tokens)
        /\ liveCount (rt_family stored) (refresh_tokens db') = 1%nat)
  /\
  (result = inl invalidToken \/ result = inl tokenExpired -> db' = db)
  /\
  (result = inl tokenReuse ->
   exists claims,
     verifyRefreshToken (config env) raw now = Some claims
     /\ db' = set_refresh_tokens
                (updateMany (fun r => Nat.eqb (rt_family r) (family claims))
                            (with_revoked true)) db
     /\ (forall r, In r (refresh_tokens db') ->
                   rt_family r = family claims -> revoked r = true)).
Proof.
  intros Hreach Hrun. pose proof (reachable_sessionInv env db Hreach) as Hinv.
  split.
  { intros tokens ->.
    exact (refreshTokens_resolves env _ db db' raw now tokens Hinv Hrun). }
  rewrite refreshTokens_cases in Hrun.
  assert (Hrevoke : forall claims r,
             In r (refresh_tokens
                     (set_refresh_tokens
                        (updateMany (fun r => Nat.eqb (rt_family r) (family claims))
                                    (with_revoked true)) db)) ->
             rt_family r = family claims -> revoked r = true).
  { intros claims r Hr Hf. simpl in Hr. apply In_updateMany_inv in Hr.
    destruct Hr as (r0 & _ & ->).
    destruct (Nat.eqb_spec (rt_family r0) (family claims)); [reflexivity|contradiction]. }
  destruct (verifyRefreshToken (config env) raw now) as [claims|] eqn:Hv.
  2: { injection Hrun as <- <-. split; [reflexivity|discriminate]. }
  destruct (find (presented _ _) (refresh_tokens db)) as [stored|] eqn:Hf.
  2: { injection Hrun as <- <-. split; [intros [H|H]; discriminate|].
       intros _. exists claims. repeat split. apply Hrevoke. }
  destruct (revoked stored).
  { injection Hrun as <- <-. split; [intros [H|H]; discriminate|].
    intros _. exists claims. repeat split. apply Hrevoke. }
  destruct (rt_expiresAt stored <? now).
  { injection Hrun as <- <-. split; [reflexivity|discriminate]. }
  pose proof (sessionInvOn_revokeUnique _
                (fun r => Nat.eqb (rt_id r) (rt_id stored)) db Hinv) as Hinv1.
  destruct (find _ (users db)) as [user|].
  2: { injection Hrun as <- <-. split; [intros [H|H]; discriminate|discriminate]. }
  destruct (isSome (user_deletedAt user)).
  { injection Hrun as <- <-. split; [intros [H|H]; discriminate|discriminate]. }
  rewrite createTokenPair_in_family in Hrun by (apply (sessionInvOn_ids _ _ Hinv1)).
  injection Hrun as <- <-. split; [intros [H|H]; discriminate|discriminate].
Qed.

Lemma refreshTokens_outcomes_witness :
  exists stored,
    In stored (refresh_tokens loggedInDb)
    /\ revoked stored = false
    /\ liveCount (rt_family stored) (refresh_tokens rotatedDb) = 1%nat.
Proof.
  destruct (proj1 (refreshTokens_outcomes sampleEnv loggedInDb rotatedDb firstToken
                     2000
                     (inr (mkAuthTokens
                             (signAccessToken sampleConfig 0%nat "ada@example.com"
                                              UNVERIFIED 2000)
                             secondToken))
                     loggedInDb_reachable eq_refl) _ eq_refl)
    as (stored & user & Hin & _ & Hr & _ & _ & _ & Hone).
  exists stored. repeat split; assumption.
Defined.

(** C2, as stated, fails: in the sample session the first token, already
    exchanged, is presented again; the call rejects with TOKEN_REUSE and has
    revoked the token of row 4, so a failed refresh does change the stored
    refresh tokens. *)
Lemma failed_refresh_changes_tokens :
  reachable sampleEnv rotatedDb
  /\ refreshTokens sampleEnv firstToken 3000 rotatedDb = (replayedDb, inl tokenReuse)
  /\ refresh_tokens replayedDb <> refresh_tokens rotatedDb.
Proof.
  split; [exact rotatedDb_reachable|].
  split; [vm_compute; reflexivity|].
  intros H. vm_compute in H. discriminate H.
Qed.

(** The rotation is not one transaction: for an account that was soft-deleted
    after the login, the refresh revokes the presented token, then rejects
    with USER_NOT_FOUND; the family is left without a live token and without
    a successor. *)
Lemma refresh_of_deleted_account_strands_family :
  exists db',
    refreshTokens sampleEnv firstToken 2000 deletedAccountDb = (db', inl userNotFound)
    /\ liveCount 2%nat (refresh_tokens deletedAccountDb) = 1%nat
    /\ liveCount 2%nat (refresh_tokens db') = 0%nat
    /\ List.length (refresh_tokens db') = List.length (refresh_tokens deletedAccountDb).
Proof.
  eexists. split; [vm_compute; reflexivity|]. repeat split.
Qed.

Lemma one_live_token_per_family_witness :
  (liveCount 2%nat (refresh_tokens rotatedDb) <= 1)%nat
  /\ exists stored,
       In stored (refresh_tokens loggedInDb)
       /\ liveCount (rt_family stored) (refresh_tokens rotatedDb) = 1%nat.
Proof.
  split.
  - exact (proj1 (one_live_token_per_family sampleEnv rotatedDb rotatedDb_reachable)
                 2%nat).
  - destruct (proj2 (proj2 (one_live_token_per_family sampleEnv loggedInDb
                              loggedInDb_reachable))
                    firstToken 2000 rotatedDb
                    (mkAuthTokens
                       (signAccessToken sampleConfig 0%nat "ada@example.com"
                                        UNVERIFIED 2000)
                       secondToken)
                    eq_refl)
      as (stored & user & Hin & _ & _ & _ & _ & _ & Hone).
    exists stored. split; assumption.
Defined.

(* ------------------------------------------------------------------ *)
(** ** Two refreshes in flight together *)
(* ------------------------------------------------------------------ *)

(** The two parts of [refreshTokens], one after the other, are
    [refreshTokens]. *)
Lemma refreshTokens_split (env : Env) (raw : RawToken) (now : Time) (db : Db) :
  refreshTokens env raw now db =
  await (refreshTokens_lookup env raw now) (refreshTokens_rotate env now) db.
Proof.
  unfold refreshTokens, refreshTokens_lookup, refreshTokens_rotate.
  destruct (verifyRefreshToken (config env) raw now) as [claims|]; [|reflexivity].
  unfold await at 1 4 5, refreshToken_findFirst, query, resolve. reflexivity.
Qed.

(** C3 does not hold of the code.  The rotation is a lookup, an update, a
    second lookup and a create, each awaited, outside any transaction.  In
    the state [loggedInDb], which is reached by a registration and a login,
    family 2 has one live token.  Two refreshes that present this token and
    are in flight together both find it not revoked, both revoke it and
    both create a successor: both resolve, with two different tokens, and
    family 2 is left with two tokens that are not revoked. *)
Theorem overlapping_refreshes_leave_two_live_tokens :
  reachable sampleEnv loggedInDb
  /\ liveCount 2%nat (refresh_tokens loggedInDb) = 1%nat
  /\ (forall db,
         refreshTokens sampleEnv firstToken 2000 db =
         await (refreshTokens_lookup sampleEnv firstToken 2000)
               (refreshTokens_rotate sampleEnv 2000) db)
  /\ (exists first second,
         snd racedRefresh = (inr first, inr second)
         /\ refreshToken first <> refreshToken second)
  /\ liveCount 2%nat (refresh_tokens (fst racedRefresh)) = 2%nat.
Proof.
  split; [exact loggedInDb_reachable|].
  split; [reflexivity|].
  split; [intros db; apply refreshTokens_split|].
  split; [|reflexivity].
  eexists. eexists. split; [reflexivity|]. discriminate.
Qed.

(* ------------------------------------------------------------------ *)
(** ** Accounts, one-time tokens and memberships: the unique keys *)
(* ------------------------------------------------------------------ *)

Lemma In_deleteUnique_inv {A} (p : A -> bool) (rows : list A) (y : A) :
  In y (deleteUnique p rows) -> In y rows.
Proof.
  induction rows as [|a rows IH]; simpl; [auto|].
  destruct (p a); simpl; intuition.
Qed.

Lemma Forall_deleteUnique {A} (P : A -> Prop) (p : A -> bool) (rows : list A) :
  Forall P rows -> Forall P (deleteUnique p rows).
Proof.
  rewrite !Forall_forall. intros H y Hy. apply H.
  now apply In_deleteUnique_inv in Hy.
Qed.

Lemma Forall_filter_keep {A} (P : A -> Prop) (p : A -> bool) (rows : list A) :
  Forall P rows -> Forall P (filter p rows).
Proof.
  rewrite !Forall_forall. intros H y Hy. apply H. now apply filter_In in Hy.
Qed.

Section Lists.

Context {A B : Type} (f : A -> B).

Lemma map_updateUnique (p : A -> bool) (data : A -> A) (rows : list A) :
  (forall y, f (data y) = f y) ->
  map f (updateUnique p data rows) = map f rows.
Proof.
  intros Hk. induction rows as [|a rows IH]; simpl; [reflexivity|].
  destruct (p a); simpl; [now rewrite Hk|now rewrite IH].
Qed.

Lemma NoDup_map_deleteUnique (p : A -> bool) (rows : list A) :
  NoDup (map f rows) -> NoDup (map f (deleteUnique p rows)).
Proof.
  induction rows as [|a rows IH]; simpl; intros Hnd; [constructor|].
  inversion Hnd as [|? ? Hnotin Hnd']; subst.
  destruct (p a); simpl; [assumption|].
  constructor; [|now apply IH].
  intros Hin. apply Hnotin. apply in_map_iff in Hin.
  destruct Hin as (y & Hy & Hin). apply in_map_iff. exists y.
  split; [exact Hy|]. now apply In_deleteUnique_inv in Hin.
Qed.

Lemma NoDup_map_filter (p : A -> bool) (rows : list A) :
  NoDup (map f rows) -> NoDup (map f (filter p rows)).
Proof.
  induction rows as [|a rows IH]; simpl; intros Hnd; [constructor|].
  inversion Hnd as [|? ? Hnotin Hnd']; subst.
  destruct (p a); simpl; [|now apply IH].
  constructor; [|now apply IH].
  intros Hin. apply Hnotin. apply in_map_iff in Hin.
  destruct Hin as (y & Hy & Hin). apply in_map_iff. exists y.
  split; [exact Hy|]. now apply filter_In in Hin.
Qed.

Lemma NoDup_map_app_fresh (rows : list A) (x : A) :
  NoDup (map f rows) -> (forall y, In y rows -> f y <> f x) ->
  NoDup (map f (rows ++ [x])).
Proof.
  intros Hnd Hfresh. rewrite map_app. simpl.
  apply NoDup_app; [exact Hnd|repeat constructor; intros []|].
  intros b Hin [<-|[]]. apply in_map_iff in Hin.
  destruct Hin as (y & Hy & Hin). now apply (Hfresh y Hin).
Qed.

End Lists.

Lemma untouched_refl {A} (table : Db -> A) (db : Db) : untouched table db db.
Proof. split; auto. Qed.

Lemma untouched_trans {A} (table : Db -> A) (a b c : Db) :
  untouched table a b -> untouched table b c -> untouched table a c.
Proof. intros [H1 H2] [H3 H4]. split; [congruence|lia]. Qed.

Lemma storeFrame_refl (db : Db) : storeFrame db db.
Proof. repeat split; auto. Qed.

Lemma storeFrame_trans (a b c : Db) :
  storeFrame a b -> storeFrame b c -> storeFrame a c.
Proof.
  intros (H1 & H2 & H3 & H4 & H5) (K1 & K2 & K3 & K4 & K5).
  repeat split; try congruence. lia.
Qed.

(** A computation whose primitives leave a table alone leaves it alone. *)
Ltac untouched_leaf :=
  let db := fresh "db" in
  intros db;
  cbv delta [randomUUID user_update user_create oneTimeToken_create
             oneTimeToken_delete verifyPassword_call refreshToken_create
             refreshToken_update refreshToken_revokeFamily groupMember_delete
             task_create task_update enqueueEmail write] beta;
  repeat match goal with
         | |- context [match ?x with _ => _ end] => destruct x
         end;
  repeat split; simpl; auto with arith.

Ltac untouched_side :=
  first [ exact (untouched_refl _) | exact (untouched_trans _)
        | exact storeFrame_refl | exact storeFrame_trans ].

Ltac untouched_steps :=
  repeat
    (intros;
     first
       [ assumption
       | apply preserves_resolve; untouched_side
       | apply preserves_throw; untouched_side
       | apply preserves_query; untouched_side
       | apply preserves_transaction; [untouched_side .. | ]
       | apply preserves_await; [untouched_side .. | | ]
       | match goal with
         | |- preserves _ (match ?x with _ => _ end) => destruct x
         | |- preserves _ (let '(_, _) := ?x in _) => destruct x
         end
       | solve [untouched_leaf] ]).

Ltac untouched_op :=
  cbv delta [createTokenPair registerUser loginUser refreshTokens logoutUser
             verifyEmail resendVerificationRoute resendVerification
             forgotPasswordRoute requestPasswordReset resetPassword
             createGroup addMember removeMember assertGroupAdmin
             assertGroupMember groupMember_findUnique createTask getTaskById
             updateTask updateTaskStatus acceptTask assignTask deleteTask
             enqueueAssignmentEmail user_findUnique_email user_findUnique_id
             refreshToken_findFirst oneTimeToken_findUnique
             getUserProfile listTasksByGroup] beta;
  untouched_steps.

Lemma storeInv_frame (db db' : Db) : storeFrame db db' -> storeInv db -> storeInv db'.
Proof.
  intros (Hu & Hv & Hp & Hg & Hn) ((U1 & U2 & U3) & (V1 & V2 & V3) & (P1 & P2 & P3)
                                   & (G1 & G2)).
  unfold storeInv, accountInv, oneTimeInv, membershipInv.
  rewrite Hu, Hv, Hp, Hg.
  repeat split; auto;
    (eapply Forall_impl; [|eassumption]); simpl; intros; intuition lia.
Qed.

Lemma oneTimeRows_supply (n n' : nat) (rows : list OneTimeToken) :
  (n <= n')%nat -> oneTimeRows n rows -> oneTimeRows n' rows.
Proof.
  intros Hn (H1 & H2 & H3). repeat split; auto.
  eapply Forall_impl; [|exact H3]. simpl. intros; intuition lia.
Qed.

Lemma oneTimeRows_deleteMany (p : OneTimeToken -> bool) (rows : list OneTimeToken)
      (n : nat) :
  oneTimeRows n rows -> oneTimeRows n (deleteMany p rows).
Proof.
  intros (H1 & H2 & H3). unfold deleteMany. repeat split.
  - now apply NoDup_map_filter.
  - now apply NoDup_map_filter.
  - now apply Forall_filter_keep.
Qed.

(** A new token with a fresh identifier, for an account that has none. *)
Lemma oneTimeRows_append (rows : list OneTimeToken) (row : OneTimeToken) (n n' : nat) :
  oneTimeRows n rows ->
  (n <= ot_id row < n')%nat -> (ot_userId row < n')%nat ->
  (forall t, In t rows -> ot_userId t <> ot_userId row) ->
  oneTimeRows n' (rows ++ [row]).
Proof.
  intros (H1 & H2 & H3) Hid Hu Hfresh. repeat split.
  - apply NoDup_map_app_fresh; [exact H1|].
    intros y Hy. rewrite Forall_forall in H3. destruct (H3 y Hy). lia.
  - now apply NoDup_map_app_fresh.
  - apply Forall_app. split.
    + eapply Forall_impl; [|exact H3]. simpl. intros; intuition lia.
    + repeat constructor; lia.
Qed.

Lemma deleteMany_gone {A} (p : A -> bool) (rows : list A) (y : A) :
  In y (deleteMany p rows) -> p y = false.
Proof.
  unfold deleteMany. intros H. apply filter_In in H.
  now apply negb_true_iff.
Qed.

Lemma keepsStoreInv_refl (db : Db) : keepsStoreInv db db.
Proof. intros H; exact H. Qed.

Lemma keepsStoreInv_trans (a b c : Db) :
  keepsStoreInv a b -> keepsStoreInv b c -> keepsStoreInv a c.
Proof. unfold keepsStoreInv. auto. Qed.

Lemma keepsStoreInv_framed {A} (m : Promise A) :
  preserves storeFrame m -> preserves keepsStoreInv m.
Proof.
  apply preserves_weaken. intros a b H Ha. now apply (storeInv_frame a b).
Qed.

Lemma keepsStoreInv_user_update (id : Uuid) (data : User -> User) :
  (forall u, user_id (data u) = user_id u) ->
  (forall u, email (data u) = email u) ->
  preserves keepsStoreInv (user_update id data).
Proof.
  intros Hid Hem db Hinv. unfold user_update.
  destruct (existsb _ (users db)); simpl; [|exact Hinv].
  destruct Hinv as ((U1 & U2 & U3) & HV & HP & HG).
  split; [|auto]. repeat split; simpl.
  - now rewrite map_updateUnique.
  - now rewrite map_updateUnique.
  - apply Forall_updateUnique; auto. intros y Hy _. now rewrite Hid.
Qed.

Lemma oneTimeRows_deleteUnique (p : OneTimeToken -> bool) (rows : list OneTimeToken)
      (n : nat) :
  oneTimeRows n rows -> oneTimeRows n (deleteUnique p rows).
Proof.
  intros (H1 & H2 & H3). repeat split.
  - now apply NoDup_map_deleteUnique.
  - now apply NoDup_map_deleteUnique.
  - now apply Forall_deleteUnique.
Qed.

Lemma keepsStoreInv_verification_delete (id : Uuid) :
  preserves keepsStoreInv
    (oneTimeToken_delete verification_tokens set_verification_tokens id).
Proof.
  intros db Hinv. unfold oneTimeToken_delete.
  destruct (existsb _ (verification_tokens db)); simpl; [|exact Hinv].
  destruct Hinv as (HU & HV & HP & HG).
  split; [exact HU|split; [|split; [exact HP|exact HG]]].
  apply oneTimeRows_deleteUnique, HV.
Qed.

Lemma keepsStoreInv_reset_delete (id : Uuid) :
  preserves keepsStoreInv
    (oneTimeToken_delete password_reset_tokens set_password_reset_tokens id).
Proof.
  intros db Hinv. unfold oneTimeToken_delete.
  destruct (existsb _ (password_reset_tokens db)); simpl; [|exact Hinv].
  destruct Hinv as (HU & HV & HP & HG).
  split; [exact HU|split; [exact HV|split; [|exact HG]]].
  apply oneTimeRows_deleteUnique, HP.
Qed.

Lemma keepsStoreInv_groupMember_delete (u g : Uuid) :
  preserves keepsStoreInv (groupMember_delete u g).
Proof.
  intros db Hinv. unfold groupMember_delete.
  destruct (existsb _ (group_members db)); simpl; [|exact Hinv].
  destruct Hinv as (HU & HV & HP & (G1 & G2)).
  split; [exact HU|split; [exact HV|split; [exact HP|]]].
  split; simpl.
  - now apply NoDup_map_deleteUnique.
  - now apply Forall_deleteUnique.
Qed.

(** What [registerUser] does, case by case.  The account is written before
    its verification token: when the digest of the token is stored already,
    the call rejects and the account is left without a token. *)
Lemma registerUser_cases (env : Env) (email_ password name_ : string) (rnd : nat)
      (now : Time) (db : Db) :
  registerUser env email_ password name_ rnd now db =
  match find (fun u => String.eqb (email u) email_) (users db) with
  | Some _ =>
      (db, inl (authError "EMAIL_EXISTS" "A user with this email already exists" 409))
  | None =>
      let user := mkUser (nextUuid db) email_ (Some (hashPassword env password))
                         name_ UNVERIFIED now None in
      if digestStored (verification_tokens db) rnd then
        (set_nextUuid S (set_users (fun rows => rows ++ [user]) db),
         inl uniqueConstraintFailed)
      else
        (set_nextUuid (fun n => S (S n))
           (set_verification_tokens
              (fun rows => rows ++ [mkOneTimeToken (S (nextUuid db))
                                      (hashToken (HexString rnd)) (nextUuid db)
                                      (now + 24 * 60 * 60 * 1000)])
              (set_users (fun rows => rows ++ [user]) db)),
         inr (mkRegisterResult
                (mkRegisteredUser (nextUuid db) email_ name_ UNVERIFIED)
                (HexString rnd)))
  end.
Proof.
  unfold registerUser, await, user_findUnique_email, query. cbv beta.
  destruct (find _ (users db)); [reflexivity|].
  unfold user_create, oneTimeToken_create, generateOpaqueToken, digestStored.
  cbn [verification_tokens set_users set_nextUuid user_id registered_id].
  destruct (existsb _ (verification_tokens db)); reflexivity.
Qed.

Lemma find_none_email (db : Db) (email_ : string) :
  find (fun u => String.eqb (email u) email_) (users db) = None ->
  forall u, In u (users db) -> email u <> email_.
Proof.
  intros H u Hin E. apply (find_none _ _ H) in Hin.
  rewrite E, String.eqb_refl in Hin. discriminate.
Qed.

Section StoreInvariant.

Variable env : Env.

Lemma keepsStoreInv_registerUser e p n rnd now :
  preserves keepsStoreInv (registerUser env e p n rnd now).
Proof.
  intros db Hinv. rewrite registerUser_cases.
  destruct (find _ (users db)) eqn:E; [exact Hinv|].
  destruct Hinv as ((U1 & U2 & U3) & HV & HP & (G1 & G2)).
  assert (HA : forall k, (nextUuid db < k)%nat ->
             NoDup (map user_id (users db ++ [mkUser (nextUuid db) e
                      (Some (hashPassword env p)) n UNVERIFIED now None]))
             /\ NoDup (map email (users db ++ [mkUser (nextUuid db) e
                      (Some (hashPassword env p)) n UNVERIFIED now None]))
             /\ Forall (fun u => (user_id u < k)%nat)
                       (users db ++ [mkUser (nextUuid db) e
                          (Some (hashPassword env p)) n UNVERIFIED now None])).
  { intros k Hk. repeat split.
    + apply NoDup_map_app_fresh; [exact U1|].
      intros y Hy. rewrite Forall_forall in U3. specialize (U3 y Hy). simpl. lia.
    + apply NoDup_map_app_fresh; [exact U2|].
      intros y Hy. simpl. now apply (find_none_email db e E).
    + apply Forall_app. split.
      * eapply Forall_impl; [|exact U3]. simpl. intros; lia.
      * constructor; [simpl; lia|constructor]. }
  cbv zeta. destruct (digestStored (verification_tokens db) rnd);
    unfold storeInv, accountInv, oneTimeInv, membershipInv; simpl;
    (split; [apply HA; lia|split; [|split]]).
  - apply (oneTimeRows_supply (nextUuid db)); [lia|exact HV].
  - apply (oneTimeRows_supply (nextUuid db)); [lia|exact HP].
  - split; [exact G1|]. eapply Forall_impl; [|exact G2]. simpl. intros; lia.
  - apply (oneTimeRows_append _ _ (nextUuid db)); simpl; auto; try lia.
    intros t Ht. destruct HV as (_ & _ & HV). rewrite Forall_forall in HV.
    destruct (HV t Ht). lia.
  - apply (oneTimeRows_supply (nextUuid db)); [lia|exact HP].
  - split; [exact G1|]. eapply Forall_impl; [|exact G2]. simpl. intros; lia.
Qed.

Ltac store_steps :=
  repeat
    (intros;
     first
       [ solve [auto]
       | apply keepsStoreInv_framed; solve [untouched_op]
       | apply preserves_resolve; exact keepsStoreInv_refl
       | apply preserves_throw; exact keepsStoreInv_refl
       | apply preserves_query; exact keepsStoreInv_refl
       | apply preserves_transaction; [exact keepsStoreInv_refl | ]
       | apply preserves_await; [exact keepsStoreInv_trans | | ]
       | apply keepsStoreInv_user_update; [reflexivity | reflexivity]
       | apply keepsStoreInv_verification_delete
       | apply keepsStoreInv_reset_delete
       | apply keepsStoreInv_groupMember_delete
       | match goal with
         | |- preserves _ (match ?x with _ => _ end) => destruct x
         | |- preserves _ (let '(_, _) := ?x in _) => destruct x
         end ]).

Lemma keepsStoreInv_verifyEmail raw now :
  preserves keepsStoreInv (verifyEmail raw now).
Proof. unfold verifyEmail, oneTimeToken_findUnique. store_steps. Qed.

Lemma keepsStoreInv_resetPassword raw p now :
  preserves keepsStoreInv (resetPassword env raw p now).
Proof. unfold resetPassword, oneTimeToken_findUnique. store_steps. Qed.

Lemma keepsStoreInv_removeMember g t a :
  preserves keepsStoreInv (removeMember g t a).
Proof. unfold removeMember, groupMember_findUnique. store_steps. Qed.

Lemma user_id_supply (db : Db) (q : User -> bool) (user : User) :
  accountInv db -> find q (users db) = Some user -> (user_id user < nextUuid db)%nat.
Proof.
  intros (_ & _ & H) E. apply find_some in E. rewrite Forall_forall in H.
  now apply H.
Qed.

Lemma keepsStoreInv_resendVerification e rnd now :
  preserves keepsStoreInv (resendVerification e rnd now).
Proof.
  intros db Hinv. pose proof (resendVerification_cases e rnd now db) as H.
  destruct (find _ (users db)) as [user|] eqn:E; [|now rewrite H].
  destruct (UserStatus_eqb (status user) UNVERIFIED); [|rewrite H; exact Hinv].
  destruct (digestStored _ rnd); rewrite H.
  { destruct Hinv as (HU & HV & HP & HG).
    split; [exact HU|split; [|split; [exact HP|exact HG]]].
    now apply oneTimeRows_deleteMany. }
  destruct Hinv as (HU & HV & HP & (G1 & G2)).
  pose proof (user_id_supply _ _ _ HU E) as Hlt.
  destruct HU as (U1 & U2 & U3).
  unfold storeInv, accountInv, oneTimeInv, membershipInv. simpl.
  split; [|split; [|split]].
  - repeat split; auto. eapply Forall_impl; [|exact U3]. simpl. intros; lia.
  - apply (oneTimeRows_append _ _ (nextUuid db)); simpl; auto; try lia.
    + now apply oneTimeRows_deleteMany.
    + intros t Ht. apply deleteMany_gone in Ht. now apply Nat.eqb_neq.
  - apply (oneTimeRows_supply (nextUuid db)); [lia|exact HP].
  - split; [exact G1|]. eapply Forall_impl; [|exact G2]. simpl. intros; lia.
Qed.

Lemma keepsStoreInv_requestPasswordReset e rnd now :
  preserves keepsStoreInv (requestPasswordReset e rnd now).
Proof.
  intros db Hinv. pose proof (requestPasswordReset_cases e rnd now db) as H.
  destruct (find _ (users db)) as [user|] eqn:E; [|now rewrite H].
  destruct (isSome (user_deletedAt user)); [rewrite H; exact Hinv|].
  destruct (digestStored _ rnd); rewrite H.
  { destruct Hinv as (HU & HV & HP & HG).
    split; [exact HU|split; [exact HV|split; [|exact HG]]].
    now apply oneTimeRows_deleteMany. }
  destruct Hinv as (HU & HV & HP & (G1 & G2)).
  pose proof (user_id_supply _ _ _ HU E) as Hlt.
  destruct HU as (U1 & U2 & U3).
  unfold storeInv, accountInv, oneTimeInv, membershipInv. simpl.
  split; [|split; [|split]].
  - repeat split; auto. eapply Forall_impl; [|exact U3]. simpl. intros; lia.
  - apply (oneTimeRows_supply (nextUuid db)); [lia|exact HV].
  - apply (oneTimeRows_append _ _ (nextUuid db)); simpl; auto; try lia.
    + now apply oneTimeRows_deleteMany.
    + intros t Ht. apply deleteMany_gone in Ht. now apply Nat.eqb_neq.
  - split; [exact G1|]. eapply Forall_impl; [|exact G2]. simpl. intros; lia.
Qed.

Lemma keepsStoreInv_resendVerificationRoute e rnd now :
  preserves keepsStoreInv (resendVerificationRoute env e rnd now).
Proof.
  pose proof keepsStoreInv_resendVerification.
  unfold resendVerificationRoute. store_steps.
Qed.

Lemma keepsStoreInv_forgotPasswordRoute e rnd now :
  preserves keepsStoreInv (forgotPasswordRoute env e rnd now).
Proof.
  pose proof keepsStoreInv_requestPasswordReset.
  unfold forgotPasswordRoute. store_steps.
Qed.

Lemma membershipInv_append (db : Db) (m : GroupMember) (n' : nat) :
  membershipInv db -> (nextUuid db <= n')%nat -> (gm_groupId m < n')%nat ->
  find (sameMembership (gm_userId m) (gm_groupId m)) (group_members db) = None ->
  NoDup (map membershipKey (group_members db ++ [m]))
  /\ Forall (fun x => (gm_groupId x < n')%nat) (group_members db ++ [m]).
Proof.
  intros (G1 & G2) Hn Hm Hfind. split.
  - apply NoDup_map_app_fresh; [exact G1|].
    intros y Hy Hk. apply (find_none _ _ Hfind) in Hy.
    unfold membershipKey in Hk. injection Hk as H1 H2.
    unfold sameMembership in Hy. rewrite H1, H2, !Nat.eqb_refl in Hy. discriminate.
  - apply Forall_app. split.
    + eapply Forall_impl; [|exact G2]. simpl. intros; lia.
    + repeat constructor. exact Hm.
Qed.

(** What [createGroup] does. *)
Lemma createGroup_cases (userId : Uuid) (db : Db) :
  createGroup userId db =
  if existsb (fun u => Nat.eqb (user_id u) userId) (users db)
  then
    (set_nextUuid S
       (set_group_members
          (fun rows => rows ++ [mkGroupMember userId (nextUuid db) ADMIN]) db),
     inr (nextUuid db))
  else (db, inl foreignKeyFailed).
Proof.
  unfold createGroup, await, group_create, resolve.
  destruct (existsb _ (users db)); reflexivity.
Qed.

Lemma keepsStoreInv_createGroup u : preserves keepsStoreInv (createGroup u).
Proof.
  intros db Hinv. rewrite createGroup_cases.
  destruct (existsb _ (users db)); [|exact Hinv].
  destruct Hinv as ((U1 & U2 & U3) & HV & HP & HG). simpl.
  unfold storeInv, accountInv, oneTimeInv, membershipInv. simpl.
  split; [|split; [|split]].
  - repeat split; auto. eapply Forall_impl; [|exact U3]. simpl. intros; lia.
  - apply (oneTimeRows_supply (nextUuid db)); [lia|exact HV].
  - apply (oneTimeRows_supply (nextUuid db)); [lia|exact HP].
  - apply (membershipInv_append db (mkGroupMember u (nextUuid db) ADMIN));
      simpl; auto.
    destruct (find _ (group_members db)) as [m|] eqn:E; [|reflexivity].
    apply find_some in E. destruct E as [Hin Hm].
    destruct HG as (_ & G2). rewrite Forall_forall in G2. specialize (G2 m Hin).
    unfold sameMembership in Hm. apply andb_prop in Hm. destruct Hm as [_ Hm].
    apply Nat.eqb_eq in Hm. lia.
Qed.

Lemma assertGroupAdmin_resolves (g a : Uuid) (db db' : Db) :
  assertGroupAdmin g a db = (db', inr tt) -> db' = db /\ isAdmin db g a = true.
Proof.
  destruct (isAdmin db g a) eqn:E.
  - rewrite (assertGroupAdmin_ok _ _ _ E). now intros [= <-].
  - rewrite (assertGroupAdmin_fails _ _ _ E). discriminate.
Qed.

Lemma keepsStoreInv_addMember g u r a : preserves keepsStoreInv (addMember g u r a).
Proof.
  intros db Hinv. unfold addMember, await at 1.
  destruct (assertGroupAdmin g a db) as [db1 [e|[]]] eqn:Ea.
  { destruct (isAdmin db g a) eqn:E.
    - rewrite (assertGroupAdmin_ok _ _ _ E) in Ea. discriminate.
    - rewrite (assertGroupAdmin_fails _ _ _ E) in Ea. now injection Ea as <- _. }
  apply assertGroupAdmin_resolves in Ea. destruct Ea as [-> Hadm].
  unfold groupMember_findUnique, await, query. cbv beta iota.
  destruct (find _ (users db)) as [target|]; [|exact Hinv].
  destruct (isSome (user_deletedAt target)); [exact Hinv|].
  cbv beta iota.
  destruct (find (sameMembership u g) (group_members db)) eqn:E; [exact Hinv|].
  destruct Hinv as (HU & HV & HP & HG).
  split; [exact HU|split; [exact HV|split; [exact HP|]]].
  unfold membershipInv. simpl.
  assert (Hg : (g < nextUuid db)%nat).
  { apply isAdmin_find in Hadm. destruct Hadm as (m & Hm & _).
    apply find_some in Hm. destruct Hm as [Hin Hm].
    destruct HG as (_ & G2). rewrite Forall_forall in G2. specialize (G2 m Hin).
    unfold sameMembership in Hm. apply andb_prop in Hm. destruct Hm as [_ Hm].
    apply Nat.eqb_eq in Hm. lia. }
  apply (membershipInv_append db (mkGroupMember u g r)); simpl; auto.
Qed.

Lemma keepsStoreInv_updateProfile u n : preserves keepsStoreInv (updateProfile u n).
Proof.
  intros db Hinv. unfold updateProfile, await, user_updateWhere.
  destruct (find _ (users db)); simpl; [|exact Hinv].
  destruct Hinv as ((U1 & U2 & U3) & HV & HP & HG).
  assert (Hid : forall x, user_id (match n with
                                    | Some k => if truthy n then with_name k
                                                else fun u => u
                                    | None => fun u => u
                                    end x) = user_id x)
    by (intros x; destruct n; [destruct (truthy _)|]; reflexivity).
  assert (Hem : forall x, email (match n with
                                  | Some k => if truthy n then with_name k
                                              else fun u => u
                                  | None => fun u => u
                                  end x) = email x)
    by (intros x; destruct n; [destruct (truthy _)|]; reflexivity).
  split; [|auto]. repeat split; simpl.
  - now rewrite map_updateUnique.
  - now rewrite map_updateUnique.
  - apply Forall_updateUnique; auto. intros y Hy _. now rewrite Hid.
Qed.

Lemma storeFrame_serve (r : Request) (now : Time) (db : Db) :
  match r with
  | Login _ _ | Refresh _ | Logout _ _ | CreateTask _ _ _ _ _ | UpdateTask _ _ _ _
  | UpdateTaskStatus _ _ _ | AcceptTask _ _ | AssignTask _ _ _ | DeleteTask _ _ =>
      storeFrame db (serve env r now db)
  | _ => True
  end.
Proof.
  destruct r; cbn [serve]; try exact I.
  all: match goal with
       | |- storeFrame ?db (fst (?m ?db)) =>
           revert db; change (preserves storeFrame m)
       end.
  all: untouched_op.
Qed.

Lemma keepsStoreInv_serve (r : Request) (now : Time) (db : Db) :
  storeInv db -> storeInv (serve env r now db).
Proof.
  intros H. pose proof (storeFrame_serve r now db) as Hf.
  destruct r; cbn [serve];
    first
      [ exact (storeInv_frame _ _ Hf H)
      | now apply keepsStoreInv_registerUser
      | now apply keepsStoreInv_verifyEmail
      | now apply keepsStoreInv_resendVerificationRoute
      | now apply keepsStoreInv_forgotPasswordRoute
      | now apply keepsStoreInv_resetPassword
      | now apply keepsStoreInv_updateProfile
      | now apply keepsStoreInv_createGroup
      | now apply keepsStoreInv_addMember
      | now apply keepsStoreInv_removeMember ].
Qed.

Lemma storeInv_administer (id : Uuid) (status_ : UserStatus) (deletedAt_ : option Time)
      (db : Db) :
  storeInv db -> storeInv (set_users (map (administer id status_ deletedAt_)) db).
Proof.
  intros ((U1 & U2 & U3) & HV & HP & HG).
  split; [|split; [exact HV|split; [exact HP|exact HG]]].
  assert (Hid : forall u, user_id (administer id status_ deletedAt_ u) = user_id u)
    by (intros u; unfold administer; destruct (Nat.eqb (user_id u) id); reflexivity).
  assert (Hem : forall u, email (administer id status_ deletedAt_ u) = email u)
    by (intros u; unfold administer; destruct (Nat.eqb (user_id u) id); reflexivity).
  repeat split; simpl.
  - rewrite map_map. now rewrite (map_ext _ user_id Hid).
  - rewrite map_map. now rewrite (map_ext _ email Hem).
  - apply Forall_map. eapply Forall_impl; [|exact U3]. simpl.
    intros u Hu. now rewrite Hid.
Qed.

Lemma reachable_storeInv (db : Db) : reachable env db -> storeInv db.
Proof.
  induction 1.
  - repeat split; simpl; constructor.
  - now apply keepsStoreInv_serve.
  - now apply storeInv_administer.
Qed.

End StoreInvariant.

(* ------------------------------------------------------------------ *)
(** ** Signing up: registration, verification, first login *)
(* ------------------------------------------------------------------ *)

Lemma find_absent {A} (p : A -> bool) (rows : list A) :
  (forall y, In y rows -> p y = false) -> find p rows = None.
Proof.
  induction rows as [|a rows IH]; simpl; intros H; [reflexivity|].
  rewrite (H a (or_introl eq_refl)). apply IH. auto.
Qed.

Lemma find_app_last {A} (p : A -> bool) (rows : list A) (x : A) :
  (forall y, In y rows -> p y = false) ->
  find p (rows ++ [x]) = if p x then Some x else None.
Proof.
  induction rows as [|a rows IH]; simpl; intros H; [reflexivity|].
  rewrite (H a (or_introl eq_refl)). apply IH. auto.
Qed.

Lemma deleteUnique_app_last {A} (p : A -> bool) (rows : list A) (x : A) :
  (forall y, In y rows -> p y = false) ->
  deleteUnique p (rows ++ [x]) = if p x then rows else rows ++ [x].
Proof.
  induction rows as [|a rows IH]; simpl; intros H.
  - destruct (p x); reflexivity.
  - rewrite (H a (or_introl eq_refl)). rewrite IH by auto.
    destruct (p x); reflexivity.
Qed.

Lemma TokenHash_eqb_neq (a b : TokenHash) : a <> b -> TokenHash_eqb a b = false.
Proof.
  intros H. destruct (TokenHash_eqb a b) eqn:E; [|reflexivity].
  now apply TokenHash_eqb_eq in E.
Qed.

Lemma digestStored_fresh (rows : list OneTimeToken) (rnd : nat) :
  (forall t, In t rows -> ot_tokenHash t <> hashToken (HexString rnd)) ->
  digestStored rows rnd = false.
Proof.
  intros H. unfold digestStored. destruct (existsb _ rows) eqn:E; [|reflexivity].
  apply existsb_exists in E. destruct E as (t & Ht & E).
  apply TokenHash_eqb_eq in E. now apply H in Ht.
Qed.

Lemma digestStored_found (rows : list OneTimeToken) (rnd : nat) (t : OneTimeToken) :
  In t rows -> ot_tokenHash t = hashToken (HexString rnd) ->
  digestStored rows rnd = true.
Proof.
  intros Hin E. apply existsb_exists. exists t.
  split; [exact Hin|now apply TokenHash_eqb_eq].
Qed.

(** [createTokenPair] always resolves; the access token it returns is signed
    for the account as it is passed in. *)
Lemma createTokenPair_resolves (env : Env) (userId : Uuid) (email_ : string)
      (status_ : UserStatus) (family_ : option Uuid) (now : Time) (db : Db) :
  exists db' rawRefresh,
    createTokenPair env userId email_ status_ family_ now db
    = (db', inr (mkAuthTokens (signAccessToken (config env) userId email_ status_ now)
                              rawRefresh))
    /\ users db' = users db.
Proof.
  unfold createTokenPair, await, resolve, randomUUID, refreshToken_create,
    refreshToken_update.
  destruct family_ as [fam|]; cbn [refresh_tokens set_nextUuid set_refresh_tokens rt_id];
    rewrite existsb_app_last by (simpl; apply Nat.eqb_refl);
    eexists; eexists; split; reflexivity.
Qed.

(** A login with the right password of an account that is neither deleted
    nor suspended resolves, whatever the status of the account otherwise. *)
Lemma loginUser_ok (env : Env) (email_ password : string) (now : Time) (db : Db)
      (user : User) (hash : string) :
  find (fun u => String.eqb (email u) email_) (users db) = Some user ->
  passwordHash user = Some hash -> hash <> EmptyString ->
  user_deletedAt user = None -> status user <> SUSPENDED ->
  verifyPassword env hash password = true ->
  exists db' tokens,
    loginUser env email_ password now db
    = (db', inr (mkLoginResult tokens (toUserProfile user)))
    /\ accessToken tokens
       = signAccessToken (config env) (user_id user) (email user) (status user) now
    /\ users db' = users db.
Proof.
  intros Hfind Hhash Hne Hdel Hst Hpw.
  assert (Ht : negb (truthy (passwordHash user)) = false).
  { rewrite Hhash. simpl.
    destruct (String.eqb_spec hash EmptyString); [contradiction|reflexivity]. }
  assert (Es : UserStatus_eqb (status user) SUSPENDED = false).
  { destruct (status user); simpl; congruence. }
  destruct (createTokenPair_resolves env (user_id user) (email user) (status user)
              None now (set_verifyPasswordCalls S db)) as (db' & raw & E & Hu).
  unfold loginUser, await at 1, user_findUnique_email, query. cbv beta.
  rewrite Hfind. cbv beta iota. rewrite Ht, Hdel. cbn [isSome]. cbv iota.
  rewrite Es. unfold await at 1, verifyPassword_call. rewrite Hhash, Hpw.
  cbn [negb]. cbv beta iota. unfold await, resolve. rewrite E.
  eexists; eexists. split; [reflexivity|]. split; [reflexivity|exact Hu].
Qed.

(** What [verifyEmail] does with a stored token. *)
Lemma verifyEmail_ok (db : Db) (rawToken : RawToken) (now : Time)
      (stored : OneTimeToken) :
  find (fun t => TokenHash_eqb (ot_tokenHash t) (hashToken rawToken))
       (verification_tokens db) = Some stored ->
  (ot_expiresAt stored <? now) = false ->
  existsb (fun u => Nat.eqb (user_id u) (ot_userId stored)) (users db) = true ->
  verifyEmail rawToken now db =
  (set_verification_tokens
     (deleteUnique (fun t => Nat.eqb (ot_id t) (ot_id stored)))
     (set_users
        (updateUnique (fun u => Nat.eqb (user_id u) (ot_userId stored))
                      (with_status ACTIVE))
        db),
   inr tt).
Proof.
  intros Hfind Hexp Huser.
  unfold verifyEmail, await at 1, oneTimeToken_findUnique, query. cbv beta.
  rewrite Hfind. cbv beta iota. rewrite Hexp.
  unfold transaction, await, user_update. rewrite Huser.
  unfold oneTimeToken_delete. cbn [verification_tokens set_users].
  assert (Hex : existsb (fun t => Nat.eqb (ot_id t) (ot_id stored))
                        (verification_tokens db) = true).
  { apply existsb_exists. exists stored. split; [|apply Nat.eqb_refl].
    now apply find_some in Hfind. }
  rewrite Hex. reflexivity.
Qed.

Lemma verifyEmail_unknown (db : Db) (rawToken : RawToken) (now : Time) :
  find (fun t => TokenHash_eqb (ot_tokenHash t) (hashToken rawToken))
       (verification_tokens db) = None ->
  verifyEmail rawToken now db =
  (db, inl (authError "INVALID_TOKEN" "Invalid or expired verification token" 400)).
Proof.
  intros Hfind.
  unfold verifyEmail, await at 1, oneTimeToken_findUnique, query. cbv beta.
  now rewrite Hfind.
Qed.

Lemma verifyEmail_expired (db : Db) (rawToken : RawToken) (now : Time)
      (stored : OneTimeToken) :
  find (fun t => TokenHash_eqb (ot_tokenHash t) (hashToken rawToken))
       (verification_tokens db) = Some stored ->
  (ot_expiresAt stored <? now) = true ->
  verifyEmail rawToken now db =
  (set_verification_tokens
     (deleteUnique (fun t => Nat.eqb (ot_id t) (ot_id stored))) db,
   inl (authError "TOKEN_EXPIRED" "Verification token has expired" 400)).
Proof.
  intros Hfind Hexp.
  unfold verifyEmail, await at 1, oneTimeToken_findUnique, query. cbv beta.
  rewrite Hfind. cbv beta iota. rewrite Hexp.
  unfold await, oneTimeToken_delete.
  assert (Hex : existsb (fun t => Nat.eqb (ot_id t) (ot_id stored))
                        (verification_tokens db) = true).
  { apply existsb_exists. exists stored. split; [|apply Nat.eqb_refl].
    now apply find_some in Hfind. }
  rewrite Hex. reflexivity.
Qed.

(** X1.  [registerUser] with an address that an account already has, be it
    soft-deleted, rejects with EMAIL_EXISTS and changes nothing.  With an
    address that no account has, the account is appended with a fresh
    identifier, the hash of the password and status UNVERIFIED.  When the
    digest of the verification token is not stored yet, the call resolves
    with the identifier, address, name and status of the account and with the
    raw token; a verification token with the digest of the raw token is
    stored for the account with a life of 24 hours, and the other tables are
    as before.  When the digest is stored already, the call rejects with the
    error of the unique index after the account was written: the account
    has no verification token, and a second registration of the address is
    refused with EMAIL_EXISTS. *)
Theorem registerUser_outcomes (env : Env) (email_ password name_ : string)
        (rnd : nat) (now : Time) (db : Db) :
  (forall u, In u (users db) -> email u = email_ ->
     registerUser env email_ password name_ rnd now db =
     (db, inl (authError "EMAIL_EXISTS" "A user with this email already exists" 409)))
  /\
  ((forall u, In u (users db) -> email u <> email_) ->
   let user := mkUser (nextUuid db) email_ (Some (hashPassword env password))
                      name_ UNVERIFIED now None in
   (digestStored (verification_tokens db) rnd = false ->
    exists db',
      registerUser env email_ password name_ rnd now db =
      (db', inr (mkRegisterResult
                   (mkRegisteredUser (nextUuid db) email_ name_ UNVERIFIED)
                   (HexString rnd)))
      /\ users db' = users db ++ [user]
      /\ verification_tokens db' =
         verification_tokens db
         ++ [mkOneTimeToken (S (nextUuid db)) (hashToken (HexString rnd))
                            (nextUuid db) (now + 24 * 60 * 60 * 1000)]
      /\ refresh_tokens db' = refresh_tokens db
      /\ password_reset_tokens db' = password_reset_tokens db
      /\ group_members db' = group_members db
      /\ tasks db' = tasks db)
   /\
   (digestStored (verification_tokens db) rnd = true ->
    exists db',
      registerUser env email_ password name_ rnd now db =
      (db', inl uniqueConstraintFailed)
      /\ users db' = users db ++ [user]
      /\ verification_tokens db' = verification_tokens db
      /\ refresh_tokens db' = refresh_tokens db
      /\ password_reset_tokens db' = password_reset_tokens db
      /\ group_members db' = group_members db
      /\ tasks db' = tasks db
      /\ forall password' name' rnd' now',
           registerUser env email_ password' name' rnd' now' db' =
           (db', inl (authError "EMAIL_EXISTS"
                                "A user with this email already exists" 409)))).
Proof.
  split.
  - intros u Hin He. rewrite registerUser_cases.
    destruct (find _ (users db)) eqn:E; [reflexivity|].
    apply (find_none _ _ E) in Hin. rewrite He, String.eqb_refl in Hin.
    discriminate.
  - intros Hnew.
    assert (Hemail : forall y, In y (users db) -> String.eqb (email y) email_ = false)
      by (intros y Hy; apply String.eqb_neq; now apply Hnew).
    cbv zeta. split; intros Hd; rewrite registerUser_cases;
      rewrite (find_absent _ _ Hemail); cbv zeta; rewrite Hd;
      eexists; (split; [reflexivity|]); repeat split.
    intros password' name' rnd' now'. rewrite registerUser_cases.
    cbn [users set_nextUuid set_users].
    rewrite (find_app_last _ _ _ Hemail). cbn [email].
    now rewrite String.eqb_refl.
Qed.

Lemma registerUser_outcomes_witness :
  registerUser sampleEnv "cyd@example.com" "new passphrase" "Cyd" 7 100 accountsDb =
  (accountsDb,
   inl (authError "EMAIL_EXISTS" "A user with this email already exists" 409))
  /\ (exists db',
         registerUser sampleEnv "fay@example.com" "new passphrase" "Fay" 7 100
                      accountsDb =
         (db', inr (mkRegisterResult
                      (mkRegisteredUser 6%nat "fay@example.com" "Fay" UNVERIFIED)
                      (HexString 7)))
         /\ verification_tokens db' =
            [mkOneTimeToken 7%nat (hashToken (HexString 7)) 6%nat 86400100])
  /\ (exists db',
         registerUser sampleEnv "fay@example.com" "new passphrase" "Fay" 11 100
                      pendingDb =
         (db', inl uniqueConstraintFailed)
         /\ registerUser sampleEnv "fay@example.com" "new passphrase" "Fay" 13 200
                         db' =
            (db', inl (authError "EMAIL_EXISTS"
                                 "A user with this email already exists" 409))).
Proof.
  split; [|split].
  - apply (proj1 (registerUser_outcomes sampleEnv "cyd@example.com" "new passphrase"
                    "Cyd" 7 100 accountsDb)
                 (mkUser 3%nat "cyd@example.com" (Some "argon2:tr0ub4dor"%string) "Cyd"
                         ACTIVE 0 (Some 50))).
    + simpl. tauto.
    + reflexivity.
  - destruct (proj2 (registerUser_outcomes sampleEnv "fay@example.com"
                       "new passphrase" "Fay" 7 100 accountsDb))
      as [Hok _].
    + simpl. intros u [<-|[<-|[<-|[<-|[<-|[]]]]]]; discriminate.
    + destruct (Hok eq_refl) as (db' & E & _ & Hv & _).
      exists db'. split; [exact E|exact Hv].
  - destruct (proj2 (registerUser_outcomes sampleEnv "fay@example.com"
                       "new passphrase" "Fay" 11 100 pendingDb))
      as [_ Hfail].
    + simpl. intros u [<-|[<-|[<-|[<-|[<-|[]]]]]]; discriminate.
    + destruct (Hfail eq_refl) as (db' & E & _ & _ & _ & _ & _ & _ & Hagain).
      exists db'. split; [exact E|apply Hagain].
Defined.

(** X2.  Signing up.  On a database whose keys are unique, for an address
    that no account has, a verification token that is not stored yet and a
    password that [verifyPassword] accepts against its own hash: the
    registration resolves with an UNVERIFIED account, which can log in at
    once (the login does not ask for a verified address); [verifyEmail]
    with the token returned, within 24 hours of the registration, resolves
    and makes the account ACTIVE; the token then no longer works
    (INVALID_TOKEN); and the login resolves with status ACTIVE. *)
Theorem signup_flow (env : Env) (email_ password name_ : string) (rnd : nat)
        (now now1 now2 now3 : Time) (db : Db) :
  storeInv db ->
  (forall u, In u (users db) -> email u <> email_) ->
  (forall t, In t (verification_tokens db) ->
             ot_tokenHash t <> hashToken (HexString rnd)) ->
  hashPassword env password <> EmptyString ->
  verifyPassword env (hashPassword env password) password = true ->
  now1 <= now + 24 * 60 * 60 * 1000 ->
  exists db1 user,
    registerUser env email_ password name_ rnd now db =
    (db1, inr (mkRegisterResult user (HexString rnd)))
    /\ registered_status user = UNVERIFIED
    /\ (exists db' res,
           loginUser env email_ password now1 db1 = (db', inr res)
           /\ profile_status (login_user res) = UNVERIFIED)
    /\ exists db2,
         verifyEmail (HexString rnd) now1 db1 = (db2, inr tt)
         /\ find (fun u => String.eqb (email u) email_) (users db2)
            = Some (mkUser (registered_id user) email_
                           (Some (hashPassword env password)) name_ ACTIVE now None)
         /\ verifyEmail (HexString rnd) now2 db2 =
            (db2, inl (authError "INVALID_TOKEN"
                                 "Invalid or expired verification token" 400))
         /\ exists db3 res,
              loginUser env email_ password now3 db2 = (db3, inr res)
              /\ profile_id (login_user res) = registered_id user
              /\ profile_status (login_user res) = ACTIVE.
Proof.
  intros ((U1 & U2 & U3) & (V1 & V2 & V3) & _) Hnew Hfresh Hne Hpw Hexp.
  rewrite Forall_forall in U3, V3.
  destruct db as [us rts vts prts gms ts q n calls]. simpl in *.
  assert (Hemail : forall y, In y us -> String.eqb (email y) email_ = false)
    by (intros y Hy; apply String.eqb_neq; now apply Hnew).
  assert (Hids : forall y, In y us -> Nat.eqb (user_id y) n = false)
    by (intros y Hy; apply Nat.eqb_neq; specialize (U3 y Hy); lia).
  assert (Htok : forall t, In t vts ->
                           TokenHash_eqb (ot_tokenHash t) (hashToken (HexString rnd))
                           = false)
    by (intros t Ht; apply TokenHash_eqb_neq; now apply Hfresh).
  assert (Htid : forall t, In t vts -> Nat.eqb (ot_id t) (S n) = false)
    by (intros t Ht; apply Nat.eqb_neq; destruct (V3 t Ht); lia).
  rewrite registerUser_cases. cbn [users]. rewrite (find_absent _ _ Hemail).
  cbv zeta. cbn [nextUuid verification_tokens].
  assert (Hd : digestStored vts rnd = false).
  { unfold digestStored. destruct (existsb _ vts) eqn:Ex; [|reflexivity].
    apply existsb_exists in Ex. destruct Ex as (t & Ht & Ex).
    now rewrite (Htok t Ht) in Ex. }
  rewrite Hd.
  set (user := mkUser n email_ (Some (hashPassword env password)) name_
                      UNVERIFIED now None).
  set (token := mkOneTimeToken (S n) (hashToken (HexString rnd)) n
                               (now + 24 * 60 * 60 * 1000)).
  eexists. exists (mkRegisteredUser n email_ name_ UNVERIFIED).
  split; [reflexivity|]. split; [reflexivity|].
  unfold set_nextUuid, set_verification_tokens, set_users. simpl.
  set (db1 := mkDb (us ++ [user]) rts (vts ++ [token]) prts gms ts q (S (S n)) calls).
  assert (Hfind1 : find (fun u => String.eqb (email u) email_) (users db1) = Some user).
  { simpl. rewrite (find_app_last _ _ _ Hemail). simpl. now rewrite String.eqb_refl. }
  split.
  { destruct (loginUser_ok env email_ password now1 db1 user
                (hashPassword env password) Hfind1 eq_refl Hne eq_refl)
      as (db' & tokens & E & _); [discriminate|exact Hpw|].
    exists db'. eexists. split; [exact E|reflexivity]. }
  assert (Hstored : find (fun t => TokenHash_eqb (ot_tokenHash t)
                                                 (hashToken (HexString rnd)))
                         (verification_tokens db1) = Some token).
  { simpl. rewrite (find_app_last _ _ _ Htok). simpl.
    unfold TokenHash_eqb. now destruct (TokenHash_eq_dec _ _). }
  exists (mkDb (us ++ [with_status ACTIVE user]) rts vts prts gms ts q (S (S n)) calls).
  split.
  { rewrite (verifyEmail_ok db1 _ now1 token Hstored).
    - unfold set_verification_tokens, set_users. simpl.
      rewrite (updateUnique_app_fresh _ _ _ _ Hids).
      rewrite (deleteUnique_app_last _ _ _ Htid).
      simpl. now rewrite !Nat.eqb_refl.
    - apply Z.ltb_ge. simpl. lia.
    - simpl. apply existsb_app_last. simpl. apply Nat.eqb_refl. }
  split.
  { simpl. rewrite (find_app_last _ _ _ Hemail). simpl. now rewrite String.eqb_refl. }
  split.
  { apply verifyEmail_unknown. simpl. now apply find_absent. }
  match goal with
  | |- exists db3 res, loginUser _ _ _ _ ?d = _ /\ _ =>
      destruct (loginUser_ok env email_ password now3 d (with_status ACTIVE user)
                  (hashPassword env password))
        as (db3 & tokens & E & _)
  end.
  - simpl. rewrite (find_app_last _ _ _ Hemail). simpl. now rewrite String.eqb_refl.
  - reflexivity.
  - exact Hne.
  - reflexivity.
  - discriminate.
  - exact Hpw.
  - exists db3. eexists. split; [exact E|]. split; reflexivity.
Qed.

Lemma emptyDb_storeInv : storeInv emptyDb.
Proof. repeat split; simpl; constructor. Defined.

Lemma signup_flow_witness :
  exists db1 user,
    registerUser sampleEnv "ada@example.com" "correct horse" "Ada" 7 0 emptyDb =
    (db1, inr (mkRegisterResult user (HexString 7)))
    /\ registered_status user = UNVERIFIED
    /\ (exists db' res,
           loginUser sampleEnv "ada@example.com" "correct horse" 1000 db1
           = (db', inr res)
           /\ profile_status (login_user res) = UNVERIFIED)
    /\ exists db2,
         verifyEmail (HexString 7) 1000 db1 = (db2, inr tt)
         /\ find (fun u => String.eqb (email u) "ada@example.com") (users db2)
            = Some (mkUser (registered_id user) "ada@example.com"
                           (Some "argon2:correct horse"%string) "Ada" ACTIVE 0 None)
         /\ verifyEmail (HexString 7) 2000 db2 =
            (db2, inl (authError "INVALID_TOKEN"
                                 "Invalid or expired verification token" 400))
         /\ exists db3 res,
              loginUser sampleEnv "ada@example.com" "correct horse" 3000 db2
              = (db3, inr res)
              /\ profile_id (login_user res) = registered_id user
              /\ profile_status (login_user res) = ACTIVE.
Proof.
  apply (signup_flow sampleEnv "ada@example.com" "correct horse" "Ada" 7
                     0 1000 2000 3000 emptyDb emptyDb_storeInv).
  - simpl. tauto.
  - simpl. tauto.
  - discriminate.
  - reflexivity.
  - lia.
Defined.

(* ------------------------------------------------------------------ *)
(** ** One-time tokens: verification and password reset *)
(* ------------------------------------------------------------------ *)

Lemma find_updateUnique_key {A} (key : A -> nat) (p : A -> bool) (data : A -> A)
      (rows : list A) (x : A) :
  NoDup (map key rows) -> find p rows = Some x ->
  (forall y, p (data y) = p y) ->
  find p (updateUnique (fun r => Nat.eqb (key r) (key x)) data rows) = Some (data x).
Proof.
  intros Hnd Hfind Hp. induction rows as [|a rows IH]; simpl in *; [discriminate|].
  inversion Hnd as [|? ? Hnotin Hnd']; subst.
  destruct (p a) eqn:Hpa.
  - injection Hfind as <-. rewrite Nat.eqb_refl. simpl. now rewrite Hp, Hpa.
  - destruct (Nat.eqb_spec (key a) (key x)) as [E|E].
    + exfalso. apply Hnotin. rewrite E. apply in_map.
      now apply find_some in Hfind.
    + simpl. rewrite Hpa. now apply IH.
Qed.

(** X3.  [verifyEmail], on a table of verification tokens whose identifiers
    are unique.  A token that is not stored is rejected with INVALID_TOKEN
    and nothing changes.  A stored token that has expired is rejected with
    TOKEN_EXPIRED, and the call removes it nonetheless; the accounts are as
    before.  A stored token that has not expired makes its account ACTIVE
    whatever the status of the account was (a suspended account becomes
    active again) and is removed; the other accounts and the other tokens
    stay. *)
Theorem verifyEmail_outcomes (rawToken : RawToken) (now : Time) (db : Db) :
  NoDup (map ot_id (verification_tokens db)) ->
  ((forall t, In t (verification_tokens db) ->
              ot_tokenHash t <> hashToken rawToken) ->
   verifyEmail rawToken now db =
   (db, inl (authError "INVALID_TOKEN" "Invalid or expired verification token" 400)))
  /\
  (forall stored,
      find (fun t => TokenHash_eqb (ot_tokenHash t) (hashToken rawToken))
           (verification_tokens db) = Some stored ->
      ot_expiresAt stored < now ->
      exists db',
        verifyEmail rawToken now db =
        (db', inl (authError "TOKEN_EXPIRED" "Verification token has expired" 400))
        /\ ~ In stored (verification_tokens db')
        /\ (forall t, In t (verification_tokens db) -> ot_id t <> ot_id stored ->
                      In t (verification_tokens db'))
        /\ users db' = users db)
  /\
  (forall stored user,
      find (fun t => TokenHash_eqb (ot_tokenHash t) (hashToken rawToken))
           (verification_tokens db) = Some stored ->
      now <= ot_expiresAt stored ->
      find (fun u => Nat.eqb (user_id u) (ot_userId stored)) (users db) = Some user ->
      exists db',
        verifyEmail rawToken now db = (db', inr tt)
        /\ find (fun u => Nat.eqb (user_id u) (ot_userId stored)) (users db')
           = Some (with_status ACTIVE user)
        /\ (forall u, In u (users db) -> user_id u <> ot_userId stored ->
                      In u (users db'))
        /\ ~ In stored (verification_tokens db')
        /\ (forall t, In t (verification_tokens db) -> ot_id t <> ot_id stored ->
                      In t (verification_tokens db'))).
Proof.
  intros Hnd. split; [|split].
  - intros Hnone. apply verifyEmail_unknown, find_absent.
    intros y Hy. apply TokenHash_eqb_neq. now apply Hnone.
  - intros stored Hfind Hexp. eexists. split.
    { apply verifyEmail_expired; [exact Hfind|]. now apply Z.ltb_lt. }
    cbn [verification_tokens users set_verification_tokens]. split; [|split].
    + intros Hin. now apply (deleteUnique_key_gone ot_id _ _ Hnd) in Hin.
    + intros t Hin Hne. apply In_deleteUnique_other; [exact Hin|].
      now apply Nat.eqb_neq.
    + reflexivity.
  - intros stored user Hfind Hexp Huser. eexists. split.
    { apply verifyEmail_ok; [exact Hfind| |exact (find_existsb _ _ _ Huser)].
      apply Z.ltb_ge. lia. }
    cbn [verification_tokens users set_verification_tokens set_users].
    split; [|split; [|split]].
    + rewrite find_updateUnique_same; [now rewrite Huser|reflexivity].
    + intros u Hin Hne. apply In_updateUnique_other; [exact Hin|].
      now apply Nat.eqb_neq.
    + intros Hin. now apply (deleteUnique_key_gone ot_id _ _ Hnd) in Hin.
    + intros t Hin Hne. apply In_deleteUnique_other; [exact Hin|].
      now apply Nat.eqb_neq.
Qed.

Lemma pendingDb_token_ids : NoDup (map ot_id (verification_tokens pendingDb)).
Proof. repeat constructor; simpl; intuition discriminate. Defined.

Lemma verifyEmail_outcomes_witness :
  exists db',
    verifyEmail (HexString 11) 500 pendingDb = (db', inr tt)
    /\ find (fun u => Nat.eqb (user_id u) 2%nat) (users db')
       = Some (mkUser 2%nat "bob@example.com" (Some "argon2:battery staple"%string)
                      "Bob" ACTIVE 0 None).
Proof.
  destruct (proj2 (proj2 (verifyEmail_outcomes (HexString 11) 500 pendingDb
                            pendingDb_token_ids))
                  (mkOneTimeToken 40%nat (hashToken (HexString 11)) 2%nat 1000)
                  (mkUser 2%nat "bob@example.com"
                          (Some "argon2:battery staple"%string) "Bob" SUSPENDED 0 None))
    as (db' & E & H & _).
  - reflexivity.
  - simpl. lia.
  - reflexivity.
  - exists db'. split; [exact E|exact H].
Defined.

(** X4.  A new verification token replaces the earlier ones.
    [resendVerification], called for the address of an UNVERIFIED account,
    first deletes the verification tokens of the account.  When no other
    account holds a token with the digest of the new one, it resolves with
    the new raw token; afterwards the account has exactly one verification
    token, the new one, with a life of 24 hours; the tokens of the other
    accounts stay; and every other raw token whose stored rows belonged to
    this account is rejected by [verifyEmail] with INVALID_TOKEN.  When
    another account holds a token with that digest, the call rejects with
    the error of the unique index, and the account is left with no
    verification token at all. *)
Theorem resendVerification_replaces_token (email_ : string) (rnd : nat)
        (now now' : Time) (db : Db) (user : User) :
  find (fun u => String.eqb (email u) email_) (users db) = Some user ->
  status user = UNVERIFIED ->
  ((forall t, In t (verification_tokens db) -> ot_userId t <> user_id user ->
              ot_tokenHash t <> hashToken (HexString rnd)) ->
   exists db',
     let token := mkOneTimeToken (nextUuid db) (hashToken (HexString rnd))
                                 (user_id user) (now + 24 * 60 * 60 * 1000) in
     resendVerification email_ rnd now db = (db', inr (Some (HexString rnd)))
     /\ In token (verification_tokens db')
     /\ (forall t, In t (verification_tokens db') -> ot_userId t = user_id user ->
                   t = token)
     /\ (forall t, In t (verification_tokens db) -> ot_userId t <> user_id user ->
                   In t (verification_tokens db'))
     /\ (forall old,
            old <> HexString rnd ->
            (forall t, In t (verification_tokens db) ->
                       ot_tokenHash t = hashToken old -> ot_userId t = user_id user) ->
            verifyEmail old now' db' =
            (db', inl (authError "INVALID_TOKEN"
                                 "Invalid or expired verification token" 400))))
  /\
  (forall other,
      In other (verification_tokens db) -> ot_userId other <> user_id user ->
      ot_tokenHash other = hashToken (HexString rnd) ->
      exists db',
        resendVerification email_ rnd now db = (db', inl uniqueConstraintFailed)
        /\ (forall t, In t (verification_tokens db') -> ot_userId t <> user_id user)
        /\ (forall t, In t (verification_tokens db) -> ot_userId t <> user_id user ->
                      In t (verification_tokens db'))
        /\ users db' = users db).
Proof.
  intros Hfind Hst.
  pose proof (resendVerification_cases email_ rnd now db) as H.
  rewrite Hfind, Hst in H. cbn [UserStatus_eqb] in H.
  assert (Hkeep : forall t, In t (verification_tokens db) ->
                            ot_userId t <> user_id user ->
                            In t (deleteMany
                                    (fun t => Nat.eqb (ot_userId t) (user_id user))
                                    (verification_tokens db))).
  { intros t Hin Hu. unfold deleteMany.
    apply filter_In. split; [exact Hin|]. apply negb_true_iff.
    now apply Nat.eqb_neq. }
  split.
  - intros Hfresh. rewrite digestStored_fresh in H.
    2:{ intros t Ht. pose proof (deleteMany_gone _ _ _ Ht) as Hgone.
        apply Nat.eqb_neq in Hgone. apply Hfresh; [|exact Hgone].
        unfold deleteMany in Ht. now apply filter_In in Ht. }
    eexists. cbv zeta. split; [exact H|].
    cbn [verification_tokens set_nextUuid set_verification_tokens].
    split; [|split; [|split]].
    + apply in_or_app. right. now left.
    + intros t Hin Hu. apply in_app_or in Hin. destruct Hin as [Hin|[<-|[]]].
      * apply deleteMany_gone in Hin. apply Nat.eqb_neq in Hin. contradiction.
      * reflexivity.
    + intros t Hin Hu. apply in_or_app. left. now apply Hkeep.
    + intros old Hne Hold. apply verifyEmail_unknown.
      cbn [verification_tokens set_nextUuid set_verification_tokens].
      apply find_absent. intros y Hy. apply TokenHash_eqb_neq.
      apply in_app_or in Hy. destruct Hy as [Hy|[<-|[]]].
      * intros Hh. pose proof (deleteMany_gone _ _ _ Hy) as Hgone.
        apply Nat.eqb_neq in Hgone. apply Hgone. apply Hold; [|exact Hh].
        unfold deleteMany in Hy. now apply filter_In in Hy.
      * simpl. unfold hashToken. intros [= E]. now apply Hne.
  - intros other Hin Hu Hh.
    rewrite (digestStored_found _ _ other (Hkeep other Hin Hu) Hh) in H.
    eexists. split; [exact H|].
    cbn [verification_tokens users set_verification_tokens].
    split; [|split; [exact Hkeep|reflexivity]].
    intros t Ht. apply deleteMany_gone in Ht. now apply Nat.eqb_neq.
Qed.

Lemma resendVerification_replaces_token_witness :
  (exists db',
      resendVerification "eve@example.com" 13 600 pendingDb
      = (db', inr (Some (HexString 13)))
      /\ verifyEmail (HexString 12) 700 db' =
         (db', inl (authError "INVALID_TOKEN"
                              "Invalid or expired verification token" 400)))
  /\ (exists db',
         resendVerification "eve@example.com" 11 600 pendingDb
         = (db', inl uniqueConstraintFailed)
         /\ forall t, In t (verification_tokens db') -> ot_userId t <> 5%nat).
Proof.
  destruct (resendVerification_replaces_token "eve@example.com" 13 600 700 pendingDb
              (mkUser 5%nat "eve@example.com" (Some "argon2:hunter2"%string) "Eve"
                      UNVERIFIED 0 None) eq_refl eq_refl)
    as [Hok _].
  destruct (resendVerification_replaces_token "eve@example.com" 11 600 700 pendingDb
              (mkUser 5%nat "eve@example.com" (Some "argon2:hunter2"%string) "Eve"
                      UNVERIFIED 0 None) eq_refl eq_refl)
    as [_ Hfail].
  split.
  - destruct Hok as (db' & E & _ & _ & _ & H).
    + simpl. intros t [<-|[<-|[]]]; simpl; intros Hu; [discriminate|now destruct Hu].
    + exists db'. split; [exact E|]. apply H.
      * discriminate.
      * simpl. intros t [<-|[<-|[]]]; simpl; intros Hh;
          [discriminate Hh|reflexivity].
  - destruct (Hfail (mkOneTimeToken 40%nat (hashToken (HexString 11)) 2%nat 1000))
      as (db' & E & H & _).
    + simpl. now left.
    + simpl. discriminate.
    + reflexivity.
    + exists db'. split; [exact E|exact H].
Defined.

Lemma resetPassword_unknown (env : Env) (db : Db) (rawToken : RawToken)
      (newPassword : string) (now : Time) :
  find (fun t => TokenHash_eqb (ot_tokenHash t) (hashToken rawToken))
       (password_reset_tokens db) = None ->
  resetPassword env rawToken newPassword now db =
  (db, inl (authError "INVALID_TOKEN" "Invalid or expired reset token" 400)).
Proof.
  intros Hfind.
  unfold resetPassword, await at 1, oneTimeToken_findUnique, query. cbv beta.
  now rewrite Hfind.
Qed.

Lemma resetPassword_expired (env : Env) (db : Db) (rawToken : RawToken)
      (newPassword : string) (now : Time) (stored : OneTimeToken) :
  find (fun t => TokenHash_eqb (ot_tokenHash t) (hashToken rawToken))
       (password_reset_tokens db) = Some stored ->
  (ot_expiresAt stored <? now) = true ->
  resetPassword env rawToken newPassword now db =
  (set_password_reset_tokens
     (deleteUnique (fun t => Nat.eqb (ot_id t) (ot_id stored))) db,
   inl (authError "TOKEN_EXPIRED" "Reset token has expired" 400)).
Proof.
  intros Hfind Hexp.
  unfold resetPassword, await at 1, oneTimeToken_findUnique, query. cbv beta.
  rewrite Hfind. cbv beta iota. rewrite Hexp.
  unfold await, oneTimeToken_delete.
  assert (Hex : existsb (fun t => Nat.eqb (ot_id t) (ot_id stored))
                        (password_reset_tokens db) = true).
  { apply existsb_exists. exists stored. split; [|apply Nat.eqb_refl].
    now apply find_some in Hfind. }
  rewrite Hex. reflexivity.
Qed.

Lemma loginUser_wrong_password (env : Env) (email_ password : string) (now : Time)
      (db : Db) (user : User) (hash : string) :
  find (fun u => String.eqb (email u) email_) (users db) = Some user ->
  passwordHash user = Some hash -> hash <> EmptyString ->
  user_deletedAt user = None -> status user <> SUSPENDED ->
  verifyPassword env hash password = false ->
  loginUser env email_ password now db =
  (set_verifyPasswordCalls S db,
   inl (authError "INVALID_CREDENTIALS" "Invalid email or password" 401)).
Proof.
  intros Hfind Hhash Hne Hdel Hst Hpw.
  assert (Ht : negb (truthy (passwordHash user)) = false).
  { rewrite Hhash. simpl.
    destruct (String.eqb_spec hash EmptyString); [contradiction|reflexivity]. }
  assert (Es : UserStatus_eqb (status user) SUSPENDED = false).
  { destruct (status user); simpl; congruence. }
  unfold loginUser, await at 1, user_findUnique_email, query. cbv beta.
  rewrite Hfind. cbv beta iota. rewrite Ht, Hdel. cbn [isSome]. cbv iota.
  rewrite Es. unfold await at 1, verifyPassword_call. rewrite Hhash, Hpw.
  reflexivity.
Qed.

(** X5.  Resetting a password.  On a database whose keys are unique, for the
    address of an account that is not soft-deleted and random bytes whose
    digest is not stored yet: [requestPasswordReset] resolves with a raw
    token.  [resetPassword] with that token more than 15 minutes later
    rejects with TOKEN_EXPIRED and leaves the accounts as they were.  Within
    15 minutes it resolves and the account carries the hash of the new
    password; the token then no longer works (INVALID_TOKEN); and, if the
    account is not suspended, a login resolves with exactly the passwords
    that [verifyPassword] accepts against the new hash, and rejects the
    others with INVALID_CREDENTIALS. *)
Theorem password_reset_flow (env : Env) (email_ newPassword : string) (rnd : nat)
        (now now1 now2 : Time) (db : Db) (user : User) :
  storeInv db ->
  find (fun u => String.eqb (email u) email_) (users db) = Some user ->
  user_deletedAt user = None ->
  (forall t, In t (password_reset_tokens db) ->
             ot_tokenHash t <> hashToken (HexString rnd)) ->
  exists db1,
    requestPasswordReset email_ rnd now db = (db1, inr (Some (HexString rnd)))
    /\ (now + 15 * 60 * 1000 < now1 ->
        exists db',
          resetPassword env (HexString rnd) newPassword now1 db1 =
          (db', inl (authError "TOKEN_EXPIRED" "Reset token has expired" 400))
          /\ users db' = users db)
    /\ (now1 <= now + 15 * 60 * 1000 ->
        exists db2,
          resetPassword env (HexString rnd) newPassword now1 db1 = (db2, inr tt)
          /\ find (fun u => String.eqb (email u) email_) (users db2)
             = Some (with_passwordHash (Some (hashPassword env newPassword)) user)
          /\ resetPassword env (HexString rnd) newPassword now2 db2 =
             (db2, inl (authError "INVALID_TOKEN" "Invalid or expired reset token" 400))
          /\ (forall password,
                 status user <> SUSPENDED ->
                 hashPassword env newPassword <> EmptyString ->
                 (verifyPassword env (hashPassword env newPassword) password = true ->
                  exists db3 res,
                    loginUser env email_ password now2 db2 = (db3, inr res)
                    /\ profile_id (login_user res) = user_id user)
                 /\
                 (verifyPassword env (hashPassword env newPassword) password = false ->
                  exists db3,
                    loginUser env email_ password now2 db2 =
                    (db3, inl (authError "INVALID_CREDENTIALS"
                                         "Invalid email or password" 401))))).
Proof.
  intros ((U1 & U2 & U3) & _ & (P1 & P2 & P3) & _) Hfind Hdel Hfresh.
  rewrite Forall_forall in P3.
  pose proof (requestPasswordReset_cases email_ rnd now db) as H.
  rewrite Hfind, Hdel in H. cbn [isSome] in H.
  rewrite (digestStored_deleteMany _ _ _ (digestStored_fresh _ _ Hfresh)) in H.
  simpl in H.
  destruct db as [us rts vts prts gms ts q n calls].
  unfold set_nextUuid, set_password_reset_tokens in H. simpl in *.
  set (token := mkOneTimeToken n (hashToken (HexString rnd)) (user_id user)
                               (now + 15 * 60 * 1000)) in *.
  set (kept := deleteMany (fun t => Nat.eqb (ot_userId t) (user_id user)) prts) in *.
  assert (Hkept : forall t, In t kept -> In t prts)
    by (intros t Ht; unfold kept, deleteMany in Ht; now apply filter_In in Ht).
  assert (Htok : forall t, In t kept ->
                           TokenHash_eqb (ot_tokenHash t) (hashToken (HexString rnd))
                           = false)
    by (intros t Ht; apply TokenHash_eqb_neq; now apply Hfresh, Hkept).
  assert (Htid : forall t, In t kept -> Nat.eqb (ot_id t) n = false)
    by (intros t Ht; apply Nat.eqb_neq; destruct (P3 t (Hkept t Ht)); lia).
  set (db1 := mkDb us rts vts (kept ++ [token]) gms ts q (S n) calls) in *.
  assert (Hstored : find (fun t => TokenHash_eqb (ot_tokenHash t)
                                                 (hashToken (HexString rnd)))
                         (password_reset_tokens db1) = Some token).
  { simpl. rewrite (find_app_last _ _ _ Htok). simpl.
    unfold TokenHash_eqb. now destruct (TokenHash_eq_dec _ _). }
  exists db1. split; [exact H|]. split.
  - intros Hlate. eexists. split.
    + apply (resetPassword_expired env db1 _ newPassword now1 token Hstored).
      apply Z.ltb_lt. simpl. lia.
    + reflexivity.
  - intros Hintime.
    set (user' := with_passwordHash (Some (hashPassword env newPassword)) user).
    set (db2 := mkDb (updateUnique (fun u => Nat.eqb (user_id u) (user_id user))
                                   (with_passwordHash
                                      (Some (hashPassword env newPassword))) us)
                     (updateMany (fun r => Nat.eqb (rt_userId r) (user_id user))
                                 (with_revoked true) rts)
                     vts kept gms ts q (S n) calls).
    assert (Hfind2 : find (fun u => String.eqb (email u) email_) (users db2)
                     = Some user').
    { simpl. now apply (find_updateUnique_key user_id). }
    exists db2. split; [|split; [exact Hfind2|split]].
    + rewrite (resetPassword_ok env db1 _ newPassword now1 token Hstored).
      * unfold set_refresh_tokens, set_password_reset_tokens, set_users. simpl.
        rewrite (deleteUnique_app_last _ _ _ Htid). simpl.
        now rewrite Nat.eqb_refl.
      * apply Z.ltb_ge. simpl. lia.
      * simpl. apply existsb_exists. exists user.
        split; [now apply find_some in Hfind|apply Nat.eqb_refl].
    + apply resetPassword_unknown. simpl. now apply find_absent.
    + intros password Hst Hne. split; intros Hpw.
      * destruct (loginUser_ok env email_ password now2 db2 user'
                    (hashPassword env newPassword) Hfind2 eq_refl Hne Hdel Hst Hpw)
          as (db3 & tokens & E & _).
        exists db3. eexists. split; [exact E|reflexivity].
      * eexists.
        apply (loginUser_wrong_password env email_ password now2 db2 user'
                 (hashPassword env newPassword) Hfind2 eq_refl Hne Hdel Hst Hpw).
Qed.

Lemma resetDb_storeInv : storeInv resetDb.
Proof.
  repeat split; simpl; repeat constructor; simpl; try lia; intuition discriminate.
Defined.

Lemma password_reset_flow_witness :
  exists db1,
    requestPasswordReset "bob@example.com" 5 0 resetDb
    = (db1, inr (Some (HexString 5)))
    /\ exists db2,
         resetPassword sampleEnv (HexString 5) "new passphrase" 60000 db1
         = (db2, inr tt)
         /\ (exists db3 res,
                loginUser sampleEnv "bob@example.com" "new passphrase" 70000 db2
                = (db3, inr res)
                /\ profile_id (login_user res) = 2%nat)
         /\ (exists db3,
                loginUser sampleEnv "bob@example.com" "battery staple" 70000 db2 =
                (db3, inl (authError "INVALID_CREDENTIALS"
                                     "Invalid email or password" 401))).
Proof.
  destruct (password_reset_flow sampleEnv "bob@example.com" "new passphrase" 5
              0 60000 70000 resetDb
              (mkUser 2%nat "bob@example.com" (Some "argon2:battery staple"%string)
                      "Bob" ACTIVE 0 None)
              resetDb_storeInv eq_refl eq_refl)
    as (db1 & E1 & _ & H).
  - simpl. intros t [<-|[]]. discriminate.
  - exists db1. split; [exact E1|].
    destruct H as (db2 & E2 & _ & _ & Hlogin); [lia|].
    exists db2. split; [exact E2|]. split.
    + apply (Hlogin "new passphrase"); [discriminate|discriminate|reflexivity].
    + apply (Hlogin "battery staple"); [discriminate|discriminate|reflexivity].
Defined.

(* ------------------------------------------------------------------ *)
(** ** Logging out *)
(* ------------------------------------------------------------------ *)

Lemma logoutUser_unknown (raw : RawToken) (userId : Uuid) (db : Db) :
  find (presented (hashToken raw) userId) (refresh_tokens db) = None ->
  logoutUser (Some raw) userId db = (db, inr tt).
Proof.
  intros H. unfold logoutUser, await, refreshToken_findFirst, query. cbv beta.
  change (fun r : RefreshToken =>
            TokenHash_eqb (rt_tokenHash r) (hashToken raw)
            && Nat.eqb (rt_userId r) userId)
    with (presented (hashToken raw) userId).
  now rewrite H.
Qed.

Lemma logoutUser_stored (raw : RawToken) (userId : Uuid) (db : Db)
      (stored : RefreshToken) :
  find (presented (hashToken raw) userId) (refresh_tokens db) = Some stored ->
  logoutUser (Some raw) userId db =
  (set_refresh_tokens
     (updateMany (fun r => Nat.eqb (rt_family r) (rt_family stored))
                 (with_revoked true)) db,
   inr tt).
Proof.
  intros H. unfold logoutUser, await, refreshToken_findFirst, query. cbv beta.
  change (fun r : RefreshToken =>
            TokenHash_eqb (rt_tokenHash r) (hashToken raw)
            && Nat.eqb (rt_userId r) userId)
    with (presented (hashToken raw) userId).
  now rewrite H.
Qed.

(** X6.  [logoutUser] never rejects.  Without a refresh token, or with one
    that is not stored for the caller (unknown, or the token of another
    account), it changes nothing.  With a token stored for the caller, in a
    reachable state, it revokes the whole family of that token and leaves
    the rows of the other families as they were; from then on a refresh
    with any token ever issued in that family does not resolve: it is
    rejected with INVALID_TOKEN when the token does not pass verification
    and with TOKEN_REUSE when it does, and the family stays revoked. *)
Theorem logoutUser_ends_the_session (env : Env) (userId : Uuid) (now : Time)
        (db : Db) :
  reachable env db ->
  logoutUser None userId db = (db, inr tt)
  /\ (forall raw,
         (forall r, In r (refresh_tokens db) -> rt_tokenHash r = hashToken raw ->
                    rt_userId r <> userId) ->
         logoutUser (Some raw) userId db = (db, inr tt))
  /\ (forall raw stored,
         find (presented (hashToken raw) userId) (refresh_tokens db) = Some stored ->
         exists db',
           logoutUser (Some raw) userId db = (db', inr tt)
           /\ familyRevoked db' (rt_family stored)
           /\ (forall r, In r (refresh_tokens db) ->
                         rt_family r <> rt_family stored ->
                         In r (refresh_tokens db'))
           /\ (forall raw',
                  historicalToken db' (rt_family stored) raw' ->
                  match verifyRefreshToken (config env) raw' now with
                  | None => refreshTokens env raw' now db' = (db', inl invalidToken)
                  | Some _ =>
                      exists db'',
                        refreshTokens env raw' now db' = (db'', inl tokenReuse)
                        /\ familyRevoked db'' (rt_family stored)
                  end)).
Proof.
  intros Hreach. pose proof (reachable_sessionInv env db Hreach) as Hinv.
  split; [reflexivity|]. split.
  - intros raw Hother. apply logoutUser_unknown, find_absent.
    intros y Hy. destruct (presented (hashToken raw) userId y) eqn:E; [|reflexivity].
    apply presented_true in E. destruct E as [Hh Hu].
    now destruct (Hother y Hy Hh).
  - intros raw stored Hfind. eexists. split; [exact (logoutUser_stored _ _ _ _ Hfind)|].
    assert (Hlt : (rt_family stored < nextUuid db)%nat).
    { destruct Hinv as (_ & Hall & _). rewrite Forall_forall in Hall.
      apply find_some in Hfind. now destruct (Hall stored (proj1 Hfind)) as (_ & H & _). }
    pose proof (familyRevoked_after_revoke _ db Hlt) as Hrev.
    pose proof (sessionInvOn_revokeMany (fun _ => false)
                  (fun r => Nat.eqb (rt_family r) (rt_family stored)) db Hinv)
      as Hinv'.
    split; [exact Hrev|]. split.
    + intros r Hin Hne. simpl. unfold updateMany. apply in_map_iff. exists r.
      split; [|exact Hin].
      destruct (Nat.eqb_spec (rt_family r) (rt_family stored)); [contradiction|reflexivity].
    + intros raw' (r' & Hin' & Hh' & Hf').
      destruct (verifyRefreshToken (config env) raw' now) as [claims|] eqn:Hv.
      * destruct (refreshTokens_spent env _ _ raw' now claims r' Hinv' Hin' Hh'
                    (proj2 Hrev r' Hin' Hf') Hv) as [_ E].
        eexists. split; [exact E|]. rewrite Hf'.
        apply familyRevoked_after_revoke. exact Hlt.
      * now apply refreshTokens_unverified.
Qed.

Lemma logoutUser_ends_the_session_witness :
  exists db',
    logoutUser (Some firstToken) 0%nat loggedInDb = (db', inr tt)
    /\ familyRevoked db' 2%nat
    /\ exists db'',
         refreshTokens sampleEnv firstToken 2000 db' = (db'', inl tokenReuse).
Proof.
  destruct (proj2 (proj2 (logoutUser_ends_the_session sampleEnv 0%nat 2000 loggedInDb
                            loggedInDb_reachable))
                  firstToken
                  (mkRefreshToken 3%nat (hashToken firstToken) 0%nat 2%nat false
                                  604801000 1000)
                  eq_refl)
    as (db' & E & Hrev & _ & H).
  exists db'. split; [exact E|]. split; [exact Hrev|].
  assert (Hhist : historicalToken db' 2%nat firstToken).
  { assert (E' : fst (logoutUser (Some firstToken) 0%nat loggedInDb) = db')
      by (rewrite E; reflexivity).
    rewrite <- E'. eexists. split; [left; reflexivity|]. split; reflexivity. }
  specialize (H firstToken Hhist). simpl in H.
  destruct H as (db'' & E'' & _). exists db''. exact E''.
Defined.

(* ------------------------------------------------------------------ *)
(** ** Profiles *)
(* ------------------------------------------------------------------ *)

Lemma updateUnique_id {A} (p : A -> bool) (rows : list A) :
  updateUnique p (fun r => r) rows = rows.
Proof.
  induction rows as [|a rows IH]; simpl; [reflexivity|].
  destruct (p a); [reflexivity|now rewrite IH].
Qed.

Lemma set_users_same (p : User -> bool) (db : Db) :
  set_users (updateUnique p (fun u => u)) db = db.
Proof. destruct db. unfold set_users. simpl. now rewrite updateUnique_id. Qed.

Lemma updateProfile_stored (userId : Uuid) (name_ : option string) (db : Db)
      (user : User) (data : User -> User) :
  find (activeUserWithId userId) (users db) = Some user ->
  data = match name_ with
         | Some n => if truthy name_ then with_name n else (fun u => u)
         | None => fun u => u
         end ->
  updateProfile userId name_ db =
  (set_users (updateUnique (activeUserWithId userId) data) db,
   inr (toUserProfile (data user))).
Proof.
  intros Hfind ->. unfold updateProfile, await, user_updateWhere, resolve.
  now rewrite Hfind.
Qed.

(** X7.  [updateProfile] for an account that is stored and not
    soft-deleted, the identifiers of the accounts being unique.  Without a
    name, or with the empty name, it changes nothing and resolves with the
    profile as it is.  With a name it resolves with the profile under the
    new name, which is also what [getUserProfile] returns afterwards; the
    address, the status and the creation date of the profile are the ones
    the account had, the identifiers, addresses, statuses and password
    hashes of the accounts are as before, the other accounts keep their
    rows, and the refresh tokens, the memberships and the tasks are as
    before. *)
Theorem updateProfile_round_trip (userId : Uuid) (db : Db) (user : User) :
  NoDup (map user_id (users db)) ->
  find (activeUserWithId userId) (users db) = Some user ->
  (forall name_, truthy name_ = false ->
     updateProfile userId name_ db = (db, inr (toUserProfile user)))
  /\
  (forall n, n <> EmptyString ->
     exists db',
       let profile := mkUserProfile userId (email user) n (status user)
                                    (user_createdAt user) in
       updateProfile userId (Some n) db = (db', inr profile)
       /\ getUserProfile userId db' = (db', inr profile)
       /\ (forall u, In u (users db) -> user_id u <> userId -> In u (users db'))
       /\ map user_id (users db') = map user_id (users db)
       /\ map email (users db') = map email (users db)
       /\ map status (users db') = map status (users db)
       /\ map passwordHash (users db') = map passwordHash (users db)
       /\ refresh_tokens db' = refresh_tokens db
       /\ group_members db' = group_members db
       /\ tasks db' = tasks db).
Proof.
  intros Hnd Hfind.
  assert (Hid : user_id user = userId).
  { apply find_some in Hfind. destruct Hfind as [_ H].
    unfold activeUserWithId in H. apply andb_prop in H. now apply Nat.eqb_eq. }
  split.
  - intros name_ Hfalsy.
    rewrite (updateProfile_stored userId name_ db user (fun u => u) Hfind).
    + now rewrite set_users_same.
    + destruct name_ as [n|]; [now rewrite Hfalsy|reflexivity].
  - intros n Hn.
    assert (Htruthy : truthy (Some n) = true).
    { simpl. now destruct (String.eqb_spec n EmptyString). }
    eexists. cbv zeta. split.
    { rewrite (updateProfile_stored userId (Some n) db user (with_name n) Hfind).
      - unfold toUserProfile. simpl. rewrite Hid. reflexivity.
      - now rewrite Htruthy. }
    cbn [users refresh_tokens group_members tasks set_users].
    split.
    { unfold getUserProfile, await, query. cbn [users set_users].
      rewrite find_updateUnique_same by reflexivity. rewrite Hfind.
      unfold resolve, toUserProfile. simpl. now rewrite Hid. }
    split.
    { intros u Hin Hne. apply In_updateUnique_other; [exact Hin|].
      unfold activeUserWithId. apply andb_false_iff. left. now apply Nat.eqb_neq. }
    repeat split; now apply map_updateUnique.
Qed.

Lemma accountsDb_user_ids : NoDup (map user_id (users accountsDb)).
Proof. repeat constructor; simpl; intuition discriminate. Defined.

Lemma updateProfile_round_trip_witness :
  exists db',
    updateProfile 1%nat (Some "Ada Lovelace"%string) accountsDb =
    (db', inr (mkUserProfile 1%nat "ada@example.com" "Ada Lovelace" ACTIVE 0))
    /\ getUserProfile 1%nat db' =
       (db', inr (mkUserProfile 1%nat "ada@example.com" "Ada Lovelace" ACTIVE 0)).
Proof.
  destruct (proj2 (updateProfile_round_trip 1%nat accountsDb
                     (mkUser 1%nat "ada@example.com"
                             (Some "argon2:correct horse"%string) "Ada" ACTIVE 0 None)
                     accountsDb_user_ids eq_refl)
                  "Ada Lovelace"%string)
    as (db' & E1 & E2 & _).
  - discriminate.
  - exists db'. split; [exact E1|exact E2].
Defined.

(** X8.  The two routes of the profile, for an identifier that no account
    has or that only a soft-deleted account has.  [GET /api/v1/auth/me]
    answers 404 with the problem USER_NOT_FOUND.  [PATCH /api/v1/auth/me]
    answers 500 with the general detail: [updateProfile] rejects with the
    error of the Prisma client, which is no service error, the handler does
    not catch it, and the error handler of the application hides its
    message.  Neither changes the database. *)
Theorem me_routes_without_account (userId : Uuid) (name_ : option string) (db : Db) :
  (forall u, In u (users db) -> user_id u = userId -> user_deletedAt u <> None) ->
  respond (getMeRoute userId) db =
  (db, mkResponse 404
         (ProblemBody (mkProblem "https://api.taskmanagement.com/errors/user-not-found"
                                 "USER_NOT_FOUND" 404 "User not found")))
  /\ respond (patchMeRoute userId name_) db =
     (db, mkResponse 500
            (ProblemBody (mkProblem "https://api.taskmanagement.com/errors/P2025"
                                    "PrismaClientKnownRequestError" 500
                                    "An unexpected error occurred"))).
Proof.
  intros Hnone.
  assert (Hfind : find (activeUserWithId userId) (users db) = None).
  { apply find_absent. intros y Hy. unfold activeUserWithId.
    destruct (Nat.eqb_spec (user_id y) userId) as [E|E]; [|reflexivity].
    specialize (Hnone y Hy E). destruct (user_deletedAt y); [reflexivity|].
    now destruct Hnone. }
  split.
  - unfold respond, getMeRoute, getUserProfile, await, query. now rewrite Hfind.
  - unfold respond, patchMeRoute, updateProfile, await, user_updateWhere.
    now rewrite Hfind.
Qed.

Lemma me_routes_without_account_witness :
  respond (getMeRoute 3%nat) accountsDb =
  (accountsDb,
   mkResponse 404
     (ProblemBody (mkProblem "https://api.taskmanagement.com/errors/user-not-found"
                             "USER_NOT_FOUND" 404 "User not found")))
  /\ respond (patchMeRoute 3%nat (Some "Cyd"%string)) accountsDb =
     (accountsDb,
      mkResponse 500
        (ProblemBody (mkProblem "https://api.taskmanagement.com/errors/P2025"
                                "PrismaClientKnownRequestError" 500
                                "An unexpected error occurred"))).
Proof.
  apply (me_routes_without_account 3%nat (Some "Cyd"%string) accountsDb).
  simpl. intros u [<-|[<-|[<-|[<-|[<-|[]]]]]]; simpl; intros E; discriminate.
Defined.

(* ------------------------------------------------------------------ *)
(** ** Signed tokens and the guards of the routes *)
(* ------------------------------------------------------------------ *)

Lemma clockTimestamp_within (now now' seconds : Z) :
  now' <= now + (seconds - 1) * 1000 ->
  clockTimestamp now' < clockTimestamp now + seconds.
Proof.
  unfold clockTimestamp. intros H.
  assert (H1 : now' / 1000 <= (now + (seconds - 1) * 1000) / 1000)
    by (apply Z.div_le_mono; lia).
  rewrite Z.div_add in H1 by lia. lia.
Qed.

Lemma clockTimestamp_after (now now' seconds : Z) :
  now + seconds * 1000 <= now' ->
  clockTimestamp now + seconds <= clockTimestamp now'.
Proof.
  unfold clockTimestamp. intros H.
  assert (H1 : (now + seconds * 1000) / 1000 <= now' / 1000)
    by (apply Z.div_le_mono; lia).
  rewrite Z.div_add in H1 by lia. lia.
Qed.

(** X9.  A refresh token signed at [now] passes [verifyRefreshToken], with
    the claims it was signed for, at every instant up to the configured
    life minus one second, and no longer passes it from the end of the life
    on; under a configuration with another refresh secret it never passes;
    and a string that is no signed token never passes. *)
Theorem refresh_token_round_trip (cfg : EnvConfig) (userId tokenId_ family_ : Uuid)
        (now now' : Time) :
  (now' <= now + (JWT_REFRESH_EXPIRY_SECONDS cfg - 1) * 1000 ->
   verifyRefreshToken cfg (signRefreshToken cfg userId tokenId_ family_ now) now' =
   Some (mkClaims userId tokenId_ family_ (clockTimestamp now)
                  (clockTimestamp now + JWT_REFRESH_EXPIRY_SECONDS cfg)))
  /\ (now + JWT_REFRESH_EXPIRY_SECONDS cfg * 1000 <= now' ->
      verifyRefreshToken cfg (signRefreshToken cfg userId tokenId_ family_ now) now'
      = None)
  /\ (forall cfg',
         JWT_REFRESH_SECRET cfg' <> JWT_REFRESH_SECRET cfg ->
         verifyRefreshToken cfg' (signRefreshToken cfg userId tokenId_ family_ now) now'
         = None)
  /\ (forall bytes, verifyRefreshToken cfg (HexString bytes) now' = None).
Proof.
  unfold verifyRefreshToken, signRefreshToken. cbn [exp].
  split; [|split; [|split]].
  - intros H. rewrite String.eqb_refl.
    apply clockTimestamp_within in H. apply Z.ltb_lt in H. now rewrite H.
  - intros H. rewrite String.eqb_refl.
    apply clockTimestamp_after in H. apply Z.ltb_ge in H. now rewrite H.
  - intros cfg' Hne. apply not_eq_sym in Hne. apply String.eqb_neq in Hne.
    now rewrite Hne.
  - reflexivity.
Qed.

Lemma refresh_token_round_trip_witness :
  verifyRefreshToken sampleConfig firstToken 604800000 =
  Some (mkClaims 0%nat 3%nat 2%nat 1 604801)
  /\ verifyRefreshToken sampleConfig firstToken 604801000 = None.
Proof.
  split.
  - apply (proj1 (refresh_token_round_trip sampleConfig 0%nat 3%nat 2%nat
                    1000 604800000)).
    simpl. lia.
  - apply (proj1 (proj2 (refresh_token_round_trip sampleConfig 0%nat 3%nat 2%nat
                           1000 604801000))).
    simpl. lia.
Defined.

Lemma loginUser_inversion (env : Env) (email_ password : string) (now : Time)
      (db db' : Db) (res : LoginResult) :
  loginUser env email_ password now db = (db', inr res) ->
  exists user,
    find (fun u => String.eqb (email u) email_) (users db) = Some user
    /\ status user <> SUSPENDED
    /\ accessToken (login_tokens res)
       = signAccessToken (config env) (user_id user) (email user) (status user) now
    /\ login_user res = toUserProfile user.
Proof.
  unfold loginUser, await at 1, user_findUnique_email, query. cbv beta.
  destruct (find _ (users db)) as [user|]; [|discriminate].
  destruct (negb (truthy (passwordHash user))); [discriminate|].
  destruct (isSome (user_deletedAt user)); [discriminate|].
  destruct (UserStatus_eqb (status user) SUSPENDED) eqn:Es; [discriminate|].
  unfold await at 1, verifyPassword_call.
  destruct (negb (verifyPassword env _ password)); [discriminate|].
  unfold await, resolve.
  destruct (createTokenPair_resolves env (user_id user) (email user) (status user)
              None now (set_verifyPasswordCalls S db)) as (db2 & raw & E & _).
  rewrite E. intros [= <- <-]. exists user.
  split; [reflexivity|]. split; [|split; reflexivity].
  intros Hs. rewrite Hs in Es. discriminate.
Qed.

Lemma requireVerified_active (payload : AccessTokenPayload) :
  requireVerified (Some payload) = None <-> acc_status payload = ACTIVE.
Proof.
  unfold requireVerified. destruct (acc_status payload); simpl; split;
    intros H; try reflexivity; discriminate.
Qed.

(** X10.  The access token of a login.  [requireAuth] accepts it, with the
    identifier and the status that the account had at the login, at every
    instant up to the configured life minus one second, and [requireVerified]
    then lets the request through exactly when that status was ACTIVE: the
    status is read from the token, not from the database.  From the end of
    the life on, [requireAuth] answers 401 with the detail of an invalid or
    expired token; without a cookie it answers 401 with the detail that
    authentication is required. *)
Theorem access_token_of_login (env : Env) (email_ password : string)
        (now now' : Time) (db db' : Db) (res : LoginResult) :
  loginUser env email_ password now db = (db', inr res) ->
  (now' <= now + (JWT_ACCESS_EXPIRY_SECONDS (config env) - 1) * 1000 ->
   exists payload,
     requireAuth (config env) (Some (accessToken (login_tokens res))) now'
     = inr payload
     /\ acc_sub payload = profile_id (login_user res)
     /\ acc_status payload = profile_status (login_user res)
     /\ (requireVerified (Some payload) = None
         <-> profile_status (login_user res) = ACTIVE))
  /\ (now + JWT_ACCESS_EXPIRY_SECONDS (config env) * 1000 <= now' ->
      requireAuth (config env) (Some (accessToken (login_tokens res))) now' =
      inl (mkProblem "https://api.taskmanagement.com/errors/token-expired"
                     "Unauthorized" 401 "Access token is invalid or expired"))
  /\ requireAuth (config env) None now' =
     inl (mkProblem "https://api.taskmanagement.com/errors/unauthorized"
                    "Unauthorized" 401 "Authentication required").
Proof.
  intros Hlogin. apply loginUser_inversion in Hlogin.
  destruct Hlogin as (user & _ & _ & Htok & Hprof).
  rewrite Htok, Hprof. unfold requireAuth, verifyAccessToken, signAccessToken.
  cbn [access_key access_payload acc_exp]. rewrite String.eqb_refl.
  split; [|split; [|reflexivity]].
  - intros H. apply clockTimestamp_within in H. apply Z.ltb_lt in H. rewrite H.
    eexists. split; [reflexivity|]. split; [reflexivity|]. split; [reflexivity|].
    apply requireVerified_active.
  - intros H. apply clockTimestamp_after in H. apply Z.ltb_ge in H. now rewrite H.
Qed.

Lemma access_token_of_login_witness :
  exists db' res payload,
    loginUser sampleEnv "ada@example.com" "correct horse" 1000 registeredDb
    = (db', inr res)
    /\ requireAuth sampleConfig (Some (accessToken (login_tokens res))) 900000
       = inr payload
    /\ acc_status payload = UNVERIFIED
    /\ requireVerified (Some payload) <> None.
Proof.
  destruct (loginUser sampleEnv "ada@example.com" "correct horse" 1000 registeredDb)
    as [db' [e|res]] eqn:E; [discriminate E|].
  destruct (proj1 (access_token_of_login sampleEnv "ada@example.com" "correct horse"
                     1000 900000 registeredDb db' res E))
    as (payload & Hauth & _ & Hst & Hver).
  - simpl. lia.
  - exists db', res, payload. split; [reflexivity|]. split; [exact Hauth|].
    assert (Hu : profile_status (login_user res) = UNVERIFIED).
    { assert (E' : snd (loginUser sampleEnv "ada@example.com" "correct horse" 1000
                                  registeredDb) = inr res) by (rewrite E; reflexivity).
      vm_compute in E'. injection E' as <-. reflexivity. }
    split; [congruence|].
    intros Hnone. apply Hver in Hnone. congruence.
Defined.

(** X11.  A refresh reads the account as it is now, and asks nothing of its
    status.  For a token that passes verification, whose row is stored, not
    revoked and not expired, and whose account is stored and not
    soft-deleted, [refreshTokens] resolves whatever the status of the
    account, be it SUSPENDED; the new access token carries the status that
    is stored at the time of the refresh, so that [requireVerified] lets its
    holder through exactly when the account is ACTIVE now. *)
Theorem refreshTokens_reads_the_account (env : Env) (raw : RawToken) (now : Time)
        (db : Db) (claims : RefreshTokenClaims) (stored : RefreshToken)
        (user : User) :
  0 < JWT_ACCESS_EXPIRY_SECONDS (config env) ->
  verifyRefreshToken (config env) raw now = Some claims ->
  find (presented (hashToken raw) (sub claims)) (refresh_tokens db) = Some stored ->
  revoked stored = false ->
  now <= rt_expiresAt stored ->
  find (fun u => Nat.eqb (user_id u) (sub claims)) (users db) = Some user ->
  user_deletedAt user = None ->
  exists db' tokens payload,
    refreshTokens env raw now db = (db', inr tokens)
    /\ requireAuth (config env) (Some (accessToken tokens)) now = inr payload
    /\ acc_sub payload = user_id user
    /\ acc_status payload = status user
    /\ (requireVerified (Some payload) = None <-> status user = ACTIVE).
Proof.
  intros Hlife Hv Hfind Hrev Hexp Huser Hdel.
  rewrite refreshTokens_cases, Hv, Hfind, Hrev.
  apply Z.ltb_ge in Hexp. rewrite Hexp, Huser, Hdel. cbn [isSome].
  match goal with
  | |- context [createTokenPair env ?u ?e ?s ?f now ?d] =>
      destruct (createTokenPair_resolves env u e s f now d) as (db' & raw' & E & _)
  end.
  rewrite E. eexists. eexists. eexists. split; [reflexivity|].
  unfold requireAuth, verifyAccessToken, signAccessToken.
  cbn [accessToken access_key access_payload acc_exp]. rewrite String.eqb_refl.
  assert (Hnow : (clockTimestamp now
                  <? clockTimestamp now + JWT_ACCESS_EXPIRY_SECONDS (config env))
                 = true)
    by (apply Z.ltb_lt; lia).
  rewrite Hnow. split; [reflexivity|]. split; [reflexivity|]. split; [reflexivity|].
  apply requireVerified_active.
Qed.

Lemma refreshTokens_reads_the_account_witness :
  exists db' tokens payload,
    refreshTokens sampleEnv firstToken 2000 suspendedDb = (db', inr tokens)
    /\ requireAuth sampleConfig (Some (accessToken tokens)) 2000 = inr payload
    /\ acc_status payload = SUSPENDED.
Proof.
  destruct (refreshTokens_reads_the_account sampleEnv firstToken 2000 suspendedDb
              (mkClaims 0%nat 3%nat 2%nat 1 604801)
              (mkRefreshToken 3%nat (hashToken firstToken) 0%nat 2%nat false
                              604801000 1000)
              (mkUser 0%nat "ada@example.com" (Some "argon2:correct horse"%string)
                      "Ada" SUSPENDED 0 None))
    as (db' & tokens & payload & E & Hauth & _ & Hst & _);
    try reflexivity.
  - simpl. lia.
  - exists db', tokens, payload. split; [exact E|]. split; [exact Hauth|exact Hst].
Defined.

(* ------------------------------------------------------------------ *)
(** ** The unique keys in the reachable states *)
(* ------------------------------------------------------------------ *)

Lemma NoDup_map_inj {A B} (f : A -> B) (rows : list A) (x y : A) :
  NoDup (map f rows) -> In x rows -> In y rows -> f x = f y -> x = y.
Proof.
  induction rows as [|a rows IH]; simpl; intros Hnd Hx Hy E; [contradiction|].
  inversion Hnd as [|? ? Hnotin Hnd']; subst.
  destruct Hx as [->|Hx], Hy as [->|Hy]; auto.
  - exfalso. apply Hnotin. rewrite E. now apply in_map.
  - exfalso. apply Hnotin. rewrite <- E. now apply in_map.
Qed.

(** X12.  In every reachable state the identifiers and the addresses of the
    accounts are unique: the services never store two accounts with one
    address (the index [users_email_key] is never violated), so that an
    address names at most one account. *)
Theorem accounts_stay_unique (env : Env) (db : Db) :
  reachable env db ->
  NoDup (map user_id (users db))
  /\ NoDup (map email (users db))
  /\ forall u v, In u (users db) -> In v (users db) -> email u = email v -> u = v.
Proof.
  intros H. apply reachable_storeInv in H. destruct H as ((U1 & U2 & _) & _).
  split; [exact U1|]. split; [exact U2|].
  intros u v. now apply NoDup_map_inj.
Qed.

Lemma registeredDb_reachable : reachable sampleEnv registeredDb.
Proof. unfold registeredDb. repeat constructor. Defined.

Lemma twoAccountsDb_reachable : reachable sampleEnv twoAccountsDb.
Proof. unfold twoAccountsDb. constructor. exact registeredDb_reachable. Defined.

Lemma accounts_stay_unique_witness :
  List.length (users twoAccountsDb) = 2%nat
  /\ NoDup (map email (users twoAccountsDb)).
Proof.
  split; [reflexivity|].
  exact (proj1 (proj2 (accounts_stay_unique sampleEnv twoAccountsDb
                          twoAccountsDb_reachable))).
Defined.

(** The two parts of [resendVerification], one after the other, are
    [resendVerification]. *)
Lemma resendVerification_split (email_ : string) (rnd : nat) (now : Time) (db : Db) :
  resendVerification email_ rnd now db =
  await (resendVerification_clear email_) (resendVerification_issue rnd now) db.
Proof.
  unfold resendVerification, resendVerification_clear, resendVerification_issue.
  unfold await, user_findUnique_email, query, resolve, write.
  destruct (find _ (users db)) as [user|]; [|reflexivity].
  destruct (negb _); reflexivity.
Qed.

Lemma filter_deleteMany_same {A} (p : A -> bool) (rows : list A) :
  filter p (deleteMany p rows) = [].
Proof.
  unfold deleteMany. induction rows as [|a rows IH]; simpl; [reflexivity|].
  destruct (p a) eqn:E; simpl; [exact IH|]. now rewrite E.
Qed.

Lemma deleteMany_idem {A} (p : A -> bool) (rows : list A) :
  deleteMany p (deleteMany p rows) = deleteMany p rows.
Proof.
  unfold deleteMany. induction rows as [|a rows IH]; simpl; [reflexivity|].
  destruct (p a) eqn:E; simpl; [exact IH|]. rewrite E. simpl. now rewrite IH.
Qed.

Lemma find_app_skip {A} (p : A -> bool) (rows more : list A) :
  (forall y, In y rows -> p y = false) -> find p (rows ++ more) = find p more.
Proof.
  induction rows as [|a rows IH]; simpl; intros H; [reflexivity|].
  rewrite (H a (or_introl eq_refl)). apply IH. auto.
Qed.

(** X13.  The pending tokens of an account.  When requests are served one
    after the other, an account has at most one verification token and at
    most one password-reset token in every state that is reached: a new
    token is stored only at the registration, when the account has none, or
    after the earlier tokens of the account have been deleted.  The
    deletion and the creation are two calls, though, and no index forbids
    two tokens of one account: when two [resendVerification] for the
    address of an UNVERIFIED account are in flight together, so that both
    have deleted before either creates, both resolve, each with its own
    token, and the account is left with the two tokens, each of which
    [verifyEmail] accepts until it expires. *)
Theorem pending_tokens_of_an_account (env : Env) :
  (forall db,
      reachable env db ->
      NoDup (map ot_userId (verification_tokens db))
      /\ NoDup (map ot_userId (password_reset_tokens db)))
  /\
  (forall email_ rnd now db,
      resendVerification email_ rnd now db =
      await (resendVerification_clear email_) (resendVerification_issue rnd now) db)
  /\
  (forall email_ rndA rndB nowA nowB db user,
      find (fun u => String.eqb (email u) email_) (users db) = Some user ->
      status user = UNVERIFIED ->
      rndA <> rndB ->
      (forall t, In t (verification_tokens db) -> ot_userId t <> user_id user ->
                 ot_tokenHash t <> hashToken (HexString rndA)
                 /\ ot_tokenHash t <> hashToken (HexString rndB)) ->
      exists db',
        let tokenA := mkOneTimeToken (nextUuid db) (hashToken (HexString rndA))
                                     (user_id user) (nowA + 24 * 60 * 60 * 1000) in
        let tokenB := mkOneTimeToken (S (nextUuid db)) (hashToken (HexString rndB))
                                     (user_id user) (nowB + 24 * 60 * 60 * 1000) in
        overlap (resendVerification_clear email_) (resendVerification_issue rndA nowA)
                (resendVerification_clear email_) (resendVerification_issue rndB nowB)
                db
        = (db', (inr (Some (HexString rndA)), inr (Some (HexString rndB))))
        /\ filter (fun t => Nat.eqb (ot_userId t) (user_id user))
                  (verification_tokens db')
           = [tokenA; tokenB]
        /\ (forall t, In t (verification_tokens db) -> ot_userId t <> user_id user ->
                      In t (verification_tokens db'))
        /\ (forall now', now' <= nowA + 24 * 60 * 60 * 1000 ->
                         snd (verifyEmail (HexString rndA) now' db') = inr tt)
        /\ (forall now', now' <= nowB + 24 * 60 * 60 * 1000 ->
                         snd (verifyEmail (HexString rndB) now' db') = inr tt)).
Proof.
  split.
  { intros db H. apply reachable_storeInv in H.
    destruct H as (_ & (_ & V2 & _) & (_ & P2 & _) & _). split; assumption. }
  split; [exact resendVerification_split|].
  intros email_ rndA rndB nowA nowB db user Hfind Hst Hne Hfresh.
  set (p := fun t => Nat.eqb (ot_userId t) (user_id user)).
  set (kept := deleteMany p (verification_tokens db)).
  assert (Hkept : forall t, In t kept ->
                            In t (verification_tokens db) /\ ot_userId t <> user_id user).
  { intros t Ht. split.
    - unfold kept, deleteMany in Ht. now apply filter_In in Ht.
    - apply deleteMany_gone in Ht. unfold p in Ht. now apply Nat.eqb_neq. }
  assert (KA : forall t, In t kept ->
                         TokenHash_eqb (ot_tokenHash t) (hashToken (HexString rndA))
                         = false).
  { intros t Ht. apply TokenHash_eqb_neq. destruct (Hkept t Ht) as [H1 H2].
    now apply (Hfresh t H1 H2). }
  assert (KB : forall t, In t kept ->
                         TokenHash_eqb (ot_tokenHash t) (hashToken (HexString rndB))
                         = false).
  { intros t Ht. apply TokenHash_eqb_neq. destruct (Hkept t Ht) as [H1 H2].
    now apply (Hfresh t H1 H2). }
  assert (HA : digestStored kept rndA = false).
  { apply digestStored_fresh. intros t Ht. destruct (Hkept t Ht) as [H1 H2].
    now apply (Hfresh t H1 H2). }
  assert (HB : digestStored
                 (kept ++ [mkOneTimeToken (nextUuid db) (hashToken (HexString rndA))
                                          (user_id user) (nowA + 24 * 60 * 60 * 1000)])
                 rndB = false).
  { apply digestStored_fresh. intros t Ht. apply in_app_or in Ht.
    destruct Ht as [Ht|[<-|[]]].
    - destruct (Hkept t Ht) as [H1 H2]. now apply (Hfresh t H1 H2).
    - simpl. unfold hashToken. intros [= E]. now apply Hne. }
  assert (Huser : existsb (fun u => Nat.eqb (user_id u) (user_id user)) (users db)
                  = true).
  { apply existsb_exists. exists user.
    split; [now apply find_some in Hfind|apply Nat.eqb_refl]. }
  destruct db as [us rts vts prts gms ts q n calls].
  cbn [users verification_tokens nextUuid] in *.
  unfold overlap, resendVerification_clear, resendVerification_issue,
    await, user_findUnique_email, query, write, resolve,
    oneTimeToken_create, generateOpaqueToken.
  cbn [users set_verification_tokens verification_tokens]. rewrite Hfind, Hst.
  cbn [UserStatus_eqb negb users verification_tokens set_verification_tokens].
  rewrite Hfind, Hst.
  cbn [UserStatus_eqb negb users verification_tokens set_verification_tokens].
  fold p. rewrite ?deleteMany_idem. fold kept.
  unfold digestStored in HA, HB. rewrite HA.
  cbn [set_nextUuid set_verification_tokens verification_tokens nextUuid users
       refresh_tokens password_reset_tokens group_members tasks emailQueue
       verifyPasswordCalls].
  rewrite ?deleteMany_idem. fold kept. rewrite HB.
  exists (mkDb us rts
               ((kept ++ [mkOneTimeToken n (hashToken (HexString rndA))
                                         (user_id user) (nowA + 24 * 60 * 60 * 1000)])
                ++ [mkOneTimeToken (S n) (hashToken (HexString rndB))
                                   (user_id user) (nowB + 24 * 60 * 60 * 1000)])
               prts gms ts q (S (S n)) calls).
  cbv zeta. split.
  { unfold set_nextUuid, set_verification_tokens.
    cbn [verification_tokens nextUuid users refresh_tokens password_reset_tokens
         group_members tasks emailQueue verifyPasswordCalls].
    rewrite deleteMany_idem. reflexivity. }
  cbn [verification_tokens].
  split; [|split; [|split]].
  - rewrite !filter_app. unfold kept. rewrite filter_deleteMany_same.
    simpl. unfold p. simpl. now rewrite !Nat.eqb_refl.
  - intros t Hin Hu. apply in_or_app. left. apply in_or_app. left.
    unfold kept, deleteMany. apply filter_In. split; [exact Hin|].
    apply negb_true_iff. unfold p. now apply Nat.eqb_neq.
  - intros now' Hnow.
    erewrite verifyEmail_ok; [reflexivity| | |].
    + cbn [verification_tokens]. rewrite <- app_assoc.
      rewrite (find_app_skip _ _ _ KA). simpl.
      unfold TokenHash_eqb at 1.
      destruct (TokenHash_eq_dec _ _) as [_|N]; [reflexivity|now destruct N].
    + apply Z.ltb_ge. simpl. lia.
    + exact Huser.
  - intros now' Hnow.
    erewrite verifyEmail_ok; [reflexivity| | |].
    + cbn [verification_tokens].
      rewrite find_app_last.
      * simpl. unfold TokenHash_eqb.
        destruct (TokenHash_eq_dec _ _) as [_|N]; [reflexivity|now destruct N].
      * intros y Hy. apply in_app_or in Hy. destruct Hy as [Hy|[<-|[]]].
        -- now apply KB.
        -- apply TokenHash_eqb_neq. simpl. unfold hashToken.
           intros [= E]. now apply Hne.
    + apply Z.ltb_ge. simpl. lia.
    + exact Huser.
Qed.

Lemma pending_tokens_of_an_account_witness :
  (List.length (verification_tokens twoAccountsDb) = 2%nat
   /\ NoDup (map ot_userId (verification_tokens twoAccountsDb)))
  /\ exists db',
       overlap (resendVerification_clear "eve@example.com")
               (resendVerification_issue 13 600)
               (resendVerification_clear "eve@example.com")
               (resendVerification_issue 14 601)
               pendingDb
       = (db', (inr (Some (HexString 13)), inr (Some (HexString 14))))
       /\ filter (fun t => Nat.eqb (ot_userId t) 5%nat) (verification_tokens db')
          = [mkOneTimeToken 42%nat (hashToken (HexString 13)) 5%nat 86400600;
             mkOneTimeToken 43%nat (hashToken (HexString 14)) 5%nat 86400601].
Proof.
  split.
  - split; [reflexivity|].
    exact (proj1 (proj1 (pending_tokens_of_an_account sampleEnv) twoAccountsDb
                        twoAccountsDb_reachable)).
  - destruct (proj2 (proj2 (pending_tokens_of_an_account sampleEnv))
                    "eve@example.com" 13%nat 14%nat 600 601 pendingDb
                    (mkUser 5%nat "eve@example.com" (Some "argon2:hunter2"%string)
                            "Eve" UNVERIFIED 0 None) eq_refl eq_refl)
      as (db' & E & F & _).
    + discriminate.
    + simpl. intros t [<-|[<-|[]]]; simpl; intros Hu;
        [split; discriminate|now destruct Hu].
    + exists db'. split; [exact E|exact F].
Defined.

(** X14.  In every reachable state a user has at most one membership row in
    a group: the index on (userId, groupId) is never violated, and the row
    that [findUnique] returns is the only one. *)
Theorem memberships_stay_unique (env : Env) (db : Db) :
  reachable env db ->
  NoDup (map membershipKey (group_members db))
  /\ forall m m', In m (group_members db) -> In m' (group_members db) ->
                  gm_userId m = gm_userId m' -> gm_groupId m = gm_groupId m' ->
                  m = m'.
Proof.
  intros H. apply reachable_storeInv in H. destruct H as (_ & _ & _ & (G1 & _)).
  split; [exact G1|].
  intros m m' Hm Hm' Hu Hg. apply (NoDup_map_inj membershipKey _ _ _ G1 Hm Hm').
  unfold membershipKey. now rewrite Hu, Hg.
Qed.

Lemma sharedGroupDb_reachable : reachable sampleEnv sharedGroupDb.
Proof.
  unfold sharedGroupDb. constructor. constructor. exact twoAccountsDb_reachable.
Defined.

Lemma memberships_stay_unique_witness :
  group_members sharedGroupDb =
  [mkGroupMember 0%nat 4%nat ADMIN; mkGroupMember 2%nat 4%nat MEMBER]
  /\ NoDup (map membershipKey (group_members sharedGroupDb))
  /\ group_members (serve sampleEnv (AddMember 4%nat 2%nat ADMIN 0%nat) 800
                          sharedGroupDb)
     = group_members sharedGroupDb.
Proof.
  split; [reflexivity|]. split; [|reflexivity].
  exact (proj1 (memberships_stay_unique sampleEnv sharedGroupDb
                  sharedGroupDb_reachable)).
Defined.

(* ------------------------------------------------------------------ *)
(** ** Groups: creation, new members, removed members *)
(* ------------------------------------------------------------------ *)

Lemma filter_absent {A} (p : A -> bool) (rows : list A) :
  (forall y, In y rows -> p y = false) -> filter p rows = [].
Proof.
  induction rows as [|a rows IH]; simpl; intros H; [reflexivity|].
  rewrite (H a (or_introl eq_refl)). apply IH. auto.
Qed.

Lemma existsb_absent {A} (p : A -> bool) (rows : list A) :
  (forall y, In y rows -> p y = false) -> existsb p rows = false.
Proof.
  induction rows as [|a rows IH]; simpl; intros H; [reflexivity|].
  rewrite (H a (or_introl eq_refl)). apply IH. auto.
Qed.

(** X15.  [createGroup] for an identifier that no account has rejects with
    the error of the foreign key and changes nothing.  For the identifier of
    a stored account, be it soft-deleted, it resolves with a fresh group
    identifier: no membership referred to it before.  Afterwards the creator
    is an ADMIN of the new group and its only member, the earlier
    memberships are all there, the accounts are as before, and the creator
    cannot leave: [removeMember] aimed at them rejects with LAST_ADMIN. *)
Theorem createGroup_makes_the_creator_admin (userId : Uuid) (db : Db) :
  membershipInv db ->
  ((forall u, In u (users db) -> user_id u <> userId) ->
   createGroup userId db = (db, inl foreignKeyFailed))
  /\
  (forall creator,
      In creator (users db) -> user_id creator = userId ->
      exists db',
        let g := nextUuid db in
        createGroup userId db = (db', inr g)
        /\ (forall m, In m (group_members db) -> gm_groupId m <> g)
        /\ isAdmin db' g userId = true
        /\ adminCount g (group_members db') = 1%nat
        /\ (forall u, isMember db' g u = true -> u = userId)
        /\ (forall m, In m (group_members db) -> In m (group_members db'))
        /\ users db' = users db
        /\ removeMember g userId userId db' =
           (db', inl (groupError "LAST_ADMIN"
                                 "Cannot remove the last admin from the group" 400))).
Proof.
  intros (G1 & G2). rewrite Forall_forall in G2. split.
  { intros Hnone. rewrite createGroup_cases, existsb_absent; [reflexivity|].
    intros y Hy. apply Nat.eqb_neq. now apply Hnone. }
  intros creator Hin Hid.
  assert (Hex : existsb (fun u => Nat.eqb (user_id u) userId) (users db) = true).
  { apply existsb_exists. exists creator. split; [exact Hin|now apply Nat.eqb_eq]. }
  assert (Hfresh : forall m, In m (group_members db) -> gm_groupId m <> nextUuid db)
    by (intros m Hm; specialize (G2 m Hm); lia).
  assert (Hnone : forall u m, In m (group_members db) ->
                              sameMembership u (nextUuid db) m = false).
  { intros u m Hm. unfold sameMembership. apply andb_false_iff. right.
    apply Nat.eqb_neq. now apply Hfresh. }
  assert (Hadm : isAdmin
                   (set_nextUuid S
                      (set_group_members
                         (fun rows => rows ++ [mkGroupMember userId (nextUuid db) ADMIN])
                         db))
                   (nextUuid db) userId = true).
  { unfold isAdmin. simpl. rewrite (find_app_last _ _ _ (Hnone userId)).
    unfold sameMembership. simpl. now rewrite !Nat.eqb_refl. }
  assert (Hcount : adminCount (nextUuid db)
                     (group_members db ++ [mkGroupMember userId (nextUuid db) ADMIN])
                   = 1%nat).
  { unfold adminCount. rewrite filter_app, filter_absent.
    - simpl. unfold isAdminOf. simpl. now rewrite Nat.eqb_refl.
    - intros m Hm. unfold isAdminOf. apply andb_false_iff. left.
      apply Nat.eqb_neq. now apply Hfresh. }
  rewrite createGroup_cases, Hex.
  eexists. cbv zeta. split; [reflexivity|].
  split; [exact Hfresh|]. split; [exact Hadm|]. split; [exact Hcount|].
  split; [|split; [|split; [reflexivity|]]].
  - intros u Hu. unfold isMember in Hu. simpl in Hu.
    rewrite existsb_app, (existsb_absent _ _ (Hnone u)) in Hu. simpl in Hu.
    unfold sameMembership in Hu. simpl in Hu.
    rewrite orb_false_r in Hu. apply andb_prop in Hu. destruct Hu as [Hu _].
    apply Nat.eqb_eq in Hu. now symmetry.
  - intros m Hm. simpl. apply in_or_app. now left.
  - now apply removeMember_last_admin.
Qed.

Lemma teamDb_membershipInv : membershipInv teamDb.
Proof.
  split; simpl; repeat constructor; simpl; try lia; intuition discriminate.
Defined.

Lemma createGroup_makes_the_creator_admin_witness :
  createGroup 9%nat teamDb = (teamDb, inl foreignKeyFailed)
  /\ exists db',
       createGroup 5%nat teamDb = (db', inr 12%nat)
       /\ isAdmin db' 12%nat 5%nat = true
       /\ removeMember 12%nat 5%nat 5%nat db' =
          (db', inl (groupError "LAST_ADMIN"
                                "Cannot remove the last admin from the group" 400)).
Proof.
  split.
  - apply (proj1 (createGroup_makes_the_creator_admin 9%nat teamDb
                    teamDb_membershipInv)).
    simpl. intros u [<-|[<-|[<-|[<-|[<-|[]]]]]]; discriminate.
  - destruct (proj2 (createGroup_makes_the_creator_admin 5%nat teamDb
                       teamDb_membershipInv)
                    (mkUser 5%nat "eve@example.com" (Some "argon2:hunter2"%string)
                            "Eve" UNVERIFIED 0 None))
      as (db' & E & _ & Hadm & _ & _ & _ & _ & Hlast).
    + simpl. tauto.
    + reflexivity.
    + exists db'. split; [exact E|]. split; [exact Hadm|exact Hlast].
Defined.

(** X16.  The checks of [addMember], in their order.  A caller who is not
    an ADMIN of the group is rejected with NOT_ADMIN, whoever the target is.
    For an ADMIN: a target that is not stored, or is soft-deleted, gives
    USER_NOT_FOUND; a target that is a member already gives ALREADY_MEMBER;
    in the three cases nothing changes.  Otherwise the call resolves, the
    membership of the target is appended with the role asked for, the target
    is a member from then on (and an ADMIN when that was the role), and the
    earlier memberships are unchanged. *)
Theorem addMember_outcomes (g u : Uuid) (role_ : GroupRole) (a : Uuid) (db : Db) :
  (isAdmin db g a = false ->
   addMember g u role_ a db =
   (db, inl (groupError "NOT_ADMIN" "Admin access required for this group" 403)))
  /\
  (isAdmin db g a = true ->
   (forall x, find (fun x => Nat.eqb (user_id x) u) (users db) = Some x ->
              user_deletedAt x <> None) ->
   addMember g u role_ a db =
   (db, inl (groupError "USER_NOT_FOUND" "Target user not found" 404)))
  /\
  (forall x,
      isAdmin db g a = true ->
      find (fun x => Nat.eqb (user_id x) u) (users db) = Some x ->
      user_deletedAt x = None ->
      (isMember db g u = true ->
       addMember g u role_ a db =
       (db, inl (groupError "ALREADY_MEMBER"
                            "User is already a member of this group" 409)))
      /\
      (isMember db g u = false ->
       exists db',
         addMember g u role_ a db = (db', inr tt)
         /\ group_members db' = group_members db ++ [mkGroupMember u g role_]
         /\ isMember db' g u = true
         /\ isAdmin db' g u = GroupRole_eqb role_ ADMIN
         /\ users db' = users db /\ tasks db' = tasks db)).
Proof.
  split; [|split].
  - intros Ha. unfold addMember, await at 1.
    now rewrite (assertGroupAdmin_fails _ _ _ Ha).
  - intros Ha Hx. unfold addMember, await at 1.
    rewrite (assertGroupAdmin_ok _ _ _ Ha). unfold await at 1, query.
    destruct (find _ (users db)) as [x|]; [|reflexivity].
    destruct (user_deletedAt x) eqn:Hd; [reflexivity|].
    now destruct (Hx x eq_refl).
  - intros x Ha Hx Hd. split; intros Hm.
    + apply isMember_find in Hm. destruct Hm as (m & Hm).
      unfold addMember, await at 1.
      rewrite (assertGroupAdmin_ok _ _ _ Ha). unfold await at 1, query.
      rewrite Hx, Hd. simpl. unfold await, groupMember_findUnique, query.
      now rewrite Hm.
    + pose proof (isMember_false_find _ _ _ Hm) as Hnone.
      eexists. split.
      { unfold addMember, await at 1.
        rewrite (assertGroupAdmin_ok _ _ _ Ha). unfold await at 1, query.
        rewrite Hx, Hd. simpl. unfold await, groupMember_findUnique, query.
        rewrite Hnone. reflexivity. }
      simpl. split; [reflexivity|].
      assert (Habs : forall y, In y (group_members db) -> sameMembership u g y = false)
        by (intros y Hy; exact (find_none _ _ Hnone y Hy)).
      split; [|split; [|split; reflexivity]].
      * unfold isMember. simpl. apply existsb_app_last.
        unfold sameMembership. simpl. now rewrite !Nat.eqb_refl.
      * unfold isAdmin. simpl. rewrite (find_app_last _ _ _ Habs).
        unfold sameMembership. simpl. now rewrite !Nat.eqb_refl.
Qed.

Lemma addMember_outcomes_witness :
  addMember 7%nat 5%nat MEMBER 2%nat teamDb =
  (teamDb, inl (groupError "NOT_ADMIN" "Admin access required for this group" 403))
  /\ addMember 7%nat 3%nat MEMBER 1%nat teamDb =
     (teamDb, inl (groupError "USER_NOT_FOUND" "Target user not found" 404))
  /\ exists db',
       addMember 7%nat 5%nat MEMBER 1%nat teamDb = (db', inr tt)
       /\ isMember db' 7%nat 5%nat = true.
Proof.
  split; [|split].
  - apply (proj1 (addMember_outcomes 7%nat 5%nat MEMBER 2%nat teamDb)).
    reflexivity.
  - apply (proj1 (proj2 (addMember_outcomes 7%nat 3%nat MEMBER 1%nat teamDb))).
    + reflexivity.
    + simpl. intros x [= <-]. discriminate.
  - destruct (proj2 (proj2 (proj2 (addMember_outcomes 7%nat 5%nat MEMBER 1%nat teamDb))
                             (mkUser 5%nat "eve@example.com"
                                     (Some "argon2:hunter2"%string) "Eve"
                                     UNVERIFIED 0 None)
                             eq_refl eq_refl eq_refl)
                    eq_refl)
      as (db' & E & _ & Hm & _).
    exists db'. split; [exact E|exact Hm].
Defined.

Lemma removeMember_resolves (g target acting : Uuid) (db db' : Db) :
  removeMember g target acting db = (db', inr tt) ->
  isAdmin db g acting = true
  /\ isMember db g target = true
  /\ db' = set_group_members (deleteUnique (sameMembership target g)) db.
Proof.
  unfold removeMember, await at 1.
  destruct (isAdmin db g acting) eqn:Ha;
    [rewrite (assertGroupAdmin_ok _ _ _ Ha)
    |rewrite (assertGroupAdmin_fails _ _ _ Ha); discriminate].
  unfold await at 1, groupMember_findUnique, query.
  destruct (find (sameMembership target g) (group_members db)) as [m|] eqn:E;
    [|discriminate].
  assert (Hm : isMember db g target = true) by exact (find_existsb _ _ _ E).
  unfold groupMember_delete. unfold isMember in Hm.
  destruct (GroupRole_eqb (role m) ADMIN).
  - unfold await, query.
    destruct (adminCount g (group_members db) <=? 1)%nat; [discriminate|].
    unfold resolve. rewrite Hm. intros [= <-]. auto.
  - unfold await, resolve. rewrite Hm. intros [= <-]. auto.
Qed.

Lemma deleteUnique_gone {A B} (key : A -> B) (p : A -> bool) (k : B) (rows : list A) :
  NoDup (map key rows) -> (forall y, p y = true -> key y = k) ->
  forall y, In y (deleteUnique p rows) -> p y = false.
Proof.
  intros Hnd Hk. induction rows as [|a rows IH]; simpl; [contradiction|].
  inversion Hnd as [|? ? Hnotin Hnd']; subst.
  destruct (p a) eqn:Hpa.
  - intros y Hy. destruct (p y) eqn:Hpy; [|reflexivity].
    exfalso. apply Hnotin. rewrite (Hk a Hpa), <- (Hk y Hpy). now apply in_map.
  - intros y [<-|Hy]; [exact Hpa|now apply IH].
Qed.

Lemma getTaskById_cases (taskId userId : Uuid) (db : Db) :
  getTaskById taskId userId db =
  match find (fun t => Nat.eqb (task_id t) taskId && negb (isSome (deletedAt t)))
             (tasks db) with
  | None => (db, inl (taskError "TASK_NOT_FOUND" "Task not found" 404))
  | Some task =>
      if isMember db (groupId task) userId then (db, inr task)
      else (db, inl (groupError "NOT_A_MEMBER"
                                "You are not a member of this group" 403))
  end.
Proof.
  unfold getTaskById, await at 1, query. cbv beta.
  destruct (find _ (tasks db)) as [task|]; [|reflexivity].
  unfold await. destruct (isMember db (groupId task) userId) eqn:Hm.
  - now rewrite (assertGroupMember_ok _ _ _ Hm).
  - now rewrite (assertGroupMember_fails _ _ _ Hm).
Qed.

(** X17.  A member who has been removed has lost the group.  When
    [removeMember] resolves, on memberships whose keys are unique, the
    target is no member of the group any more: [assertGroupMember] rejects
    them with NOT_A_MEMBER, and so does [getTaskById] for every task of the
    group, the tasks they created or were assigned included; the tasks
    themselves are untouched, and every other membership is kept. *)
Theorem removeMember_revokes_access (g target acting : Uuid) (db db' : Db) :
  NoDup (map membershipKey (group_members db)) ->
  removeMember g target acting db = (db', inr tt) ->
  isMember db g target = true
  /\ isMember db' g target = false
  /\ assertGroupMember g target db' =
     (db', inl (groupError "NOT_A_MEMBER" "You are not a member of this group" 403))
  /\ (forall task,
         visibleTask db' task -> groupId task = g ->
         getTaskById (task_id task) target db' =
         (db', inl (groupError "NOT_A_MEMBER"
                               "You are not a member of this group" 403)))
  /\ tasks db' = tasks db
  /\ (forall m, In m (group_members db) ->
                sameMembership target g m = false -> In m (group_members db')).
Proof.
  intros Hnd Hrun. apply removeMember_resolves in Hrun.
  destruct Hrun as (_ & Hwas & ->). split; [exact Hwas|].
  assert (Hgone : isMember
                    (set_group_members (deleteUnique (sameMembership target g)) db)
                    g target = false).
  { unfold isMember. simpl. apply existsb_absent.
    apply (deleteUnique_gone membershipKey _ (target, g) _ Hnd).
    intros y Hy. unfold sameMembership in Hy. apply andb_prop in Hy.
    destruct Hy as [H1 H2]. apply Nat.eqb_eq in H1, H2.
    unfold membershipKey. now rewrite H1, H2. }
  split; [exact Hgone|]. split; [now apply assertGroupMember_fails|].
  split; [|split; [reflexivity|]].
  - intros task Hv Hg. apply getTaskById_not_member; [exact Hv|now rewrite Hg].
  - intros m Hin Hm. simpl. now apply In_deleteUnique_other.
Qed.

Lemma removeMember_revokes_access_witness :
  exists db',
    removeMember 7%nat 2%nat 1%nat boardDb = (db', inr tt)
    /\ getTaskById 10%nat 2%nat boardDb =
       (boardDb, inr (mkTask 10%nat "write report" None PENDING_ACCEPTANCE 7%nat
                             1%nat (Some 2%nat) None 100 100 None))
    /\ getTaskById 10%nat 2%nat db' =
       (db', inl (groupError "NOT_A_MEMBER"
                             "You are not a member of this group" 403)).
Proof.
  destruct (removeMember 7%nat 2%nat 1%nat boardDb) as [db' [e|[]]] eqn:E;
    [discriminate E|].
  destruct (removeMember_revokes_access 7%nat 2%nat 1%nat boardDb db')
    as (_ & _ & _ & H & Ht & _).
  - repeat constructor; simpl; intuition discriminate.
  - exact E.
  - exists db'. split; [reflexivity|]. split; [reflexivity|].
    apply (H (mkTask 10%nat "write report" None PENDING_ACCEPTANCE 7%nat 1%nat
                     (Some 2%nat) None 100 100 None)); [|reflexivity].
    unfold visibleTask. rewrite Ht.
    repeat split; simpl; auto. repeat constructor; simpl; intuition discriminate.
Defined.

(* ------------------------------------------------------------------ *)
(** ** Tasks: reading, editing, deleting *)
(* ------------------------------------------------------------------ *)

Lemma getTaskById_missing (taskId userId : Uuid) (db : Db) :
  (forall t, In t (tasks db) -> task_id t = taskId -> deletedAt t <> None) ->
  getTaskById taskId userId db = (db, inl taskNotFound).
Proof.
  intros H. rewrite getTaskById_cases, find_absent; [reflexivity|].
  intros y Hy. destruct (Nat.eqb_spec (task_id y) taskId) as [E|E]; [|reflexivity].
  specialize (H y Hy E). destruct (deletedAt y); [reflexivity|now destruct H].
Qed.

(** X18.  [getTaskById] never changes the database.  An identifier that no
    task has, or that only a soft-deleted task has, gives TASK_NOT_FOUND to
    every caller.  For a stored task that is not soft-deleted, a member of
    its group gets the task and everyone else gets NOT_A_MEMBER: the check
    of the membership comes second, so that the two errors tell a caller
    from outside the group whether the task exists. *)
Theorem getTaskById_outcomes (taskId userId : Uuid) (db : Db) :
  NoDup (map task_id (tasks db)) ->
  fst (getTaskById taskId userId db) = db
  /\ ((forall t, In t (tasks db) -> task_id t = taskId -> deletedAt t <> None) ->
      getTaskById taskId userId db = (db, inl taskNotFound))
  /\ (forall task,
         In task (tasks db) -> task_id task = taskId -> deletedAt task = None ->
         getTaskById taskId userId db =
         (db, if isMember db (groupId task) userId then inr task
              else inl (groupError "NOT_A_MEMBER"
                                   "You are not a member of this group" 403))).
Proof.
  intros Hnd. split; [|split].
  - rewrite getTaskById_cases. destruct (find _ (tasks db)) as [task|]; [|reflexivity].
    destruct (isMember db (groupId task) userId); reflexivity.
  - apply getTaskById_missing.
  - intros task Hin <- Hdel.
    destruct (isMember db (groupId task) userId) eqn:Hm.
    + apply getTaskById_ok; [|exact Hm]. repeat split; assumption.
    + apply getTaskById_not_member; [|exact Hm]. repeat split; assumption.
Qed.

Lemma boardDb_task_ids : NoDup (map task_id (tasks boardDb)).
Proof. repeat constructor; simpl; intuition discriminate. Defined.

Lemma getTaskById_outcomes_witness :
  getTaskById 10%nat 3%nat boardDb =
  (boardDb, inl (groupError "NOT_A_MEMBER" "You are not a member of this group" 403))
  /\ getTaskById 12%nat 3%nat boardDb = (boardDb, inl taskNotFound).
Proof.
  split.
  - apply (proj2 (proj2 (getTaskById_outcomes 10%nat 3%nat boardDb boardDb_task_ids))
                 (mkTask 10%nat "write report" None PENDING_ACCEPTANCE 7%nat 1%nat
                         (Some 2%nat) None 100 100 None)).
    + simpl. auto.
    + reflexivity.
    + reflexivity.
  - apply (proj1 (proj2 (getTaskById_outcomes 12%nat 3%nat boardDb boardDb_task_ids))).
    simpl. intros t [<-|[<-|[]]]; discriminate.
Defined.

Lemma In_updateMany_other {A} (p : A -> bool) (data : A -> A) (rows : list A)
      (y : A) :
  In y rows -> p y = false -> In y (updateMany p data rows).
Proof.
  intros Hin Hp. unfold updateMany. apply in_map_iff. exists y. now rewrite Hp.
Qed.

(** After an update of the row of [task] that marks it deleted, no row with
    its identifier is visible. *)
Lemma deleted_after_update (db : Db) (task : Task) (data : Task -> Task) :
  NoDup (map task_id (tasks db)) -> In task (tasks db) ->
  (forall t, task_id (data t) = task_id t) ->
  deletedAt (data task) <> None ->
  forall t, In t (updateMany (fun t => Nat.eqb (task_id t) (task_id task)) data
                             (tasks db)) ->
            task_id t = task_id task -> deletedAt t <> None.
Proof.
  intros Hnd Hin Hid Hdel t Ht E.
  apply In_updateMany_inv in Ht. destruct Ht as (t0 & Hin0 & ->).
  destruct (Nat.eqb_spec (task_id t0) (task_id task)) as [E0|E0].
  - now rewrite (NoDup_key_inj task_id _ _ _ Hnd Hin0 Hin E0).
  - contradiction.
Qed.

(** X19.  [deleteTask] on a stored task that is not soft-deleted, called by
    a member of its group.  A member who did not create the task is
    rejected with FORBIDDEN and nothing changes.  For the creator the call
    resolves: the row is kept and stamped with the date of the deletion,
    the other tasks are unchanged, and from then on the task is not found:
    [getTaskById], [updateTask], [updateTaskStatus], [acceptTask],
    [deleteTask] and, when assignments are enabled, [assignTask] reject
    with TASK_NOT_FOUND for every caller. *)
Theorem deleteTask_hides_the_task (env : Env) (task : Task) (userId : Uuid)
        (now : Time) (db : Db) :
  visibleTask db task ->
  isMember db (groupId task) userId = true ->
  (createdById task <> userId ->
   deleteTask (task_id task) userId now db =
   (db, inl (taskError "FORBIDDEN" "Only the task creator can delete this task" 403)))
  /\
  (createdById task = userId ->
   exists db',
     deleteTask (task_id task) userId now db = (db', inr tt)
     /\ In (task_setDeleted now task) (tasks db')
     /\ (forall t, In t (tasks db) -> task_id t <> task_id task -> In t (tasks db'))
     /\ (forall u, getTaskById (task_id task) u db' = (db', inl taskNotFound))
     /\ (forall u title_ description_ now',
            updateTask (task_id task) title_ description_ u now' db'
            = (db', inl taskNotFound))
     /\ (forall u s now',
            updateTaskStatus (task_id task) s u now' db' = (db', inl taskNotFound))
     /\ (forall u now', acceptTask (task_id task) u now' db' = (db', inl taskNotFound))
     /\ (forall u now', deleteTask (task_id task) u now' db' = (db', inl taskNotFound))
     /\ (forall u assignee now',
            isFeatureEnabled env ENABLE_ASSIGNMENTS = true ->
            assignTask env (task_id task) assignee u now' db'
            = (db', inl taskNotFound))).
Proof.
  intros Hv Hm. pose proof Hv as (Hnd & Hin & Hdel). split.
  - intros Hc. unfold deleteTask, await.
    rewrite (getTaskById_ok _ _ _ Hv Hm).
    apply Nat.eqb_neq in Hc. now rewrite Hc.
  - intros Hc. eexists. split.
    { unfold deleteTask, await at 1.
      rewrite (getTaskById_ok _ _ _ Hv Hm).
      apply Nat.eqb_eq in Hc. rewrite Hc. simpl.
      unfold await. rewrite (task_update_ok _ _ _ Hv). reflexivity. }
    cbn [tasks set_tasks].
    split; [apply In_updateMany; [exact Hin|apply Nat.eqb_refl]|].
    split.
    { intros t Ht Hne. apply In_updateMany_other; [exact Ht|].
      now apply Nat.eqb_neq. }
    assert (Hgone : forall u,
               getTaskById (task_id task) u
                 (set_tasks (updateMany (fun t => Nat.eqb (task_id t) (task_id task))
                                        (task_setDeleted now)) db)
               = (set_tasks (updateMany (fun t => Nat.eqb (task_id t) (task_id task))
                                        (task_setDeleted now)) db,
                  inl taskNotFound)).
    { intros u. apply getTaskById_missing. cbn [tasks set_tasks].
      apply deleted_after_update; auto. discriminate. }
    split; [exact Hgone|].
    repeat split; intros.
    + unfold updateTask, await. now rewrite Hgone.
    + unfold updateTaskStatus, await. now rewrite Hgone.
    + unfold acceptTask, await. now rewrite Hgone.
    + unfold deleteTask, await. now rewrite Hgone.
    + unfold assignTask.
      match goal with H : isFeatureEnabled _ _ = true |- _ => rewrite H end.
      simpl. unfold await. now rewrite Hgone.
Qed.

Lemma deleteTask_hides_the_task_witness :
  deleteTask 11%nat 2%nat 200 boardDb =
  (boardDb,
   inl (taskError "FORBIDDEN" "Only the task creator can delete this task" 403))
  /\ exists db',
       deleteTask 11%nat 1%nat 200 boardDb = (db', inr tt)
       /\ getTaskById 11%nat 1%nat db' = (db', inl taskNotFound).
Proof.
  split.
  - apply (proj1 (deleteTask_hides_the_task sampleEnv _ 2%nat 200 boardDb
                    boardDb_task11_visible eq_refl)).
    discriminate.
  - destruct (proj2 (deleteTask_hides_the_task sampleEnv _ 1%nat 200 boardDb
                       boardDb_task11_visible eq_refl) eq_refl)
      as (db' & E & _ & _ & H & _).
    exists db'. split; [exact E|apply H].
Defined.

(** X20.  [updateTask] on a stored task that is not soft-deleted, called by
    a member of its group.  A member who did not create the task is
    rejected with FORBIDDEN and nothing changes.  For the creator the call
    resolves with the task as updated: the title and the description are the
    ones given, or the earlier ones where none is given; the identifier,
    the status, the group, the creator, the assignee and the dates of
    acceptance, creation and deletion are unchanged; a later read returns
    the same task; and no other task has changed. *)
Theorem updateTask_changes_text_only (task : Task) (title_ description_ : option string)
        (userId : Uuid) (now : Time) (db : Db) :
  visibleTask db task ->
  isMember db (groupId task) userId = true ->
  (createdById task <> userId ->
   updateTask (task_id task) title_ description_ userId now db =
   (db, inl (taskError "FORBIDDEN" "Only the task creator can update this task" 403)))
  /\
  (createdById task = userId ->
   exists db' updated,
     updateTask (task_id task) title_ description_ userId now db = (db', inr updated)
     /\ title updated = match title_ with Some x => x | None => title task end
     /\ description updated =
        match description_ with Some x => Some x | None => description task end
     /\ task_id updated = task_id task
     /\ task_status updated = task_status task
     /\ groupId updated = groupId task
     /\ createdById updated = createdById task
     /\ assigneeId updated = assigneeId task
     /\ acceptedAt updated = acceptedAt task
     /\ task_createdAt updated = task_createdAt task
     /\ deletedAt updated = deletedAt task
     /\ getTaskById (task_id task) userId db' = (db', inr updated)
     /\ (forall t, In t (tasks db) -> task_id t <> task_id task -> In t (tasks db'))).
Proof.
  intros Hv Hm. pose proof Hv as (Hnd & Hin & Hdel). split.
  - intros Hc. unfold updateTask, await.
    rewrite (getTaskById_ok _ _ _ Hv Hm).
    apply Nat.eqb_neq in Hc. now rewrite Hc.
  - intros Hc. eexists. eexists. split.
    { unfold updateTask, await at 1.
      rewrite (getTaskById_ok _ _ _ Hv Hm).
      apply Nat.eqb_eq in Hc. rewrite Hc. simpl.
      apply (task_update_ok _ _ _ Hv). }
    repeat split.
    + apply (getTaskById_ok _ (task_setText title_ description_ now task) userId).
      * apply visibleTask_updated; auto.
      * exact Hm.
    + intros t Ht Hne. cbn [tasks set_tasks].
      apply In_updateMany_other; [exact Ht|]. now apply Nat.eqb_neq.
Qed.

Lemma updateTask_changes_text_only_witness :
  exists db' updated,
    updateTask 10%nat (Some "write the report"%string) None 1%nat 200 boardDb
    = (db', inr updated)
    /\ title updated = "write the report"%string
    /\ task_status updated = PENDING_ACCEPTANCE
    /\ assigneeId updated = Some 2%nat.
Proof.
  destruct (proj2 (updateTask_changes_text_only _ (Some "write the report"%string)
                     None 1%nat 200 boardDb boardDb_task10_visible eq_refl) eq_refl)
    as (db' & updated & E & Ht & _ & _ & Hs & _ & _ & Ha & _).
  exists db', updated. repeat split; assumption.
Defined.

(* ------------------------------------------------------------------ *)
(** ** What a request does to the tasks *)
(* ------------------------------------------------------------------ *)

Lemma tasksGrow_refl (db : Db) : tasksGrow db db.
Proof. exists []. now rewrite app_nil_r. Qed.

Lemma tasksGrow_trans (a b c : Db) : tasksGrow a b -> tasksGrow b c -> tasksGrow a c.
Proof.
  intros [x Hx] [y Hy]. exists (x ++ y). now rewrite Hy, Hx, app_assoc.
Qed.

Lemma tasksGrow_framed {A} (m : Promise A) :
  preserves taskFrame m -> preserves tasksGrow m.
Proof.
  apply preserves_weaken. intros a b [H _]. exists []. now rewrite app_nil_r.
Qed.

Lemma find_visible (taskId : Uuid) (db : Db) (task : Task) :
  NoDup (map task_id (tasks db)) ->
  find (fun t => Nat.eqb (task_id t) taskId && negb (isSome (deletedAt t))) (tasks db)
  = Some task ->
  visibleTask db task /\ task_id task = taskId.
Proof.
  intros Hnd H. apply find_some in H. destruct H as [Hin H].
  apply andb_prop in H. destruct H as [H1 H2]. apply Nat.eqb_eq in H1.
  repeat split; auto. now destruct (deletedAt task).
Qed.

Section TasksStep.

Variable env : Env.

Lemma tasksGrow_createTask t d g a u now :
  preserves tasksGrow (createTask env t d g a u now).
Proof.
  unfold createTask.
  repeat
    (intros;
     first
       [ apply tasksGrow_framed;
         solve [ apply taskFrame_assertGroupMember
               | apply taskFrame_enqueueAssignmentEmail ]
       | apply preserves_resolve; exact tasksGrow_refl
       | apply preserves_throw; exact tasksGrow_refl
       | apply preserves_await; [exact tasksGrow_trans | | ]
       | match goal with
         | |- preserves _ (match ?x with _ => _ end) => destruct x
         end ]).
  intros db. unfold task_create. simpl. eexists. reflexivity.
Qed.

Ltac stays := left; exists []; simpl; now rewrite app_nil_r.

Ltac read_task Hnd Hv :=
  unfold await; rewrite getTaskById_cases;
  match goal with
  | |- context [find ?p (tasks ?db)] =>
      let E := fresh "E" in
      destruct (find p (tasks db)) as [task|] eqn:E; [|stays];
      destruct (find_visible _ _ _ Hnd E) as [Hv <-]
  end;
  match goal with
  | |- context [isMember ?db ?g ?u] => destruct (isMember db g u); [|stays]
  end.

Lemma tasksStep_updateTask id t d u now db :
  NoDup (map task_id (tasks db)) ->
  tasksStep (UpdateTask id t d u) now db (fst (updateTask id t d u now db)).
Proof.
  intros Hnd. unfold updateTask. read_task Hnd Hv.
  destruct (Nat.eqb_spec (createdById task) u) as [Hc|Hc]; [|stays].
  cbn [negb]. rewrite (task_update_ok _ _ _ Hv).
  right. exists task, (task_setText t d now). repeat split; auto; apply Hv.
Qed.

Lemma tasksStep_updateTaskStatus id s u now db :
  NoDup (map task_id (tasks db)) ->
  tasksStep (UpdateTaskStatus id s u) now db (fst (updateTaskStatus id s u now db)).
Proof.
  intros Hnd. unfold updateTaskStatus. read_task Hnd Hv.
  destruct (isValidTransition (task_status task) s) eqn:Ht; [|stays].
  cbn [negb]. rewrite (task_update_ok _ _ _ Hv).
  right. exists task, (task_setStatus s now). repeat split; auto; apply Hv.
Qed.

Lemma tasksStep_acceptTask id u now db :
  NoDup (map task_id (tasks db)) ->
  tasksStep (AcceptTask id u) now db (fst (acceptTask id u now db)).
Proof.
  intros Hnd. unfold acceptTask. read_task Hnd Hv.
  destruct (assigneeId task) as [a|] eqn:Ha; [|stays].
  destruct (Nat.eqb_spec a u) as [->|Hc]; [|stays].
  destruct (TaskStatus_eqb (task_status task) PENDING_ACCEPTANCE) eqn:Hs; [|stays].
  cbn [negb]. rewrite (task_update_ok _ _ _ Hv).
  right. exists task, (task_setAccepted now).
  apply TaskStatus_eqb_eq in Hs. repeat split; auto; apply Hv.
Qed.

Lemma tasksStep_deleteTask id u now db :
  NoDup (map task_id (tasks db)) ->
  tasksStep (DeleteTask id u) now db (fst (deleteTask id u now db)).
Proof.
  intros Hnd. unfold deleteTask. read_task Hnd Hv.
  destruct (Nat.eqb_spec (createdById task) u) as [Hc|Hc]; [|stays].
  cbn [negb]. rewrite (task_update_ok _ _ _ Hv).
  right. exists task, (task_setDeleted now). repeat split; auto; apply Hv.
Qed.

Lemma tasksStep_assignTask id a u now db :
  NoDup (map task_id (tasks db)) ->
  tasksStep (AssignTask id a u) now db (fst (assignTask env id a u now db)).
Proof.
  intros Hnd. unfold assignTask.
  destruct (negb (isFeatureEnabled env ENABLE_ASSIGNMENTS)); [stays|].
  read_task Hnd Hv.
  destruct (Nat.eqb_spec (createdById task) u) as [Hc|Hc]; [|stays].
  cbn [negb].
  destruct (isMember db (groupId task) a) eqn:Hm;
    [rewrite (assertGroupMember_ok _ _ _ Hm)
    |rewrite (assertGroupMember_fails _ _ _ Hm); stays].
  rewrite (task_update_ok _ _ _ Hv).
  right. exists task, (task_setAssignee a now).
  split; [exact Hv|]. split; [split; auto|].
  unfold resolve.
  match goal with
  | |- context [(if ?b then ?m else ?k) ?d] =>
      assert (Hf : tasks (fst ((if b then m else k) d)) = tasks d);
      [|destruct ((if b then m else k) d) as [db3 [e|[]]]; simpl in *; exact Hf]
  end.
  destruct (isFeatureEnabled env ENABLE_EMAIL); [|reflexivity].
  apply taskFrame_enqueueAssignmentEmail.
Qed.

(** Every request appends rows to the [tasks] table (none, for most) or
    updates the row of one stored task that is not soft-deleted. *)
Lemma tasksStep_serve (r : Request) (now : Time) (db : Db) :
  NoDup (map task_id (tasks db)) -> tasksStep r now db (serve env r now db).
Proof.
  intros Hnd.
  destruct r; cbn [serve];
    first
      [ now apply tasksStep_updateTask
      | now apply tasksStep_updateTaskStatus
      | now apply tasksStep_acceptTask
      | now apply tasksStep_deleteTask
      | now apply tasksStep_assignTask
      | left; apply tasksGrow_createTask
      | left; apply tasksGrow_framed;
        solve [ apply taskFrame_registerUser | apply taskFrame_loginUser
              | apply taskFrame_refreshTokens | apply taskFrame_logoutUser
              | apply taskFrame_verifyEmail
              | apply taskFrame_resendVerificationRoute
              | apply taskFrame_forgotPasswordRoute
              | apply taskFrame_resetPassword | apply taskFrame_updateProfile
              | apply taskFrame_createGroup
              | apply taskFrame_addMember | apply taskFrame_removeMember ] ].
Qed.

End TasksStep.

Lemma evolves_reachable (env : Env) (db db' : Db) :
  reachable env db -> evolves env db db' -> reachable env db'.
Proof.
  intros Hr. induction 1.
  - exact Hr.
  - apply reachable_serve. auto.
  - apply reachable_administer. auto.
Qed.

(** X21.  A soft-deleted task is frozen.  From a reachable state on,
    whatever requests are served and however accounts are administered, the
    row of a task that is soft-deleted stays in the table exactly as it is:
    no operation edits, re-assigns, re-opens or removes it. *)
Theorem deleted_tasks_are_frozen (env : Env) (db db' : Db) (t : Task) :
  reachable env db -> evolves env db db' ->
  In t (tasks db) -> deletedAt t <> None ->
  In t (tasks db').
Proof.
  intros Hr Hev Hin Hdel. induction Hev.
  - exact Hin.
  - specialize (IHHev Hr Hin).
    pose proof (reachable_taskInv env _ (evolves_reachable env _ _ Hr Hev)) as [Hnd _].
    destruct (tasksStep_serve env r now db' Hnd) as [[extra E]|(task & data & Hv & _ & E)];
      rewrite E.
    + apply in_or_app. now left.
    + apply In_updateMany_other; [exact IHHev|].
      destruct (Nat.eqb_spec (task_id t) (task_id task)) as [Eid|]; [|reflexivity].
      destruct Hv as (_ & Hint & Hvis).
      rewrite (NoDup_key_inj task_id _ _ _ Hnd IHHev Hint Eid) in Hdel.
      contradiction.
  - exact (IHHev Hr Hin).
Qed.

Lemma assignTask_disabled (env : Env) (id a u : Uuid) (now : Time) (db : Db) :
  ENABLE_ASSIGNMENTS (config env) = false ->
  assignTask env id a u now db =
  (db, inl (taskError "FEATURE_DISABLED" "Task assignments are currently disabled" 400)).
Proof. intros H. unfold assignTask, isFeatureEnabled. now rewrite H. Qed.

Lemma closed_step (env : Env) (r : Request) (now : Time) (db : Db) (t : Task) :
  NoDup (map task_id (tasks db)) ->
  In t (tasks db) -> task_status t = CLOSED ->
  (forall id a u, r = AssignTask id a u -> ENABLE_ASSIGNMENTS (config env) = false) ->
  exists t', In t' (tasks (serve env r now db))
             /\ task_id t' = task_id t /\ task_status t' = CLOSED.
Proof.
  intros Hnd Hin Hs Hassign.
  destruct (tasksStep_serve env r now db Hnd) as [[extra E]|(task & data & Hv & He & E)].
  - exists t. rewrite E. split; [apply in_or_app; now left|auto].
  - destruct (Nat.eqb_spec (task_id t) (task_id task)) as [Eid|Hne].
    + destruct Hv as (_ & Hint & _).
      pose proof (NoDup_key_inj task_id _ _ _ Hnd Hin Hint Eid) as <-.
      destruct r; simpl in He; try contradiction.
      * destruct He as [-> _]. exists (task_setText title_ description_ now t).
        rewrite E. split; [apply In_updateMany; [exact Hin|apply Nat.eqb_refl]|].
        split; [reflexivity|exact Hs].
      * destruct He as [_ He]. rewrite Hs in He. destruct newStatus; discriminate.
      * destruct He as (_ & He & _). congruence.
      * exists t. cbn [serve].
        rewrite (assignTask_disabled env _ _ _ _ _ (Hassign _ _ _ eq_refl)).
        auto.
      * destruct He as [-> _]. exists (task_setDeleted now t).
        rewrite E. split; [apply In_updateMany; [exact Hin|apply Nat.eqb_refl]|].
        split; [reflexivity|exact Hs].
    + exists t. rewrite E.
      split; [apply In_updateMany_other; [exact Hin|now apply Nat.eqb_neq]|auto].
Qed.

(** X22.  CLOSED is final for every operation but the assignment.  In a
    reachable state, serving a request that is no [assignTask] leaves a task
    that is CLOSED in status CLOSED: [updateTaskStatus] has no transition
    out of CLOSED, [acceptTask] asks for PENDING_ACCEPTANCE, and the edit
    and the deletion do not touch the status.  When assignments are
    disabled this holds for every request, and so for every later state. *)
Theorem closed_tasks_stay_closed (env : Env) (db : Db) (t : Task) :
  reachable env db ->
  In t (tasks db) -> task_status t = CLOSED ->
  (forall r now,
      (forall id a u, r <> AssignTask id a u) ->
      exists t', In t' (tasks (serve env r now db))
                 /\ task_id t' = task_id t /\ task_status t' = CLOSED)
  /\
  (ENABLE_ASSIGNMENTS (config env) = false ->
   forall db', evolves env db db' ->
               exists t', In t' (tasks db')
                          /\ task_id t' = task_id t /\ task_status t' = CLOSED).
Proof.
  intros Hr Hin Hs. split.
  - intros r now Hno. destruct (reachable_taskInv env db Hr) as [Hnd _].
    apply closed_step; auto.
    intros id a u E. now destruct (Hno id a u).
  - intros Hoff db' Hev. induction Hev.
    + exists t. auto.
    + destruct (IHHev Hr Hin) as (t1 & Hin1 & Hid1 & Hs1).
      destruct (reachable_taskInv env _ (evolves_reachable env _ _ Hr Hev)) as [Hnd _].
      destruct (closed_step env r now db' t1 Hnd Hin1 Hs1) as (t2 & H2 & Hid2 & Hs2).
      * intros; exact Hoff.
      * exists t2. repeat split; auto. congruence.
    + exact (IHHev Hr Hin).
Qed.

Lemma closedDb_reachable : reachable sampleEnv closedDb.
Proof. unfold closedDb. repeat constructor. Defined.

Lemma deletedDb_reachable : reachable sampleEnv deletedDb.
Proof. unfold deletedDb. constructor. exact closedDb_reachable. Defined.

Lemma deleted_tasks_are_frozen_witness :
  In deletedTask
     (tasks (serve sampleEnv (AssignTask 3%nat 0%nat 0%nat) 50
               (serve sampleEnv (UpdateTask 3%nat (Some "rewrite"%string) None 0%nat)
                      40 deletedDb))).
Proof.
  apply (deleted_tasks_are_frozen sampleEnv deletedDb _ deletedTask
           deletedDb_reachable).
  - apply evolves_serve, evolves_serve, evolves_here.
  - simpl. auto.
  - discriminate.
Defined.

Lemma closedDb_closedTask : In closedTask (tasks closedDb).
Proof. simpl. auto. Defined.

Lemma closed_tasks_stay_closed_witness :
  exists t',
    In t' (tasks (serve sampleEnv (UpdateTaskStatus 3%nat OPEN 0%nat) 30 closedDb))
    /\ task_id t' = 3%nat /\ task_status t' = CLOSED.
Proof.
  apply (proj1 (closed_tasks_stay_closed sampleEnv closedDb closedTask
                  closedDb_reachable closedDb_closedTask eq_refl)).
  discriminate.
Defined.

(* ------------------------------------------------------------------ *)
(** ** Creating a task without an assignee *)
(* ------------------------------------------------------------------ *)

(** X23.  [createTask], in a state whose tasks have unique identifiers that
    the supply has handed out.  A caller who is no member of the group is
    rejected with NOT_A_MEMBER, with or without an assignee.  A member who
    names no assignee gets a task in status OPEN, without assignee and
    acceptance date, under a fresh identifier; the task is appended to the
    table, the earlier tasks stay, and a read by the creator returns it.
    With an assignee the call is rejected with FEATURE_DISABLED when
    assignments are disabled, and with NOT_A_MEMBER when they are enabled
    and the assignee is no member of the group; in every rejected case
    nothing changes. *)
Theorem createTask_outcomes (env : Env) (title_ : string)
        (description_ : option string) (g u : Uuid) (now : Time) (db : Db) :
  taskInv db ->
  (isMember db g u = false ->
   forall assigneeId_,
     createTask env title_ description_ g assigneeId_ u now db =
     (db, inl (groupError "NOT_A_MEMBER" "You are not a member of this group" 403)))
  /\
  (isMember db g u = true ->
   (exists db',
       let task := mkTask (nextUuid db) title_ description_ OPEN g u None None
                          now now None in
       createTask env title_ description_ g None u now db = (db', inr task)
       /\ tasks db' = tasks db ++ [task]
       /\ (forall t, In t (tasks db) -> task_id t <> task_id task)
       /\ getTaskById (task_id task) u db' = (db', inr task))
   /\ (forall a,
          ENABLE_ASSIGNMENTS (config env) = false ->
          createTask env title_ description_ g (Some a) u now db =
          (db, inl (taskError "FEATURE_DISABLED"
                              "Task assignments are currently disabled" 400)))
   /\ (forall a,
          ENABLE_ASSIGNMENTS (config env) = true -> isMember db g a = false ->
          createTask env title_ description_ g (Some a) u now db =
          (db, inl (groupError "NOT_A_MEMBER"
                               "You are not a member of this group" 403)))).
Proof.
  intros [Hnd Hall]. rewrite Forall_forall in Hall. split.
  - intros Hm a. unfold createTask, await at 1.
    now rewrite (assertGroupMember_fails _ _ _ Hm).
  - intros Hm. split; [|split].
    + set (task := mkTask (nextUuid db) title_ description_ OPEN g u None None
                          now now None).
      assert (Hfresh : forall t, In t (tasks db) -> task_id t <> task_id task)
        by (intros t Ht; destruct (Hall t Ht); simpl; lia).
      exists (set_nextUuid S (set_tasks (fun rows => rows ++ [task]) db)).
      split; [|split; [reflexivity|split; [exact Hfresh|]]].
      * unfold createTask, await at 1. rewrite (assertGroupMember_ok _ _ _ Hm).
        reflexivity.
      * apply (getTaskById_ok _ task u); [|exact Hm].
        repeat split; simpl.
        -- apply NoDup_map_app_fresh; [exact Hnd|]. exact Hfresh.
        -- apply in_or_app. right. now left.
    + intros a Hoff. unfold createTask, await at 1.
      rewrite (assertGroupMember_ok _ _ _ Hm).
      unfold await at 1, isFeatureEnabled. now rewrite Hoff.
    + intros a Hon Ha. unfold createTask, await at 1.
      rewrite (assertGroupMember_ok _ _ _ Hm).
      unfold await at 1, isFeatureEnabled. rewrite Hon. simpl.
      unfold await at 1. now rewrite (assertGroupMember_fails _ _ _ Ha).
Qed.

Lemma boardDb_taskInv : taskInv boardDb.
Proof.
  split; [exact boardDb_task_ids|].
  repeat constructor; simpl; try lia; try discriminate; intros H; discriminate H.
Defined.

Lemma createTask_outcomes_witness :
  (exists db',
      createTask sampleEnv "plan sprint" None 7%nat None 2%nat 300 boardDb =
      (db', inr (mkTask 12%nat "plan sprint" None OPEN 7%nat 2%nat None None
                        300 300 None)))
  /\ createTask sampleEnv "plan sprint" None 7%nat (Some 3%nat) 2%nat 300 boardDb =
     (boardDb,
      inl (groupError "NOT_A_MEMBER" "You are not a member of this group" 403)).
Proof.
  destruct (proj2 (createTask_outcomes sampleEnv "plan sprint" None 7%nat 2%nat 300
                     boardDb boardDb_taskInv) eq_refl)
    as ((db' & E & _) & _ & H).
  split.
  - exists db'. exact E.
  - apply H; reflexivity.
Defined.

(* ------------------------------------------------------------------ *)
(** ** Listing the tasks of a group *)
(* ------------------------------------------------------------------ *)

Lemma insertByCreatedAtDesc_perm (t : Task) (rows : list Task) :
  Permutation (insertByCreatedAtDesc t rows) (t :: rows).
Proof.
  induction rows as [|x rest IH]; simpl; [reflexivity|].
  destruct (task_createdAt x <? task_createdAt t); [reflexivity|].
  rewrite IH. apply perm_swap.
Qed.

Lemma orderByCreatedAtDesc_perm (rows : list Task) :
  Permutation (orderByCreatedAtDesc rows) rows.
Proof.
  induction rows as [|x rest IH]; simpl; [reflexivity|].
  rewrite insertByCreatedAtDesc_perm. now constructor.
Qed.

Lemma insertByCreatedAtDesc_sorted (t : Task) (rows : list Task) :
  StronglySorted newerFirst rows ->
  StronglySorted newerFirst (insertByCreatedAtDesc t rows).
Proof.
  induction 1 as [|x rest Hrest IH Hx]; simpl.
  - repeat constructor.
  - destruct (Z.ltb_spec (task_createdAt x) (task_createdAt t)) as [Hlt|Hge].
    + constructor; [now constructor|]. constructor; [unfold newerFirst; lia|].
      eapply Forall_impl; [|exact Hx]. unfold newerFirst. intros; lia.
    + constructor; [exact IH|].
      rewrite Forall_forall. intros y Hy.
      apply (Permutation_in _ (insertByCreatedAtDesc_perm t rest)) in Hy.
      destruct Hy as [<-|Hy]; [exact Hge|].
      rewrite Forall_forall in Hx. now apply Hx.
Qed.

Lemma orderByCreatedAtDesc_sorted (rows : list Task) :
  StronglySorted newerFirst (orderByCreatedAtDesc rows).
Proof.
  induction rows as [|x rest IH]; simpl; [constructor|].
  now apply insertByCreatedAtDesc_sorted.
Qed.

Lemma In_skipn {A} (n : nat) (rows : list A) (x : A) :
  In x (skipn n rows) -> In x rows.
Proof.
  revert rows. induction n as [|n IH]; intros [|a rows]; simpl; auto.
Qed.

Lemma In_firstn {A} (n : nat) (rows : list A) (x : A) :
  In x (firstn n rows) -> In x rows.
Proof.
  revert rows. induction n as [|n IH]; intros [|a rows]; simpl; intuition.
Qed.

Lemma StronglySorted_skipn {A} (R : A -> A -> Prop) (n : nat) (rows : list A) :
  StronglySorted R rows -> StronglySorted R (skipn n rows).
Proof.
  revert rows. induction n as [|n IH]; intros rows H; [exact H|].
  destruct H; simpl; [constructor|now apply IH].
Qed.

Lemma StronglySorted_firstn {A} (R : A -> A -> Prop) (n : nat) (rows : list A) :
  StronglySorted R rows -> StronglySorted R (firstn n rows).
Proof.
  revert rows. induction n as [|n IH]; intros rows H; [constructor|].
  destruct H as [|a rows Hrows Ha]; simpl; [constructor|].
  constructor; [now apply IH|].
  rewrite Forall_forall in *. intros y Hy. apply Ha. now apply In_firstn in Hy.
Qed.

Lemma listTasksByGroup_member (g u : Uuid) (page limit : Z) (db : Db) :
  isMember db g u = true ->
  listTasksByGroup g u page limit db =
  (db, inr (mkTaskPage
              (firstn (Z.to_nat limit)
                 (skipn (Z.to_nat ((page - 1) * limit))
                    (orderByCreatedAtDesc (filter (inGroupNotDeleted g) (tasks db)))))
              (List.length (filter (inGroupNotDeleted g) (tasks db))))).
Proof.
  intros Hm. unfold listTasksByGroup, await.
  now rewrite (assertGroupMember_ok _ _ _ Hm).
Qed.

(** X24.  [listTasksByGroup], for a page number from 1 and a limit from 0.
    It never changes the database.  A caller who is no member of the group
    is rejected with NOT_A_MEMBER.  A member gets a page and a total: the
    total is the number of tasks of the group that are not soft-deleted,
    whatever the page; the page holds at most [limit] tasks, each of them a
    stored task of the group that is not soft-deleted, the newest first;
    and a page that starts at or after the total is empty. *)
Theorem listTasksByGroup_page (g u : Uuid) (page limit : Z) (db : Db) :
  1 <= page -> 0 <= limit ->
  (isMember db g u = false ->
   listTasksByGroup g u page limit db =
   (db, inl (groupError "NOT_A_MEMBER" "You are not a member of this group" 403)))
  /\
  (isMember db g u = true ->
   exists result,
     listTasksByGroup g u page limit db = (db, inr result)
     /\ page_total result = List.length (filter (inGroupNotDeleted g) (tasks db))
     /\ (List.length (page_tasks result) <= Z.to_nat limit)%nat
     /\ (forall t, In t (page_tasks result) ->
                   In t (tasks db) /\ groupId t = g /\ deletedAt t = None)
     /\ StronglySorted newerFirst (page_tasks result)
     /\ (Z.of_nat (page_total result) <= (page - 1) * limit ->
         page_tasks result = [])).
Proof.
  intros Hpage Hlimit. split.
  - intros Hm. unfold listTasksByGroup, await.
    now rewrite (assertGroupMember_fails _ _ _ Hm).
  - intros Hm. eexists. split; [now apply listTasksByGroup_member|].
    cbn [page_tasks page_total].
    split; [reflexivity|]. split; [apply firstn_le_length|].
    split; [|split].
    + intros t Ht. apply In_firstn, In_skipn in Ht.
      apply (Permutation_in _ (orderByCreatedAtDesc_perm _)) in Ht.
      apply filter_In in Ht. destruct Ht as [Hin Hf].
      unfold inGroupNotDeleted in Hf. apply andb_prop in Hf. destruct Hf as [H1 H2].
      apply Nat.eqb_eq in H1. split; [exact Hin|]. split; [exact H1|].
      now destruct (deletedAt t).
    + apply StronglySorted_firstn, StronglySorted_skipn, orderByCreatedAtDesc_sorted.
    + intros Hpast. rewrite skipn_all2; [now destruct (Z.to_nat limit)|].
      rewrite (Permutation_length (orderByCreatedAtDesc_perm _)). lia.
Qed.

Lemma listTasksByGroup_page_witness :
  exists result,
    listTasksByGroup 7%nat 2%nat 1 1 boardDb = (boardDb, inr result)
    /\ page_total result = 2%nat
    /\ (List.length (page_tasks result) <= 1)%nat.
Proof.
  destruct (listTasksByGroup_page 7%nat 2%nat 1 1 boardDb) as [_ H]; [lia|lia|].
  destruct (H eq_refl) as (result & E & Ht & Hl & _).
  exists result. split; [exact E|]. split; [exact Ht|exact Hl].
Defined.

Lemma firstn_add_skipn {A} (a b : nat) (rows : list A) :
  firstn (a + b) rows = firstn a rows ++ firstn b (skipn a rows).
Proof.
  revert rows. induction a as [|a IH]; intros rows; [reflexivity|].
  destruct rows as [|x rows]; simpl; [now destruct b|].
  now rewrite IH.
Qed.

(** Two lists in the order newest first, with the same rows and no two rows
    of one creation date, are one list. *)
Lemma newerFirst_unique (l1 l2 : list Task) :
  Permutation l1 l2 -> NoDup (map task_createdAt l1) ->
  StronglySorted newerFirst l1 -> StronglySorted newerFirst l2 -> l1 = l2.
Proof.
  revert l2. induction l1 as [|a r1 IH]; intros l2 Hperm Hnd H1 H2.
  - apply Permutation_nil in Hperm. now subst.
  - destruct l2 as [|b r2].
    { apply Permutation_sym, Permutation_nil in Hperm. discriminate. }
    assert (Hab : a = b).
    { apply (NoDup_map_inj task_createdAt (a :: r1)); [exact Hnd|now left| |].
      - apply (Permutation_in _ (Permutation_sym Hperm)). now left.
      - apply StronglySorted_inv in H1. destruct H1 as [_ Ha].
        apply StronglySorted_inv in H2. destruct H2 as [_ Hb].
        rewrite Forall_forall in Ha, Hb.
        assert (Hina : In a (b :: r2))
          by (apply (Permutation_in _ Hperm); now left).
        assert (Hinb : In b (a :: r1))
          by (apply (Permutation_in _ (Permutation_sym Hperm)); now left).
        destruct Hina as [->|Hina]; [reflexivity|].
        destruct Hinb as [->|Hinb]; [reflexivity|].
        specialize (Ha b Hinb). specialize (Hb a Hina).
        unfold newerFirst in Ha, Hb. lia. }
    subst b. f_equal. apply IH.
    + now apply Permutation_cons_inv in Hperm.
    + now inversion Hnd.
    + now apply StronglySorted_inv in H1.
    + now apply StronglySorted_inv in H2.
Qed.

(** X25.  The pages of a listing fit together when no two tasks of the group
    that are not soft-deleted were created at the same instant.  The order
    newest first then leaves no choice: whichever order the database gives
    to the rows of a query, it is the one list [all] that holds these tasks
    newest first.  For a member of the group and a limit from 0, in a
    database that does not change in between, the pages 1 to [n] put end to
    end are the first [n * limit] tasks of that list: no task is on two
    pages or left out between two pages, and once [n * limit] reaches the
    total the pages hold every task exactly once. *)
Theorem listTasksByGroup_pages_fit (g u : Uuid) (limit : Z) (db : Db) :
  0 <= limit -> isMember db g u = true ->
  NoDup (map task_createdAt (filter (inGroupNotDeleted g) (tasks db))) ->
  exists all,
    Permutation all (filter (inGroupNotDeleted g) (tasks db))
    /\ StronglySorted newerFirst all
    /\ (forall rows,
           Permutation rows (filter (inGroupNotDeleted g) (tasks db)) ->
           StronglySorted newerFirst rows -> rows = all)
    /\ (forall n,
           flat_map (pageOf g u limit db) (seq 1 n)
           = firstn (n * Z.to_nat limit) all)
    /\ (forall n,
           (List.length all <= n * Z.to_nat limit)%nat ->
           flat_map (pageOf g u limit db) (seq 1 n) = all).
Proof.
  intros Hlimit Hm Hdistinct.
  set (all := orderByCreatedAtDesc (filter (inGroupNotDeleted g) (tasks db))).
  assert (Hpage : forall p, (1 <= p)%nat ->
                            pageOf g u limit db p =
                            firstn (Z.to_nat limit)
                                   (skipn ((p - 1) * Z.to_nat limit) all)).
  { intros p Hp. unfold pageOf. rewrite (listTasksByGroup_member _ _ _ _ _ Hm).
    cbn [snd page_tasks]. fold all. f_equal. f_equal.
    rewrite Z2Nat.inj_mul by lia. f_equal. lia. }
  assert (Hcat : forall n,
             flat_map (pageOf g u limit db) (seq 1 n)
             = firstn (n * Z.to_nat limit) all).
  { induction n as [|n IH]; [reflexivity|].
    rewrite seq_S, flat_map_app, IH. simpl flat_map. rewrite app_nil_r.
    rewrite Hpage by lia.
    replace (S n - 1)%nat with n by lia.
    replace (S n * Z.to_nat limit)%nat with (n * Z.to_nat limit + Z.to_nat limit)%nat
      by lia.
    now rewrite firstn_add_skipn. }
  exists all. split; [apply orderByCreatedAtDesc_perm|].
  split; [apply orderByCreatedAtDesc_sorted|].
  split.
  { intros rows Hperm Hsorted. apply newerFirst_unique.
    - rewrite Hperm. symmetry. apply orderByCreatedAtDesc_perm.
    - apply (Permutation_NoDup (l := map task_createdAt
                                       (filter (inGroupNotDeleted g) (tasks db))));
        [|exact Hdistinct].
      apply Permutation_map. now symmetry.
    - exact Hsorted.
    - apply orderByCreatedAtDesc_sorted. }
  split; [exact Hcat|].
  intros n Hn. rewrite Hcat. now apply firstn_all2.
Qed.

Lemma backlogDb_distinct :
  NoDup (map task_createdAt (filter (inGroupNotDeleted 7%nat) (tasks backlogDb))).
Proof. simpl. repeat constructor; simpl; intuition lia. Defined.

Lemma listTasksByGroup_pages_fit_witness :
  pageOf 7%nat 2%nat 2 backlogDb 1
  = [backlogTask 22%nat "ship" 300 None; backlogTask 20%nat "draft" 200 None]
  /\ pageOf 7%nat 2%nat 2 backlogDb 2 = [backlogTask 21%nat "plan" 100 None]
  /\ exists all,
       Permutation all (filter (inGroupNotDeleted 7%nat) (tasks backlogDb))
       /\ flat_map (pageOf 7%nat 2%nat 2 backlogDb) (seq 1 2) = all.
Proof.
  split; [reflexivity|]. split; [reflexivity|].
  destruct (listTasksByGroup_pages_fit 7%nat 2%nat 2 backlogDb)
    as (all & Hperm & _ & _ & _ & H); [lia|reflexivity|exact backlogDb_distinct|].
  exists all. split; [exact Hperm|]. apply H.
  rewrite (Permutation_length Hperm). simpl. lia.
Defined.

(* ------------------------------------------------------------------ *)
(** ** Comparing a token with a stored digest *)
(* ------------------------------------------------------------------ *)

Lemma In_allAscii (c : ascii) : In c allAscii.
Proof.
  unfold allAscii. apply in_map_iff. exists (nat_of_ascii c).
  split; [apply ascii_nat_embedding|].
  apply in_seq. pose proof (nat_ascii_bounded c). lia.
Qed.

Lemma sameDigit_all :
  forallb (fun a => forallb (sameDigit a) allAscii) allAscii = true.
Proof. vm_compute. reflexivity. Qed.

Lemma sameDigit_true (a c : ascii) : sameDigit a c = true.
Proof.
  pose proof sameDigit_all as H. rewrite forallb_forall in H.
  specialize (H a (In_allAscii a)). rewrite forallb_forall in H.
  exact (H c (In_allAscii c)).
Qed.

Lemma lowerHexDigit_value (a : ascii) :
  lowerHexDigit a = true -> exists x, Hex.hexValue a = Some x /\ (x < 16)%nat.
Proof.
  intros Ha. pose proof (sameDigit_true a a) as H. unfold sameDigit in H.
  rewrite Ha in H. simpl in H. apply andb_prop in H. destruct H as [_ H].
  destruct (Hex.hexValue a) as [x|]; [|discriminate].
  exists x. split; [reflexivity|now apply Nat.ltb_lt].
Qed.

Lemma hexValue_case (a c : ascii) :
  lowerHexDigit a = true ->
  (Hex.hexValue c = Hex.hexValue a <-> toLowerAscii c = a).
Proof.
  intros Ha. pose proof (sameDigit_true a c) as H. unfold sameDigit in H.
  rewrite Ha in H. simpl in H. apply andb_prop in H. destruct H as [H _].
  apply Bool.eqb_prop in H.
  split; intros E.
  - apply Ascii.eqb_eq. rewrite <- H. rewrite E.
    destruct (Hex.hexValue a); simpl; [apply Nat.eqb_refl|reflexivity].
  - apply Ascii.eqb_eq in E. rewrite E in H.
    destruct (Hex.hexValue c) as [x|], (Hex.hexValue a) as [y|]; simpl in H;
      try discriminate; [|reflexivity].
    apply Nat.eqb_eq in H. now subst.
Qed.

Lemma toLowerCase_length (s : string) :
  String.length (toLowerCase s) = String.length s.
Proof. induction s as [|c s IH]; simpl; [reflexivity|now rewrite IH]. Qed.

Lemma digitBelow16_all : forallb digitBelow16 allAscii = true.
Proof. vm_compute. reflexivity. Qed.

Lemma hexValue_bound (c : ascii) (x : nat) :
  Hex.hexValue c = Some x -> (x < 16)%nat.
Proof.
  intros E. pose proof digitBelow16_all as H. rewrite forallb_forall in H.
  specialize (H c (In_allAscii c)). unfold digitBelow16 in H. rewrite E in H.
  now apply Nat.ltb_lt.
Qed.

(** On a string of lower-case digits of even length, the bytes of another
    string of that length are the same exactly when the strings agree up to
    the case. *)
Lemma bufferFromHex_case (n : nat) :
  forall h stored,
    String.length h = (2 * n)%nat -> String.length stored = (2 * n)%nat ->
    allChars lowerHexDigit h = true ->
    (Hex.bufferFromHex h = Hex.bufferFromHex stored <-> toLowerCase stored = h).
Proof.
  induction n as [|n IH]; intros h stored Hh Hs Hall.
  - destruct h; [|discriminate]. destruct stored; [|discriminate]. simpl. tauto.
  - destruct h as [|a1 [|a2 h']]; simpl in Hh; try lia.
    destruct stored as [|c1 [|c2 s']]; simpl in Hs; try lia.
    cbn [allChars] in Hall.
    apply andb_prop in Hall. destruct Hall as [Ha1 Hall].
    apply andb_prop in Hall. destruct Hall as [Ha2 Hall].
    destruct (lowerHexDigit_value a1 Ha1) as (x1 & Hx1 & Hb1).
    destruct (lowerHexDigit_value a2 Ha2) as (x2 & Hx2 & Hb2).
    assert (IH' : Hex.bufferFromHex h' = Hex.bufferFromHex s' <-> toLowerCase s' = h')
      by (apply IH; [lia|lia|exact Hall]).
    pose proof (hexValue_case a1 c1 Ha1) as H1.
    pose proof (hexValue_case a2 c2 Ha2) as H2.
    cbn [Hex.bufferFromHex toLowerCase]. rewrite Hx1, Hx2 in *.
    split.
    + destruct (Hex.hexValue c1) as [y1|] eqn:E1; [|discriminate].
      destruct (Hex.hexValue c2) as [y2|] eqn:E2; [|discriminate].
      intros [= Hbyte Htail].
      pose proof (hexValue_bound _ _ E1). pose proof (hexValue_bound _ _ E2).
      assert (y1 = x1 /\ y2 = x2) as [-> ->] by lia.
      f_equal; [now apply H1|]. f_equal; [now apply H2|now apply IH'].
    + intros [= E1 E2 Etail].
      apply H1 in E1. apply H2 in E2. rewrite E1, E2.
      f_equal. now apply IH'.
Qed.

Lemma timingSafeEqual_eq (a b : list nat) : Hex.timingSafeEqual a b = true <-> a = b.
Proof.
  unfold Hex.timingSafeEqual. destruct (list_eq_dec Nat.eq_dec a b); split; congruence.
Qed.

(** X26.  [verifyTokenHash] on the strings.  When the digest of the raw
    token is what SHA-256 in hexadecimal gives, 64 digits in lower case, the
    comparison accepts a stored string exactly when it is that digest up to
    the case of its digits: a string of another length, the empty string
    among them, and a string with a character that is no hexadecimal digit
    are refused, and the digest written in upper case is accepted. *)
Theorem verifyTokenHash_compares_bytes (sha256Hex : string -> string)
        (rawToken storedHash : string) :
  isSha256Hex (sha256Hex rawToken) ->
  (Hex.verifyTokenHash sha256Hex rawToken storedHash = true
   <-> toLowerCase storedHash = sha256Hex rawToken)
  /\ (String.length storedHash <> 64%nat ->
      Hex.verifyTokenHash sha256Hex rawToken storedHash = false)
  /\ Hex.verifyTokenHash sha256Hex rawToken EmptyString = false.
Proof.
  intros [Hlen Hall].
  assert (Hshort : forall s, String.length s <> 64%nat ->
                             Hex.verifyTokenHash sha256Hex rawToken s = false).
  { intros s Hs. unfold Hex.verifyTokenHash, Hex.hashToken. rewrite Hlen.
    apply not_eq_sym in Hs. apply Nat.eqb_neq in Hs. now rewrite Hs. }
  split; [|split; [apply Hshort|apply Hshort; discriminate]].
  destruct (Nat.eq_dec (String.length storedHash) 64) as [Hs|Hs].
  - unfold Hex.verifyTokenHash, Hex.hashToken. rewrite Hlen, Hs. simpl negb.
    cbv iota zeta.
    pose proof (bufferFromHex_case 32 (sha256Hex rawToken) storedHash Hlen Hs Hall)
      as Hcase.
    rewrite andb_true_iff, Nat.eqb_eq, timingSafeEqual_eq.
    split.
    + intros [_ E]. now apply Hcase.
    + intros E. apply Hcase in E. now rewrite E.
  - rewrite (Hshort _ Hs). split; [discriminate|].
    intros E. exfalso. apply Hs. now rewrite <- (toLowerCase_length storedHash), E.
Qed.

Lemma sampleDigest_isSha256Hex : isSha256Hex (sampleSha256Hex "any token").
Proof. split; reflexivity. Defined.

Lemma verifyTokenHash_compares_bytes_witness :
  Hex.verifyTokenHash sampleSha256Hex "any token"
    "E3B0C44298FC1C149AFBF4C8996FB92427AE41E4649B934CA495991B7852B855" = true
  /\ Hex.verifyTokenHash sampleSha256Hex "any token" EmptyString = false.
Proof.
  destruct (verifyTokenHash_compares_bytes sampleSha256Hex "any token"
              "E3B0C44298FC1C149AFBF4C8996FB92427AE41E4649B934CA495991B7852B855"
              sampleDigest_isSha256Hex)
    as (H & _ & Hempty).
  split; [apply H; reflexivity|exact Hempty].
Defined.
